(* ===== verification/_CoqProject ===== *)
-Q . S2P
Prelude.v
PyDecimal.v
MoneyTypes.v
Dates.v
Calendar.v
Store.v
Schema.v
Uuids.v
Cursors.v
Iso.v
Ledger.v
CashPolicy.v
Funding.v
Valuation.v
Restatement.v
Lots.v
LotBooks.v
CorporateActions.v
Operations.v
DailyValuation.v
Intake.v
OrderEvents.v
Orders.v
OrderBooks.v
OrderCash.v
Placement.v
Fees.v
FeeCharges.v
Reconciliation.v
CustodianSimulator.v
Rebalance.v
Jobs.v
Worker.v
Access.v
FundingRoutes.v
OrderRoutes.v
Pagination.v
Identity.v
AgentActions.v
Listings.v
Reports.v
Webhooks.v
TradeStream.v
SqlTool.v
Chat.v
