(* ===== verification/Prelude.v ===== *)
(** * Trueup: a verified model of the back end of a retail-investing platform

    Trueup holds customers' money and securities: it takes deposits, places
    orders with a broker, keeps tax lots, values the book every market day,
    publishes statements, charges a performance fee and answers questions about
    it all.  Its back end is a Flask application over PostgreSQL
    ([src/backend/app]).  This library models that program and proves what makes
    it correct.  All paths below are under [src/backend/app].

    ** How the program is put together, and how the model follows it

    Every service is a unit of work: it opens a transaction, queries and changes
    rows through repositories, and commits or rolls back.  [Store.v] gives that
    its meaning: a program ([prog]) over a store of tables, with the constraints
    of the database enforced on every write; [transact] is a unit of work,
    deferred checks included.  [Schema.v] instantiates it with the ORM classes
    of [models/].  A service is then a Rocq function of the same name that
    returns a program, a read model is a function of the store, and a route or
    a job is a function of its request and the store.  Exceptions are values
    ([exn], [result]) and escape the way the code lets them.

    Money flows through one door.  Funding ([Funding.v]), the lots ([Lots.v]),
    corporate actions and the fees all post through [Ledger.v]; [CashPolicy.v]
    derives every balance from the postings and asks the orders for their holds
    through an interface ([HoldsProvider]).  Events from outside come in through
    [Intake.v], leave a job in the outbox ([Operations.v]), and the worker's
    process ([Worker.v]) runs the handler of their source; orders leave by the
    same queue.  Scheduled jobs ([Jobs.v]) run the valuation, the fees, the
    reconciliation and the rebalancing.

    ** The files

    - [Prelude.v]: exceptions and [result], the folds and maps that may raise,
      sums, sorting with an explicit order, the tactics [inv_result] and [zbool].
    - [PyDecimal.v], [MoneyTypes.v]: Python's [Decimal] in the default context,
      and [core/money.py] ([Money], [Units], [Price] as quanta of their dimension).
    - [Dates.v], [Calendar.v], [Iso.v]: [datetime.date] and ISO texts, and
      [core/clock.py] (market days).
    - [Store.v], [Schema.v]: units of work ([core/uow.py], [models/base.py]) and
      the data model ([models/]).
    - [Uuids.v], [Cursors.v], [Pagination.v], [Listings.v]: [uuid.UUID(text)],
      [core/pagination.py], the keyset query, and the list routes of
      [controllers/].
    - [Ledger.v], [CashPolicy.v]: [services/ledger].
    - [Funding.v]: [services/identity] - verification, bank links, deposits,
      withdrawals, ACH returns.
    - [Valuation.v], [DailyValuation.v]: [services/valuation],
      [jobs/daily_valuation.py] and the cached calendar of [models/marketdata].
    - [Restatement.v]: [services/restatement].
    - [Lots.v], [LotBooks.v], [CorporateActions.v]: [services/lots].
    - [Operations.v], [Intake.v], [Worker.v]: [models/ops], [workers/outbox.py],
      [services/intake], [core/idempotency.py], and the wiring of
      [jobs/__init__.py] with [services/ops/outbox_task_router.py].
    - [OrderEvents.v], [Orders.v], [OrderBooks.v], [OrderCash.v], [Placement.v]:
      [services/orders] and its repositories.
    - [TradeStream.v]: [integrations/alpaca/trade_updates_consumer.py] and
      [integrations/fake/fake_broker.py].
    - [Fees.v], [FeeCharges.v]: [services/fees] and their jobs.
    - [Reconciliation.v], [CustodianSimulator.v]: [services/reconciliation] and
      [integrations/fake/custodian_file_adapter.py].
    - [Rebalance.v]: [services/rebalance] and [jobs/monthly_rebalance.py].
    - [Jobs.v]: [jobs/base.py], the jobs built on it, the seed of reference data.
    - [Access.v], [Identity.v], [AgentActions.v]: [core/security.py],
      [services/ops/audit_sink.py], [controllers/api/auth.py] with
      [services/identity/auth.py], [mcp/auth.py] and [mcp/write_tools.py] with
      [controllers/admin/agent_requests.py].
    - [FundingRoutes.v], [OrderRoutes.v], [Reports.v], [Webhooks.v]: the
      remaining handlers of [controllers/].
    - [SqlTool.v], [Chat.v]: [services/chat], [models/chat],
      [controllers/api/chat.py].

    ** What the theorems show

    - Arithmetic: the constructor of an amount rounds half to even or raises, on
      every input; an allocation adds up to its total within limits that include
      every [Money] and [Price].
    - The ledger: a posting succeeds exactly when its legs are well formed and
      balanced; every entry ever on file is balanced, and no program changes or
      removes one (the append-only guard is part of [run], so this is stated
      once, for every program).
    - Cash: a withdrawal never takes more than the settled cash not held; an
      order reserves its notional; a request repeated under its key moves nothing
      again.
    - The book: its valuation is the exact sum of its holdings at confirmed
      closes; a time-weighted return is reproduced by recomputing it; a published
      snapshot is derived again from the rows of its watermark while no flow is
      back-dated into its period; lots and the
      ledger agree after every fill, dividend and split.
    - Orders: the cached state of an order is the fold of its events; an order
      is queued once and after its approval; one submission of it commits a
      request to the broker, after failed attempts at most, and no request
      follows it.
    - The machinery: an event is taken in once however often it is delivered,
      reaches the handler of its source, and the worker's pass implements the
      at-least-once queue of its specification and ends; a retried job records
      nothing twice.
    - Fees: an accrual is owed only above the peak, a charge is collected once,
      and dunning ends.
    - Reconciliation and rebalancing: the breaks are exactly the differences;
      generated orders stay within cash and within the drift rules.
    - People: staff sessions need both factors, tokens die when revoked, a
      proposal is reviewed once and executed whole or not at all.
    - Reading: cursors read back, and following them lists every row once; the
      tax export is the period's realized lots and reads back as they are.
    - The assistant: one turn per session, and a turn is answered.

    A theorem with hypotheses is followed by a witness that applies it to a
    concrete store.  Where the code does something its comments or tests do not
    intend, the theorem states what it does, and a lemma or an example computes
    the case.

    ** Numbers and bounds

    Amounts are quanta, instants are UTC microseconds, dates are ordinals, all
    unbounded integers with the bounds the code checks written out ([NUMERIC]
    widths, the ordinals of [datetime]).  Decimals keep the context's 28 digits.
    The two places that use binary floats (an event's sequence number and the
    text of its timestamp) are modelled on the doubles themselves.  Loops have
    the measure the code has: the calendar looks at most fourteen days ahead; a
    drain's fuel is one more than the deliveries left, which
    [Operations.drain_ready_terminates] proves enough; the JSON reader's fuel is
    twice the text's length plus two, a walk over a listing has one more page
    than rows, [repr] stops at seventeen digits; each comes with the lemma that
    it suffices.

    ** What is a parameter

    Code outside the repository: the broker, the banks, the card and identity
    providers, the market-data and custodian ports (classes such as
    [BrokerPort], [MarketPorts]), the tz database, password hashing, TOTP,
    digests and signatures, [sqlglot] and the role-restricted connection, the
    language model, and of the schema library what its types read.  Where the
    code relies on one of them the law is a class with its assumptions named
    (such as [CursorPackagesLaw]) and an instance shows that they can hold.
    Fresh [uuid4] values come from a counter: that they do not repeat is the one
    assumption on them.

    ** What is not modelled

    Concurrency inside a transaction: a unit of work runs as one step, which is
    what its row locks and unique keys give; interleavings of whole transactions
    are modelled where they matter (the outbox, jobs, orders, chat).  Rendering
    of views, rate limits, CSRF and logging; the adapters of third-party
    services, the websocket loop, Redis and server-sent events, the MCP read
    tools, encryption of stored tokens, configuration, and the command-line
    wiring other than the worker's; migrations, and what only the database holds
    (the bodies of the curated views and row-level security, whose effect the
    routes' own [WHERE] clauses repeat). *)

From stdpp Require Export base list numbers option sorting sets gmap.
From stdpp Require Import relations.
From Stdlib Require Export ZArith Lia.
From Stdlib Require Import String.
From stdpp Require Import strings.

#[export] Set Default Proof Using "Type".
Open Scope Z_scope.

(** ** Python exceptions *)

(** The exceptions the modelled code raises, the subclasses the source declares
    included.  [IntegrityError] and [DbRaise] are raised by the database (a
    unique or check constraint, a trigger), [MultipleResultsFound] by
    SQLAlchemy's [scalar_one_or_none]. *)
Inductive exn :=
  (* Python's own *)
  | TypeError | ValueError | ZeroDivisionError | InvalidOperation | OverflowError
  | RuntimeError | KeyError | IndexError | AssertionError | AttributeError | UnicodeDecodeError | StopIteration | NotImplementedError
  (* the database's and SQLAlchemy's *)
  | MultipleResultsFound | NoResultFound | IntegrityError | DbRaise | PendingRollbackError
  (* core *)
  | CalendarExhaustedError | AppendOnlyViolationError
  (* ledger *)
  | InvalidPostingLegError | UnbalancedEntryError | CustomerCashLockMissingError
  (* identity and funding *)
  | FundingNotEligibleError (reason : string) | NoActiveBankLinkError | BankReauthRequiredError
  | DepositCapExceededError (cap : string) | SettlementObligationNotFoundError
  | InsufficientWithdrawableCashError | CustomerNotFoundError | KycLockedError
  | KycPortNotConfiguredError | KycSessionAlreadyResolvedError
  | BankLinkNotFoundError | BankPortNotConfiguredError
  (* market data and restatement *)
  | MarketCalendarCacheMissError | SnapshotCrossCheckFailedError | SnapshotDerivationError
  (* lots *)
  | InsufficientLotsError | UnknownTaxLotError
  (* orders *)
  | BrokerSubmissionRejectedError
  | CustomerNotEligibleError (reason : string) | InsufficientInvestableCashError | OrderNotFoundError
  | SecurityNotFoundError | InvalidOrderTransitionError | OrderNotCancellableError
  | OrderHasNoBrokerOrderIdError | OrderNotFoundForClientOrderIdError | InvalidFillPayloadError
  | LotDesignationNotAllowedForBuyError | EmptyLotDesignationError | DuplicateLotDesignationError
  | TooManyDesignatedLotsError | InsufficientDesignatedLotsError
  (* operations *)
  | AlreadyResolvedError | InvalidAgentActionTransitionError | IdempotencyConflictError
  | UnregisteredSourceError | UnregisteredOutboxTaskError | DuplicateInboundEventError
  (* fees *)
  | FeeChargeNotFoundError | NoPaymentMethodError | UnregisteredFeeOutboxTaskError
  | PaymentDeclinedError (reason : string)
  (* rebalancing *)
  | NoAssignedModelError
  (* the adviser's controllers *)
  | ExecutionFailedError | ConflictError | NotFoundError | ValidationError
  | UnauthenticatedError | ForbiddenError | RateLimitedError
  (* an [AppError] raised with a [code] of its own *)
  | CodedError (status : Z) (code : string)
  (* staff and the agent surface *)
  | EmailAlreadyRegisteredError | McpAuthenticationError
  (* chat *)
  | TurnAlreadyInProgressError | DailyQueryCapExceededError | AgentError | SqlRejectedError (reason : string).

#[export] Instance exn_eq_dec : EqDecision exn.
Proof. solve_decision. Defined.

(** ** Results: the outcome of a pure computation that may raise *)

Inductive result (A : Type) :=
  | Ok (a : A)
  | Raise (e : exn).
Arguments Ok {A} a.
Arguments Raise {A} e.

#[export] Instance result_ret : MRet result := @Ok.
#[export] Instance result_bind : MBind result := λ A B f m,
  match m with Ok a => f a | Raise e => Raise e end.

Definition is_ok {A} (r : result A) : bool :=
  match r with Ok _ => true | Raise _ => false end.

Lemma bind_Ok {A B} (m : result A) (f : A → result B) b :
  (m ≫= f) = Ok b ↔ ∃ a, m = Ok a ∧ f a = Ok b.
Proof.
  destruct m as [a|e]; cbn.
  - split; [by exists a|by intros (? & [= <-] & ?)].
  - split; [done|by intros (? & ? & ?)].
Qed.

(** [ensure b e]: [if not b: raise e]. *)
Definition ensure (b : bool) (e : exn) : result () :=
  if b then Ok tt else Raise e.

Lemma ensure_Ok b e u : ensure b e = Ok u ↔ b = true.
Proof. destruct b, u; cbn; split; done. Qed.

(** A Python [for] loop that threads an accumulator and may raise. *)
Fixpoint foldr_result {A B} (f : B → A → result B) (l : list A) (acc : B) : result B :=
  match l with
  | [] => Ok acc
  | x :: l' => acc' ← f acc x; foldr_result f l' acc'
  end.

(** A list comprehension whose element expression may raise. *)
Fixpoint map_result {A B} (f : A → result B) (l : list A) : result (list B) :=
  match l with
  | [] => Ok []
  | x :: l' => y ← f x; ys ← map_result f l'; Ok (y :: ys)
  end.

Lemma map_result_Forall2 {A B} (f : A → result B) l k :
  map_result f l = Ok k ↔ Forall2 (λ x y, f x = Ok y) l k.
Proof.
  revert k; induction l as [|x l IH]; intros k; cbn.
  - split; [intros [= <-]; constructor | inversion 1; done].
  - rewrite bind_Ok; setoid_rewrite bind_Ok. split.
    + intros (y & Hy & ys & Hys & [= <-]). constructor; [done | by apply IH].
    + inversion 1; subst. eexists; split; [done|]. eexists; split; [by apply IH | done].
Qed.

Lemma map_result_fmap {A B} (f : A → result B) (g : A → B) l :
  (∀ x, x ∈ l → f x = Ok (g x)) → map_result f l = Ok (g <$> l).
Proof.
  induction l as [|x l IH]; intros H; [done|]. cbn [map_result].
  rewrite H by set_solver. cbn. by rewrite IH by set_solver.
Qed.

(** ** Sums of integers over lists *)

Definition sum_by {A} (f : A → Z) (l : list A) : Z := foldr (λ x acc, f x + acc) 0 l.
#[global] Arguments sum_by : simpl never.

Section SumBy.
Context {A : Type}.
Implicit Types (f g : A → Z) (l : list A).

Lemma sum_by_nil f : sum_by f [] = 0.
Proof. done. Qed.

Lemma sum_by_cons f x l : sum_by f (x :: l) = f x + sum_by f l.
Proof. done. Qed.

Lemma sum_by_app f l k : sum_by f (l ++ k) = sum_by f l + sum_by f k.
Proof. induction l; cbn; rewrite ?sum_by_cons, ?sum_by_nil; lia. Qed.

Lemma sum_by_perm f l k : l ≡ₚ k → sum_by f l = sum_by f k.
Proof. induction 1; rewrite ?sum_by_cons; lia. Qed.

Lemma sum_by_ext f g l : (∀ x, x ∈ l → f x = g x) → sum_by f l = sum_by g l.
Proof.
  induction l as [|x l IH]; intros Hfg; [done|]. rewrite !sum_by_cons.
  rewrite (Hfg x) by set_solver. rewrite IH; [done|]. set_solver.
Qed.

Lemma sum_by_add f g l : sum_by (λ x, f x + g x) l = sum_by f l + sum_by g l.
Proof. induction l; rewrite ?sum_by_cons, ?sum_by_nil; lia. Qed.

Lemma sum_by_scale c f l : sum_by (λ x, c * f x) l = c * sum_by f l.
Proof. induction l; rewrite ?sum_by_cons, ?sum_by_nil; lia. Qed.

Lemma sum_by_const c l : sum_by (λ _, c) l = c * Z.of_nat (length l).
Proof. induction l; rewrite ?sum_by_cons, ?sum_by_nil; cbn [length]; lia. Qed.

Lemma sum_by_le f g l : (∀ x, x ∈ l → f x ≤ g x) → sum_by f l ≤ sum_by g l.
Proof.
  induction l as [|x l IH]; intros Hfg; [done|]. rewrite !sum_by_cons.
  assert (f x ≤ g x) by (apply Hfg; set_solver).
  assert (sum_by f l ≤ sum_by g l) by (apply IH; set_solver). lia.
Qed.

Lemma sum_by_nonneg f l : (∀ x, x ∈ l → 0 ≤ f x) → 0 ≤ sum_by f l.
Proof.
  intros H. apply (sum_by_le (λ _, 0)) in H. rewrite sum_by_const in H. lia.
Qed.

Lemma sum_by_elem_le f l x :
  (∀ y, y ∈ l → 0 ≤ f y) → x ∈ l → f x ≤ sum_by f l.
Proof.
  intros Hnn Hx. apply elem_of_Permutation in Hx as [k Hk].
  rewrite (sum_by_perm _ _ _ Hk), sum_by_cons.
  assert (0 ≤ sum_by f k); [|lia].
  apply sum_by_nonneg. intros y Hy. apply Hnn. rewrite Hk. set_solver.
Qed.

Lemma sum_by_filter (P : A → Prop) `{∀ x, Decision (P x)} f l :
  sum_by f (filter P l) = sum_by (λ x, if decide (P x) then f x else 0) l.
Proof.
  induction l as [|x l IH]; [done|]. rewrite filter_cons, sum_by_cons. case_decide; rewrite ?sum_by_cons; lia.
Qed.
End SumBy.

Lemma sum_by_fmap {A B} (h : B → A) (f : A → Z) (l : list B) :
  sum_by f (h <$> l) = sum_by (λ x, f (h x)) l.
Proof. induction l as [|x l IH]; cbn; rewrite ?sum_by_cons; [done|]. by rewrite IH. Qed.

(** Adding one at the positions of a duplicate-free list of indices. *)
Lemma sum_by_imap_bump (chosen : list nat) (us : list Z) :
  NoDup chosen → (∀ i, i ∈ chosen → (i < length us)%nat) →
  sum_by id (imap (λ i u, if bool_decide (i ∈ chosen) then u + 1 else u) us)
  = sum_by id us + Z.of_nat (length chosen).
Proof.
  intros Hnd Hlt.
  assert (Hgen : ∀ k us, sum_by id (imap (λ i u, if bool_decide ((k + i)%nat ∈ chosen) then u + 1 else u) us)
    = sum_by id us + Z.of_nat (length (filter (λ i, i ∈ chosen) (seq k (length us))))).
  { clear. intros k us; revert k; induction us as [|u us IH]; intros k; [done|].
    cbn [imap length seq]. rewrite !sum_by_cons, filter_cons, Nat.add_0_r.
    rewrite (imap_ext _ (λ i u, if bool_decide ((S k + i)%nat ∈ chosen) then u + 1 else u)).
    2: { intros i x _. cbn. by rewrite Nat.add_succ_r. }
    rewrite IH. case_bool_decide; case_decide; try done; cbn [length id]; lia. }
  rewrite (Hgen 0%nat). do 2 f_equal. apply Permutation_length, NoDup_Permutation.
  - apply NoDup_filter, NoDup_seq.
  - done.
  - intros i. rewrite list_elem_of_filter, elem_of_seq. split; [by intros [? _]|].
    intros Hi. split; [done|]. specialize (Hlt i Hi). lia.
Qed.

(** ** Filters *)

Lemma filter_iff {A} (P Q : A → Prop) `{∀ x, Decision (P x), ∀ x, Decision (Q x)} (l : list A) :
  (∀ x, x ∈ l → P x ↔ Q x) → filter P l = filter Q l.
Proof.
  induction l as [|x l IH]; intros HPQ; [done|]. rewrite !filter_cons, IH by set_solver.
  destruct (decide (P x)), (decide (Q x)); try done; exfalso; set_solver.
Qed.

Lemma filter_all {A} (P : A → Prop) `{∀ x, Decision (P x)} (l : list A) :
  (∀ x, x ∈ l → P x) → filter P l = l.
Proof.
  induction l as [|x l IH]; intros HP; [done|]. rewrite filter_cons_True, IH by set_solver. done.
Qed.

Lemma filter_none {A} (P : A → Prop) `{∀ x, Decision (P x)} (l : list A) :
  (∀ x, x ∈ l → ¬ P x) → filter P l = [].
Proof.
  intros HP. apply elem_of_nil_inv. intros x [Hx Hin]%list_elem_of_filter. by apply (HP x).
Qed.

(** ** Sorting by a boolean order *)

Definition le_of {A} (leb : A → A → bool) (x y : A) : Prop := leb x y = true.

#[export] Instance le_of_dec {A} (leb : A → A → bool) x y : Decision (le_of leb x y).
Proof. unfold le_of. apply _. Defined.

(** [sorted(l, key=...)] and ORDER BY. *)
Definition sort_by {A} (leb : A → A → bool) (l : list A) : list A := merge_sort (le_of leb) l.

Lemma sort_by_perm {A} (leb : A → A → bool) l : sort_by leb l ≡ₚ l.
Proof. apply merge_sort_Permutation. Qed.

Lemma sort_by_sorted {A} (leb : A → A → bool) l :
  (∀ x y, leb x y = true ∨ leb y x = true) →
  (∀ x y z, leb x y = true → leb y z = true → leb x z = true) →
  StronglySorted (le_of leb) (sort_by leb l).
Proof.
  intros Ht Htr. assert (Transitive (le_of leb)) by (intros x y z; apply Htr).
  assert (Total (le_of leb)) by (intros x y; apply Ht). by apply StronglySorted_merge_sort.
Qed.

(** The first row of [ORDER BY key DESC]. *)
Definition max_by {A} (key : A → Z) (l : list A) : option A :=
  head (sort_by (λ x y, key y <=? key x) l).

Lemma max_by_Some {A} (key : A → Z) l x :
  max_by key l = Some x → x ∈ l ∧ ∀ y, y ∈ l → key y <= key x.
Proof.
  unfold max_by. intros H.
  pose proof (sort_by_perm (λ x y, key y <=? key x) l) as Hp.
  pose proof (sort_by_sorted (λ x y, key y <=? key x) l) as Hs.
  destruct (sort_by _ l) as [|z zs]; [done|]. injection H as ->. split; [rewrite <- Hp; set_solver|].
  intros y Hy. rewrite <- Hp in Hy. apply elem_of_cons in Hy as [->|Hy]; [lia|].
  assert (StronglySorted (le_of (λ x y, key y <=? key x)) (x :: zs)) as Hs'.
  { apply Hs; [intros a b; rewrite !Z.leb_le; lia|intros a b c; rewrite !Z.leb_le; lia]. }
  apply StronglySorted_inv in Hs' as [_ Hf]. rewrite Forall_forall in Hf.
  specialize (Hf y Hy). unfold le_of in Hf. lia.
Qed.

Lemma max_by_None {A} (key : A → Z) l : max_by key l = None ↔ l = [].
Proof.
  unfold max_by. pose proof (sort_by_perm (λ x y, key y <=? key x) l) as Hp. split.
  - destruct (sort_by _ l); [|done]. intros _. by apply Permutation_nil_l in Hp.
  - by intros ->.
Qed.

(** ** Automation shared by the development *)

(** Split a successful run of a [result] computation into its steps. *)
Ltac inv_result :=
  repeat match goal with
  | H : (_ ≫= _) = Ok _ |- _ => apply bind_Ok in H; destruct H as (? & ? & ?)
  | H : ensure _ _ = Ok _ |- _ => apply ensure_Ok in H
  | H : mret _ = Ok _ |- _ => cbn in H
  | H : Ok _ = Ok _ |- _ => injection H as H; subst
  | H : Raise _ = Ok _ |- _ => discriminate H
  end.

(** Decide an equation by evaluating both sides, leaving its type alone. *)
Ltac vm_eq := match goal with |- ?a = ?b => exact (eq_refl b <: a = b) end.

(** Turn boolean comparisons on integers into propositions. *)
Ltac zbool :=
  repeat match goal with
  | H : (_ && _) = true |- _ => apply andb_true_iff in H; destruct H
  | H : (_ || _) = false |- _ => apply orb_false_iff in H; destruct H
  | H : negb _ = true |- _ => apply negb_true_iff in H
  | H : negb _ = false |- _ => apply negb_false_iff in H
  | H : (_ <=? _) = true |- _ => apply Z.leb_le in H
  | H : (_ <=? _) = false |- _ => apply Z.leb_gt in H
  | H : (_ <? _) = true |- _ => apply Z.ltb_lt in H
  | H : (_ <? _) = false |- _ => apply Z.ltb_ge in H
  | H : (_ =? _) = true |- _ => apply Z.eqb_eq in H
  | H : (_ =? _) = false |- _ => apply Z.eqb_neq in H
  end.
