(* ===== verification/PyDecimal.v ===== *)
(** * Python's [decimal.Decimal]

    The finite part of the standard library's decimal arithmetic, as
    [app/core/money.py] and the services use it: a signed coefficient and an
    exponent, operations that are exact and then rounded to the default
    context's 28 digits ([ROUND_HALF_EVEN]), [quantize], comparison,
    truncation, parsing and printing.  The sign of zero is not represented
    (the code removes it with [copy_abs]), nor are the exponent limits. *)

From S2P Require Import Prelude.
From Stdlib Require Import Ascii String.
From stdpp Require Import strings.
Open Scope Z_scope.

Declare Scope dec_scope.

(** [getcontext().prec]; the repository never changes it. *)
Definition PREC : Z := 28.

Record dec := Dec { coef : Z; dexp : Z }.

#[export] Instance dec_eq_dec : EqDecision dec.
Proof. solve_decision. Defined.

(** ** Decimal digits *)

(** Little-endian digits of a non-negative integer. *)
Fixpoint digits_fuel (fuel : nat) (n : Z) : list Z :=
  match fuel with
  | O => []
  | S f => if n <? 10 then [n] else n mod 10 :: digits_fuel f (n / 10)
  end.

Definition digits (n : Z) : list Z := digits_fuel (S (Z.to_nat (Z.log2 n))) n.

(** [len(str(abs(n)))]. *)
Definition ndigits (n : Z) : Z := Z.of_nat (length (digits (Z.abs n))).

(** Value of a little-endian digit list. *)
Fixpoint value_le (ds : list Z) : Z :=
  match ds with [] => 0 | d :: ds' => d + 10 * value_le ds' end.

(** ** Rounding *)

(** The integer nearest to [n / d], ties to even ([ROUND_HALF_EVEN]). *)
Definition rhe (n d : Z) : Z :=
  let q := n / d in
  let r := n mod d in
  if 2 * r <? d then q
  else if d <? 2 * r then q + 1
  else if Z.even q then q else q + 1.

(** [Decimal._fix]: round the coefficient to the context's precision. *)
Definition dec_fix (x : dec) : dec :=
  if ndigits (coef x) <=? PREC then x
  else
    let k := ndigits (coef x) - PREC in
    let c := rhe (coef x) (10 ^ k) in
    if ndigits c <=? PREC then Dec c (dexp x + k)
    else Dec (Z.quot c 10) (dexp x + k + 1).

(** ** Arithmetic *)

(** The coefficient of [x] at the exponent [e], for [e <= dexp x]. *)
Definition coef_at (x : dec) (e : Z) : Z := coef x * 10 ^ (dexp x - e).

Definition dec_of_Z (n : Z) : dec := Dec n 0.

Definition dec_add (x y : dec) : dec :=
  let e := Z.min (dexp x) (dexp y) in
  dec_fix (Dec (coef_at x e + coef_at y e) e).

Definition dec_sub (x y : dec) : dec :=
  let e := Z.min (dexp x) (dexp y) in
  dec_fix (Dec (coef_at x e - coef_at y e) e).

Definition dec_neg (x : dec) : dec := dec_fix (Dec (- coef x) (dexp x)).
Definition dec_abs (x : dec) : dec := dec_fix (Dec (Z.abs (coef x)) (dexp x)).

Definition dec_mul (x y : dec) : dec := dec_fix (Dec (coef x * coef y) (dexp x + dexp y)).

(** The loop of [__truediv__] that moves an exact quotient towards its ideal exponent. *)
Fixpoint strip_zeros (fuel : nat) (c e : Z) : dec :=
  match fuel with
  | O => Dec c e
  | S f => if c mod 10 =? 0 then strip_zeros f (c / 10) (e + 1) else Dec c e
  end.

(** [__truediv__] on a non-zero divisor: one digit more than the precision, the
    last one made sticky when the division is inexact, then rounded. *)
Definition dec_quotient (x y : dec) : dec :=
  if coef x =? 0 then dec_fix (Dec 0 (dexp x - dexp y))
  else
    let a := Z.abs (coef x) in
    let b := Z.abs (coef y) in
    let sign := Z.sgn (coef x) * Z.sgn (coef y) in
    let shift := ndigits b - ndigits a + PREC + 1 in
    let e := dexp x - dexp y - shift in
    let n := if 0 <=? shift then a * 10 ^ shift else a in
    let d := if 0 <=? shift then b else b * 10 ^ (- shift) in
    let c := n / d in
    let q :=
      if n mod d =? 0 then strip_zeros (Z.to_nat shift) c e
      else Dec (if c mod 5 =? 0 then c + 1 else c) e in
    dec_fix (Dec (sign * coef q) (dexp q)).

Definition dec_div (x y : dec) : result dec :=
  if coef y =? 0 then
    Raise (if coef x =? 0 then InvalidOperation else ZeroDivisionError)
  else Ok (dec_quotient x y).

(** [x.quantize(Decimal(1).scaleb(e), rounding=ROUND_HALF_EVEN)]. *)
Definition rescale (x : dec) (e : Z) : Z :=
  if e <=? dexp x then coef_at x e else rhe (coef x) (10 ^ (e - dexp x)).

Definition adjusted (x : dec) : Z := dexp x + ndigits (coef x) - 1.

Definition dec_quantize (x : dec) (e : Z) : result dec :=
  if coef x =? 0 then Ok (Dec 0 e)
  else if PREC <? adjusted x - e + 1 then Raise InvalidOperation
  else
    let c := rescale x e in
    if PREC <? ndigits c then Raise InvalidOperation else Ok (Dec c e).

(** [to_integral_value(rounding=ROUND_DOWN)], as the integer it denotes. *)
Definition dec_trunc (x : dec) : Z :=
  if 0 <=? dexp x then coef_at x 0 else Z.quot (coef x) (10 ^ (- dexp x)).

(** ** Comparison: exact, on any two exponents *)

Definition dec_compare (x y : dec) : comparison :=
  let e := Z.min (dexp x) (dexp y) in coef_at x e ?= coef_at y e.

Definition dec_eqb x y : bool := match dec_compare x y with Eq => true | _ => false end.
Definition dec_ltb x y : bool := match dec_compare x y with Lt => true | _ => false end.
Definition dec_leb x y : bool := match dec_compare x y with Gt => false | _ => true end.

Notation "x =d? y" := (dec_eqb x y) (at level 70) : dec_scope.
Notation "x <d? y" := (dec_ltb x y) (at level 70) : dec_scope.
Notation "x <=d? y" := (dec_leb x y) (at level 70) : dec_scope.

(** ** Printing: [Decimal.__str__] *)

Definition digit_char (d : Z) : Ascii.ascii := Ascii.ascii_of_nat (48 + Z.to_nat d).

Fixpoint string_of_digits (ds : list Z) : string :=
  match ds with [] => EmptyString | d :: ds' => String (digit_char d) (string_of_digits ds') end.

(** [str(n)] for a non-negative integer. *)
Definition str_nat (n : Z) : string := string_of_digits (reverse (digits n)).

Definition str_signed (n : Z) : string :=
  (if n <? 0 then "-" else "+") +:+ str_nat (Z.abs n).

(** [str(n)] *)
Definition str_int (n : Z) : string := (if n <? 0 then "-" else "") +:+ str_nat (Z.abs n).

Definition dec_str (x : dec) : string :=
  let ds := reverse (digits (Z.abs (coef x))) in
  let len := Z.of_nat (length ds) in
  let leftdigits := dexp x + len in
  let dotplace := if (dexp x <=? 0) && (-6 <? leftdigits) then leftdigits else 1 in
  let body :=
    if dotplace <=? 0 then
      "0." +:+ string_of_digits (replicate (Z.to_nat (- dotplace)) 0) +:+ string_of_digits ds
    else if len <=? dotplace then
      string_of_digits ds +:+ string_of_digits (replicate (Z.to_nat (dotplace - len)) 0)
    else
      string_of_digits (take (Z.to_nat dotplace) ds) +:+ "." +:+
      string_of_digits (drop (Z.to_nat dotplace) ds) in
  let expo := if leftdigits =? dotplace then "" else "E" +:+ str_signed (leftdigits - dotplace) in
  (if coef x <? 0 then "-" else "") +:+ body +:+ expo.

(** ** Parsing: [Decimal(str)]

    [PyNonFinite] stands for the infinities and the NaNs. *)

Inductive pydec := PyFinite (x : dec) | PyNonFinite.

Definition is_space (a : Ascii.ascii) : bool :=
  let n := Ascii.nat_of_ascii a in bool_decide (n = 32%nat ∨ (9 ≤ n ≤ 13)%nat).

Definition char_digit (a : Ascii.ascii) : option Z :=
  let n := Z.of_nat (Ascii.nat_of_ascii a) in
  if (48 <=? n) && (n <=? 57) then Some (n - 48) else None.

Fixpoint drop_spaces (l : list Ascii.ascii) : list Ascii.ascii :=
  match l with a :: l' => if is_space a then drop_spaces l' else l | [] => [] end.

(** [str.strip()]. *)
Definition strip (s : string) : string :=
  string_of_list_ascii (reverse (drop_spaces (reverse (drop_spaces (list_ascii_of_string s))))).

Fixpoint drop_underscores (s : string) : string :=
  match s with
  | EmptyString => EmptyString
  | String a s' =>
      if Ascii.eqb a "_"%char then drop_underscores s' else String a (drop_underscores s')
  end.

(** The leading decimal digits of [s], most significant first, and the rest. *)
Fixpoint span_digits (s : string) : list Z * string :=
  match s with
  | EmptyString => ([], s)
  | String a s' =>
      match char_digit a with
      | Some d => let '(ds, r) := span_digits s' in (d :: ds, r)
      | None => ([], s)
      end
  end.

Definition value_be (ds : list Z) : Z := foldl (λ a d, 10 * a + d) 0 ds.

(** The optional sign in front of a number. *)
Definition split_sign (s : string) : bool * string :=
  match s with
  | String "-" s' => (true, s')
  | String "+" s' => (false, s')
  | _ => (false, s)
  end.

Definition apply_sign (neg : bool) (n : Z) : Z := if neg then - n else n.

(** [(E[-+]?\d+)?\Z]. *)
Definition parse_exponent (s : string) : option Z :=
  match s with
  | EmptyString => Some 0
  | String a s' =>
      if Ascii.eqb a "E"%char || Ascii.eqb a "e"%char then
        let '(neg, s1) := split_sign s' in
        let '(ds, r) := span_digits s1 in
        match ds, r with
        | _ :: _, EmptyString => Some (apply_sign neg (value_be ds))
        | _, _ => None
        end
      else None
  end.

Definition lower (a : Ascii.ascii) : Ascii.ascii :=
  let n := Ascii.nat_of_ascii a in
  if bool_decide (65 ≤ n ≤ 90)%nat then Ascii.ascii_of_nat (n + 32) else a.

Fixpoint lower_string (s : string) : string :=
  match s with EmptyString => s | String a s' => String (lower a) (lower_string s') end.

Definition is_special (s : string) : bool :=
  let l := lower_string s in
  bool_decide (l = "inf" ∨ l = "infinity") ||
  (let nan := if String.prefix "s" l then String.substring 1 (String.length l) l else l in
   String.prefix "nan" nan &&
   bool_decide ((span_digits (String.substring 3 (String.length nan) nan)).2 = "")).

Definition parse_decimal (s0 : string) : option pydec :=
  let '(neg, s) := split_sign (drop_underscores (strip s0)) in
  let '(ip, r) := span_digits s in
  let '(fp, r') := match r with String "." r1 => span_digits r1 | _ => ([], r) end in
  if bool_decide (ip ++ fp = []) then
    if is_special s then Some PyNonFinite else None
  else
    match parse_exponent r' with
    | None => None
    | Some ex => Some (PyFinite (Dec (apply_sign neg (value_be (ip ++ fp)))
                                     (ex - Z.of_nat (length fp))))
    end.

(** ** Lemmas: digits *)

Lemma pow10_pos k : 0 <= k → 0 < 10 ^ k.
Proof. intros. by apply Z.pow_pos_nonneg. Qed.

Lemma pow10_split a b : 0 <= a → 0 <= b → 10 ^ (a + b) = 10 ^ a * 10 ^ b.
Proof. intros. by apply Z.pow_add_r. Qed.

Lemma pow10_succ k : 0 <= k → 10 ^ (k + 1) = 10 * 10 ^ k.
Proof. intros. rewrite pow10_split by lia. lia. Qed.

Lemma pow10_mono a b : 0 <= a <= b → 10 ^ a <= 10 ^ b.
Proof. intros. apply Z.pow_le_mono_r; lia. Qed.

Lemma digits_fuel_spec f n :
  0 <= n → n < 2 ^ Z.of_nat f → (0 < f)%nat →
  value_le (digits_fuel f n) = n ∧
  Forall (λ d, 0 <= d <= 9) (digits_fuel f n) ∧
  (let len := Z.of_nat (length (digits_fuel f n)) in
   1 <= len ∧ n < 10 ^ len ∧ (0 < n → 10 ^ (len - 1) <= n)).
Proof.
  revert n; induction f as [|f IH]; intros n Hn Hf Hpos; [lia|].
  cbn [digits_fuel]. destruct (Z.ltb_spec n 10) as [H10|H10].
  - cbn [value_le length]. split; [lia|]. split; [by repeat (constructor; try lia)|].
    cbn. lia.
  - assert (Hq : 0 < n / 10) by (apply Z.div_str_pos; lia).
    pose proof (Z.div_mod n 10 ltac:(lia)) as Hdm.
    pose proof (Z.mod_pos_bound n 10 ltac:(lia)) as Hm.
    rewrite Nat2Z.inj_succ, Z.pow_succ_r in Hf by lia.
    destruct f as [|f]; [cbn in Hf; lia|].
    destruct (IH (n / 10)) as (Hv & Hd & Hl1 & Hlu & Hll); [lia|lia|lia|].
    revert Hv Hd Hl1 Hlu Hll. generalize (digits_fuel (S f) (n / 10)). intros ds ? ? ? ? Hll.
    cbn [value_le length]. rewrite Nat2Z.inj_succ. cbn zeta.
    replace (Z.succ (Z.of_nat (length ds))) with (Z.of_nat (length ds) + 1) by lia.
    rewrite pow10_succ by lia. specialize (Hll Hq).
    split; [lia|]. split; [constructor; [lia|done]|]. split; [lia|]. split; [lia|].
    intros _. replace (Z.of_nat (length ds) + 1 - 1) with ((Z.of_nat (length ds) - 1) + 1) by lia.
    rewrite pow10_succ by lia. lia.
Qed.

Lemma digits_fuel_enough n : 0 <= n → n < 2 ^ Z.of_nat (S (Z.to_nat (Z.log2 n))).
Proof.
  intros Hn. pose proof (Z.log2_nonneg n) as Hl.
  rewrite Nat2Z.inj_succ, Z2Nat.id by lia.
  destruct (Z.eq_dec n 0) as [->|Hne]; [done|].
  apply Z.log2_spec; lia.
Qed.

Lemma digits_spec n :
  0 <= n →
  value_le (digits n) = n ∧
  Forall (λ d, 0 <= d <= 9) (digits n) ∧
  (let len := Z.of_nat (length (digits n)) in
   1 <= len ∧ n < 10 ^ len ∧ (0 < n → 10 ^ (len - 1) <= n)).
Proof. intros. apply digits_fuel_spec; [done | by apply digits_fuel_enough | lia]. Qed.

Lemma ndigits_pos n : 1 <= ndigits n.
Proof. apply (digits_spec (Z.abs n)); lia. Qed.

Lemma ndigits_upper n : Z.abs n < 10 ^ ndigits n.
Proof. apply (digits_spec (Z.abs n)); lia. Qed.

Lemma ndigits_lower n : n ≠ 0 → 10 ^ (ndigits n - 1) <= Z.abs n.
Proof. intros. apply (digits_spec (Z.abs n)); lia. Qed.

Lemma ndigits_le n k : 0 < k → ndigits n <= k ↔ Z.abs n < 10 ^ k.
Proof.
  intros Hk. pose proof (ndigits_pos n). split; intros H1.
  - eapply Z.lt_le_trans; [apply ndigits_upper | apply pow10_mono; lia].
  - destruct (Z.eq_dec n 0) as [->|Hne]; [change (ndigits 0) with 1; lia|].
    pose proof (ndigits_lower n Hne).
    destruct (Z.le_gt_cases (ndigits n) k); [done|].
    pose proof (pow10_mono k (ndigits n - 1)). lia.
Qed.

Lemma ndigits_gt n k : 0 < k → k < ndigits n ↔ 10 ^ k <= Z.abs n.
Proof. intros Hk. pose proof (ndigits_le n k Hk). lia. Qed.

Lemma ndigits_abs n : ndigits (Z.abs n) = ndigits n.
Proof. unfold ndigits. by rewrite Z.abs_idemp. Qed.

Lemma ndigits_opp n : ndigits (- n) = ndigits n.
Proof. unfold ndigits. by rewrite Z.abs_opp. Qed.

(** ** Lemmas: rounding *)

Section Rhe.
Context (n d : Z) (Hd : 0 < d).

Lemma rhe_near : 2 * Z.abs (d * rhe n d - n) <= d.
Proof using Hd.
  unfold rhe. pose proof (Z.div_mod n d ltac:(lia)).
  pose proof (Z.mod_pos_bound n d Hd).
  destruct (Z.ltb_spec (2 * (n mod d)) d); [lia|].
  destruct (Z.ltb_spec d (2 * (n mod d))); [lia|].
  destruct (Z.even (n / d)); lia.
Qed.

Lemma rhe_tie_even : 2 * Z.abs (d * rhe n d - n) = d → Z.even (rhe n d) = true.
Proof using Hd.
  unfold rhe. pose proof (Z.div_mod n d ltac:(lia)).
  pose proof (Z.mod_pos_bound n d Hd).
  destruct (Z.ltb_spec (2 * (n mod d)) d); [lia|].
  destruct (Z.ltb_spec d (2 * (n mod d))); [lia|].
  destruct (Z.even (n / d)) eqn:He; [done|].
  intros _. rewrite Z.even_add, He. done.
Qed.

Lemma rhe_unique q : 2 * Z.abs (d * q - n) < d → rhe n d = q.
Proof using Hd. intros. pose proof rhe_near. nia. Qed.

(** Half-even rounding is the only nearest, tie-to-even function. *)
Lemma rhe_characterised q :
  2 * Z.abs (d * q - n) <= d →
  (2 * Z.abs (d * q - n) = d → Z.even q = true) → rhe n d = q.
Proof using Hd.
  intros Hq Ht. pose proof rhe_near as Hn. pose proof rhe_tie_even as He.
  destruct (Z.eq_dec (2 * Z.abs (d * q - n)) d) as [Heq|]; [|apply rhe_unique; lia].
  specialize (Ht Heq).
  assert (rhe n d = q ∨ (2 * Z.abs (d * rhe n d - n) = d ∧ (rhe n d = q + 1 ∨ rhe n d = q - 1)))
    as [|[Hd' [H1|H1]]] by nia; [done| |].
  - specialize (He Hd'). rewrite H1, Z.even_add, Ht in He. done.
  - specialize (He Hd'). rewrite H1, Z.even_sub, Ht in He. done.
Qed.

Lemma rhe_abs_bound B : Z.abs n <= B * d → Z.abs (rhe n d) <= B.
Proof using Hd. intros. pose proof rhe_near. nia. Qed.

End Rhe.

Lemma rhe_opp n d : 0 < d → rhe (- n) d = - rhe n d.
Proof.
  intros Hd. pose proof (rhe_near n d Hd). pose proof (rhe_tie_even n d Hd) as He.
  apply rhe_characterised; [done|lia|].
  intros. rewrite Z.even_opp. apply He. lia.
Qed.

Lemma rhe_mul_exact q d : 0 < d → rhe (q * d) d = q.
Proof. intros. apply rhe_unique; lia. Qed.

Lemma rhe_0 d : 0 < d → rhe 0 d = 0.
Proof. intros. apply rhe_unique; lia. Qed.

Lemma rhe_1 n : rhe n 1 = n.
Proof. apply rhe_unique; lia. Qed.

(** ** Lemmas: context rounding and quantization *)

Lemma PREC_pos : 0 < PREC. Proof. done. Qed.

(** Operations whose exact result has at most 28 digits are exact. *)
Lemma dec_fix_id x : Z.abs (coef x) < 10 ^ PREC → dec_fix x = x.
Proof.
  intros H. unfold dec_fix. apply (ndigits_le _ _ PREC_pos) in H.
  apply Z.leb_le in H. by rewrite H.
Qed.

(** Rounding a coefficient of more than 28 digits leaves 28 of them, half a unit
    in the last place away at most. *)
Lemma dec_fix_large x :
  10 ^ PREC <= Z.abs (coef x) →
  10 ^ (PREC - 1) <= Z.abs (coef (dec_fix x)) ∧ Z.abs (coef (dec_fix x)) < 10 ^ PREC ∧
  dexp x + 1 <= dexp (dec_fix x) ∧
  2 * Z.abs (coef (dec_fix x) * 10 ^ (dexp (dec_fix x) - dexp x) - coef x)
    <= 10 ^ (dexp (dec_fix x) - dexp x).
Proof.
  intros H. pose proof H as Hn. apply (ndigits_gt _ _ PREC_pos) in Hn.
  unfold dec_fix. rewrite (proj2 (Z.leb_gt _ _) Hn).
  set (k := ndigits (coef x) - PREC). set (c := rhe (coef x) (10 ^ k)).
  assert (Hk : 0 < k) by (unfold k; lia).
  assert (Hp : 0 < 10 ^ k) by (apply pow10_pos; lia).
  pose proof (rhe_near (coef x) (10 ^ k) Hp) as Hr. fold c in Hr.
  pose proof (ndigits_upper (coef x)) as Hu.
  pose proof (ndigits_lower (coef x) ltac:(intros E; rewrite E in H; by vm_compute in H)) as Hl.
  replace (ndigits (coef x)) with (PREC + k) in Hu by (unfold k; lia).
  replace (ndigits (coef x) - 1) with ((PREC - 1) + k) in Hl by (unfold k; lia).
  rewrite pow10_split in Hu, Hl by (unfold PREC; lia).
  assert (10 ^ (PREC - 1) <= Z.abs c) by nia.
  assert (Z.abs c <= 10 ^ PREC) by nia.
  destruct (Z.leb_spec (ndigits c) PREC) as [Hc|Hc]; cbn [coef dexp].
  - apply (ndigits_le _ _ PREC_pos) in Hc. rewrite Z.add_simpl_l. lia.
  - apply (ndigits_gt _ _ PREC_pos) in Hc.
    assert (Z.abs (Z.quot c 10) = 10 ^ (PREC - 1) ∧ c = Z.quot c 10 * 10) as [-> Hq].
    { assert (c = 10 ^ PREC ∨ c = - 10 ^ PREC) as [->| ->] by lia; done. }
    assert (10 ^ (PREC - 1) < 10 ^ PREC) by done.
    replace (dexp x + k + 1 - dexp x) with (k + 1) by lia. rewrite pow10_succ by lia.
    split_and!; [lia|lia|lia|]. rewrite Hq in Hr. lia.
Qed.

Lemma dec_fix_coef_bound x : Z.abs (coef (dec_fix x)) < 10 ^ PREC.
Proof.
  destruct (Z.lt_ge_cases (Z.abs (coef x)) (10 ^ PREC)) as [H|H].
  - by rewrite dec_fix_id.
  - by apply dec_fix_large.
Qed.

Lemma rescale_same c e : rescale (Dec c e) e = c.
Proof. unfold rescale, coef_at. cbn. rewrite Z.leb_refl, Z.sub_diag. lia. Qed.

(** [quantize] raises exactly when the quantized coefficient needs more than 28 digits. *)
Lemma dec_quantize_spec x e :
  dec_quantize x e =
    if Z.abs (rescale x e) <? 10 ^ PREC then Ok (Dec (rescale x e) e) else Raise InvalidOperation.
Proof.
  unfold dec_quantize. destruct (Z.eqb_spec (coef x) 0) as [H0|H0].
  { assert (rescale x e = 0) as ->; [|done].
    unfold rescale, coef_at. rewrite H0. destruct (_ <=? _) eqn:?; [lia|].
    apply rhe_0, pow10_pos. zbool. lia. }
  assert (Hbig : PREC < adjusted x - e + 1 → 10 ^ PREC <= Z.abs (rescale x e)).
  { unfold adjusted. intros Ha. pose proof (ndigits_lower (coef x) H0) as Hl.
    pose proof (ndigits_pos (coef x)).
    unfold rescale, coef_at. destruct (Z.leb_spec e (dexp x)) as [He|He].
    - assert (10 ^ PREC <= 10 ^ (ndigits (coef x) - 1) * 10 ^ (dexp x - e)).
      { rewrite <- pow10_split by lia. apply pow10_mono. unfold PREC in *. lia. }
      pose proof (pow10_pos (dexp x - e) ltac:(lia)). nia.
    - pose proof (pow10_pos (e - dexp x) ltac:(lia)) as Hp.
      pose proof (rhe_near (coef x) _ Hp) as Hr.
      assert (10 ^ PREC * 10 ^ (e - dexp x) <= 10 ^ (ndigits (coef x) - 1)).
      { rewrite <- pow10_split by (unfold PREC; lia). apply pow10_mono. unfold PREC in *. lia. }
      nia. }
  destruct (Z.ltb_spec PREC (adjusted x - e + 1)) as [Ha|Ha].
  { specialize (Hbig Ha). rewrite (proj2 (Z.ltb_ge _ _) Hbig). done. }
  destruct (Z.ltb_spec PREC (ndigits (rescale x e))) as [Hd|Hd].
  - apply (ndigits_gt _ _ PREC_pos) in Hd. rewrite (proj2 (Z.ltb_ge _ _) Hd). done.
  - apply (ndigits_le _ _ PREC_pos) in Hd. rewrite (proj2 (Z.ltb_lt _ _) Hd). done.
Qed.

(** ** Lemmas: comparison on a common exponent *)

Lemma coef_at_same c e : coef_at (Dec c e) e = c.
Proof. unfold coef_at. cbn. rewrite Z.sub_diag. lia. Qed.

Lemma dec_compare_same a b e : dec_compare (Dec a e) (Dec b e) = (a ?= b).
Proof. unfold dec_compare. cbn. by rewrite Z.min_id, !coef_at_same. Qed.

Lemma dec_eqb_same a b e : dec_eqb (Dec a e) (Dec b e) = (a =? b).
Proof. unfold dec_eqb. rewrite dec_compare_same. destruct (Z.compare_spec a b), (Z.eqb_spec a b); lia || done. Qed.

Lemma dec_ltb_same a b e : dec_ltb (Dec a e) (Dec b e) = (a <? b).
Proof. unfold dec_ltb. rewrite dec_compare_same. destruct (Z.compare_spec a b), (Z.ltb_spec a b); lia || done. Qed.

Lemma dec_leb_same a b e : dec_leb (Dec a e) (Dec b e) = (a <=? b).
Proof. unfold dec_leb. rewrite dec_compare_same. destruct (Z.compare_spec a b), (Z.leb_spec a b); lia || done. Qed.

Lemma dec_add_same a b e :
  Z.abs (a + b) < 10 ^ PREC → dec_add (Dec a e) (Dec b e) = Dec (a + b) e.
Proof.
  intros. unfold dec_add. cbn. rewrite Z.min_id, !coef_at_same. by rewrite dec_fix_id.
Qed.

Lemma dec_sub_same a b e :
  Z.abs (a - b) < 10 ^ PREC → dec_sub (Dec a e) (Dec b e) = Dec (a - b) e.
Proof.
  intros. unfold dec_sub. cbn. rewrite Z.min_id, !coef_at_same. by rewrite dec_fix_id.
Qed.

(** ** Lemmas: division *)

Lemma strip_zeros_pow q e k :
  strip_zeros k (q * 10 ^ Z.of_nat k) e = Dec q (e + Z.of_nat k).
Proof.
  revert e; induction k as [|k IH]; intros e; [cbn; f_equal; lia|].
  rewrite Nat2Z.inj_succ, Z.pow_succ_r by lia. cbn [strip_zeros].
  replace (q * (10 * 10 ^ Z.of_nat k)) with ((q * 10 ^ Z.of_nat k) * 10) by lia.
  rewrite Z_mod_mult, Z_div_mult by lia. cbn. rewrite IH. f_equal. lia.
Qed.

Lemma strip_zeros_exact f c e :
  0 < c →
  ∃ i, strip_zeros f c e = Dec (c / 10 ^ i) (e + i) ∧ 0 <= i <= Z.of_nat f ∧
       c = c / 10 ^ i * 10 ^ i.
Proof.
  revert c e; induction f as [|f IH]; intros c e Hc; cbn [strip_zeros].
  { exists 0. rewrite Z.div_1_r, Z.add_0_r. split_and!; [done|lia|lia|lia]. }
  destruct (Z.eqb_spec (c mod 10) 0) as [Hc0|].
  - pose proof (Z.div_mod c 10 ltac:(lia)).
    destruct (IH (c / 10) (e + 1) ltac:(lia)) as (i & -> & Hi & Hdiv).
    exists (1 + i). rewrite Z.pow_add_r, <- Z.div_div by (try apply pow10_pos; lia).
    change (10 ^ 1) with 10. split_and!; [f_equal; lia|lia|lia|lia].
  - exists 0. rewrite Z.div_1_r, Z.add_0_r. split_and!; [done|lia|lia|lia].
Qed.

Section Quotient.
Context (n w : Z) (Hn : 0 < n < 10 ^ PREC) (Hw : 0 < w).

Let s := ndigits w - ndigits n + PREC + 1.

Lemma quotient_shift : 2 <= s.
Proof using Hn Hw.
  assert (ndigits n <= PREC) by (apply ndigits_le; [done|lia]).
  pose proof (ndigits_pos w). unfold s. lia.
Qed.

Lemma dec_quotient_unfold :
  dec_quotient (Dec n 0) (Dec w 0) =
  let c := n * 10 ^ s / w in
  dec_fix (if (n * 10 ^ s) mod w =? 0 then strip_zeros (Z.to_nat s) c (- s)
           else Dec (if c mod 5 =? 0 then c + 1 else c) (- s)).
Proof using Hn Hw.
  pose proof quotient_shift as Hs.
  unfold dec_quotient. cbn [coef dexp].
  rewrite (proj2 (Z.eqb_neq n 0)) by lia.
  rewrite !(Z.abs_eq n), !(Z.abs_eq w), !Z.sgn_pos by lia. fold s.
  rewrite (proj2 (Z.leb_le 0 s)) by lia. replace (0 - 0 - s) with (- s) by lia.
  cbn zeta. change (1 * 1) with 1.
  destruct (_ mod w =? 0); [destruct (strip_zeros _ _ _) as [c e]|]; cbn [coef dexp];
    by rewrite Z.mul_1_l.
Qed.

(** An exact division yields the integer quotient. *)
Lemma dec_quotient_exact : n mod w = 0 → dec_quotient (Dec n 0) (Dec w 0) = Dec (n / w) 0.
Proof using Hn Hw.
  intros Hm. pose proof quotient_shift as Hs. rewrite dec_quotient_unfold. cbn zeta.
  pose proof (Z.div_mod n w ltac:(lia)) as Hdm. rewrite Hm, Z.add_0_r in Hdm.
  assert (n * 10 ^ s = (n / w * 10 ^ s) * w) as E by lia.
  rewrite E, Z_mod_mult, Z_div_mult by lia. cbn.
  replace (10 ^ s) with (10 ^ Z.of_nat (Z.to_nat s)) by (f_equal; lia).
  rewrite strip_zeros_pow. replace (- s + Z.of_nat (Z.to_nat s)) with 0 by lia.
  apply dec_fix_id. cbn [coef]. pose proof (Z.div_pos n w).
  pose proof (Z.div_le_upper_bound n w n ltac:(lia)). nia.
Qed.

Lemma quotient_c0_large : 10 ^ PREC <= n * 10 ^ s / w.
Proof using Hn Hw.
  pose proof quotient_shift as Hs. apply Z.div_le_lower_bound; [done|].
  pose proof (ndigits_lower n ltac:(lia)) as Hl. pose proof (ndigits_upper w) as Hu.
  pose proof (ndigits_pos n). pose proof (ndigits_pos w).
  assert (10 ^ (ndigits n - 1) * 10 ^ s = 10 ^ ndigits w * 10 ^ PREC) as E.
  { rewrite <- !pow10_split by (unfold PREC; lia). f_equal. unfold s. lia. }
  rewrite Z.abs_eq in Hl, Hu by lia.
  pose proof (pow10_pos PREC ltac:(done)). pose proof (pow10_pos s ltac:(lia)). nia.
Qed.

(** The quotient before the last rounding: exact, or with more than 28 digits
    and less than one unit away. *)
Lemma dec_quotient_before_fix :
  ∃ q t, dec_quotient (Dec n 0) (Dec w 0) = dec_fix (Dec q (- t)) ∧ 0 <= t ∧ 0 < q ∧
    (q * w = n * 10 ^ t ∨ 10 ^ PREC <= q ∧ Z.abs (q * w - n * 10 ^ t) <= w).
Proof using Hn Hw.
  pose proof quotient_shift as Hs. pose proof quotient_c0_large as Hlow.
  rewrite dec_quotient_unfold. cbn zeta.
  pose proof (Z.div_mod (n * 10 ^ s) w ltac:(lia)) as Hdm.
  pose proof (Z.mod_pos_bound (n * 10 ^ s) w Hw) as Hmb.
  set (c0 := n * 10 ^ s / w) in *. set (m := (n * 10 ^ s) mod w) in *.
  assert (Hc0 : 0 < c0) by (pose proof (pow10_pos PREC ltac:(done)); lia).
  destruct (Z.eqb_spec m 0) as [Hm0|Hm0].
  - destruct (strip_zeros_exact (Z.to_nat s) c0 (- s) Hc0) as (i & -> & Hi & Hd).
    exists (c0 / 10 ^ i), (s - i).
    assert (Hpi : 0 < 10 ^ i) by (apply pow10_pos; lia).
    assert (E : 10 ^ s = 10 ^ (s - i) * 10 ^ i) by (rewrite <- pow10_split by lia; f_equal; lia).
    assert (0 < c0 / 10 ^ i) by (apply (Z.mul_pos_cancel_r _ (10 ^ i)); lia).
    split_and!; [f_equal; f_equal; lia|lia|lia|left].
    apply (Z.mul_reg_r _ _ (10 ^ i)); [lia|]. rewrite E in Hdm. lia.
  - exists (if c0 mod 5 =? 0 then c0 + 1 else c0), s.
    split_and!; [done|lia|destruct (_ =? _); lia|right].
    destruct (_ =? _); split; lia.
Qed.

(** A rounding of the quotient never drops more digits than were added. *)
Lemma quotient_shift_le c j t : 0 <= t → 2 <= w → 1 <= j → 10 ^ (PREC - 1) <= c →
  10 * Z.abs (c * 10 ^ j * w - n * 10 ^ t) <= 6 * 10 ^ j * w → j <= t.
Proof using Hn Hw.
  intros Ht Hw2 Hj Hc Hbound. destruct (Z.le_gt_cases j t) as [|Hgt]; [done|exfalso].
  assert (Hd : 10 ^ j = 10 ^ t * 10 ^ (j - t)) by (rewrite <- pow10_split by lia; f_equal; lia).
  pose proof (pow10_mono 1 (j - t) ltac:(lia)) as Hten. pose proof (pow10_pos t Ht) as Hpt.
  set (u := 10 ^ (j - t)) in *.
  assert (10 * Z.abs (c * u * w - n) <= 6 * u * w).
  { apply (Z.mul_le_mono_pos_r _ _ (10 ^ t)); [done|]. rewrite Hd in Hbound.
    replace (c * (10 ^ t * u) * w - n * 10 ^ t) with ((c * u * w - n) * 10 ^ t) in Hbound by lia.
    rewrite Z.abs_mul, (Z.abs_eq (10 ^ t)) in Hbound by lia. lia. }
  assert (H1 : (10 * c - 6) * (u * w) <= 10 * n) by lia.
  assert (H2 : 10 * w <= u * w) by (apply Z.mul_le_mono_nonneg_r; unfold u; lia).
  assert (HB : 10 ^ PREC = 10 * 10 ^ (PREC - 1)) by done.
  assert (HB2 : 100 <= 10 ^ (PREC - 1)) by done.
  revert Hn Hc HB HB2 H1 H2 Hw2. clear -Hw.
  generalize (10 ^ PREC) (10 ^ (PREC - 1)) (u * w). intros P B uw Hn Hc -> HB2 H1 H2 Hw2.
  assert ((10 * B - 6) * (10 * w) <= (10 * c - 6) * uw) by (apply Z.mul_le_mono_nonneg; lia).
  assert ((10 * B - 6) * 20 <= (10 * B - 6) * (10 * w)) by (apply Z.mul_le_mono_nonneg_l; lia).
  lia.
Qed.

(** The correctly rounded quotient: exact, or 28 digits and off by at most 0.6
    of the last one. *)
Lemma dec_quotient_spec :
  ∃ c k, dec_quotient (Dec n 0) (Dec w 0) = Dec c (- k) ∧ 0 <= k ∧ 0 < c < 10 ^ PREC ∧
    (c * w = n * 10 ^ k ∨
     10 ^ (PREC - 1) <= c < 10 ^ PREC ∧ 10 * Z.abs (c * w - n * 10 ^ k) <= 6 * w).
Proof using Hn Hw.
  destruct (Z.eq_dec (n mod w) 0) as [Hm|Hm].
  { exists (n / w), 0. rewrite dec_quotient_exact by done.
    pose proof (Z.div_mod n w ltac:(lia)).
    assert (0 < n / w) by (apply (Z.mul_pos_cancel_r _ w); lia).
    assert (n / w <= n) by (apply Z.div_le_upper_bound; nia).
    split_and!; [done|lia|lia|lia|left; lia]. }
  assert (Hw2 : 2 <= w).
  { destruct (Z.eq_dec w 1) as [E|]; [|lia]. by rewrite E, Z.mod_1_r in Hm. }
  destruct dec_quotient_before_fix as (q & t & -> & Ht & Hq & Hcase).
  destruct (Z.lt_ge_cases q (10 ^ PREC)) as [Hlt|Hge].
  { rewrite dec_fix_id by (cbn [coef]; lia). destruct Hcase as [|[]]; [|lia].
    exists q, t. split_and!; [done|done|done|done|by left]. }
  pose proof (dec_fix_large (Dec q (- t)) ltac:(cbn [coef]; lia)) as Hf.
  cbn [coef dexp] in Hf. destruct (dec_fix (Dec q (- t))) as [c e]. cbn [coef dexp] in Hf.
  destruct Hf as (Hc1 & Hc2 & He & Herr).
  set (j := e - - t) in *. assert (Hj : 1 <= j) by lia.
  assert (Hpj : 10 <= 10 ^ j) by (apply (pow10_mono 1); lia).
  assert (Hqn : Z.abs (q * w - n * 10 ^ t) <= w) by (destruct Hcase as [->|[]]; lia).
  assert (H27 : 1 <= 10 ^ (PREC - 1)) by done.
  assert (Hcp : 0 < c).
  { destruct (Z.lt_ge_cases 0 c) as [|Hneg]; [done|].
    assert (c * 10 ^ j <= -1 * 10 ^ j) by (apply Z.mul_le_mono_nonneg_r; lia). lia. }
  assert (Hbound : 10 * Z.abs (c * 10 ^ j * w - n * 10 ^ t) <= 6 * 10 ^ j * w).
  { replace (c * 10 ^ j * w - n * 10 ^ t) with ((c * 10 ^ j - q) * w + (q * w - n * 10 ^ t)) by lia.
    assert (2 * Z.abs ((c * 10 ^ j - q) * w) <= 10 ^ j * w).
    { rewrite Z.abs_mul, (Z.abs_eq w) by lia. nia. }
    assert (10 * w <= 10 ^ j * w) by nia. lia. }
  assert (Hjt : j <= t) by (apply (quotient_shift_le c); [done|done|done|lia|done]).
  exists c, (t - j).
  assert (E : 10 ^ t = 10 ^ (t - j) * 10 ^ j) by (rewrite <- pow10_split by lia; f_equal; lia).
  split_and!; [f_equal; lia|lia|done|lia|right]. split; [lia|].
  apply (Z.mul_le_mono_pos_r _ _ (10 ^ j)); [lia|]. rewrite E in Hbound.
  replace (c * 10 ^ j * w - n * (10 ^ (t - j) * 10 ^ j))
    with ((c * w - n * 10 ^ (t - j)) * 10 ^ j) in Hbound by lia.
  rewrite Z.abs_mul, (Z.abs_eq (10 ^ j)) in Hbound by lia. lia.
Qed.
End Quotient.

(** ** Lemmas: printing and parsing are inverse *)

Definition plain (a : Ascii.ascii) : bool := negb (is_space a) && negb (Ascii.eqb a "_"%char).

#[global] Arguments plain : simpl never.
#[global] Arguments is_space : simpl never.
#[global] Arguments digit_char : simpl never.
#[global] Arguments char_digit : simpl never.

Lemma plain_spec a : plain a = true → is_space a = false ∧ Ascii.eqb a "_"%char = false.
Proof. unfold plain. intros [H1%negb_true_iff H2%negb_true_iff]%andb_true_iff. done. Qed.

Fixpoint all_plain (s : string) : bool :=
  match s with EmptyString => true | String a s' => plain a && all_plain s' end.

Lemma all_plain_app s t : all_plain (s +:+ t) = all_plain s && all_plain t.
Proof. induction s as [|a s IH]; simpl; [done|]. by rewrite IH, andb_assoc. Qed.

Lemma drop_spaces_id l : Forall (λ a, is_space a = false) l → drop_spaces l = l.
Proof. destruct 1 as [|a l Ha]; cbn; [done|]. by rewrite Ha. Qed.

Lemma strip_plain s : all_plain s = true → strip s = s.
Proof.
  intros H.
  assert (Hf : Forall (λ a, is_space a = false) (list_ascii_of_string s)).
  { induction s as [|a s IH]; simpl in *; [constructor|].
    apply andb_true_iff in H as [Ha%plain_spec Hs]. constructor; [apply Ha|by apply IH]. }
  unfold strip. rewrite (drop_spaces_id (list_ascii_of_string s)) by done.
  rewrite drop_spaces_id by (by apply Forall_reverse).
  by rewrite reverse_involutive, string_of_list_ascii_of_string.
Qed.

Lemma drop_underscores_plain s : all_plain s = true → drop_underscores s = s.
Proof.
  induction s as [|a s IH]; simpl; [done|]. intros [[_ ->]%plain_spec Hs]%andb_true_iff.
  by rewrite IH.
Qed.

Lemma digit_cases d : 0 <= d <= 9 →
  d = 0 ∨ d = 1 ∨ d = 2 ∨ d = 3 ∨ d = 4 ∨ d = 5 ∨ d = 6 ∨ d = 7 ∨ d = 8 ∨ d = 9.
Proof. lia. Qed.

Lemma digit_char_spec d :
  0 <= d <= 9 → char_digit (digit_char d) = Some d ∧ plain (digit_char d) = true.
Proof.
  intros Hd. apply digit_cases in Hd.
  repeat (destruct Hd as [->|Hd]; [split; vm_compute; reflexivity|]).
  subst. split; vm_compute; reflexivity.
Qed.

Lemma string_app_nil_r (s : string) : s +:+ "" = s.
Proof. induction s as [|a s IH]; [done|]. change (String a s +:+ "") with (String a (s +:+ "")). by rewrite IH. Qed.

Lemma all_plain_digits ds :
  Forall (λ d, 0 <= d <= 9) ds → all_plain (string_of_digits ds) = true.
Proof.
  induction 1 as [|d ds Hd _ IH]; [done|]. cbn [string_of_digits all_plain].
  rewrite (proj2 (digit_char_spec d Hd)). exact IH.
Qed.

(** A string that does not start with a digit. *)
Definition no_digit (s : string) : Prop :=
  match s with EmptyString => True | String a _ => char_digit a = None end.

Lemma span_digits_app ds r :
  Forall (λ d, 0 <= d <= 9) ds → no_digit r →
  span_digits (string_of_digits ds +:+ r) = (ds, r).
Proof.
  intros Hds Hr. induction Hds as [|d ds Hd _ IH].
  - destruct r as [|a r]; [done|]. cbn [no_digit] in Hr.
    change (string_of_digits [] +:+ String a r) with (String a r).
    cbn [span_digits]. by rewrite Hr.
  - change (string_of_digits (d :: ds) +:+ r) with (String (digit_char d) (string_of_digits ds +:+ r)).
    cbn [span_digits]. rewrite (proj1 (digit_char_spec d Hd)), IH. reflexivity.
Qed.

Lemma string_of_digits_app ds es :
  string_of_digits (ds ++ es) = string_of_digits ds +:+ string_of_digits es.
Proof. induction ds as [|d ds IH]; simpl; [done|]. by rewrite IH. Qed.

Lemma value_be_app ds es :
  value_be (ds ++ es) = value_be ds * 10 ^ Z.of_nat (length es) + value_be es.
Proof.
  unfold value_be. rewrite foldl_app. generalize (foldl (λ a d, 10 * a + d) 0 ds).
  induction es as [|e es IH]; intros a; cbn [foldl length]; [lia|].
  rewrite IH, (IH (10 * 0 + e)), Nat2Z.inj_succ, Z.pow_succ_r by lia. lia.
Qed.

Lemma value_be_zeros k ds : value_be (replicate k 0 ++ ds) = value_be ds.
Proof. induction k as [|k IH]; cbn; [done|]. exact IH. Qed.

Lemma value_be_reverse ds : value_be (reverse ds) = value_le ds.
Proof.
  induction ds as [|d ds IH]; cbn [value_le]; [done|].
  rewrite reverse_cons, value_be_app, IH. cbn. lia.
Qed.

Section PrintParse.
Context (ip fp : list Z) (neg : bool).
Context (Hip : Forall (λ d, 0 <= d <= 9) ip) (Hfp : Forall (λ d, 0 <= d <= 9) fp).
Context (Hne : ip ≠ []).

Let body : string :=
  string_of_digits ip +:+ (match fp with [] => "" | _ => "." +:+ string_of_digits fp end).

(** A number written as an optional minus sign, an integer part and an
    optional fraction denotes what its digits say. *)
Lemma parse_decimal_plain :
  parse_decimal ((if neg then "-" else "") +:+ body) =
  Some (PyFinite (Dec (apply_sign neg (value_be (ip ++ fp))) (- Z.of_nat (length fp)))).
Proof using Hip Hfp Hne.
  assert (Hplain : all_plain ((if neg then "-" else "") +:+ body) = true).
  { rewrite all_plain_app. unfold body. rewrite all_plain_app, all_plain_digits by done.
    assert (Hs : all_plain (if neg then "-" else "") = true) by (by destruct neg).
    rewrite Hs. cbn [andb]. destruct fp as [|f fp']; [done|].
    rewrite all_plain_app, all_plain_digits by done. reflexivity. }
  assert (Hsign : split_sign ((if neg then "-" else "") +:+ body) = (neg, body)).
  { destruct neg; [done|]. unfold body. destruct ip as [|d ip']; [done|].
    inversion Hip as [|? ? Hd _]; subst. apply digit_cases in Hd.
    repeat (destruct Hd as [->|Hd]; [reflexivity|]). subst. reflexivity. }
  unfold parse_decimal. rewrite strip_plain, drop_underscores_plain by done.
  rewrite Hsign. unfold body. rewrite span_digits_app; [|done|by destruct fp].
  destruct fp as [|f fp'] eqn:Efp.
  - rewrite app_nil_r. rewrite bool_decide_eq_false_2 by done. reflexivity.
  - change ("." +:+ ?t) with (String "." t). cbv iota.
    rewrite <- (string_app_nil_r (string_of_digits (f :: fp'))).
    rewrite span_digits_app by done.
    rewrite bool_decide_eq_false_2 by (by destruct ip).
    reflexivity.
Qed.
End PrintParse.

(** Printing in plain notation, as integer and fraction digits. *)
Lemma dec_str_plain x :
  dexp x <= 0 → -6 < dexp x + ndigits (coef x) →
  ∃ ip fp, dec_str x = (if coef x <? 0 then "-" else "") +:+
      (string_of_digits ip +:+ (match fp with [] => "" | _ => "." +:+ string_of_digits fp end)) ∧
    Forall (λ d, 0 <= d <= 9) ip ∧ Forall (λ d, 0 <= d <= 9) fp ∧ ip ≠ [] ∧
    value_be (ip ++ fp) = Z.abs (coef x) ∧ - Z.of_nat (length fp) = dexp x.
Proof.
  intros He Hl. destruct (digits_spec (Z.abs (coef x)) ltac:(lia)) as (Hv & Hd & Hlen & _).
  unfold ndigits in Hl. unfold dec_str. rewrite length_reverse.
  set (ds := digits (Z.abs (coef x))) in *. cbn zeta in Hlen.
  rewrite (proj2 (Z.leb_le (dexp x) 0)) by done. rewrite (proj2 (Z.ltb_lt _ _) Hl). cbn [andb].
  set (lp := dexp x + Z.of_nat (length ds)) in *. rewrite Z.eqb_refl.
  rewrite string_app_nil_r. apply Forall_reverse in Hd. rewrite <- value_be_reverse in Hv.
  clearbody ds.
  destruct (Z.leb_spec lp 0) as [H0|H0].
  { exists [0], (replicate (Z.to_nat (- lp)) 0 ++ reverse ds). split_and!.
    - f_equal. rewrite string_of_digits_app.
      destruct (replicate _ 0 ++ reverse ds) eqn:E; [|done].
      apply app_nil in E as [_ E%(f_equal length)]. rewrite length_reverse in E. cbn in E. lia.
    - repeat constructor; lia.
    - apply Forall_app. split; [apply Forall_replicate; lia|done].
    - done.
    - change ([0] ++ ?l) with (replicate 1 0 ++ l). by rewrite !value_be_zeros.
    - rewrite length_app, length_replicate, length_reverse. unfold lp in *. lia. }
  destruct (Z.leb_spec (Z.of_nat (length ds)) lp) as [H1|H1].
  { assert (dexp x = 0) as E by (unfold lp in *; lia).
    exists (reverse ds), []. rewrite app_nil_r, string_app_nil_r.
    replace (lp - Z.of_nat (length ds)) with 0 by (unfold lp; lia).
    change (string_of_digits (replicate (Z.to_nat 0) 0)) with "". rewrite string_app_nil_r.
    split_and!; [done|done|constructor| |done|by rewrite E].
    intros E'%(f_equal length). rewrite length_reverse in E'. cbn in E'. lia. }
  exists (take (Z.to_nat lp) (reverse ds)), (drop (Z.to_nat lp) (reverse ds)). split_and!.
  - f_equal. f_equal. destruct (drop (Z.to_nat lp) (reverse ds)) eqn:E; [|done].
    apply (f_equal length) in E. rewrite length_drop, length_reverse in E. cbn in E. lia.
  - by apply Forall_take.
  - by apply Forall_drop.
  - intros E%(f_equal length). rewrite length_take, length_reverse in E. cbn in E. lia.
  - by rewrite take_drop.
  - rewrite length_drop, length_reverse. unfold lp in *. lia.
Qed.

(** [Decimal(str(x)) == x], coefficient and exponent, in plain notation. *)
Lemma parse_dec_str x :
  dexp x <= 0 → -6 < dexp x + ndigits (coef x) →
  parse_decimal (dec_str x) = Some (PyFinite x).
Proof.
  intros He Hl. destruct (dec_str_plain x He Hl) as (ip & fp & -> & Hip & Hfp & Hne & Hv & Hlen).
  rewrite parse_decimal_plain by done. rewrite Hv, Hlen. unfold apply_sign.
  destruct x as [c e]. cbn in *. do 3 f_equal. destruct (Z.ltb_spec c 0); lia.
Qed.

(** ** Lemmas: the order on decimals *)

(** Comparison may be made at any common exponent. *)
Lemma dec_compare_at e x y :
  e <= dexp x → e <= dexp y → dec_compare x y = (coef_at x e ?= coef_at y e).
Proof.
  intros Hx Hy. unfold dec_compare. set (m := Z.min (dexp x) (dexp y)).
  assert (Hm : e <= m) by (unfold m; lia).
  assert (Hsc : ∀ z, m <= dexp z → coef_at z e = coef_at z m * 10 ^ (m - e)).
  { intros z Hz. unfold coef_at. rewrite <- Z.mul_assoc, <- pow10_split by lia. do 2 f_equal. lia. }
  rewrite !Hsc by (unfold m; lia). apply Zmult_compare_compat_r.
  apply Z.lt_gt, pow10_pos. lia.
Qed.

Lemma dec_ltb_at e x y :
  e <= dexp x → e <= dexp y → dec_ltb x y = (coef_at x e <? coef_at y e).
Proof. intros. unfold dec_ltb, Z.ltb. by rewrite (dec_compare_at e). Qed.

Lemma dec_eqb_at e x y :
  e <= dexp x → e <= dexp y → dec_eqb x y = (coef_at x e =? coef_at y e).
Proof.
  intros. unfold dec_eqb. rewrite (dec_compare_at e) by done.
  destruct (Z.compare_spec (coef_at x e) (coef_at y e)); symmetry;
    [apply Z.eqb_eq|apply Z.eqb_neq|apply Z.eqb_neq]; lia.
Qed.

Lemma dec_leb_at e x y :
  e <= dexp x → e <= dexp y → dec_leb x y = (coef_at x e <=? coef_at y e).
Proof. intros. unfold dec_leb, Z.leb. by rewrite (dec_compare_at e). Qed.

Lemma dec_quotient_same_exp n w e : dec_quotient (Dec n e) (Dec w e) = dec_quotient (Dec n 0) (Dec w 0).
Proof. unfold dec_quotient. cbn [coef dexp]. by rewrite !Z.sub_diag. Qed.

(** ** Lemmas: quotients at other exponents *)

Lemma dec_fix_shift c e k : dec_fix (Dec c (e + k)) = Dec (coef (dec_fix (Dec c e))) (dexp (dec_fix (Dec c e)) + k).
Proof.
  unfold dec_fix. cbn [coef dexp]. destruct (_ <=? _); [done|]. cbn zeta. destruct (_ <=? _); cbn [coef dexp]; f_equal; lia.
Qed.

Lemma strip_zeros_shift f c e k :
  strip_zeros f c (e + k) = Dec (coef (strip_zeros f c e)) (dexp (strip_zeros f c e) + k).
Proof.
  revert c e. induction f as [|f IH]; intros c e; cbn [strip_zeros]; [done|]. destruct (_ =? 0); [|done].
  rewrite <- IH. f_equal. lia.
Qed.

(** Division only adds the difference of the exponents to the integer quotient. *)
Lemma dec_quotient_shift n a w b :
  dec_quotient (Dec n a) (Dec w b) =
    Dec (coef (dec_quotient (Dec n 0) (Dec w 0))) (dexp (dec_quotient (Dec n 0) (Dec w 0)) + (a - b)).
Proof.
  unfold dec_quotient. cbn [coef dexp]. destruct (n =? 0).
  { rewrite <- dec_fix_shift. do 2 f_equal. }
  cbn zeta. rewrite <- dec_fix_shift. set (s := ndigits _ - ndigits _ + PREC + 1).
  replace (a - b - s) with (0 - 0 - s + (a - b)) by lia.
  destruct (_ mod _ =? 0); [|done]. by rewrite strip_zeros_shift.
Qed.

(** The rounded quotient of two integers, scaled by [10 ^ j], is rounded to the
    integer it is within half of, as long as 26 digits hold the scaled dividend. *)
Lemma quotient_nearest n w j u :
  0 < n → 0 < w → 0 <= j → n * 10 ^ j < 10 ^ (PREC - 2) → 2 * Z.abs (n * 10 ^ j - u * w) < w →
  rescale (Dec (coef (dec_quotient (Dec n 0) (Dec w 0))) (dexp (dec_quotient (Dec n 0) (Dec w 0)) + j)) 0 = u.
Proof.
  intros Hn Hw Hj Hsmall Hnear. pose proof (pow10_pos j Hj) as Hpj. set (B := 10 ^ (PREC - 2)) in *.
  assert (HB : 10 ^ PREC = 100 * B ∧ 10 ^ (PREC - 1) = 10 * B ∧ 100 <= B) by (split_and!; done).
  destruct HB as (HB1 & HB2 & HB3).
  destruct (dec_quotient_spec n w ltac:(split; [lia|nia]) Hw) as (c & k & -> & Hk & Hc & Hcase). cbn [coef dexp].
  unfold rescale, coef_at. cbn [coef dexp]. destruct (Z.leb_spec 0 (- k + j)) as [Hle|Hgt].
  - replace (- k + j - 0) with (j - k) by lia.
    assert (E : 10 ^ j = 10 ^ k * 10 ^ (j - k)) by (rewrite <- pow10_split by lia; f_equal; lia).
    pose proof (pow10_pos (j - k) ltac:(lia)) as Hpd. pose proof (pow10_pos k Hk) as Hpk.
    destruct Hcase as [Hex|[Hc27 Herr]].
    + assert (Hx : c * 10 ^ (j - k) * w = n * 10 ^ j) by (rewrite E; nia). rewrite <- Hx in Hnear.
      replace (c * 10 ^ (j - k) * w - u * w) with ((c * 10 ^ (j - k) - u) * w) in Hnear by lia.
      rewrite Z.abs_mul, (Z.abs_eq w) in Hnear by lia. nia.
    + exfalso. assert (n * 10 ^ k <= n * 10 ^ j) by (rewrite E; nia). nia.
  - replace (0 - (- k + j)) with (k - j) by lia.
    assert (E : 10 ^ k = 10 ^ j * 10 ^ (k - j)) by (rewrite <- pow10_split by lia; f_equal; lia).
    pose proof (pow10_pos (k - j) ltac:(lia)) as HT. set (T := 10 ^ (k - j)) in *.
    apply (rhe_unique _ _ HT). rewrite E in Hcase. set (a := n * 10 ^ j) in *.
    replace (n * (10 ^ j * T)) with (a * T) in Hcase by (unfold a; lia). clearbody a T B. clear E Hgt Hk Hj.
    assert (Hw1 : 2 * Z.abs (a - u * w) <= w - 1) by lia.
    apply (Z.mul_lt_mono_pos_r w); [done|].
    assert (Habs : Z.abs (T * u - c) * w = Z.abs (T * (u * w - a) + (a * T - c * w))).
    { rewrite <- (Z.abs_eq w) at 1 by lia. rewrite <- Z.abs_mul. f_equal. lia. }
    assert (Hsum : 2 * (Z.abs (T * u - c) * w) <= T * w - T + 2 * Z.abs (c * w - a * T)).
    { rewrite Habs. assert (Ht : Z.abs (T * (u * w - a)) = T * Z.abs (a - u * w)).
      { rewrite Z.abs_mul, (Z.abs_eq T) by lia. f_equal. lia. }
      assert (Hm : T * (2 * Z.abs (a - u * w)) <= T * (w - 1)) by (apply Z.mul_le_mono_nonneg_l; lia).
      replace (T * (w - 1)) with (T * w - T) in Hm by lia. lia. }
    destruct Hcase as [Hex|[Hc27 Herr]].
    + rewrite Hex in Hsum. replace (a * T - a * T) with 0 in Hsum by lia. lia.
    + assert (5 * w < T); [|lia].
      assert (H1 : 10 * B * w <= c * w) by (apply Z.mul_le_mono_nonneg_r; lia).
      assert (H2 : a * T <= B * T) by (apply Z.mul_le_mono_nonneg_r; lia).
      assert (H3 : B * (9 * w) < B * T) by (clear -H1 H2 Herr HB3 Hw; nia).
      apply (Z.mul_lt_mono_pos_l B) in H3; lia.
Qed.

Lemma rescale_shift c e f k : rescale (Dec c (e + k)) (f + k) = rescale (Dec c e) f.
Proof.
  unfold rescale, coef_at. cbn [coef dexp]. replace (e + k - (f + k)) with (e - f) by lia.
  replace (f + k - (e + k)) with (f - e) by lia. by destruct (Z.leb_spec f e), (Z.leb_spec (f + k) (e + k)); try lia.
Qed.
