(* ===== verification/MoneyTypes.v ===== *)
(** * Typed money, units and prices ([app/core/money.py])

    [Money] ([NUMERIC(18,4)]), [Units] ([NUMERIC(28,6)]) and [Price]
    ([NUMERIC(18,6)]) are one record indexed by its dimension.  The constructor
    always quantizes, so a value is its number of quanta; [value] gives back the
    [Decimal] the class stores.  Every operation goes through the decimal
    arithmetic of [PyDecimal] and through the constructor, as the methods do,
    and raises what they raise.  Python values of unknown type ([pyval]) are
    kept where a method dispatches on [isinstance]. *)

From S2P Require Import Prelude PyDecimal.
From Stdlib Require Import String.
From stdpp Require Import strings.
Open Scope Z_scope.

(** ** Data *)

Inductive dim := MoneyD | UnitsD | PriceD.

#[export] Instance dim_eq_dec : EqDecision dim.
Proof. solve_decision. Defined.

(** [_scale] and [_precision] of the three classes. *)
Definition scale (d : dim) : Z := match d with MoneyD => 4 | UnitsD => 6 | PriceD => 6 end.
Definition precision (d : dim) : Z := match d with MoneyD => 18 | UnitsD => 28 | PriceD => 18 end.

(** An instance of [_QuantizedDecimal]: [quanta * 10 ^ -_scale]. *)
Record qd (d : dim) := QD { quanta : Z }.
Arguments QD {d} quanta.
Arguments quanta {d} _.

Abbreviation Money := (qd MoneyD).
Abbreviation Units := (qd UnitsD).
Abbreviation Price := (qd PriceD).

#[export] Instance qd_eq_dec d : EqDecision (qd d).
Proof. solve_decision. Defined.

(** [self._value]. *)
Definition value {d} (q : qd d) : dec := Dec (quanta q) (- scale d).

(** A Python value, as far as the constructor and the operators tell values apart. *)
Inductive pyval :=
  | VBool (b : bool) | VInt (n : Z) | VFloat | VStr (s : string)
  | VDecimal (x : pydec) | VQd (d : dim) (q : qd d) | VOther.

(** ** Construction *)

(** [_quantum()] *)
Definition quantum (d : dim) : dec := Dec 1 (- scale d).

Definition validate_precision (d : dim) (v : dec) : result () :=
  let integer_digits := ndigits (dec_trunc (dec_abs v)) in
  if precision d <? integer_digits + scale d then Raise ValueError else Ok tt.

(** [Decimal(value)] for the types the constructor accepts. *)
Definition to_decimal (d : dim) (v : pyval) : result pydec :=
  match v with
  | VBool _ => Raise TypeError
  | VFloat => Raise TypeError
  | VQd d' q => if decide (d' = d) then Ok (PyFinite (value q)) else Raise TypeError
  | VStr s => match parse_decimal s with Some x => Ok x | None => Raise ValueError end
  | VInt n => Ok (PyFinite (dec_of_Z n))
  | VDecimal x => Ok x
  | VOther => Raise TypeError
  end.

(** [__init__] *)
Definition init (d : dim) (v : pyval) : result (qd d) :=
  decimal_value ← to_decimal d v;
  match decimal_value with
  | PyNonFinite => Raise ValueError
  | PyFinite x =>
      quantized ← dec_quantize x (- scale d);
      validate_precision d quantized ;;
      Ok (QD (coef quantized))
  end.

(** [type(self)(x)] on a [Decimal]. *)
Definition of_dec (d : dim) (x : dec) : result (qd d) := init d (VDecimal (PyFinite x)).

(** ** Same-dimension arithmetic and comparison *)

(** [_require_same_type] *)
Definition require_same_type (d d' : dim) : result () :=
  if decide (d' = d) then Ok tt else Raise TypeError.

Definition q_add {d d'} (a : qd d) (b : qd d') : result (qd d) :=
  require_same_type d d' ;; of_dec d (dec_add (value a) (value b)).

Definition q_sub {d d'} (a : qd d) (b : qd d') : result (qd d) :=
  require_same_type d d' ;; of_dec d (dec_sub (value a) (value b)).

Definition q_neg {d} (a : qd d) : result (qd d) := of_dec d (dec_neg (value a)).
Definition q_abs {d} (a : qd d) : result (qd d) := of_dec d (dec_abs (value a)).

(** [__eq__]: comparing two dimensions is a [TypeError], not [False]. *)
Definition q_eq {d d'} (a : qd d) (b : qd d') : result bool :=
  require_same_type d d' ;; Ok (dec_eqb (value a) (value b)).
Definition q_lt {d d'} (a : qd d) (b : qd d') : result bool :=
  require_same_type d d' ;; Ok (dec_ltb (value a) (value b)).
Definition q_le {d d'} (a : qd d) (b : qd d') : result bool :=
  require_same_type d d' ;; Ok (dec_leb (value a) (value b)).
Definition q_gt {d d'} (a : qd d) (b : qd d') : result bool :=
  require_same_type d d' ;; Ok (dec_ltb (value b) (value a)).
Definition q_ge {d d'} (a : qd d) (b : qd d') : result bool :=
  require_same_type d d' ;; Ok (dec_leb (value b) (value a)).

(** ** Multiplication and division *)

(** [_scalar_to_decimal] *)
Definition scalar_to_decimal (v : pyval) : result dec :=
  match v with
  | VBool _ => Raise TypeError
  | VFloat => Raise TypeError
  | VDecimal (PyFinite x) => Ok x
  | VInt n => Ok (dec_of_Z n)
  | _ => Raise TypeError
  end.

(** The typed operations the services call. *)
Definition scale_by {d} (q : qd d) (x : dec) : result (qd d) := of_dec d (dec_mul (value q) x).

Definition price_times_units (p : Price) (u : Units) : result Money :=
  of_dec MoneyD (dec_mul (value p) (value u)).

Definition units_times_price (u : Units) (p : Price) : result Money :=
  of_dec MoneyD (dec_mul (value u) (value p)).

(** [self._value / other._value], after the explicit zero test. *)
Definition ratio {d d'} (a : qd d) (b : qd d') : result dec :=
  if dec_eqb (value b) (dec_of_Z 0) then Raise ZeroDivisionError
  else dec_div (value a) (value b).

Definition money_div_units (m : Money) (u : Units) : result Price :=
  x ← ratio m u; of_dec PriceD x.

Definition money_div_price (m : Money) (p : Price) : result Units :=
  x ← ratio m p; of_dec UnitsD x.

Definition div_scalar {d} (q : qd d) (x : dec) : result (qd d) :=
  if dec_eqb x (dec_of_Z 0) then Raise ZeroDivisionError
  else y ← dec_div (value q) x; of_dec d y.

(** [__mul__] of the three classes, with its dispatch. *)
Definition py_mul {d} (q : qd d) (other : pyval) : result pyval :=
  match d return qd d → result pyval with
  | MoneyD => λ m,
      x ← scalar_to_decimal other; r ← scale_by m x; Ok (VQd MoneyD r)
  | UnitsD => λ u,
      match other with
      | VQd PriceD p => r ← units_times_price u p; Ok (VQd MoneyD r)
      | _ => x ← scalar_to_decimal other; r ← scale_by u x; Ok (VQd UnitsD r)
      end
  | PriceD => λ p,
      match other with
      | VQd UnitsD u => r ← price_times_units p u; Ok (VQd MoneyD r)
      | _ => x ← scalar_to_decimal other; r ← scale_by p x; Ok (VQd PriceD r)
      end
  end q.

(** [__truediv__] of the three classes, with its dispatch. *)
Definition py_truediv {d} (q : qd d) (other : pyval) : result pyval :=
  match d return qd d → result pyval with
  | MoneyD => λ m,
      match other with
      | VQd MoneyD m' => x ← ratio m m'; Ok (VDecimal (PyFinite x))
      | VQd UnitsD u => r ← money_div_units m u; Ok (VQd PriceD r)
      | VQd PriceD p => r ← money_div_price m p; Ok (VQd UnitsD r)
      | _ => x ← scalar_to_decimal other; r ← div_scalar m x; Ok (VQd MoneyD r)
      end
  | UnitsD => λ u,
      match other with
      | VQd UnitsD u' => x ← ratio u u'; Ok (VDecimal (PyFinite x))
      | _ => x ← scalar_to_decimal other; r ← div_scalar u x; Ok (VQd UnitsD r)
      end
  | PriceD => λ p,
      match other with
      | VQd PriceD p' => x ← ratio p p'; Ok (VDecimal (PyFinite x))
      | _ => x ← scalar_to_decimal other; r ← div_scalar p x; Ok (VQd PriceD r)
      end
  end q.

(** ** Allocation *)

(** [order[:n]] with Python's meaning of a negative bound. *)
Definition py_take {A} (n : Z) (l : list A) : list A :=
  if 0 <=? n then take (Z.to_nat n) l
  else take (length l - Z.to_nat (- n)) l.

(** The sort key [(-remainders[i], i)]: larger remainder first, then index. *)
Definition key_le (a b : dec * nat) : Prop :=
  dec_ltb (dec_neg a.1) (dec_neg b.1) = true ∨
  (dec_eqb (dec_neg a.1) (dec_neg b.1) = true ∧ (a.2 ≤ b.2)%nat).

#[export] Instance key_le_dec a b : Decision (key_le a b).
Proof. unfold key_le. apply _. Defined.

Definition raw_share (total weight total_weight : Z) : result dec :=
  dec_div (dec_mul (dec_of_Z total) (dec_of_Z weight)) (dec_of_Z total_weight).

(** [sorted(range(len(weights)), key=...)] *)
Definition remainder_order (remainders : list dec) : list nat :=
  (merge_sort key_le (zip remainders (seq 0 (length remainders)))).*2.

Definition allocate {d} (q : qd d) (weights : list Z) : result (list (qd d)) :=
  ensure (negb (bool_decide (weights = []))) ValueError ;;
  ensure (forallb (λ w, 0 <=? w) weights) ValueError ;;
  let total_weight := sum_by id weights in
  ensure (0 <? total_weight) ValueError ;;
  let sign := if quanta q <? 0 then -1 else 1 in
  magnitude ← q_abs q;
  units_dec ← dec_div (value magnitude) (quantum d);
  let total_smallest_units := dec_trunc units_dec in
  raw_shares ← map_result (λ w, raw_share total_smallest_units w total_weight) weights;
  let base_units := dec_trunc <$> raw_shares in
  let remainders := zip_with (λ raw base, dec_sub raw (dec_of_Z base)) raw_shares base_units in
  let leftover := total_smallest_units - sum_by id base_units in
  let chosen := py_take leftover (remainder_order remainders) in
  let final_units := imap (λ i u, if bool_decide (i ∈ chosen) then u + 1 else u) base_units in
  map_result (λ u, of_dec d (dec_mul (dec_mul (dec_of_Z u) (quantum d)) (dec_of_Z sign))) final_units.

(** ** Strings, JSON and the database *)

(** [__str__] *)
Definition q_str {d} (q : qd d) : string := dec_str (value q).

(** The Pydantic validator: an instance is kept, a [TypeError] becomes a [ValueError]. *)
Definition pydantic_validate (d : dim) (v : pyval) : result (qd d) :=
  match v with
  | VQd d' q => match decide (d' = d) with
                | left e => Ok (eq_rect d' qd q d e)
                | right _ => Raise ValueError
                end
  | _ => match init d v with
         | Raise TypeError => Raise ValueError
         | r => r
         end
  end.

(** [MoneyType], [UnitsType], [PriceType]. *)
Definition process_bind_param (d : dim) (v : option pyval) : result (option dec) :=
  match v with
  | None => Ok None
  | Some (VQd d' q) => if decide (d' = d) then Ok (Some (value q)) else Raise TypeError
  | Some _ => Raise TypeError
  end.

Definition process_result_value (d : dim) (v : option dec) : result (option (qd d)) :=
  match v with
  | None => Ok None
  | Some x => q ← of_dec d x; Ok (Some q)
  end.

(** ** Comparisons and constants of one dimension, as the services use them *)

Definition zero {d} : qd d := QD 0.
Definition q_eqb {d} (a b : qd d) : bool := quanta a =? quanta b.
Definition q_ltb {d} (a b : qd d) : bool := quanta a <? quanta b.
Definition q_leb {d} (a b : qd d) : bool := quanta a <=? quanta b.

(** [min(a, b)]. *)
Definition q_min {d} (a b : qd d) : qd d := if q_ltb b a then b else a.

(** [total = zero; for x in l: total = total + x]. *)
Definition q_sum {d} (l : list (qd d)) : result (qd d) := foldr_result q_add l zero.

(** A database [SUM]: exact, then converted by the column type. *)
Definition sql_sum {d} (l : list (qd d)) : result (qd d) :=
  of_dec d (Dec (sum_by (@quanta d) l) (- scale d)).

(** ** Lemmas: the constructor *)

(** The type invariant: the value fits its [NUMERIC(precision, scale)] column. *)
Definition in_range (d : dim) (z : Z) : bool := Z.abs z <? 10 ^ precision d.
Definition wf {d} (q : qd d) : Prop := in_range d (quanta q) = true.

(** What an overflow raises: the precision check never runs for [Units], whose
    28 digits are the decimal context's, so [quantize] raises first. *)
Definition overflow (d : dim) : exn :=
  match d with UnitsD => InvalidOperation | _ => ValueError end.

Lemma scale_precision d : 0 < scale d ∧ scale d < precision d ∧ precision d <= PREC.
Proof. by destruct d. Qed.

Lemma in_range_spec d z : in_range d z = true ↔ Z.abs z < 10 ^ precision d.
Proof. unfold in_range. by rewrite Z.ltb_lt. Qed.

Lemma precision_PREC d : 10 ^ precision d <= 10 ^ PREC.
Proof. apply pow10_mono. pose proof (scale_precision d). lia. Qed.

Lemma in_range_PREC d z : in_range d z = true → Z.abs z < 10 ^ PREC.
Proof. rewrite in_range_spec. pose proof (precision_PREC d). lia. Qed.

Lemma validate_precision_spec d c :
  Z.abs c < 10 ^ PREC →
  validate_precision d (Dec c (- scale d)) = if in_range d c then Ok tt else Raise ValueError.
Proof.
  intros Hc. unfold validate_precision, dec_abs. cbn [coef dexp].
  rewrite dec_fix_id by (cbn; lia). unfold dec_trunc. cbn [coef dexp].
  destruct (scale_precision d) as (Hs & Hp & _).
  rewrite (proj2 (Z.leb_gt 0 (- scale d))), Z.opp_involutive by lia.
  pose proof (pow10_pos (scale d) ltac:(lia)) as Hps.
  rewrite Z.quot_div_nonneg by lia.
  assert (Hn : 0 <= Z.abs c / 10 ^ scale d) by (apply Z.div_pos; lia).
  assert (Heq : in_range d c = negb (precision d <? ndigits (Z.abs c / 10 ^ scale d) + scale d)).
  { apply eq_true_iff_eq. rewrite in_range_spec, negb_true_iff, Z.ltb_ge.
    assert (ndigits (Z.abs c / 10 ^ scale d) + scale d <= precision d ↔
            ndigits (Z.abs c / 10 ^ scale d) <= precision d - scale d) as -> by lia.
    rewrite ndigits_le, (Z.abs_eq (Z.abs c / 10 ^ scale d)) by lia.
    assert (10 ^ precision d = 10 ^ (precision d - scale d) * 10 ^ scale d) as ->.
    { rewrite <- pow10_split by lia. f_equal. lia. }
    split; intros; [apply Z.div_lt_upper_bound; lia|].
    pose proof (Z.mul_succ_div_gt (Z.abs c) (10 ^ scale d) Hps). nia. }
  rewrite Heq. by destruct (_ <? _).
Qed.

(** The constructor on a decimal: half-even rounding to the scale, then the
    range check, with the two exceptions it can raise. *)
Lemma of_dec_spec d x :
  of_dec d x =
    let c := rescale x (- scale d) in
    if in_range d c then Ok (QD c)
    else Raise (if Z.abs c <? 10 ^ PREC then ValueError else InvalidOperation).
Proof.
  unfold of_dec, init. cbn [to_decimal mbind result_bind]. cbn zeta.
  rewrite dec_quantize_spec. set (c := rescale x (- scale d)).
  destruct (Z.ltb_spec (Z.abs c) (10 ^ PREC)) as [Hc|Hc]; cbn [mbind result_bind].
  - rewrite validate_precision_spec by done. by destruct (in_range d c).
  - destruct (in_range d c) eqn:E; [|done]. apply in_range_PREC in E. lia.
Qed.

Lemma of_dec_same d c :
  of_dec d (Dec c (- scale d)) =
    if in_range d c then Ok (QD c)
    else Raise (if Z.abs c <? 10 ^ PREC then ValueError else InvalidOperation).
Proof. by rewrite of_dec_spec, rescale_same. Qed.

(** Values an operation on this dimension can produce without a range error. *)
Definition check_range (d : dim) (z : Z) : result (qd d) :=
  if in_range d z then Ok (QD z) else Raise (overflow d).

Lemma check_range_Ok d z q : check_range d z = Ok q ↔ in_range d z = true ∧ q = QD z.
Proof.
  unfold check_range. destruct (in_range d z); split.
  - by intros [= <-].
  - by intros [_ ->].
  - done.
  - by intros [? _].
Qed.

(** A result too large for the context stays too large for the column. *)
Lemma rescale_fix_large d z :
  10 ^ PREC <= Z.abs z →
  10 ^ PREC <= Z.abs (rescale (dec_fix (Dec z (- scale d))) (- scale d)).
Proof.
  intros Hs. destruct (dec_fix_large (Dec z (- scale d)) Hs) as (H1 & _ & H3 & _).
  set (y := dec_fix _) in *. cbn [dexp] in H3.
  unfold rescale. rewrite (proj2 (Z.leb_le _ _)) by lia. unfold coef_at.
  pose proof (pow10_mono 1 (dexp y - - scale d) ltac:(lia)).
  rewrite Z.abs_mul, (Z.abs_eq (10 ^ _)) by lia.
  change (10 ^ PREC) with (10 ^ (PREC - 1) * 10). apply Z.mul_le_mono_nonneg; lia.
Qed.

(** A sum or difference through the context's rounding: exact, or an exception. *)
Lemma of_dec_fix_Ok d z c :
  of_dec d (dec_fix (Dec z (- scale d))) = Ok c → in_range d z = true ∧ c = QD z.
Proof.
  destruct (Z.lt_ge_cases (Z.abs z) (10 ^ PREC)) as [Hs|Hs].
  - rewrite dec_fix_id, of_dec_same by done. destruct (in_range d z); [|done]. by intros [= <-].
  - apply (rescale_fix_large d) in Hs. rewrite of_dec_spec. cbn zeta.
    destruct (in_range d _) eqn:E; [|done]. apply in_range_PREC in E. lia.
Qed.

Lemma of_dec_fix_check d z :
  Z.abs z < 2 * 10 ^ precision d →
  of_dec d (dec_fix (Dec z (- scale d))) = check_range d z.
Proof.
  intros Hz. unfold check_range. destruct (Z.lt_ge_cases (Z.abs z) (10 ^ PREC)) as [Hs|Hs].
  - rewrite dec_fix_id, of_dec_same by done. rewrite (proj2 (Z.ltb_lt _ _) Hs).
    destruct d; try done. cbn [overflow]. destruct (in_range UnitsD z) eqn:E; [done|].
    unfold in_range in E. zbool. change (precision UnitsD) with PREC in E. lia.
  - assert (d = UnitsD) as ->.
    { destruct d; [|done|]; exfalso; revert Hz Hs; cbn [precision]; unfold PREC; lia. }
    assert (in_range UnitsD z = false) as -> by (by apply Z.ltb_ge).
    apply (rescale_fix_large UnitsD) in Hs. rewrite of_dec_spec. cbn zeta.
    assert (in_range UnitsD (rescale (dec_fix (Dec z (- scale UnitsD))) (- scale UnitsD)) = false) as ->
      by (by apply Z.ltb_ge).
    by rewrite (proj2 (Z.ltb_ge _ _) Hs).
Qed.

Lemma require_same d : require_same_type d d = Ok tt.
Proof. unfold require_same_type. by rewrite decide_True. Qed.

Lemma q_add_spec d (a b : qd d) :
  wf a → wf b → q_add a b = check_range d (quanta a + quanta b).
Proof.
  unfold wf. rewrite !in_range_spec. intros Ha Hb. unfold q_add. rewrite require_same.
  cbn [mbind result_bind]. unfold dec_add, value. cbn [dexp]. rewrite Z.min_id, !coef_at_same.
  apply of_dec_fix_check. lia.
Qed.

Lemma q_sub_spec d (a b : qd d) :
  wf a → wf b → q_sub a b = check_range d (quanta a - quanta b).
Proof.
  unfold wf. rewrite !in_range_spec. intros Ha Hb. unfold q_sub. rewrite require_same.
  cbn [mbind result_bind]. unfold dec_sub, value. cbn [dexp]. rewrite Z.min_id, !coef_at_same.
  apply of_dec_fix_check. lia.
Qed.

Lemma q_neg_spec d (a : qd d) : wf a → q_neg a = Ok (QD (- quanta a)).
Proof.
  unfold wf. intros Ha. pose proof Ha as Hr. apply in_range_spec in Ha. unfold q_neg, dec_neg.
  cbn [coef dexp value]. rewrite of_dec_fix_check by lia. unfold check_range.
  assert (in_range d (- quanta a) = true) as ->; [|done]. apply in_range_spec. lia.
Qed.

Lemma q_abs_spec d (a : qd d) : wf a → q_abs a = Ok (QD (Z.abs (quanta a))).
Proof.
  unfold wf. intros Ha. apply in_range_spec in Ha. unfold q_abs, dec_abs.
  cbn [coef dexp value]. rewrite of_dec_fix_check by lia. unfold check_range.
  assert (in_range d (Z.abs (quanta a)) = true) as ->; [|done]. apply in_range_spec. lia.
Qed.

(** ** Lemmas: results of the constructor are well formed *)

Lemma of_dec_Ok d x q :
  of_dec d x = Ok q → wf q ∧ quanta q = rescale x (- scale d).
Proof.
  rewrite of_dec_spec. cbn zeta. destruct (in_range d _) eqn:E; [|done].
  intros [= <-]. done.
Qed.

Lemma of_dec_wf d x q : of_dec d x = Ok q → wf q.
Proof. apply of_dec_Ok. Qed.

Lemma init_inv d v q :
  init d v = Ok q → ∃ x, to_decimal d v = Ok (PyFinite x) ∧ of_dec d x = Ok q.
Proof.
  unfold init. rewrite bind_Ok. intros ([x|] & Hd & H); [|done]. exists x. split; [done|]. exact H.
Qed.

Lemma zero_wf {d} : wf (zero : qd d).
Proof. by destruct d. Qed.

Lemma wf_opp {d} (z : Z) : wf (@QD d z) → wf (@QD d (- z)).
Proof. unfold wf. rewrite !in_range_spec. cbn. by rewrite Z.abs_opp. Qed.

Lemma q_add_Ok {d} (a b c : qd d) :
  q_add a b = Ok c → wf c ∧ quanta c = quanta a + quanta b.
Proof.
  unfold q_add. rewrite require_same. cbn [mbind result_bind]. unfold dec_add, value.
  cbn [dexp]. rewrite Z.min_id, !coef_at_same. by intros [? ->]%of_dec_fix_Ok.
Qed.

Lemma q_sub_Ok {d} (a b c : qd d) :
  q_sub a b = Ok c → wf c ∧ quanta c = quanta a - quanta b.
Proof.
  unfold q_sub. rewrite require_same. cbn [mbind result_bind]. unfold dec_sub, value.
  cbn [dexp]. rewrite Z.min_id, !coef_at_same. by intros [? ->]%of_dec_fix_Ok.
Qed.

Lemma q_neg_Ok {d} (a b : qd d) : q_neg a = Ok b → wf b ∧ quanta b = - quanta a.
Proof.
  unfold q_neg, dec_neg, value. cbn [coef dexp]. by intros [? ->]%of_dec_fix_Ok.
Qed.

Lemma q_abs_Ok {d} (a b : qd d) : q_abs a = Ok b → wf b ∧ quanta b = Z.abs (quanta a).
Proof.
  unfold q_abs, dec_abs, value. cbn [coef dexp]. by intros [? ->]%of_dec_fix_Ok.
Qed.

Lemma q_add_wf {d d'} (a : qd d) (b : qd d') c : q_add a b = Ok c → wf c.
Proof. unfold q_add. rewrite bind_Ok. intros (? & _ & H). by apply of_dec_wf in H. Qed.

Lemma q_sub_wf {d d'} (a : qd d) (b : qd d') c : q_sub a b = Ok c → wf c.
Proof. unfold q_sub. rewrite bind_Ok. intros (? & _ & H). by apply of_dec_wf in H. Qed.

Lemma q_neg_wf {d} (a b : qd d) : q_neg a = Ok b → wf b.
Proof. apply of_dec_wf. Qed.

Lemma price_times_units_wf p u m : price_times_units p u = Ok m → wf m.
Proof. apply of_dec_wf. Qed.

Lemma money_div_units_wf m u p : money_div_units m u = Ok p → wf p.
Proof. unfold money_div_units. rewrite bind_Ok. intros (? & _ & H). by apply of_dec_wf in H. Qed.

Lemma scale_by_wf {d} (q r : qd d) x : scale_by q x = Ok r → wf r.
Proof. apply of_dec_wf. Qed.

Create HintDb money.
#[export] Hint Resolve zero_wf q_add_wf q_sub_wf q_neg_wf price_times_units_wf
  money_div_units_wf scale_by_wf of_dec_wf : money.

(** Folding [+] over a list: the exact sum, or an exception. *)
Lemma foldr_q_add_Ok {d} (l : list (qd d)) (acc total : qd d) :
  foldr_result q_add l acc = Ok total → quanta total = quanta acc + sum_by (@quanta d) l.
Proof.
  revert acc. induction l as [|x l IH]; intros acc; cbn [foldr_result].
  - intros [= <-]. rewrite sum_by_nil. lia.
  - rewrite bind_Ok. intros (a & Ha & H). apply q_add_Ok in Ha as [_ Ha].
    apply IH in H. rewrite sum_by_cons. lia.
Qed.

Lemma q_sum_Ok {d} (l : list (qd d)) (total : qd d) :
  q_sum l = Ok total → quanta total = sum_by (@quanta d) l.
Proof. intros H. apply foldr_q_add_Ok in H. exact H. Qed.

Lemma sql_sum_Ok d (l : list (qd d)) (total : qd d) :
  sql_sum l = Ok total → wf total ∧ quanta total = sum_by (@quanta d) l.
Proof.
  unfold sql_sum. rewrite of_dec_same. destruct (in_range d _) eqn:E; [|done].
  intros [= <-]. done.
Qed.

(** ** Allocation: the largest-remainder method *)

(** What [allocate] promises: [total] split over [ws] in proportion, each part
    the floor of its exact share or one more, the extra units going to the
    largest exact remainders, and between equal weights to the first. *)
Definition apportionment (total : Z) (ws us : list Z) : Prop :=
  let W := sum_by id ws in
  sum_by id us = total ∧
  ∃ extra : nat → bool,
    us = imap (λ i w, total * w / W + (if extra i then 1 else 0)) ws ∧
    ∀ i j wi wj, ws !! i = Some wi → ws !! j = Some wj → extra i = true → extra j = false →
      (total * wj) mod W <= (total * wi) mod W ∧ (wi = wj → (i < j)%nat).

Section Share.
Context (T w W : Z).
Context (HT : 0 <= T < 10 ^ 18) (Hw : 0 <= w <= W) (HW : 0 < W <= 10 ^ 9).

Let x := T * w.

(** The remainder of one raw share: [(c, k)] stands for [c / 10 ^ k]. *)
Definition near_remainder (c k : Z) : Prop :=
  0 <= k ∧ 0 <= c < 10 ^ k ∧
  (c * W = x mod W * 10 ^ k ∨
   10 ^ 10 <= 10 ^ k ∧ 10 * Z.abs (c * W - x mod W * 10 ^ k) <= 6 * W).

Lemma share_bounds : 0 <= x ∧ x < 10 ^ PREC ∧ x <= T * W.
Proof using HT Hw HW.
  unfold x. change (10 ^ PREC) with (10 ^ 18 * 10 ^ 10).
  assert (T * w <= T * W) by (apply Z.mul_le_mono_nonneg_l; lia).
  assert (T * W <= 10 ^ 18 * 10 ^ 9) by (apply Z.mul_le_mono_nonneg; lia).
  assert (10 ^ 18 * 10 ^ 9 < 10 ^ 18 * 10 ^ 10) by done. lia.
Qed.

Lemma raw_share_Ok : raw_share T w W = Ok (dec_quotient (Dec x 0) (Dec W 0)).
Proof using HT Hw HW.
  pose proof share_bounds as (H0 & H1 & _). unfold raw_share, dec_div, dec_of_Z, dec_mul.
  cbn [coef dexp]. fold x. rewrite dec_fix_id by (cbn [coef]; lia).
  by rewrite (proj2 (Z.eqb_neq W 0)) by lia.
Qed.

Lemma share_spec :
  ∃ c k, dec_quotient (Dec x 0) (Dec W 0) = Dec (x / W * 10 ^ k + c) (- k) ∧
         x / W * 10 ^ k + c < 10 ^ PREC ∧ near_remainder c k.
Proof using HT Hw HW.
  pose proof share_bounds as (H0 & H1 & H2).
  pose proof (Z.div_mod x W ltac:(lia)) as Hdm. pose proof (Z.mod_pos_bound x W ltac:(lia)) as Hmb.
  set (f := x / W) in *. set (a := x mod W) in *.
  assert (Hf : 0 <= f) by (apply Z.div_pos; lia).
  assert (HfT : f <= T) by (apply Z.div_le_upper_bound; lia).
  destruct (Z.eq_dec a 0) as [Ha|Ha].
  { exists 0, 0. unfold near_remainder. fold a. rewrite Ha, Z.add_0_r, Z.mul_1_r.
    assert (f < 10 ^ PREC) by (assert (10 ^ 18 < 10 ^ PREC) by done; lia).
    split_and!; try lia.
    destruct (Z.eq_dec x 0) as [Hx|Hx].
    - rewrite Hx. assert (f = 0) as -> by (unfold f; rewrite Hx; apply Z.div_0_l; lia). done.
    - apply dec_quotient_exact; [lia|lia|]. exact Ha. }
  destruct (dec_quotient_spec x W ltac:(lia) ltac:(lia)) as (c & k & -> & Hk & [Hc Hcub] & Hcase).
  pose proof (pow10_pos k Hk) as Hpk.
  assert (Hrem : c * W - x * 10 ^ k = (c - f * 10 ^ k) * W - a * 10 ^ k) by (rewrite Hdm at 1; lia).
  assert (Hk10 : Z.abs (c * W - x * 10 ^ k) ≠ 0 → 10 ^ 10 <= 10 ^ k).
  { intros Hne. destruct Hcase as [Hex|[[Hcl _] Herr]]; [lia|].
    apply pow10_mono. split; [lia|]. destruct (Z.le_gt_cases 10 k) as [|Hlt]; [done|exfalso].
    pose proof (pow10_mono k 9 ltac:(lia)) as H9.
    assert (x * 10 ^ k <= (10 ^ 18 - 1) * W * 10 ^ 9).
    { apply Z.mul_le_mono_nonneg; [lia| |lia|lia].
      transitivity (T * W); [lia|]. apply Z.mul_le_mono_nonneg_r; lia. }
    assert (10 ^ (PREC - 1) * W <= c * W) by (apply Z.mul_le_mono_nonneg_r; lia).
    change (10 ^ (PREC - 1)) with (10 ^ 18 * 10 ^ 9) in *. lia. }
  exists (c - f * 10 ^ k), k. unfold near_remainder. fold a.
  replace (f * 10 ^ k + (c - f * 10 ^ k)) with c by lia.
  assert (Hnear : (c - f * 10 ^ k) * W = a * 10 ^ k ∨
    10 ^ 10 <= 10 ^ k ∧ 10 * Z.abs ((c - f * 10 ^ k) * W - a * 10 ^ k) <= 6 * W).
  { rewrite <- Hrem. destruct (Z.eq_dec (Z.abs (c * W - x * 10 ^ k)) 0) as [E|E]; [left; lia|right].
    split; [by apply Hk10|]. destruct Hcase as [|[_ ?]]; lia. }
  set (r := c - f * 10 ^ k) in *.
  assert (Hr0 : 0 <= r * W ∧ r * W < W * 10 ^ k).
  { destruct Hnear as [E|[E1 E2]].
    - rewrite E. split; [apply Z.mul_nonneg_nonneg; lia|apply Z.mul_lt_mono_pos_r; lia].
    - assert (1 * 10 ^ k <= a * 10 ^ k) by (apply Z.mul_le_mono_nonneg_r; lia).
      assert (a * 10 ^ k <= (W - 1) * 10 ^ k) by (apply Z.mul_le_mono_nonneg_r; lia). lia. }
  split_and!; [done| |done| | |done].
  - lia.
  - destruct (Z.le_gt_cases 0 r) as [|Hneg]; [done|].
    assert (r * W < 0 * W) by (apply Z.mul_lt_mono_pos_r; lia). lia.
  - apply (Z.mul_lt_mono_pos_r W); lia.
Qed.
End Share.

(** The sort key is a total preorder. *)
#[export] Instance key_le_total : Total key_le.
Proof.
  intros [x i] [y j]. unfold key_le. cbn. set (e := Z.min (dexp (dec_neg x)) (dexp (dec_neg y))).
  rewrite !(dec_ltb_at e), !(dec_eqb_at e) by (unfold e; lia).
  rewrite !Z.ltb_lt, !Z.eqb_eq. lia.
Qed.

#[export] Instance key_le_trans : Transitive key_le.
Proof.
  intros [x i] [y j] [z k]. unfold key_le. cbn.
  set (e := Z.min (dexp (dec_neg x)) (Z.min (dexp (dec_neg y)) (dexp (dec_neg z)))).
  rewrite !(dec_ltb_at e), !(dec_eqb_at e) by (unfold e; lia).
  rewrite !Z.ltb_lt, !Z.eqb_eq. lia.
Qed.

Lemma remainder_order_perm rs : remainder_order rs ≡ₚ seq 0 (length rs).
Proof.
  unfold remainder_order. rewrite merge_sort_Permutation.
  rewrite snd_zip; [done|]. by rewrite length_seq.
Qed.

Lemma key_le_same x i j : key_le (x, i) (x, j) → (i ≤ j)%nat.
Proof.
  unfold key_le. cbn [fst snd]. intros [H|[_ H]]; [|done]. exfalso. revert H.
  rewrite (dec_ltb_at (dexp (dec_neg x))) by lia. rewrite Z.ltb_lt. lia.
Qed.

(** An index that comes earlier has a remainder at least as large. *)
Lemma remainder_order_sorted rs p i j ri rj :
  i ∈ take p (remainder_order rs) → j ∉ take p (remainder_order rs) →
  rs !! i = Some ri → rs !! j = Some rj → key_le (ri, i) (rj, j).
Proof.
  intros Hi Hj Hri Hrj. unfold remainder_order in *.
  pose proof (StronglySorted_merge_sort key_le (zip rs (seq 0 (length rs)))) as Hs.
  pose proof (merge_sort_Permutation key_le (zip rs (seq 0 (length rs)))) as Hp.
  set (srt := merge_sort _ _) in *.
  assert (Hz : ∀ i r, (r, i) ∈ srt ↔ rs !! i = Some r).
  { intros i' r'. rewrite Hp. rewrite list_elem_of_lookup. split.
    - intros (m & Hm). apply lookup_zip_Some in Hm as [Hm1 Hm2].
      apply lookup_seq in Hm2 as [-> ?]. done.
    - intros Hm. exists i'. apply lookup_zip_Some. split; [done|].
      apply lookup_seq. split; [lia|]. by apply lookup_lt_Some in Hm. }
  rewrite <- fmap_take in Hi, Hj.
  assert (Hin : (ri, i) ∈ take p srt).
  { apply list_elem_of_fmap in Hi as ([r i'] & -> & Hin). cbn in *.
    pose proof (proj1 (Hz i' r)) as Hr. rewrite Hri in Hr.
    assert (r = ri) as ->; [|done].
    assert ((r, i') ∈ srt) as Hmem.
    { rewrite <- (take_drop p srt). apply elem_of_app. by left. }
    specialize (Hr Hmem). congruence. }
  assert (Hjn : (rj, j) ∈ drop p srt).
  { apply Hz in Hrj. rewrite <- (take_drop p srt) in Hrj. apply elem_of_app in Hrj as [Hc|]; [|done].
    exfalso. apply Hj. apply list_elem_of_fmap. by exists (rj, j). }
  rewrite <- (take_drop p srt) in Hs. exact (StronglySorted_app_1_elem_of _ _ _ _ _ Hs Hin Hjn).
Qed.

Lemma dec_neg_small c k : 0 <= c < 10 ^ PREC → dec_neg (Dec c k) = Dec (- c) k.
Proof. intros. unfold dec_neg. cbn [coef dexp]. rewrite dec_fix_id by (cbn [coef]; lia). done. Qed.

Section Largest.
Context (T W : Z) (HW : 0 < W <= 10 ^ 9).

(** The order on the rounded remainders respects the exact ones: two exact
    remainders are at least [1 / W] apart, the rounding errors are below. *)
Lemma near_remainder_order wi wj ci ki cj kj i j :
  near_remainder T wi W ci ki → near_remainder T wj W cj kj →
  ci < 10 ^ PREC → cj < 10 ^ PREC →
  key_le (Dec ci (- ki), i) (Dec cj (- kj), j) →
  (T * wj) mod W <= (T * wi) mod W.
Proof using HW.
  intros (Hki & Hci & Hi) (Hkj & Hcj & Hj) Hbi Hbj Hle.
  assert (Hcross : cj * 10 ^ ki <= ci * 10 ^ kj).
  { unfold key_le in Hle. cbn in Hle. rewrite !dec_neg_small in Hle by lia.
    rewrite (dec_ltb_at (- (ki + kj))), (dec_eqb_at (- (ki + kj))) in Hle by (cbn; lia).
    unfold coef_at in Hle. cbn [coef dexp] in Hle.
    replace (- ki - - (ki + kj)) with kj in Hle by lia.
    replace (- kj - - (ki + kj)) with ki in Hle by lia.
    rewrite Z.ltb_lt, Z.eqb_eq in Hle. lia. }
  set (ai := (T * wi) mod W) in *. set (aj := (T * wj) mod W) in *.
  destruct (Z.le_gt_cases aj ai) as [|Hgt]; [done|exfalso].
  set (pi := 10 ^ ki) in *. set (pj := 10 ^ kj) in *.
  assert (Hpi : 0 < pi) by (apply pow10_pos; lia). assert (Hpj : 0 < pj) by (apply pow10_pos; lia).
  assert (∃ ei, 10 * (ci * W) <= 10 * (ai * pi) + ei ∧ 10 * ei <= 6 * pi) as (ei & Hei & Hei').
  { destruct Hi as [->|[Hp ?]]; [exists 0; lia|exists (6 * W); lia]. }
  assert (∃ ej, 10 * (aj * pj) - ej <= 10 * (cj * W) ∧ 10 * ej <= 6 * pj) as (ej & Hej & Hej').
  { destruct Hj as [->|[Hp ?]]; [exists 0; lia|exists (6 * W); lia]. }
  (* scaled to the common denominator [pi * pj] *)
  assert (H1 : 10 * (cj * W) * pi <= 10 * (ci * W) * pj).
  { replace (10 * (cj * W) * pi) with (10 * W * (cj * pi)) by lia.
    replace (10 * (ci * W) * pj) with (10 * W * (ci * pj)) by lia.
    apply Z.mul_le_mono_nonneg_l; lia. }
  assert (H2 : 10 * (ci * W) * pj <= (10 * (ai * pi) + ei) * pj) by (apply Z.mul_le_mono_nonneg_r; lia).
  assert (H3 : (10 * (aj * pj) - ej) * pi <= 10 * (cj * W) * pi) by (apply Z.mul_le_mono_nonneg_r; lia).
  assert (H4 : 10 * ei * pj <= 6 * pi * pj) by (apply Z.mul_le_mono_nonneg_r; lia).
  assert (H5 : 10 * ej * pi <= 6 * pj * pi) by (apply Z.mul_le_mono_nonneg_r; lia).
  assert (Hgap : (ai + 1) * (pi * pj) <= aj * (pi * pj)) by (apply Z.mul_le_mono_nonneg_r; lia).
  assert (0 < pi * pj) by (by apply Z.mul_pos_pos). lia.
Qed.
End Largest.

Section Apportion.
Context (T : Z) (ws : list Z).
Context (HT : 0 <= T < 10 ^ 18) (Hnn : Forall (λ w, 0 <= w) ws).
Let W := sum_by id ws.
Context (HW : 0 < W <= 10 ^ 9).

Lemma weight_le w : w ∈ ws → 0 <= w <= W.
Proof using Hnn.
  intros Hw. rewrite Forall_forall in Hnn. split; [by apply Hnn|].
  apply (sum_by_elem_le id); [exact Hnn|done].
Qed.

Let share w := dec_quotient (Dec (T * w) 0) (Dec W 0).
Let rem w := dec_sub (share w) (dec_of_Z (T * w / W)).

Lemma share_parts w :
  w ∈ ws →
  dec_trunc (share w) = T * w / W ∧
  ∃ c k, rem w = Dec c (- k) ∧ c < 10 ^ PREC ∧ near_remainder T w W c k.
Proof using HT Hnn HW.
  intros Hw. apply weight_le in Hw.
  destruct (share_spec T w W HT Hw HW) as (c & k & Hs & Hb & Hnr).
  unfold rem, share. rewrite Hs. pose proof Hnr as (Hk & Hc & _).
  assert (Hf : 0 <= T * w / W) by (apply Z.div_pos; lia).
  assert (Hpk : 0 < 10 ^ k) by (by apply pow10_pos).
  split.
  - unfold dec_trunc. cbn [dexp coef]. destruct (Z.leb_spec 0 (- k)) as [H0|H0].
    + assert (k = 0) as -> by lia. unfold coef_at. cbn [coef dexp Z.opp Z.sub Z.add].
      cbn in Hc. lia.
    + rewrite Z.opp_involutive, Z.quot_div_nonneg by lia.
      rewrite Z.div_add_l by lia. rewrite (Z.div_small c) by lia. lia.
  - exists c, k. split_and!; [|nia|done].
    unfold dec_sub, dec_of_Z, coef_at. cbn [coef dexp]. rewrite Z.min_l by lia.
    replace (- k - - k) with 0 by lia. replace (0 - - k) with k by lia.
    replace ((T * w / W * 10 ^ k + c) * 10 ^ 0 - T * w / W * 10 ^ k) with c by lia.
    apply dec_fix_id. cbn [coef]. nia.
Qed.

Let leftover := T - sum_by (λ w, T * w / W) ws.

(** The units left over after the floors: fewer than there are parts. *)
Lemma leftover_bounds : 0 <= leftover <= Z.of_nat (length ws).
Proof using HT Hnn HW.
  unfold leftover.
  assert (Hm : sum_by (λ w, T * w) ws = W * sum_by (λ w, T * w / W) ws + sum_by (λ w, (T * w) mod W) ws).
  { rewrite <- sum_by_scale, <- sum_by_add. apply sum_by_ext. intros w _. apply Z.div_mod. lia. }
  rewrite sum_by_scale in Hm. change (sum_by (λ w, w) ws) with W in Hm.
  assert (H0 : 0 <= sum_by (λ w, (T * w) mod W) ws).
  { apply sum_by_nonneg. intros w _. apply Z.mod_pos_bound. lia. }
  assert (H1 : sum_by (λ w, (T * w) mod W) ws <= sum_by (λ _, W) ws).
  { apply sum_by_le. intros w _. pose proof (Z.mod_pos_bound (T * w) W ltac:(lia)). lia. }
  rewrite sum_by_const in H1. nia.
Qed.

Let chosen := py_take leftover (remainder_order (rem <$> ws)).

(** The final units of [allocate] are the largest-remainder apportionment. *)
Lemma final_units_apportionment :
  apportionment T ws
    (imap (λ i u, if bool_decide (i ∈ chosen) then u + 1 else u) ((λ w, T * w / W) <$> ws)).
Proof using HT Hnn HW.
  pose proof leftover_bounds as Hl.
  pose proof (remainder_order_perm (rem <$> ws)) as Hp. rewrite length_fmap in Hp.
  assert (Hch : chosen = take (Z.to_nat leftover) (remainder_order (rem <$> ws))).
  { unfold chosen, py_take. by rewrite (proj2 (Z.leb_le _ _)) by lia. }
  assert (Hlen : length chosen = Z.to_nat leftover).
  { rewrite Hch, length_take, Hp, length_seq. lia. }
  assert (Hsub : ∀ i, i ∈ chosen → (i < length ws)%nat).
  { intros i Hi. rewrite Hch in Hi. apply elem_of_take in Hi as (m & Hm & _).
    apply list_elem_of_lookup_2 in Hm. rewrite Hp, elem_of_seq in Hm. lia. }
  assert (Hnd : NoDup chosen).
  { rewrite Hch. assert (Hall : NoDup (remainder_order (rem <$> ws))) by (rewrite Hp; apply NoDup_seq).
    rewrite <- (take_drop (Z.to_nat leftover) (remainder_order (rem <$> ws))) in Hall.
    by apply NoDup_app in Hall as [? _]. }
  unfold apportionment. fold W. split.
  - rewrite sum_by_imap_bump; [|done|by rewrite length_fmap].
    rewrite Hlen, sum_by_fmap. unfold leftover in *. unfold id. lia.
  - exists (λ i, bool_decide (i ∈ chosen)). split.
    + rewrite imap_fmap. apply imap_ext. intros i w _. cbn. case_bool_decide; lia.
    + intros i j wi wj Hwi Hwj Hi Hj.
      apply bool_decide_eq_true in Hi. apply bool_decide_eq_false in Hj.
      pose proof (share_parts wi ltac:(by eapply list_elem_of_lookup_2)) as (_ & ci & ki & Hri & Hbi & Hni).
      pose proof (share_parts wj ltac:(by eapply list_elem_of_lookup_2)) as (_ & cj & kj & Hrj & Hbj & Hnj).
      assert (key_le (Dec ci (- ki), i) (Dec cj (- kj), j)) as Hkey.
      { pose proof Hi as Hi'. pose proof Hj as Hj'. rewrite Hch in Hi', Hj'.
        eapply remainder_order_sorted; [exact Hi'|exact Hj'|..]; by rewrite list_lookup_fmap, ?Hwi, ?Hwj, <- ?Hri, <- ?Hrj. }
      split; [by eapply (near_remainder_order T W HW wi wj ci ki cj kj i j)|].
      intros ->. rewrite Hri in Hrj. rewrite <- Hrj in Hkey. apply key_le_same in Hkey.
      destruct (decide (i = j)) as [->|]; [done|lia].
Qed.
End Apportion.

Lemma apportionment_bounds T ws us u :
  0 <= T → Forall (λ w, 0 <= w) ws → 0 < sum_by id ws →
  apportionment T ws us → u ∈ us → 0 <= u <= T.
Proof.
  intros HT Hnn HW (Hsum & extra & -> & _) Hu.
  assert (Hpos : ∀ y, y ∈ imap (λ i w, T * w / sum_by id ws + (if extra i then 1 else 0)) ws → 0 <= y).
  { intros y Hy. apply elem_of_lookup_imap in Hy as (i & w & -> & Hw).
    rewrite Forall_forall in Hnn. specialize (Hnn w ltac:(by eapply list_elem_of_lookup_2)).
    pose proof (Z.div_pos (T * w) (sum_by id ws)). destruct (extra i); nia. }
  split; [by apply Hpos|]. rewrite <- Hsum. by apply (sum_by_elem_le id).
Qed.


(** ** The properties of the value types *)

(** [z] quanta are the nearest to the decimal [x], a tie going to the even
    neighbour; both sides are scaled to a common power of ten. *)
Definition nearest_even (d : dim) (x : dec) (z : Z) : Prop :=
  let k := Z.max (scale d) (- dexp x) in
  let D := 10 ^ (k - scale d) in
  let N := coef x * 10 ^ (dexp x + k) in
  2 * Z.abs (D * z - N) <= D ∧ (2 * Z.abs (D * z - N) = D → Z.even z = true).

Lemma nearest_even_rescale d x z : nearest_even d x z ↔ z = rescale x (- scale d).
Proof.
  unfold nearest_even, rescale, coef_at. destruct (scale_precision d) as [Hs _].
  set (k := Z.max _ _). cbn zeta.
  assert (HD : 0 < 10 ^ (k - scale d)) by (apply pow10_pos; lia).
  destruct (Z.leb_spec (- scale d) (dexp x)) as [He|He].
  - assert (k = scale d) as -> by lia. rewrite Z.sub_diag.
    replace (dexp x - - scale d) with (dexp x + scale d) by lia. change (10 ^ 0) with 1.
    split; [lia|intros ->; lia].
  - assert (k = - dexp x) as -> by lia. rewrite Z.add_opp_diag_r, Z.mul_1_r.
    replace (- dexp x - scale d) with (- scale d - dexp x) in * by lia. split.
    + intros [Hn Ht]. symmetry. by apply rhe_characterised.
    + intros ->. split; [by apply rhe_near|by apply rhe_tie_even].
Qed.

(** One part of an allocation, rebuilt from its smallest units. *)
Lemma rebuild_part d u sgn :
  (sgn = 1 ∨ sgn = -1) → in_range d u = true →
  of_dec d (dec_mul (dec_mul (dec_of_Z u) (quantum d)) (dec_of_Z sgn)) = Ok (QD (sgn * u)).
Proof.
  intros Hs Hu. pose proof (in_range_PREC _ _ Hu) as HP.
  unfold dec_mul, dec_of_Z, quantum. cbn [coef dexp].
  rewrite (dec_fix_id (Dec (u * 1) _)) by (cbn [coef]; lia). cbn [coef dexp].
  rewrite (dec_fix_id (Dec _ _)) by (cbn [coef]; lia). rewrite Z.add_0_l, Z.add_0_r.
  rewrite of_dec_same. replace (u * 1 * sgn) with (sgn * u) by lia.
  assert (in_range d (sgn * u) = true) as ->; [|done].
  rewrite in_range_spec in *. destruct Hs; subst; lia.
Qed.

(** [magnitude / quantum] is exact. *)
Lemma smallest_units d (T : Z) :
  0 <= T < 10 ^ PREC → dec_div (Dec T (- scale d)) (quantum d) = Ok (Dec T 0).
Proof.
  intros HT. unfold dec_div, quantum. cbn [coef]. change (1 =? 0) with false. cbv iota.
  f_equal. destruct (Z.eq_dec T 0) as [->|Hne]; [by destruct d|].
  rewrite dec_quotient_same_exp.
  pose proof (dec_quotient_exact T 1 ltac:(lia) ltac:(lia) (Z.mod_1_r T)) as H.
  by rewrite H, Z.div_1_r.
Qed.

(** Does the sum of the weights keep [allocate]'s 28-digit shares precise enough? *)
Definition weights_ok (weights : list Z) : bool :=
  negb (bool_decide (weights = [])) && forallb (λ w, 0 <=? w) weights &&
  (0 <? sum_by id weights) && (sum_by id weights <=? 10 ^ 9).

(** C24. The constructor is total and exact: on success the value is the input
    rounded half to even to the dimension's scale and it fits its NUMERIC
    column; the only failures are an input of a wrong type or syntax, a
    non-finite decimal, and a rounded value outside the column. *)
Theorem init_complete d v :
  (∀ q, init d v = Ok q ↔
     ∃ x, to_decimal d v = Ok (PyFinite x) ∧ nearest_even d x (quanta q) ∧ wf q) ∧
  (∀ e, init d v = Raise e ↔
     to_decimal d v = Raise e ∨ (to_decimal d v = Ok PyNonFinite ∧ e = ValueError) ∨
     ∃ x z, to_decimal d v = Ok (PyFinite x) ∧ nearest_even d x z ∧ in_range d z = false ∧
            e = (if Z.abs z <? 10 ^ PREC then ValueError else InvalidOperation)).
Proof.
  assert (Hfin : ∀ x, to_decimal d v = Ok (PyFinite x) → init d v = of_dec d x).
  { intros x Hx. unfold init. by rewrite Hx. }
  destruct (to_decimal d v) as [[x|]|e0] eqn:Hv.
  - rewrite (Hfin x eq_refl), of_dec_spec. cbn zeta. split.
    + intros q. split.
      * destruct (in_range d _) eqn:E; [|done]. intros [= <-]. exists x.
        split_and!; [done|by apply nearest_even_rescale|exact E].
      * intros (x' & [= <-] & Hn & Hw). apply nearest_even_rescale in Hn. destruct q as [z].
        unfold wf in Hw. cbn in *. subst z. by rewrite Hw.
    + intros e. split.
      * destruct (in_range d _) eqn:E; [done|]. intros [= <-]. right. right.
        eexists x, _. split_and!; [done|by apply nearest_even_rescale|done|done].
      * intros [|[[]|(x' & z & [= <-] & Hn & Hz & ->)]]; [done..|].
        apply nearest_even_rescale in Hn as ->. by rewrite Hz.
  - unfold init. rewrite Hv. cbn. split; intros ?.
    + split; [done|by intros (? & [=] & _)].
    + split; [intros [= <-]; by auto|]. by intros [|[[_ ->]|(? & ? & [=] & _)]].
  - unfold init. rewrite Hv. cbn. split; intros ?.
    + split; [done|by intros (? & [=] & _)].
    + split; [intros [= <-]; by left|]. by intros [[= <-]|[[[=] _]|(? & ? & [=] & _)]].
Qed.

(** Addition and subtraction of two values of one dimension are exact: the
    result is the integer sum or difference of the quanta when it fits the
    column and an exception otherwise, never a rounded or wrapped value;
    mixing two dimensions is a [TypeError]. *)
Theorem add_sub_exact d (a b : qd d) d' (c : qd d') :
  wf a → wf b →
  q_add a b = check_range d (quanta a + quanta b) ∧
  q_sub a b = check_range d (quanta a - quanta b) ∧
  (d' ≠ d → q_add a c = Raise TypeError ∧ q_sub a c = Raise TypeError ∧
            q_eq a c = Raise TypeError ∧ q_lt a c = Raise TypeError).
Proof.
  intros Ha Hb. split_and!; [by apply q_add_spec|by apply q_sub_spec|]. intros Hne.
  unfold q_add, q_sub, q_eq, q_lt, require_same_type. by rewrite decide_False.
Qed.

Lemma add_sub_exact_witness :
  q_add (@QD MoneyD 999999999999999999) (@QD MoneyD 1) = Raise ValueError ∧
  q_sub (@QD MoneyD 5) (@QD MoneyD 7) = Ok (QD (-2)).
Proof.
  split.
  - exact (proj1 (add_sub_exact MoneyD (QD 999999999999999999) (QD 1) UnitsD (QD 0) eq_refl eq_refl)).
  - exact (proj1 (proj2 (add_sub_exact MoneyD (QD 5) (QD 7) UnitsD (QD 0) eq_refl eq_refl))).
Defined.

Lemma allocate_apportions d (q : qd d) (weights : list Z) :
  wf q → Z.abs (quanta q) < 10 ^ 18 → weights_ok weights = true →
  ∃ us, apportionment (Z.abs (quanta q)) weights us ∧
        allocate q weights = Ok ((λ u, QD (Z.sgn (quanta q) * u)) <$> us).
Proof.
  intros Hq HT Hw. unfold weights_ok in Hw. zbool.
  rename H into Hne, H0 into Hle, H1 into Hpos, H2 into Hnn.
  set (T := Z.abs (quanta q)) in *. set (W := sum_by id weights) in *.
  assert (HF : Forall (λ w, 0 <= w) weights).
  { apply Forall_forall. intros w Hin. rewrite forallb_forall in Hnn. apply Z.leb_le, Hnn.
    by apply list_elem_of_In. }
  pose proof (final_units_apportionment T weights ltac:(lia) HF ltac:(fold W; lia)) as Hap.
  cbn zeta in Hap. fold W in Hap.
  match type of Hap with apportionment _ _ ?u => set (us := u) in * end.
  exists us. split; [exact Hap|].
  unfold allocate. rewrite Hne. cbn [negb ensure mbind result_bind]. rewrite Hnn. cbn [ensure mbind result_bind].
  fold W. rewrite (proj2 (Z.ltb_lt 0 W) Hpos). cbn [ensure mbind result_bind].
  rewrite q_abs_spec by done. cbn [mbind result_bind]. fold T. unfold value at 1. cbn [quanta].
  rewrite smallest_units by (change (10 ^ PREC) with (10 ^ 18 * 10 ^ 10); lia).
  cbn [mbind result_bind].
  assert (dec_trunc (Dec T 0) = T) as -> by (unfold dec_trunc, coef_at; cbn; lia).
  rewrite (map_result_fmap _ (λ w, dec_quotient (Dec (T * w) 0) (Dec W 0))).
  2: { intros w Hin. apply raw_share_Ok; [lia|apply (weight_le weights HF w Hin)|fold W; lia]. }
  cbn [mbind result_bind].
  assert (Hbase : dec_trunc <$> ((λ w, dec_quotient (Dec (T * w) 0) (Dec W 0)) <$> weights)
                  = (λ w, T * w / W) <$> weights).
  { rewrite <- list_fmap_compose. apply list_fmap_ext. intros i w Hi. cbn.
    apply (share_parts T weights ltac:(lia) HF ltac:(fold W; lia)). by eapply list_elem_of_lookup_2. }
  rewrite Hbase, sum_by_fmap, zip_with_fmap_l, zip_with_fmap_r, zip_with_diag.
  fold us. apply map_result_fmap. intros u Hu.
  assert (Hr : in_range d u = true).
  { pose proof (apportionment_bounds T weights us u ltac:(lia) HF Hpos Hap Hu).
    unfold wf in Hq. rewrite in_range_spec in *. lia. }
  destruct (Z.eq_dec (quanta q) 0) as [H0|H0].
  - assert (u = 0) as ->.
    { pose proof (apportionment_bounds T weights us u ltac:(lia) HF Hpos Hap Hu). lia. }
    rewrite (rebuild_part d 0); [by destruct (_ <? _); rewrite !Z.mul_0_r|by destruct (_ <? _); auto|done].
  - assert (Z.sgn (quanta q) = if quanta q <? 0 then -1 else 1) as ->.
    { destruct (Z.ltb_spec (quanta q) 0); lia. }
    apply rebuild_part; [by destruct (_ <? _); auto|done].
Qed.

(** C25. What [allocate] gives and when.  Weights that are empty, negative or
    sum to nothing are a [ValueError].  A value of fewer than 19 digits of its
    smallest unit (every [Money] and every [Price]; of [Units] those below
    [10^18] quanta) split over weights that sum to at most [10^9] is split
    exactly: the parts sum to the value, each is the floor of its exact
    proportional share or one smallest unit more, and the extra units go to the
    largest exact remainders, between equal weights to the first.  Between
    unequal weights of equal remainders it is the 28-digit quotient that
    decides, not the index, and beyond these limits the parts need not sum to
    the value: both have an instance here. *)
Theorem allocate_exact :
  (∀ d (q : qd d) weights, weights = [] ∨ (∃ w, w ∈ weights ∧ w < 0) ∨ sum_by id weights <= 0 →
     allocate q weights = Raise ValueError) ∧
  (∀ d (q : qd d) weights, wf q → Z.abs (quanta q) < 10 ^ 18 → weights_ok weights = true →
     ∃ us, apportionment (Z.abs (quanta q)) weights us ∧
           allocate q weights = Ok ((λ u, QD (Z.sgn (quanta q) * u)) <$> us)) ∧
  (∀ d (q : qd d), (d = MoneyD ∨ d = PriceD) → wf q → Z.abs (quanta q) < 10 ^ 18) ∧
  ((4 * 10) mod 12 = (4 * 1) mod 12 ∧ allocate (@QD MoneyD 4) [10; 1; 1] = Ok [QD 3; QD 1; QD 0]) ∧
  (∃ (q : Units) us, wf q ∧ allocate q [3; 3; 1] = Ok us ∧ sum_by quanta us ≠ quanta q).
Proof.
  split_and!.
  - intros d q weights Hbad. unfold allocate.
    destruct (bool_decide_reflect (weights = [])) as [|Hne]; [done|]. cbn [negb ensure mbind result_bind].
    destruct (forallb (λ w, 0 <=? w) weights) eqn:Hnn; [|done]. cbn [ensure mbind result_bind].
    destruct (Z.ltb_spec 0 (sum_by id weights)) as [Hlt|]; [|done]. destruct Hbad as [|[(w & Hw & Hneg)|]]; [done| |lia].
    rewrite forallb_forall in Hnn. apply list_elem_of_In, Hnn in Hw. lia.
  - intros d q weights. apply allocate_apportions.
  - intros d q Hd Hq. unfold wf in Hq. rewrite in_range_spec in Hq. destruct Hd as [-> | ->]; exact Hq.
  - done.
  - vm_compute. reflexivity.
  - eexists (QD (10 ^ 28 - 1)), _. split_and!; [done|vm_compute; reflexivity|vm_compute; done].
Qed.

Lemma allocate_exact_witness :
  weights_ok [1; 1; 1] = true ∧
  ∃ us, apportionment 100 [1; 1; 1] us ∧
        allocate (@QD MoneyD (-100)) [1; 1; 1] = Ok ((λ u, QD (-1 * u)) <$> us).
Proof. split; [done|]. exact (proj1 (proj2 allocate_exact) MoneyD (QD (-100)) [1; 1; 1] eq_refl eq_refl eq_refl). Defined.

Example allocate_penny :
  allocate (@QD MoneyD 100) [1; 1; 1] = Ok [QD 34; QD 33; QD 33].
Proof. vm_compute. reflexivity. Qed.

(** Text, JSON and database round trips: printing a value and reading it
    back, through the constructor, the Pydantic validator or a column, gives
    the value. *)
Theorem money_roundtrips d (q : qd d) :
  wf q →
  init d (VStr (q_str q)) = Ok q ∧
  pydantic_validate d (VStr (q_str q)) = Ok q ∧
  pydantic_validate d (VQd d q) = Ok q ∧
  (process_bind_param d (Some (VQd d q)) ≫= process_result_value d) = Ok (Some q).
Proof.
  intros Hq.
  assert (Hdec : of_dec d (value q) = Ok q).
  { unfold value. rewrite of_dec_same. unfold wf in Hq. rewrite Hq. by destruct q. }
  assert (Hinit : init d (VStr (q_str q)) = Ok q).
  { rewrite <- Hdec. unfold init, to_decimal, q_str. rewrite parse_dec_str; [done|by destruct d|].
    cbn [value coef dexp]. pose proof (ndigits_pos (quanta q)).
    assert (scale d <= 6) by (by destruct d). lia. }
  split_and!; [done| | |].
  - unfold pydantic_validate. by rewrite Hinit.
  - unfold pydantic_validate. destruct (decide (d = d)) as [e|]; [|done].
    rewrite (proof_irrel e eq_refl). done.
  - unfold process_bind_param. rewrite decide_True by done. cbn [mbind result_bind process_result_value].
    by rewrite Hdec.
Qed.

Lemma money_roundtrips_witness :
  wf (@QD MoneyD (-12345)) ∧ init MoneyD (VStr (q_str (@QD MoneyD (-12345)))) = Ok (QD (-12345)).
Proof. split; [done|]. exact (proj1 (money_roundtrips MoneyD (QD (-12345)) eq_refl)). Defined.

(** The only products of two dimensions are price by units and units by
    price, giving money; the only quotients are of one dimension by itself,
    giving a plain ratio, and of money by units or by a price.  Every other
    combination, and every [bool], [float] or text operand, raises [TypeError]. *)
Theorem cross_dimension_operations d (q : qd d) :
  (∀ d' (p : qd d') r, py_mul q (VQd d' p) = Ok r →
     ((d = PriceD ∧ d' = UnitsD) ∨ (d = UnitsD ∧ d' = PriceD)) ∧ ∃ m, r = VQd MoneyD m ∧ wf m) ∧
  (∀ d' (p : qd d') r, py_truediv q (VQd d' p) = Ok r →
     quanta p ≠ 0 ∧
     ((d = d' ∧ ∃ x, r = VDecimal (PyFinite x)) ∨
      (d = MoneyD ∧ d' = UnitsD ∧ ∃ x, r = VQd PriceD x ∧ wf x) ∨
      (d = MoneyD ∧ d' = PriceD ∧ ∃ x, r = VQd UnitsD x ∧ wf x))) ∧
  (∀ v, match v with VBool _ | VFloat | VStr _ | VOther => True | _ => False end →
     py_mul q v = Raise TypeError ∧ py_truediv q v = Raise TypeError).
Proof.
  assert (Hratio : ∀ d1 d2 (a : qd d1) (b : qd d2) x, ratio a b = Ok x → quanta b ≠ 0).
  { intros d1 d2 [a] [b] x. unfold ratio, value. cbn [quanta]. intros H Hz. subst b.
    by destruct d2. }
  split_and!.
  - intros d' p r. destruct d, d'; cbn; try done; rewrite ?bind_Ok.
    + intros (m & Hm & [= <-]). split; [by right|]. exists m. split; [done|]. by apply of_dec_wf in Hm.
    + intros (m & Hm & [= <-]). split; [by left|]. exists m. split; [done|]. by apply of_dec_wf in Hm.
  - intros d' p r. destruct d, d'; cbn [py_truediv scalar_to_decimal]; try done; rewrite bind_Ok.
    + intros (x & Hx & [= <-]). split; [by eapply Hratio|]. left. eauto.
    + intros (x & Hx & [= <-]). unfold money_div_units in Hx. apply bind_Ok in Hx as (y & Hy & Hx).
      split; [by eapply Hratio|]. right. left. split_and!; [done..|]. exists x. split; [done|].
      by apply of_dec_wf in Hx.
    + intros (x & Hx & [= <-]). unfold money_div_price in Hx. apply bind_Ok in Hx as (y & Hy & Hx).
      split; [by eapply Hratio|]. right. right. split_and!; [done..|]. exists x. split; [done|].
      by apply of_dec_wf in Hx.
    + intros (x & Hx & [= <-]). split; [by eapply Hratio|]. left. eauto.
    + intros (x & Hx & [= <-]). split; [by eapply Hratio|]. left. eauto.
  - intros v Hv. by destruct d, v.
Qed.

Lemma price_times_units_spec (p : Price) (u : Units) :
  Z.abs (quanta p * quanta u) < 10 ^ PREC →
  price_times_units p u = check_range MoneyD (rhe (quanta p * quanta u) (10 ^ 8)).
Proof.
  intros H. unfold price_times_units, dec_mul, value. cbn [coef dexp].
  rewrite dec_fix_id by done. rewrite of_dec_spec. cbn zeta.
  assert (rescale (Dec (quanta p * quanta u) (- scale PriceD + - scale UnitsD)) (- scale MoneyD)
          = rhe (quanta p * quanta u) (10 ^ 8)) as -> by done.
  unfold check_range. destruct (in_range _ _); [done|].
  assert (Z.abs (rhe (quanta p * quanta u) (10 ^ 8)) < 10 ^ PREC) as Hb; [|by rewrite (proj2 (Z.ltb_lt _ _) Hb)].
  pose proof (rhe_near (quanta p * quanta u) (10 ^ 8) ltac:(done)).
  change (10 ^ PREC) with (10 ^ 20 * 10 ^ 8) in *. lia.
Qed.
(** The product of a price and a quantity, whenever it is a [Money]. *)
Lemma price_times_units_Ok p u m :
  price_times_units p u = Ok m → wf m ∧ quanta m = rhe (quanta p * quanta u) (10 ^ 8).
Proof.
  intros Hm. set (z := quanta p * quanta u).
  destruct (Z.lt_ge_cases (Z.abs z) (10 ^ PREC)) as [Hs|Hs].
  - rewrite price_times_units_spec in Hm by done. apply check_range_Ok in Hm as [Hr ->]. by split.
  - exfalso. unfold price_times_units, dec_mul, value in Hm. cbn [coef dexp] in Hm. fold z in Hm.
    apply of_dec_Ok in Hm as [Hw Hq]. destruct (dec_fix_large (Dec z (- scale PriceD + - scale UnitsD)) Hs)
      as (H1 & _ & H3 & _). set (y := dec_fix _) in *. change (dexp (Dec z (- scale PriceD + - scale UnitsD))) with (-12) in H3. change (- scale MoneyD) with (-4) in Hq.
    unfold wf in Hw. rewrite in_range_spec, Hq in Hw. revert Hw. apply Z.le_ngt. cbn [precision].
    unfold rescale. change (10 ^ (PREC - 1)) with (10 ^ 27) in H1. destruct (Z.leb_spec (-4) (dexp y)).
    + unfold coef_at. pose proof (pow10_mono 0 (dexp y - -4) ltac:(lia)). rewrite Z.abs_mul, (Z.abs_eq (10 ^ _)) by lia.
      apply (Z.le_trans _ (Z.abs (coef y) * 1)); [|apply Z.mul_le_mono_nonneg_l; lia].
      rewrite Z.mul_1_r. etrans; [|exact H1]. by vm_compute.
    + pose proof (pow10_mono (- 4 - dexp y) 7 ltac:(lia)). pose proof (pow10_pos (-4 - dexp y) ltac:(lia)) as Hp.
      pose proof (rhe_near (coef y) (10 ^ (-4 - dexp y)) Hp). set (w := 10 ^ (-4 - dexp y)) in *.
      set (r := rhe _ _) in *. destruct (Z.le_gt_cases (10 ^ 18) (Z.abs r)); [done|]. exfalso.
      assert (Z.abs (w * r) <= w * 10 ^ 18).
      { rewrite Z.abs_mul, (Z.abs_eq w) by lia. apply Z.mul_le_mono_nonneg_l; lia. }
      assert (w * (10 ^ 18 + 1) <= 10 ^ 7 * (10 ^ 18 + 1)) by (apply Z.mul_le_mono_nonneg_r; [done|lia]).
      assert (Z.abs (coef y) <= w * (10 ^ 18 + 1)) by lia.
      assert (10 ^ 7 * (10 ^ 18 + 1) < 10 ^ 27) by done. lia.
Qed.

Lemma units_times_price_comm u p : units_times_price u p = price_times_units p u.
Proof. unfold units_times_price, price_times_units, dec_mul, value. cbn [coef dexp]. do 3 f_equal. lia. Qed.

Lemma units_times_price_Ok u p m :
  units_times_price u p = Ok m → wf m ∧ quanta m = rhe (quanta p * quanta u) (10 ^ 8).
Proof. rewrite units_times_price_comm. apply price_times_units_Ok. Qed.

(** [price * units] is the product rounded once, half to even, to four
    decimals, whenever the product of the quanta fits the 28-digit context
    (so for every notional below ten thousand trillion); it does not depend
    on the order of the operands, and it fails only outside [NUMERIC(18,4)]. *)
Theorem price_times_units_exact (p : Price) (u : Units) :
  Z.abs (quanta p * quanta u) < 10 ^ PREC →
  (∀ m, price_times_units p u = Ok m →
     2 * Z.abs (10 ^ 8 * quanta m - quanta p * quanta u) <= 10 ^ 8) ∧
  (is_ok (price_times_units p u) = true ↔ in_range MoneyD (rhe (quanta p * quanta u) (10 ^ 8)) = true) ∧
  units_times_price u p = price_times_units p u.
Proof.
  intros H. split_and!.
  - intros m. rewrite price_times_units_spec by done. rewrite check_range_Ok.
    intros [_ ->]. cbn [quanta]. by apply rhe_near.
  - rewrite price_times_units_spec by done. unfold check_range. by destruct (in_range _ _).
  - unfold units_times_price, price_times_units, dec_mul, value. cbn [coef dexp].
    do 3 f_equal. lia.
Qed.

Lemma price_times_units_exact_witness :
  price_times_units (QD 10500000) (QD 333333) = Ok (QD 35000) ∧
  2 * Z.abs (10 ^ 8 * 35000 - 10500000 * 333333) <= 10 ^ 8.
Proof.
  split; [by vm_compute|].
  exact (proj1 (price_times_units_exact (QD 10500000) (QD 333333) eq_refl) (QD 35000) eq_refl).
Defined.

(** Dividing money by a price above [10 ^ 8] quanta recovers the units it came from. *)
Lemma money_div_price_units (u : Units) (p : Price) (m : Money) :
  wf u → wf m → 0 < quanta u → 10 ^ 8 < quanta p → quanta m = rhe (quanta p * quanta u) (10 ^ 8) →
  money_div_price m p = Ok u.
Proof.
  intros Hwf Hm Hu Hp Hq.
  pose proof (rhe_near (quanta p * quanta u) (10 ^ 8) ltac:(done)) as Hn. rewrite <- Hq in Hn.
  apply in_range_spec in Hm. change (precision MoneyD) with 18 in Hm.
  assert (Hpos : 0 < quanta m) by (clear -Hn Hu Hp; nia).
  unfold money_div_price, ratio, value. rewrite (dec_eqb_at (-6)) by (cbn; lia).
  unfold coef_at. cbn [coef dexp dec_of_Z scale]. rewrite (proj2 (Z.eqb_neq _ _)) by (change (10 ^ (-6 - -6)) with 1; lia).
  unfold dec_div. cbn [coef]. rewrite (proj2 (Z.eqb_neq (quanta p) 0)) by lia. cbn [mbind result_bind].
  rewrite dec_quotient_shift, of_dec_spec. cbn zeta. change (- scale UnitsD) with (0 + -6).
  replace (dexp _ + (- scale MoneyD - - scale PriceD)) with (dexp (dec_quotient (Dec (quanta m) 0) (Dec (quanta p) 0)) + 8 + -6) by (cbn [scale]; lia).
  rewrite rescale_shift.
  rewrite (quotient_nearest (quanta m) (quanta p) 8 (quanta u)); [|lia|lia|lia| |].
  - unfold wf in Hwf. rewrite Hwf. by destruct u.
  - assert (quanta m < 10 ^ 18) by lia. change (10 ^ (PREC - 2)) with (10 ^ 18 * 10 ^ 8). lia.
  - replace (quanta m * 10 ^ 8 - quanta u * quanta p) with (10 ^ 8 * quanta m - quanta p * quanta u) by lia. lia.
Qed.
