(* ===== verification/Dates.v ===== *)
(** * Calendar dates: the year, month and day of an ordinal

    Dates are proleptic ordinals everywhere else; this file has the conversions
    of the standard library's [datetime.date] that the services use to print a
    date and to step by months. *)

From S2P Require Import Prelude PyDecimal.
From Stdlib Require Import String.
From stdpp Require Import list strings.
Open Scope Z_scope.

Definition is_leap (y : Z) : bool := (y mod 4 =? 0) && (negb (y mod 100 =? 0) || (y mod 400 =? 0)).

(** Days in the year before the first of the month. *)
Definition days_before_month (leap : bool) (m : Z) : Z :=
  nth (Z.to_nat m) [0; 0; 31; 59; 90; 120; 151; 181; 212; 243; 273; 304; 334] 0 +
  Z.b2z ((2 <? m) && leap).

Definition days_in_month (leap : bool) (m : Z) : Z :=
  if (m =? 2) && leap then 29 else nth (Z.to_nat m) [0; 31; 28; 31; 30; 31; 30; 31; 31; 30; 31; 30; 31] 0.

Definition days_before_year (y : Z) : Z := (y - 1) * 365 + (y - 1) / 4 - (y - 1) / 100 + (y - 1) / 400.

(** [date(y, m, d).toordinal()], raising on a day the month does not have. *)
Definition date_of_ymd (y m d : Z) : result Z :=
  if (1 <=? y) && (y <=? 9999) && (1 <=? m) && (m <=? 12) && (1 <=? d) && (d <=? days_in_month (is_leap y) m)
  then Ok (days_before_year y + days_before_month (is_leap y) m + d)
  else Raise ValueError.

(** [date.fromordinal(n)] as (year, month, day). *)
Definition ymd_of_date (n : Z) : Z * Z * Z :=
  let n := n - 1 in
  let '(n400, n) := (n / 146097, n mod 146097) in
  let '(n100, n) := (n / 36524, n mod 36524) in
  let '(n4, n) := (n / 1461, n mod 1461) in
  let '(n1, n) := (n / 365, n mod 365) in
  let year := n400 * 400 + n100 * 100 + n4 * 4 + n1 + 1 in
  if (n1 =? 4) || (n100 =? 4) then (year - 1, 12, 31)
  else
    let leap := (n1 =? 3) && (negb (n4 =? 24) || (n100 =? 3)) in
    let month := (n + 50) / 32 in
    let month := if n <? days_before_month leap month then month - 1 else month in
    (year, month, n - days_before_month leap month + 1).

Fixpoint zeros (n : nat) : string := match n with O => "" | S n => ("0" +:+ zeros n)%string end.

(** A number padded to a width. *)
Definition padded (width : nat) (n : Z) : string :=
  let s := str_nat n in (zeros (width - String.length s) +:+ s)%string.

(** [str(date)], the ISO form. *)
Definition date_str (n : Z) : string :=
  let '(y, m, d) := ymd_of_date n in
  (padded 4 y +:+ "-" +:+ padded 2 m +:+ "-" +:+ padded 2 d)%string.

(** ** Sanity *)

Lemma date_str_samples :
  date_str 719163 = "1970-01-01"%string ∧ date_str 738214 = "2022-02-28"%string ∧
  ymd_of_date 738944 = (2024, 2, 28) ∧ ymd_of_date 738945 = (2024, 2, 29) ∧ date_of_ymd 2024 2 29 = Ok 738945.
Proof. by vm_compute. Qed.
