(* ===== verification/Calendar.v ===== *)
(** * Market days ([app/core/clock.py])

    A date is its proleptic ordinal ([date.toordinal()]), an aware instant its
    UTC microseconds.  The zone rules of America/New_York are a parameter (the
    tz database is data outside the repository); everything else of the module
    is defined: the in-memory calendar, the bounded searches and
    [add_trading_days]. *)

From S2P Require Import Prelude.
Open Scope Z_scope.

(** ** Dates and instants *)

Abbreviation date := Z (only parsing).
Abbreviation instant := Z (only parsing).

(** [date.min.toordinal()] and [date.max.toordinal()]. *)
Definition MIN_ORDINAL : Z := 1.
Definition MAX_ORDINAL : Z := 3652059.

(** [d + timedelta(days=n)] *)
Definition date_add (d : date) (n : Z) : result date :=
  if (MIN_ORDINAL <=? d + n) && (d + n <=? MAX_ORDINAL) then Ok (d + n) else Raise OverflowError.

(** [d.weekday()]: Monday is 0; ordinal 1 is a Monday. *)
Definition weekday (d : date) : Z := (d + 6) mod 7.

(** A [datetime], with or without a zone. *)
Inductive datetime :=
  | Aware (utc : instant)
  | Naive (local : Z).

Definition US_PER_DAY : Z := 86400 * 1000000.

(** Ordinal of 1970-01-01. *)
Definition EPOCH_ORDINAL : Z := 719163.

(** The calendar date of a wall-clock microsecond count since the epoch. *)
Definition date_of_local (us : Z) : date := EPOCH_ORDINAL + us / US_PER_DAY.

(** [TradingCalendar]: what the market clock needs of a calendar. *)
Class TradingCalendar := {
  is_trading_day : date → bool;
  (** the wall-clock close in New York, minutes after midnight *)
  session_close : date → option (date * Z);
}.

(** ** [InMemoryTradingCalendar] *)

Section InMemory.
Context (holidays : gset Z) (half_days : gmap Z Z).

Definition in_memory_is_trading_day (d : date) : bool :=
  (weekday d <? 5) && negb (bool_decide (d ∈ holidays)).

Definition in_memory_session_close (d : date) : option (date * Z) :=
  if in_memory_is_trading_day d then Some (d, default (16 * 60) (half_days !! d)) else None.

Definition in_memory_calendar : TradingCalendar :=
  {| is_trading_day := in_memory_is_trading_day; session_close := in_memory_session_close |}.
End InMemory.

(** ** [MarketClock] *)

Definition MAX_CALENDAR_SEARCH_DAYS : nat := 14.

Section MarketClock.
Context `{calendar : TradingCalendar}.

(** [market_date]: [utc_offset] is the zone's offset at an instant, in microseconds. *)
Definition market_date (utc_offset : instant → Z) (d : datetime) : result date :=
  match d with
  | Naive _ => Raise ValueError
  | Aware utc => Ok (date_of_local (utc + utc_offset utc))
  end.

(** The loop both searches share, [delta] being [1] or [-1]. *)
Fixpoint search (fuel : nat) (delta : Z) (candidate : date) : result date :=
  match fuel with
  | O => Raise CalendarExhaustedError
  | S fuel =>
      candidate ← date_add candidate delta;
      if is_trading_day candidate then Ok candidate else search fuel delta candidate
  end.

Definition next_trading_day (d : date) : result date := search MAX_CALENDAR_SEARCH_DAYS 1 d.
Definition previous_trading_day (d : date) : result date := search MAX_CALENDAR_SEARCH_DAYS (-1) d.

(** [for _ in range(n): current = step(current)] *)
Fixpoint repeat_step (n : nat) (step : date → result date) (current : date) : result date :=
  match n with
  | O => Ok current
  | S n => current ← step current; repeat_step n step current
  end.

Definition add_trading_days (d : date) (n : Z) : result date :=
  repeat_step (Z.to_nat (Z.abs n)) (if 0 <=? n then next_trading_day else previous_trading_day) d.

(** ** Lemmas *)

(** The number of trading days in [(a, b]]. *)
Definition trading_days_between (a b : date) : nat :=
  length (filter (λ d, is_trading_day d = true) (seqZ (a + 1) (b - a))).

Lemma date_add_Ok d n d' : date_add d n = Ok d' ↔ d' = d + n ∧ MIN_ORDINAL <= d' <= MAX_ORDINAL.
Proof.
  unfold date_add. destruct (_ && _) eqn:E; zbool.
  - split; [intros [= <-]; lia|intros [-> _]; done].
  - split; [done|]. intros [-> ?]. apply andb_false_iff in E as [|]; zbool; lia.
Qed.

Lemma search_Ok fuel delta d d' :
  search fuel delta d = Ok d' ↔
  ∃ k : Z, 1 <= k <= Z.of_nat fuel ∧ d' = d + delta * k ∧ is_trading_day d' = true ∧
    (∀ j, 1 <= j < k → is_trading_day (d + delta * j) = false) ∧
    (∀ j, 1 <= j <= k → MIN_ORDINAL <= d + delta * j <= MAX_ORDINAL).
Proof.
  revert d. induction fuel as [|fuel IH]; intros d; cbn [search].
  { split; [done|]. intros (k & ? & _). lia. }
  rewrite bind_Ok. setoid_rewrite date_add_Ok. split.
  - intros (c & (-> & Hc) & Hs). destruct (is_trading_day (d + delta)) eqn:E.
    + injection Hs as <-. exists 1. rewrite Z.mul_1_r. split_and!; try lia; [done|].
      intros j Hj. replace j with 1 by lia. lia.
    + apply IH in Hs as (k & Hk & -> & Ht & Hn & Hr). exists (k + 1). split_and!; [lia|lia|lia| | |].
      * by replace (d + delta * (k + 1)) with (d + delta + delta * k) by lia.
      * intros j Hj. destruct (Z.eq_dec j 1) as [->|]; [by rewrite Z.mul_1_r|].
        replace (d + delta * j) with (d + delta + delta * (j - 1)) by lia. apply Hn. lia.
      * intros j Hj. destruct (Z.eq_dec j 1) as [->|]; [lia|].
        replace (d + delta * j) with (d + delta + delta * (j - 1)) by lia. apply Hr. lia.
  - intros (k & Hk & -> & Ht & Hn & Hr). exists (d + delta).
    pose proof (Hr 1 ltac:(lia)) as Hr1. rewrite Z.mul_1_r in Hr1. split; [done|].
    destruct (Z.eq_dec k 1) as [->|].
    + rewrite Z.mul_1_r in *. by rewrite Ht.
    + pose proof (Hn 1 ltac:(lia)) as Hn1. rewrite Z.mul_1_r in Hn1. rewrite Hn1.
      apply IH. exists (k - 1). split_and!; [lia|lia|lia|done| |].
      * intros j Hj. replace (d + delta + delta * j) with (d + delta * (j + 1)) by lia. apply Hn. lia.
      * intros j Hj. replace (d + delta + delta * j) with (d + delta * (j + 1)) by lia. apply Hr. lia.
Qed.

(** The search fails on its bound only when the whole window is closed. *)
Lemma search_exhausted fuel delta d :
  search fuel delta d = Raise CalendarExhaustedError ↔
  ∀ j, 1 <= j <= Z.of_nat fuel →
    is_trading_day (d + delta * j) = false ∧ MIN_ORDINAL <= d + delta * j <= MAX_ORDINAL.
Proof.
  revert d. induction fuel as [|fuel IH]; intros d; cbn [search].
  { split; [intros _ j ?; lia|done]. }
  destruct (date_add d delta) as [c|e] eqn:Hc.
  - apply date_add_Ok in Hc as [-> Hc]. cbn [mbind result_bind]. split.
    + destruct (is_trading_day (d + delta)) eqn:E; [done|]. intros Hs j Hj.
      destruct (Z.eq_dec j 1) as [->|]; [by rewrite Z.mul_1_r|].
      replace (d + delta * j) with (d + delta + delta * (j - 1)) by lia. apply IH; [done|lia].
    + intros Hall. pose proof (Hall 1 ltac:(lia)) as [H1 _]. rewrite Z.mul_1_r in H1. rewrite H1.
      apply IH. intros j Hj. replace (d + delta + delta * j) with (d + delta * (j + 1)) by lia.
      apply Hall. lia.
  - cbn [mbind result_bind]. unfold date_add in Hc. destruct (_ && _) eqn:E; [done|].
    injection Hc as <-. split; [done|]. intros Hall. pose proof (Hall 1 ltac:(lia)) as [_ H1].
    rewrite Z.mul_1_r in H1. apply andb_false_iff in E as [|]; zbool; lia.
Qed.

Lemma seqZ_filter_none a n :
  (∀ j, 0 <= j < n → is_trading_day (a + j) = false) →
  filter (λ d, is_trading_day d = true) (seqZ a n) = [].
Proof.
  intros H. apply elem_of_nil_inv. intros d [Ht Hd]%list_elem_of_filter. apply elem_of_seqZ in Hd.
  specialize (H (d - a) ltac:(lia)). replace (a + (d - a)) with d in H by lia. congruence.
Qed.

Lemma next_trading_day_between d d' :
  next_trading_day d = Ok d' → trading_days_between d d' = 1%nat.
Proof.
  intros (k & Hk & -> & Ht & Hn & _)%search_Ok. unfold trading_days_between.
  rewrite Z.mul_1_l in *. replace (d + k - d) with (k - 1 + 1) by lia.
  rewrite seqZ_app, filter_app, length_app by lia.
  rewrite seqZ_filter_none.
  2: { intros j Hj. replace (d + 1 + j) with (d + 1 * (j + 1)) by lia. apply Hn. lia. }
  replace (d + 1 + (k - 1)) with (d + k) by lia. rewrite seqZ_cons by lia.
  by rewrite filter_cons_True by done.
Qed.

Lemma trading_days_between_app a b c :
  a <= b <= c → trading_days_between a c = (trading_days_between a b + trading_days_between b c)%nat.
Proof.
  intros H. unfold trading_days_between. replace (c - a) with (b - a + (c - b)) by lia.
  rewrite seqZ_app, filter_app, length_app by lia. do 4 f_equal. lia.
Qed.

Lemma search_direction fuel delta d d' :
  search fuel delta d = Ok d' → ∃ k, 1 <= k <= Z.of_nat fuel ∧ d' = d + delta * k.
Proof. intros (k & Hk & -> & _)%search_Ok. by exists k. Qed.

(** One step forward from a trading day is undone by one step back. *)
Lemma previous_next_trading_day d d' :
  is_trading_day d = true → MIN_ORDINAL <= d <= MAX_ORDINAL →
  next_trading_day d = Ok d' → previous_trading_day d' = Ok d.
Proof.
  intros Hd Hrange (k & Hk & -> & Ht & Hn & Hr)%search_Ok. apply search_Ok.
  exists k. rewrite Z.mul_1_l in *. split_and!; [lia|lia|lia|done| |].
  - intros j Hj. replace (d + k + -1 * j) with (d + 1 * (k - j)) by lia. apply Hn. lia.
  - intros j Hj. destruct (Z.eq_dec j k) as [->|]; [lia|].
    replace (d + k + -1 * j) with (d + 1 * (k - j)) by lia. apply Hr. lia.
Qed.

Lemma repeat_step_snoc n step d :
  repeat_step (S n) step d = (repeat_step n step d ≫= step).
Proof.
  revert d. induction n as [|n IH]; intros d; cbn [repeat_step].
  - cbn. by destruct (step d).
  - destruct (step d) as [c|e]; cbn [mbind result_bind]; [|done]. by rewrite <- IH.
Qed.

Lemma repeat_next_between n d d' :
  repeat_step n next_trading_day d = Ok d' → d <= d' ∧ trading_days_between d d' = n.
Proof.
  revert d'. induction n as [|n IH]; intros d'.
  - intros [= <-]. split; [lia|]. unfold trading_days_between. by rewrite Z.sub_diag.
  - rewrite repeat_step_snoc, bind_Ok. intros (c & Hc & Hn). apply IH in Hc as [Hle Hc].
    pose proof (search_direction _ _ _ _ Hn) as (k & ? & ?). split; [lia|].
    rewrite (trading_days_between_app d c d') by lia.
    rewrite Hc, (next_trading_day_between c d' Hn). lia.
Qed.
End MarketClock.

(** The next (or previous) trading day is the first one strictly after
    (before) the date, at most fourteen days away; the bounded search raises
    [CalendarExhaustedError] exactly when none of those days trades. *)
Theorem next_trading_day_first `{TradingCalendar} (d d' : date) :
  (next_trading_day d = Ok d' →
     d < d' <= d + 14 ∧ is_trading_day d' = true ∧ ∀ x, d < x < d' → is_trading_day x = false) ∧
  (previous_trading_day d = Ok d' →
     d - 14 <= d' < d ∧ is_trading_day d' = true ∧ ∀ x, d' < x < d → is_trading_day x = false) ∧
  (MIN_ORDINAL <= d - 14 ∧ d + 14 <= MAX_ORDINAL →
     (next_trading_day d = Raise CalendarExhaustedError ↔
        ∀ x, d < x <= d + 14 → is_trading_day x = false) ∧
     (previous_trading_day d = Raise CalendarExhaustedError ↔
        ∀ x, d - 14 <= x < d → is_trading_day x = false)).
Proof.
  split_and!.
  - intros (k & Hk & -> & Ht & Hn & _)%search_Ok. change (Z.of_nat MAX_CALENDAR_SEARCH_DAYS) with 14 in Hk.
    split_and!; [lia|lia|done|]. intros x Hx. replace x with (d + 1 * (x - d)) by lia. apply Hn. lia.
  - intros (k & Hk & -> & Ht & Hn & _)%search_Ok. change (Z.of_nat MAX_CALENDAR_SEARCH_DAYS) with 14 in Hk.
    split_and!; [lia|lia|done|]. intros x Hx. replace x with (d + -1 * (d - x)) by lia. apply Hn. lia.
  - intros Hr. unfold next_trading_day, previous_trading_day. rewrite !search_exhausted.
    change (Z.of_nat MAX_CALENDAR_SEARCH_DAYS) with 14. split; split; intros Hall.
    + intros x Hx. replace x with (d + 1 * (x - d)) by lia. apply Hall. lia.
    + intros j Hj. split; [apply Hall; lia|lia].
    + intros x Hx. replace x with (d + -1 * (d - x)) by lia. apply Hall. lia.
    + intros j Hj. split; [apply Hall; lia|lia].
Qed.

(** A calendar of weekdays with one holiday, for the witnesses. *)
Definition sample_calendar : TradingCalendar := in_memory_calendar {[ 738158 ]} ∅.

Lemma next_trading_day_first_witness :
  weekday 738154 = 3 ∧
  next_trading_day (calendar := sample_calendar) 738155 = Ok 738159 ∧ 738155 < 738159 <= 738155 + 14.
Proof.
  split; [done|]. split; [by vm_compute|].
  exact (proj1 (proj1 (next_trading_day_first (H := sample_calendar) 738155 738159) ltac:(by vm_compute))).
Defined.

(** [add_trading_days d n] steps exactly [n] trading days: [n] of the days
    after [d] up to the result trade, and from a trading day the same number of
    steps back returns to it. *)
Theorem add_trading_days_counts `{TradingCalendar} (d d' : date) (n : Z) :
  0 <= n → MIN_ORDINAL <= d <= MAX_ORDINAL → add_trading_days d n = Ok d' →
  d <= d' ∧ trading_days_between d d' = Z.to_nat n ∧
  (is_trading_day d = true → add_trading_days d' (- n) = Ok d).
Proof.
  intros Hn Hd. unfold add_trading_days. rewrite (proj2 (Z.leb_le 0 n)) by lia.
  rewrite Z.abs_opp, Z.abs_eq by lia. intros Hr.
  pose proof (repeat_next_between _ _ _ Hr) as [Hle Hcount]. split_and!; [done|done|].
  intros Ht. destruct (Z.eq_dec n 0) as [->|Hnz]; [by injection Hr as ->|].
  rewrite (proj2 (Z.leb_gt 0 (- n))) by lia.
  clear Hle Hcount Hnz Hn. revert d' Hr. generalize (Z.to_nat n). clear n.
  intros n. induction n as [|n IH]; intros d'; [by intros [= ->]|].
  rewrite repeat_step_snoc, bind_Ok. intros (c & Hc & Hn). cbn [repeat_step].
  assert (Hcd : is_trading_day c = true ∧ MIN_ORDINAL <= c <= MAX_ORDINAL).
  { destruct n as [|n]; [by injection Hc as ->|]. rewrite repeat_step_snoc, bind_Ok in Hc.
    destruct Hc as (? & _ & (k & Hk & -> & ? & _ & Hrg)%search_Ok). split; [done|]. apply Hrg. lia. }
  rewrite (previous_next_trading_day c d' (proj1 Hcd) (proj2 Hcd) Hn). by apply IH.
Qed.

Lemma add_trading_days_counts_witness :
  add_trading_days (calendar := sample_calendar) 738154 3 = Ok 738160 ∧
  add_trading_days (calendar := sample_calendar) 738160 (-3) = Ok 738154.
Proof.
  assert (H : add_trading_days (calendar := sample_calendar) 738154 3 = Ok 738160) by by vm_compute.
  split; [exact H|].
  exact (proj2 (proj2 (add_trading_days_counts (H := sample_calendar) 738154 738160 3
    ltac:(done) ltac:(done) H)) eq_refl).
Defined.
