(* ===== verification/Store.v ===== *)
(** * Database programs

    A service is a program over a store of tables: it queries, inserts rows,
    updates rows in place, draws fresh identifiers and may raise.  [prog] is
    the syntax of such programs and [run] their meaning.  The store enforces
    what the repositories and the database enforce on every program: CHECK
    constraints, unique and foreign keys, and the append-only guard of
    [BaseRepository._reject_mutation].  Theorems stated for every program
    therefore hold of every service, by construction.

    A staged row is inserted when it is added: SQLAlchemy's autoflush makes it
    visible to the next query, and an exception discards the whole transaction
    ([UnitOfWork.__exit__]), so the delay of the flush is not observable. *)

From S2P Require Import Prelude.
Open Scope Z_scope.

(** ** Schemas *)

(** What the store must know of the models. *)
Class Schema := {
  table : Type;
  table_eq_dec :: EqDecision table;
  row : table → Type;
  (** [append_only = True] on the repository, UPDATE and DELETE revoked *)
  append_only : table → bool;
  (** tables a service deletes from; DELETE is refused everywhere else *)
  deletable : table → bool;
  (** CHECK constraints *)
  valid : ∀ t, row t → bool;
  (** primary key and unique constraints: two rows that cannot coexist *)
  conflicts : ∀ t, row t → row t → bool;
  (** BEFORE UPDATE triggers: may this row become that one? *)
  transition : ∀ t, row t → row t → bool;
  (** foreign keys, against the other tables *)
  references : ∀ t, (∀ t', list (row t')) → row t → bool;
}.

(** ** Stores and programs *)

Section Store.
Context `{Schema}.

Record db := Db {
  tables : ∀ t, list (row t);
  next_uuid : Z;
  (** the transaction's [now()] *)
  db_now : Z;
}.

Definition set_table (t : table) (l : list (row t)) (d : db) : db :=
  Db (λ t', match decide (t = t') with
            | left e => eq_rect t (λ x, list (row x)) l t' e
            | right _ => tables d t'
            end) (next_uuid d) (db_now d).

Inductive prog (A : Type) : Type :=
  | Ret (a : A)
  | Throw (e : exn)
  | Query (k : db → prog A)
  | Insert (t : table) (r : row t) (k : prog A)
  | TryInsert (t : table) (r : row t) (k : bool → prog A)
  | Update (t : table) (p : row t → bool) (f : row t → row t) (k : prog A)
  | Delete (t : table) (p : row t → bool) (k : prog A)
  | Uuid4 (k : Z → prog A).

Arguments Ret {A} a.
Arguments Throw {A} e.
Arguments Query {A} k.
Arguments Insert {A} t r k.
Arguments TryInsert {A} t r k.
Arguments Update {A} t p f k.
Arguments Delete {A} t p k.
Arguments Uuid4 {A} k.

#[export] Instance prog_ret : MRet prog := @Ret.

#[export] Instance prog_bind : MBind prog := λ A B f,
  fix bind (m : prog A) : prog B :=
    match m with
    | Ret a => f a
    | Throw e => Throw e
    | Query k => Query (λ d, bind (k d))
    | Insert t r k => Insert t r (bind k)
    | TryInsert t r k => TryInsert t r (λ b, bind (k b))
    | Update t p g k => Update t p g (bind k)
    | Delete t p k => Delete t p (bind k)
    | Uuid4 k => Uuid4 (λ n, bind (k n))
    end.

(** Rows of one table pairwise compatible with its unique constraints. *)
Fixpoint conflict_free (t : table) (l : list (row t)) : bool :=
  match l with
  | [] => true
  | r :: l => forallb (λ r', negb (conflicts t r r')) l && conflict_free t l
  end.

(** Does the database accept a new row? *)
Definition accepts (t : table) (d : db) (r : row t) : bool :=
  valid t r && references t (tables d) r && forallb (λ r', negb (conflicts t r' r)) (tables d t).

(** [session.add]: the row is appended. *)
Definition insert_row (t : table) (r : row t) (d : db) : db := set_table t (tables d t ++ [r]) d.

Definition update_table (t : table) (p : row t → bool) (f : row t → row t) (d : db) : list (row t) :=
  (λ r, if p r then f r else r) <$> tables d t.

(** The triggers of the rows an update selects. *)
Definition may_update (t : table) (p : row t → bool) (f : row t → row t) (d : db) : bool :=
  forallb (λ r, negb (p r) || transition t r (f r)) (tables d t).

(** [session.delete]: the rows [p] selects go. *)
Definition delete_table (t : table) (p : row t → bool) (d : db) : list (row t) :=
  filter (λ r, p r = false) (tables d t).

Fixpoint run {A} (m : prog A) (d : db) : result (A * db) :=
  match m with
  | Ret a => Ok (a, d)
  | Throw e => Raise e
  | Query k => run (k d) d
  | Insert t r k => if accepts t d r then run k (insert_row t r d) else Raise IntegrityError
  | TryInsert t r k => if accepts t d r then run (k true) (insert_row t r d) else run (k false) d
  | Update t p f k =>
      if append_only t then Raise AppendOnlyViolationError
      else if negb (may_update t p f d) then Raise DbRaise
      else let l := update_table t p f d in
           if forallb (valid t) l && conflict_free t l then run k (set_table t l d)
           else Raise IntegrityError
  | Delete t p k =>
      if append_only t then Raise AppendOnlyViolationError
      else if negb (deletable t) then Raise DbRaise
      else run k (set_table t (delete_table t p d) d)
  | Uuid4 k => run (k (next_uuid d)) (Db (tables d) (next_uuid d + 1) (db_now d))
  end.

(** ** Derived operations *)

Definition throw {A} (e : exn) : prog A := Throw e.
Definition gets {A} (f : db → A) : prog A := Query (λ d, Ret (f d)).
Definition lift {A} (r : result A) : prog A :=
  match r with Ok a => Ret a | Raise e => Throw e end.
Definition queries {A} (f : db → result A) : prog A := Query (λ d, lift (f d)).
Definition add (t : table) (r : row t) : prog () := Insert t r (Ret tt).
Definition try_add (t : table) (r : row t) : prog bool := TryInsert t r Ret.
Definition update (t : table) (p : row t → bool) (f : row t → row t) : prog () := Update t p f (Ret tt).
Definition delete_rows (t : table) (p : row t → bool) : prog () := Delete t p (Ret tt).
Definition uuid4 : prog Z := Uuid4 Ret.
Definition require (b : bool) (e : exn) : prog () := if b then Ret tt else Throw e.

(** A [for] loop. *)
Fixpoint for_each {A} (l : list A) (body : A → prog ()) : prog () :=
  match l with
  | [] => Ret tt
  | x :: l => body x ;; for_each l body
  end.

(** A [for] loop with an accumulator. *)
Fixpoint fold_prog {A B} (f : B → A → prog B) (l : list A) (acc : B) : prog B :=
  match l with
  | [] => Ret acc
  | x :: l => acc ← f acc x; fold_prog f l acc
  end.

(** A list comprehension over effectful calls. *)
Fixpoint map_prog {A B} (f : A → prog B) (l : list A) : prog (list B) :=
  match l with
  | [] => Ret []
  | x :: l => y ← f x; ys ← map_prog f l; Ret (y :: ys)
  end.

(** [try/except] around a program with no savepoint: what it wrote before the
    exception stays.  The exceptions the database raises end the transaction and
    are not caught here. *)
Fixpoint catching {A} (caught : exn → bool) (m : prog A) : prog (result A) :=
  match m with
  | Ret a => Ret (Ok a)
  | Throw e => if caught e then Ret (Raise e) else Throw e
  | Query k => Query (λ d, catching caught (k d))
  | Insert t r k => Insert t r (catching caught k)
  | TryInsert t r k => TryInsert t r (λ b, catching caught (k b))
  | Update t p f k => Update t p f (catching caught k)
  | Delete t p k => Delete t p (catching caught k)
  | Uuid4 k => Uuid4 (λ n, catching caught (k n))
  end.

(** ** Lemmas: running composed programs *)

Lemma tables_set_same t l d : tables (set_table t l d) t = l.
Proof.
  cbn. destruct (decide (t = t)) as [e|]; [|done]. by rewrite (proof_irrel e eq_refl).
Qed.

Lemma tables_set_ne t t' l d : t ≠ t' → tables (set_table t l d) t' = tables d t'.
Proof. intros. cbn. by destruct (decide (t = t')). Qed.

Lemma run_bind {A B} (m : prog A) (f : A → prog B) d :
  run (m ≫= f) d = match run m d with Ok (a, d') => run (f a) d' | Raise e => Raise e end.
Proof.
  revert d. induction m as [a|e|k IH|t r k IH|t r k IH|t p g k IH|t p k IH|k IH]; intros d; cbn.
  - done.
  - done.
  - apply IH.
  - destruct (accepts t d r); [apply IH|done].
  - destruct (accepts t d r); apply IH.
  - destruct (append_only t); [done|]. destruct (negb _); [done|].
    destruct (_ && _); [apply IH|done].
  - destruct (append_only t); [done|]. destruct (negb _); [done|apply IH].
  - apply IH.
Qed.

Lemma run_bind_Ok {A B} (m : prog A) (f : A → prog B) d b d' :
  run (m ≫= f) d = Ok (b, d') ↔ ∃ a d1, run m d = Ok (a, d1) ∧ run (f a) d1 = Ok (b, d').
Proof.
  rewrite run_bind. destruct (run m d) as [[a d1]|e].
  - split; [by exists a, d1|by intros (? & ? & [= <- <-] & ?)].
  - split; [done|by intros (? & ? & ? & _)].
Qed.

Lemma run_ret_Ok {A} (a b : A) d d' : run (Ret a) d = Ok (b, d') ↔ a = b ∧ d = d'.
Proof. cbn. split; [by intros [= <- <-]|by intros [<- <-]]. Qed.

Lemma run_lift_Ok {A} (r : result A) a d d' : run (lift r) d = Ok (a, d') ↔ r = Ok a ∧ d = d'.
Proof. destruct r; cbn; split; try done; [by intros [= <- <-]|by intros [[= <-] <-]|by intros [? _]]. Qed.

Lemma run_queries_Ok {A} (f : db → result A) a d d' :
  run (queries f) d = Ok (a, d') ↔ f d = Ok a ∧ d = d'.
Proof. unfold queries. cbn. apply run_lift_Ok. Qed.

Lemma run_gets_Ok {A} (f : db → A) a d d' : run (gets f) d = Ok (a, d') ↔ f d = a ∧ d = d'.
Proof. cbn. split; [by intros [= <- <-]|by intros [<- <-]]. Qed.

Lemma run_require_Ok b e u d d' : run (require b e) d = Ok (u, d') ↔ b = true ∧ d = d'.
Proof. destruct b, u; cbn; split; try done; [by intros [= <-]|by intros [_ <-]|by intros [? _]]. Qed.

Lemma run_add_Ok t r u d d' :
  run (add t r) d = Ok (u, d') ↔ accepts t d r = true ∧ d' = insert_row t r d.
Proof.
  destruct u. unfold add. cbn [run]. destruct (accepts t d r); split; try done.
  - by intros [= <-].
  - by intros [_ ->].
  - by intros [? _].
Qed.

Lemma run_uuid4_Ok n d d' :
  run uuid4 d = Ok (n, d') ↔ n = next_uuid d ∧ d' = Db (tables d) (next_uuid d + 1) (db_now d).
Proof. cbn. split; [by intros [= <- <-]|by intros [-> ->]]. Qed.

Lemma run_update_Ok t p f u d d' :
  run (update t p f) d = Ok (u, d') ↔
  append_only t = false ∧ may_update t p f d = true ∧
  forallb (valid t) (update_table t p f d) = true ∧
  conflict_free t (update_table t p f d) = true ∧ d' = set_table t (update_table t p f d) d.
Proof.
  destruct u. unfold update. cbn [run]. destruct (append_only t); [split; [done|by intros [? _]]|].
  destruct (may_update t p f d); cbn [negb]; [|split; [done|by intros (_ & ? & _)]].
  destruct (forallb _ _ && conflict_free t _) eqn:E.
  - apply andb_true_iff in E as [-> ->]. split; [by intros [= <-]|by intros (_ & _ & _ & _ & ->)].
  - split; [done|]. intros (_ & _ & Hv & Hc & _). by rewrite Hv, Hc in E.
Qed.

Lemma run_delete_Ok t p u d d' :
  run (delete_rows t p) d = Ok (u, d') ↔
  append_only t = false ∧ deletable t = true ∧ d' = set_table t (delete_table t p d) d.
Proof.
  destruct u. unfold delete_rows. cbn [run]. destruct (append_only t); [split; [done|by intros [? _]]|].
  destruct (deletable t); cbn [negb]; split; try done; [by intros [= <-]|by intros (_ & _ & ->)|by intros (_ & ? & _)].
Qed.

(** [with session.begin_nested()] around [m], with the handler of an [except]
    clause for the exceptions [catch] accepts: they undo what [m] did. *)
Definition savepoint {A} (catch : exn → bool) (m : prog A) : prog (result A) :=
  Query (λ d, match run m d with
              | Ok _ => a ← m; Ret (Ok a)
              | Raise e => if catch e then Ret (Raise e) else Throw e
              end).

Lemma run_savepoint {A} catch (m : prog A) d :
  run (savepoint catch m) d =
    match run m d with
    | Ok (a, d') => Ok (Ok a, d')
    | Raise e => if catch e then Ok (Raise e, d) else Raise e
    end.
Proof.
  unfold savepoint. cbn [run]. destruct (run m d) as [[a d']|e] eqn:E.
  - rewrite run_bind, E. done.
  - by destruct (catch e).
Qed.

(** The outcome of a run on a concrete store, for the examples. *)
Definition run_or {A} (m : prog A) (d : db) (default : A) : A * db :=
  match run m d with Ok r => r | Raise _ => (default, d) end.

Lemma run_or_Ok {A} (m : prog A) (d : db) (default : A) :
  is_ok (run m d) = true → run m d = Ok (run_or m d default).
Proof. unfold run_or. by destruct (run m d). Qed.

(** ** What every program preserves *)

(** The store's integrity: every row passes its checks and no two clash. *)
Definition integrity (d : db) : Prop :=
  ∀ t, Forall (λ r, valid t r = true) (tables d t) ∧ conflict_free t (tables d t) = true.

Lemma conflict_free_snoc t l r :
  conflict_free t l = true → forallb (λ r', negb (conflicts t r' r)) l = true →
  conflict_free t (l ++ [r]) = true.
Proof.
  induction l as [|x l IH]; cbn; [done|]. intros [H1 H2]%andb_true_iff [H3 H4]%andb_true_iff.
  rewrite forallb_app, H1, IH by done. cbn. by rewrite H3.
Qed.

Lemma integrity_set t l d :
  integrity d → forallb (valid t) l = true → conflict_free t l = true →
  integrity (set_table t l d).
Proof.
  intros Hd Hl Hc t'. destruct (decide (t = t')) as [<-|Hne].
  - rewrite tables_set_same. split; [|done]. apply Forall_forall. intros r Hr.
    rewrite forallb_forall in Hl. apply Hl. by apply list_elem_of_In.
  - by rewrite tables_set_ne.
Qed.

Lemma integrity_insert t r d : integrity d → accepts t d r = true → integrity (insert_row t r d).
Proof.
  intros Hd [[Hr _]%andb_true_iff Hn]%andb_true_iff. destruct (Hd t) as [Hv Hc].
  apply integrity_set; [done| |by apply conflict_free_snoc].
  rewrite forallb_app, andb_true_iff. split; [|cbn; by rewrite Hr].
  apply forallb_forall. intros x Hx. rewrite Forall_forall in Hv. by apply Hv, list_elem_of_In.
Qed.

Lemma conflict_free_filter t (P : row t → Prop) `{∀ r, Decision (P r)} l :
  conflict_free t l = true → conflict_free t (filter P l) = true.
Proof.
  induction l as [|x l IH]; cbn [conflict_free]; [done|]. intros [H1 H2%IH]%andb_true_iff.
  rewrite filter_cons. destruct (decide (P x)); [|done]. cbn [conflict_free]. rewrite H2, andb_true_r.
  rewrite forallb_forall in H1 |- *. intros y Hy%list_elem_of_In. apply H1, list_elem_of_In.
  by apply list_elem_of_filter in Hy as [_ ?].
Qed.

Lemma integrity_delete t p d : integrity d → integrity (set_table t (delete_table t p d) d).
Proof.
  intros Hd. destruct (Hd t) as [Hv Hc]. apply integrity_set; [done| |by apply conflict_free_filter].
  apply forallb_forall. intros r [_ Hr]%list_elem_of_In%list_elem_of_filter.
  rewrite Forall_forall in Hv. by apply Hv.
Qed.

Lemma integrity_check d :
  (∀ t, forallb (valid t) (tables d t) && conflict_free t (tables d t) = true) → integrity d.
Proof.
  intros Hc t. specialize (Hc t). apply andb_true_iff in Hc as [Hv Hc]. split; [|done].
  apply Forall_forall. intros r Hr. rewrite forallb_forall in Hv. by apply Hv, list_elem_of_In.
Qed.


(** ** Rows under a unique key *)

Lemma conflict_free_split t l1 r l2 :
  conflict_free t (l1 ++ r :: l2) = true →
  (∀ x, x ∈ l1 → conflicts t x r = false) ∧ (∀ x, x ∈ l2 → conflicts t r x = false).
Proof.
  induction l1 as [|y l1 IH]; cbn.
  - intros [Hr _]%andb_true_iff. rewrite forallb_forall in Hr. split; [set_solver|].
    intros x Hx. by apply negb_true_iff, Hr, list_elem_of_In.
  - intros [H1 [H2 H3]%IH]%andb_true_iff. rewrite forallb_forall in H1. split; [|done].
    intros x [->|Hx]%elem_of_cons; [|by apply H2].
    apply negb_true_iff, H1, list_elem_of_In. set_solver.
Qed.

(** A table whose only constraint is a key. *)
Lemma conflict_free_key t (key : row t → Z) l :
  (∀ a b, conflicts t a b = (key a =? key b)) → conflict_free t l = true ↔ NoDup (key <$> l).
Proof.
  intros Hkey. induction l as [|r l IH]; cbn [conflict_free fmap list_fmap]; [split; [constructor|done]|].
  rewrite andb_true_iff, NoDup_cons, IH, forallb_forall. apply and_iff_compat_r. split.
  - intros Hne (x & He & Hx)%list_elem_of_fmap. specialize (Hne x (proj1 (list_elem_of_In _ _) Hx)).
    by rewrite Hkey, He, Z.eqb_refl in Hne.
  - intros Hni x Hx. rewrite Hkey. apply negb_true_iff, Z.eqb_neq. intros He. apply Hni, list_elem_of_fmap.
    exists x. split; [done|by apply list_elem_of_In].
Qed.

(** An update by a unique key changes one row. *)
Lemma update_one_split t (key : row t → Z) f d l1 r l2 :
  (∀ a b, key a = key b → conflicts t a b = true) → integrity d → tables d t = l1 ++ r :: l2 →
  update_table t (λ x, key x =? key r) f d = l1 ++ f r :: l2 ∧ ∀ x, x ∈ l1 ++ l2 → key x ≠ key r.
Proof.
  intros Hkey Hd Hl. destruct (Hd t) as [_ Hc]. rewrite Hl in Hc. apply conflict_free_split in Hc as [H1 H2].
  assert (Hne : ∀ x, x ∈ l1 ++ l2 → key x ≠ key r).
  { intros x [Hx|Hx]%elem_of_app Hk.
    - specialize (H1 x Hx). by rewrite Hkey in H1.
    - specialize (H2 x Hx). rewrite Hkey in H2 by done. done. }
  assert (Hmap : ∀ l, l ⊆ l1 ++ l2 → (λ x, if key x =? key r then f x else x) <$> l = l).
  { intros l Hs. rewrite <- (list_fmap_id l) at 2. apply list_fmap_ext. intros i x Hi. cbn.
    destruct (Z.eqb_spec (key x) (key r)) as [E|]; [|done]. exfalso. apply (Hne x); [|done].
    apply Hs. by eapply list_elem_of_lookup_2. }
  split; [|done]. unfold update_table. rewrite Hl, fmap_app, fmap_cons, Z.eqb_refl. by rewrite !Hmap by set_solver.
Qed.

Lemma update_one t (key : row t → Z) f d r :
  (∀ a b, key a = key b → conflicts t a b = true) → integrity d → r ∈ tables d t →
  ∃ l1 l2, tables d t = l1 ++ r :: l2 ∧
    update_table t (λ x, key x =? key r) f d = l1 ++ f r :: l2 ∧
    ∀ x, x ∈ l1 ++ l2 → key x ≠ key r.
Proof.
  intros Hkey Hd (l1 & l2 & Hl)%list_elem_of_split. exists l1, l2. split; [done|]. by apply update_one_split.
Qed.

(** A key whose equality is a conflict picks out one row. *)
Lemma filter_unique_key {K} `{EqDecision K} t (key : row t → K) d r :
  (∀ a b, key a = key b → conflicts t a b = true) → integrity d → r ∈ tables d t →
  filter (λ x, key x = key r) (tables d t) = [r].
Proof.
  intros Hkey Hd (l1 & l2 & Hl)%list_elem_of_split. destruct (Hd t) as [_ Hc]. rewrite Hl in Hc |- *.
  apply conflict_free_split in Hc as [H1 H2].
  rewrite filter_app, filter_cons_True, (filter_none _ l1), (filter_none _ l2); try done.
  - intros x Hx E. specialize (H2 x Hx). by rewrite Hkey in H2.
  - intros x Hx E. specialize (H1 x Hx). by rewrite Hkey in H1.
Qed.

Lemma filter_unique t (key : row t → Z) d r :
  (∀ a b, key a = key b → conflicts t a b = true) → integrity d → r ∈ tables d t →
  filter (λ x, key x = key r) (tables d t) = [r].
Proof. apply filter_unique_key. Qed.

(** Rows of an append-only table never change and never disappear. *)
Definition extends (d d' : db) : Prop :=
  next_uuid d <= next_uuid d' ∧ db_now d' = db_now d ∧
  ∀ t, append_only t = true → tables d t `prefix_of` tables d' t.

#[export] Instance extends_preorder : PreOrder extends.
Proof.
  split.
  - intros d. split_and!; [lia|done|done].
  - intros d1 d2 d3 (H1 & H2 & H3) (H4 & H5 & H6). split_and!; [lia|congruence|].
    intros t Ht. etrans; [by apply H3|by apply H6].
Qed.

Lemma insert_extends t r d : extends d (insert_row t r d).
Proof.
  split_and!; [cbn; lia|done|]. intros t' _. unfold insert_row. destruct (decide (t = t')) as [<-|Hne].
  - rewrite tables_set_same. by apply prefix_app_r.
  - by rewrite tables_set_ne.
Qed.

Lemma run_extends {A} (m : prog A) d a d' : run m d = Ok (a, d') → extends d d'.
Proof.
  revert d. induction m as [a'|e|k IH|t r k IH|t r k IH|t p g k IH|t p k IH|k IH]; intros d; cbn [run].
  - by intros [= <- <-].
  - done.
  - apply IH.
  - destruct (accepts t d r); [|done]. intros Hr%IH. etrans; [apply insert_extends|done].
  - destruct (accepts t d r); [|apply IH]. intros Hr%IH. etrans; [apply insert_extends|done].
  - destruct (append_only t) eqn:E; [done|]. destruct (negb _); [done|].
    destruct (_ && _); [|done]. intros Hr%IH.
    etrans; [|done]. split_and!; [cbn; lia|done|]. intros t' Ht'. rewrite tables_set_ne by congruence. done.
  - destruct (append_only t) eqn:E; [done|]. destruct (negb _); [done|]. intros Hr%IH.
    etrans; [|done]. split_and!; [cbn; lia|done|]. intros t' Ht'. rewrite tables_set_ne by congruence. done.
  - intros Hr%IH. etrans; [|done]. split_and!; [cbn; lia|done|done].
Qed.

Lemma run_integrity {A} (m : prog A) d a d' : integrity d → run m d = Ok (a, d') → integrity d'.
Proof.
  revert d. induction m as [a'|e|k IH|t r k IH|t r k IH|t p g k IH|t p k IH|k IH]; intros d Hd; cbn [run].
  - by intros [= <- <-].
  - done.
  - by apply IH.
  - destruct (accepts t d r) eqn:E; [|done]. apply IH. by apply integrity_insert.
  - destruct (accepts t d r) eqn:E; apply IH; [by apply integrity_insert|done].
  - destruct (append_only t); [done|]. destruct (negb _); [done|]. destruct (_ && _) eqn:E; [|done].
    apply andb_true_iff in E as [? ?]. apply IH. by apply integrity_set.
  - destruct (append_only t); [done|]. destruct (negb _); [done|]. apply IH. by apply integrity_delete.
  - apply IH. exact Hd.
Qed.

Lemma run_integrity_snd {A} (m : prog A) d (r : A * db) : integrity d → run m d = Ok r → integrity r.2.
Proof. destruct r as [x d']. apply run_integrity. Qed.

(** Rows of a table nothing is deleted from only evolve along the transitions
    their triggers allow, keep their position, and are never removed. *)
Definition evolves (t : table) (l l' : list (row t)) : Prop :=
  ∃ old new, l' = old ++ new ∧ Forall2 (rtc (λ r r', transition t r r' = true)) l old.

#[export] Instance evolves_preorder t : PreOrder (evolves t).
Proof.
  split.
  - intros l. by exists l, []; rewrite app_nil_r.
  - intros l1 l2 l3 (o1 & n1 & -> & H1) (o2 & n2 & -> & H2).
    apply Forall2_app_inv_l in H2 as (o3 & n3 & H3 & H4 & ->).
    exists o3, (n3 ++ n2). rewrite app_assoc. split; [done|].
    by etrans.
Qed.

Lemma insert_evolves t t' r d : evolves t (tables d t) (tables (insert_row t' r d) t).
Proof.
  unfold insert_row. destruct (decide (t' = t)) as [<-|Hne].
  - rewrite tables_set_same. by exists (tables d t'), [r].
  - by rewrite tables_set_ne.
Qed.

Lemma update_evolves t p f d :
  may_update t p f d = true → evolves t (tables d t) (update_table t p f d).
Proof.
  unfold may_update, update_table. intros Hm. eexists _, []. rewrite app_nil_r. split; [done|].
  apply Forall2_fmap_r, Forall_Forall2_diag, Forall_forall. intros r Hr.
  rewrite forallb_forall in Hm. specialize (Hm r (proj1 (list_elem_of_In _ _) Hr)).
  revert Hm. cbn. destruct (p r); intros Hm; [by apply rtc_once|done].
Qed.

Lemma run_evolves {A} (m : prog A) d a d' t :
  deletable t = false → run m d = Ok (a, d') → evolves t (tables d t) (tables d' t).
Proof.
  intros Hdel. revert d.
  induction m as [a'|e|k IH|t' r k IH|t' r k IH|t' p g k IH|t' p k IH|k IH]; intros d; cbn [run].
  - by intros [= <- <-].
  - done.
  - apply IH.
  - destruct (accepts t' d r); [|done]. intros Hr%IH. etrans; [apply insert_evolves|done].
  - destruct (accepts t' d r); [|apply IH]. intros Hr%IH. etrans; [apply insert_evolves|done].
  - destruct (append_only t'); [done|]. destruct (may_update t' p g d) eqn:E; [|done]. cbn [negb].
    destruct (_ && _); [|done]. intros Hr%IH. etrans; [|exact Hr].
    destruct (decide (t' = t)) as [<-|Hne]; [|by rewrite tables_set_ne].
    rewrite tables_set_same. by apply update_evolves.
  - destruct (append_only t'); [done|]. destruct (deletable t') eqn:E; [|done]. cbn [negb].
    intros Hr%IH. rewrite tables_set_ne in Hr by congruence. exact Hr.
  - intros Hr%IH. exact Hr.
Qed.

(** ** Frames: the tables a program may write *)

Definition writes {A} (ts : list table) (m : prog A) : Prop :=
  ∀ d a d', run m d = Ok (a, d') → ∀ t, t ∉ ts → tables d' t = tables d t.

Lemma writes_weaken {A} ts ts' (m : prog A) : writes ts m → ts ⊆ ts' → writes ts' m.
Proof. intros Hm Hs d a d' Hr t Ht. eapply Hm; [done|]. set_solver. Qed.

Lemma writes_ret {A} ts (a : A) : writes ts (Ret a).
Proof. by intros d b d' [-> ->]%run_ret_Ok t _. Qed.

Lemma writes_throw {A} ts e : writes ts (@Throw A e).
Proof. done. Qed.

Lemma writes_query {A} ts (k : db → prog A) : (∀ d, writes ts (k d)) → writes ts (Query k).
Proof. intros Hk d a d' Hr. exact (Hk d d a d' Hr). Qed.

Lemma writes_bind {A B} ts (m : prog A) (f : A → prog B) :
  writes ts m → (∀ a, writes ts (f a)) → writes ts (m ≫= f).
Proof.
  intros Hm Hf d b d' (a & d1 & H1 & H2)%run_bind_Ok t Ht.
  etrans; [exact (Hf a d1 b d' H2 t Ht)|exact (Hm d a d1 H1 t Ht)].
Qed.

Lemma writes_lift {A} ts (r : result A) : writes ts (lift r).
Proof. by intros d b d' [_ ->]%run_lift_Ok t _. Qed.

Lemma writes_gets {A} ts (f : db → A) : writes ts (gets f).
Proof. by intros d b d' [_ ->]%run_gets_Ok t _. Qed.

Lemma writes_queries {A} ts (f : db → result A) : writes ts (queries f).
Proof. by intros d b d' [_ ->]%run_queries_Ok t _. Qed.

Lemma writes_require ts b e : writes ts (require b e).
Proof. by intros d u d' [_ ->]%run_require_Ok t _. Qed.

Lemma writes_uuid4 ts : writes ts uuid4.
Proof. by intros d n d' [_ ->]%run_uuid4_Ok t _. Qed.

Lemma writes_add ts t r : t ∈ ts → writes ts (add t r).
Proof.
  intros Ht d u d' [_ ->]%run_add_Ok t' Ht'. unfold insert_row. rewrite tables_set_ne; [done|].
  by intros ->.
Qed.

Lemma writes_try_add ts t r : t ∈ ts → writes ts (try_add t r).
Proof.
  intros Ht d b d' Hr t' Ht'. unfold try_add in Hr. cbn [run] in Hr.
  destruct (accepts t d r); injection Hr as <- <-; [|done].
  unfold insert_row. rewrite tables_set_ne; [done|]. by intros ->.
Qed.

Lemma writes_update ts t p f : t ∈ ts → writes ts (update t p f).
Proof.
  intros Ht d u d' (_ & _ & _ & _ & ->)%run_update_Ok t' Ht'. rewrite tables_set_ne; [done|]. by intros ->.
Qed.

Lemma writes_delete ts t p : t ∈ ts → writes ts (delete_rows t p).
Proof.
  intros Ht d u d' (_ & _ & ->)%run_delete_Ok t' Ht'. rewrite tables_set_ne; [done|]. by intros ->.
Qed.

Lemma writes_savepoint {A} ts catch (m : prog A) : writes ts m → writes ts (savepoint catch m).
Proof.
  intros Hm d r d'. rewrite run_savepoint. destruct (run m d) as [[a d1]|e] eqn:E.
  - intros [= <- <-]. exact (Hm d a d1 E).
  - destruct (catch e); [by intros [= <- <-]|done].
Qed.

Lemma run_catching_Ok {A} caught (m : prog A) d a d' :
  run (catching caught m) d = Ok (Ok a, d') ↔ run m d = Ok (a, d').
Proof.
  revert d. induction m as [a'|e|k IH|t r k IH|t r k IH|t p g k IH|t p k IH|k IH]; intros d; cbn [catching run].
  - split; [by intros [= <- <-]|by intros [= <- <-]].
  - destruct (caught e); cbn [run]; by split.
  - apply IH.
  - destruct (accepts t d r); [apply IH|done].
  - destruct (accepts t d r); apply IH.
  - destruct (append_only t); [done|]. destruct (negb _); [done|]. cbn zeta. destruct (_ && _); [apply IH|done].
  - destruct (append_only t); [done|]. destruct (negb _); [done|]. apply IH.
  - apply IH.
Qed.

Lemma run_catching_bind {A B} caught (m : prog A) (f : A → prog B) d :
  run (catching caught (m ≫= f)) d =
    match run (catching caught m) d with
    | Ok (Ok a, d') => run (catching caught (f a)) d'
    | Ok (Raise e, d') => Ok (Raise e, d')
    | Raise e => Raise e
    end.
Proof.
  revert d. induction m as [a'|e|k IH|t r k IH|t r k IH|t p g k IH|t p k IH|k IH]; intros d;
    cbn [mbind prog_bind catching run]; try apply IH.
  - done.
  - by destruct (caught e).
  - destruct (accepts t d r); [apply IH|done].
  - destruct (accepts t d r); apply IH.
  - destruct (append_only t); [done|]. destruct (negb _); [done|]. cbn zeta. destruct (_ && _); [apply IH|done].
  - destruct (append_only t); [done|]. destruct (negb _); [done|]. apply IH.
Qed.

Lemma writes_for_each {A} ts (l : list A) body :
  (∀ x, x ∈ l → writes ts (body x)) → writes ts (for_each l body).
Proof.
  induction l as [|x l IH]; intros Hb; cbn [for_each]; [apply writes_ret|].
  apply writes_bind; [apply Hb; set_solver|]. intros _. apply IH. set_solver.
Qed.

Lemma writes_fold {A B} ts (f : B → A → prog B) l acc :
  (∀ b x, writes ts (f b x)) → writes ts (fold_prog f l acc).
Proof.
  intros Hf. revert acc. induction l as [|x l IH]; intros acc; cbn [fold_prog]; [apply writes_ret|].
  apply writes_bind; [apply Hf|done].
Qed.

Lemma writes_map {A B} ts (f : A → prog B) l :
  (∀ x, writes ts (f x)) → writes ts (map_prog f l).
Proof.
  intros Hf. induction l as [|x l IH]; cbn [map_prog]; [apply writes_ret|].
  apply writes_bind; [apply Hf|]. intros y. apply writes_bind; [done|]. intros ys. apply writes_ret.
Qed.

(** ** Invariants *)

(** [m] keeps the invariant [I]. *)
Definition preserves {A} (I : db → Prop) (m : prog A) : Prop :=
  ∀ d a d', I d → run m d = Ok (a, d') → I d'.

Lemma preserves_ret {A} I (a : A) : preserves I (Ret a).
Proof. by intros d b d' HI [-> ->]%run_ret_Ok. Qed.

Lemma preserves_throw {A} I e : preserves I (@Throw A e).
Proof. done. Qed.

Lemma preserves_query {A} I (k : db → prog A) : (∀ d, preserves I (k d)) → preserves I (Query k).
Proof. intros Hk d a d' HI Hr. exact (Hk d d a d' HI Hr). Qed.

Lemma preserves_bind {A B} I (m : prog A) (f : A → prog B) :
  preserves I m → (∀ a, preserves I (f a)) → preserves I (m ≫= f).
Proof.
  intros Hm Hf d b d' HI (a & d1 & H1 & H2)%run_bind_Ok. exact (Hf a d1 b d' (Hm d a d1 HI H1) H2).
Qed.

Lemma preserves_lift {A} I (r : result A) : preserves I (lift r).
Proof. by intros d b d' HI [_ ->]%run_lift_Ok. Qed.

Lemma preserves_gets {A} I (f : db → A) : preserves I (gets f).
Proof. by intros d b d' HI [_ ->]%run_gets_Ok. Qed.

Lemma preserves_queries {A} I (f : db → result A) : preserves I (queries f).
Proof. by intros d b d' HI [_ ->]%run_queries_Ok. Qed.

Lemma preserves_require I b e : preserves I (require b e).
Proof. by intros d u d' HI [_ ->]%run_require_Ok. Qed.

Lemma preserves_for_each {A} I (l : list A) body :
  (∀ x, preserves I (body x)) → preserves I (for_each l body).
Proof.
  intros Hb. induction l as [|x l IH]; cbn [for_each]; [apply preserves_ret|].
  apply preserves_bind; [apply Hb|]. intros _. apply IH.
Qed.

Lemma preserves_fold {A B} I (f : B → A → prog B) l acc :
  (∀ b x, preserves I (f b x)) → preserves I (fold_prog f l acc).
Proof.
  intros Hf. revert acc. induction l as [|x l IH]; intros acc; cbn [fold_prog]; [apply preserves_ret|].
  apply preserves_bind; [apply Hf|done].
Qed.

Lemma preserves_map {A B} I (f : A → prog B) l :
  (∀ x, preserves I (f x)) → preserves I (map_prog f l).
Proof.
  intros Hf. induction l as [|x l IH]; cbn [map_prog]; [apply preserves_ret|].
  apply preserves_bind; [apply Hf|]. intros y. apply preserves_bind; [done|]. intros ys. apply preserves_ret.
Qed.

Lemma preserves_savepoint {A} I catch (m : prog A) : preserves I m → preserves I (savepoint catch m).
Proof.
  intros Hm d r d' HI. rewrite run_savepoint. destruct (run m d) as [[a d1]|e] eqn:E.
  - intros [= <- <-]. exact (Hm d a d1 HI E).
  - destruct (catch e); [by intros [= <- <-]|done].
Qed.

(** An invariant of tables the program does not write is kept. *)
Lemma preserves_frame {A} (I : db → Prop) ts (m : prog A) :
  (∀ d d', (∀ t, t ∉ ts → tables d' t = tables d t) → I d → I d') → writes ts m → preserves I m.
Proof. intros HI Hm d a d' Hd Hr. eapply HI; [|done]. intros t Ht. by eapply Hm. Qed.

(** ** Transactions *)

(** [UnitOfWork]: commit once, or keep the store of before the transaction.
    [at_commit] stands for the deferred constraint triggers. *)
Definition transact {A} (at_commit : db → bool) (m : prog A) (d : db) : result A * db :=
  match run m d with
  | Ok (a, d') => if at_commit d' then (Ok a, d') else (Raise DbRaise, d)
  | Raise e => (Raise e, d)
  end.

Lemma transact_extends {A} c (m : prog A) d : extends d (transact c m d).2.
Proof.
  unfold transact. destruct (run m d) as [[a d']|e] eqn:E; [|done].
  destruct (c d'); [|done]. cbn. by eapply run_extends.
Qed.

Lemma transact_integrity {A} c (m : prog A) d : integrity d → integrity (transact c m d).2.
Proof.
  intros Hd. unfold transact. destruct (run m d) as [[a d']|e] eqn:E; [|done].
  destruct (c d'); [|done]. by apply (run_integrity m d a).
Qed.

Lemma transact_frame {A} c ts (m : prog A) d t :
  writes ts m → t ∉ ts → tables (transact c m d).2 t = tables d t.
Proof.
  intros Hm Ht. unfold transact. destruct (run m d) as [[a d']|e] eqn:E; [|done].
  destruct (c d'); [|done]. by apply (Hm d a d').
Qed.
End Store.

Arguments Ret {_ A} a.
Arguments Throw {_ A} e.
Arguments Query {_ A} k.
Arguments Insert {_ A} t r k.
Arguments TryInsert {_ A} t r k.
Arguments Update {_ A} t p f k.
Arguments Delete {_ A} t p k.
Arguments Uuid4 {_ A} k.

Create HintDb writes.
#[export] Hint Resolve writes_ret writes_throw writes_lift writes_gets writes_queries
  writes_require writes_uuid4 : writes.

Create HintDb preserves.
#[export] Hint Resolve preserves_ret preserves_throw preserves_lift preserves_gets
  preserves_queries preserves_require : preserves.

(** Walk through a program, closing each step with the hint database. *)
Ltac writes_step :=
  match goal with
  | |- writes _ (_ ≫= _) => apply writes_bind; [|intros ?]
  | |- writes _ (mret _) => apply writes_ret
  | |- writes _ (for_each _ _) => apply writes_for_each; intros ? _
  | |- writes _ (fold_prog _ _ _) => apply writes_fold; intros ? ?
  | |- writes _ (map_prog _ _) => apply writes_map; intros ?
  | |- writes _ (Query _) => apply writes_query; intros ?
  | |- writes _ (add _ _) => apply writes_add; set_solver
  | |- writes _ (try_add _ _) => apply writes_try_add; set_solver
  | |- writes _ (update _ _ _) => apply writes_update; set_solver
  | |- writes _ (delete_rows _ _) => apply writes_delete; set_solver
  | |- writes _ (savepoint _ _) => apply writes_savepoint
  | |- writes _ (match ?x with _ => _ end) => destruct x
  | |- writes _ _ => solve [eauto with writes | eapply writes_weaken; [solve [eauto with writes]|set_solver]]
  end.
Ltac writes_auto := repeat writes_step.

Ltac preserves_step :=
  match goal with
  | |- preserves _ (_ ≫= _) => apply preserves_bind; [|intros ?]
  | |- preserves _ (mret _) => apply preserves_ret
  | |- preserves _ (for_each _ _) => apply preserves_for_each; intros ?
  | |- preserves _ (fold_prog _ _ _) => apply preserves_fold; intros ? ?
  | |- preserves _ (map_prog _ _) => apply preserves_map; intros ?
  | |- preserves _ (savepoint _ _) => apply preserves_savepoint
  | |- preserves _ (Query _) => apply preserves_query; intros ?
  | |- preserves _ (match ?x with _ => _ end) => destruct x
  | |- preserves _ _ => solve [eauto with preserves]
  end.
Ltac preserves_auto := repeat preserves_step.

(** Split a successful run of a program into its steps. *)
Ltac inv_run :=
  repeat match goal with
  | H : run (_ ≫= _) _ = Ok _ |- _ => apply run_bind_Ok in H; destruct H as (? & ? & ? & ?)
  | H : run (mret _) _ = Ok _ |- _ => apply run_ret_Ok in H; destruct H; subst
  | H : run (Ret _) _ = Ok _ |- _ => apply run_ret_Ok in H; destruct H; subst
  | H : run (Throw _) _ = Ok _ |- _ => discriminate H
  | H : run (throw _) _ = Ok _ |- _ => discriminate H
  | H : run (lift _) _ = Ok _ |- _ => apply run_lift_Ok in H; destruct H; subst
  | H : run (gets _) _ = Ok _ |- _ => apply run_gets_Ok in H; destruct H; subst
  | H : run (queries _) _ = Ok _ |- _ => apply run_queries_Ok in H; destruct H; subst
  | H : run (require _ _) _ = Ok _ |- _ => apply run_require_Ok in H; destruct H; subst
  | H : run (add _ _) _ = Ok _ |- _ => apply run_add_Ok in H; destruct H; subst
  | H : run uuid4 _ = Ok _ |- _ => apply run_uuid4_Ok in H; destruct H; subst
  end.
