(* ===== verification/Schema.v ===== *)
(** * The data model ([app/models])

    One record per ORM class, its fields the mapped columns, one enumeration
    per [StrEnum]; the last section collects the tables into the [Schema] the
    store runs on, with the CHECK constraints, the unique keys and the foreign
    keys the models declare.  A UUID is an integer below [2^128], a [date] an
    ordinal, a [timestamptz] a UTC microsecond count, a JSONB document a [json]
    value. *)

From S2P Require Import Prelude PyDecimal MoneyTypes Dates Calendar Store.
From Stdlib Require Import String Ascii.
From stdpp Require Import strings.
Open Scope Z_scope.

(** ** UUIDs and JSON *)

Abbreviation uuid := Z (only parsing).

Definition hex_digit (d : Z) : ascii :=
  ascii_of_nat (Z.to_nat (if d <? 10 then 48 + d else 87 + d)).

(** [n] hexadecimal digits of [z], most significant first. *)
Fixpoint hex (n : nat) (z : Z) : string :=
  match n with
  | O => ""
  | S n => hex n (z / 16) +:+ String (hex_digit (z mod 16)) ""
  end.

(** [str(uuid)] *)
Definition uuid_str (u : uuid) : string :=
  hex 8 (u / 2 ^ 96) +:+ "-" +:+ hex 4 (u / 2 ^ 80) +:+ "-" +:+ hex 4 (u / 2 ^ 64) +:+ "-" +:+
  hex 4 (u / 2 ^ 48) +:+ "-" +:+ hex 12 u.

(** A JSON document.  [JFloat] carries the text of a number that is not an integer. *)
Inductive json :=
  | JNull | JBool (b : bool) | JInt (n : Z) | JFloat (repr : string) | JStr (s : string)
  | JList (l : list json) | JObj (fields : list (string * json)).

Fixpoint json_eqb (x y : json) : bool :=
  match x, y with
  | JNull, JNull => true
  | JBool a, JBool b => eqb a b
  | JInt a, JInt b => a =? b
  | JFloat a, JFloat b => String.eqb a b
  | JStr a, JStr b => String.eqb a b
  | JList l, JList k =>
      (fix go l k := match l, k with
                     | [], [] => true
                     | a :: l, b :: k => json_eqb a b && go l k
                     | _, _ => false
                     end) l k
  | JObj l, JObj k =>
      (fix go l k := match l, k with
                     | [], [] => true
                     | (a, x) :: l, (b, y) :: k => String.eqb a b && json_eqb x y && go l k
                     | _, _ => false
                     end) l k
  | _, _ => false
  end.

(** [IS NOT DISTINCT FROM] on a nullable document. *)
Definition json_fields_eqb (a b : option (list (string * json))) : bool :=
  match a, b with
  | None, None => true
  | Some l, Some k => json_eqb (JObj l) (JObj k)
  | _, _ => false
  end.

(** [payload.get(key)]: the last binding of a key wins, as in a Python dict. *)
Definition json_get (key : string) (fields : list (string * json)) : option json :=
  snd <$> last (filter (λ f, f.1 = key) fields).

(** [str(v)] on a JSON scalar. *)
Definition json_str (v : json) : string :=
  match v with
  | JStr s => s
  | JInt n => str_int n
  | JFloat r => r
  | JBool true => "True"
  | JBool false => "False"
  | _ => "None"
  end.

(** ** Ledger *)

Inductive AccountRole :=
  | CASH | CUSTOMER_EQUITY | POSITION_UNITS | POSITION_COST | FEES_EXPENSE | DIVIDEND_INCOME
  | CUSTOMER_RECEIVABLE | DIVIDEND_RECEIVABLE | REALIZED_GAIN_LOSS | FEES_ACCRUED_PAYABLE
  | FEE_REVENUE_ACCRUED | FEE_REVENUE_COLLECTED.
#[export] Instance AccountRole_eq_dec : EqDecision AccountRole.
Proof. solve_decision. Defined.

Inductive AccountDimension := MONEY | UNITS.
#[export] Instance AccountDimension_eq_dec : EqDecision AccountDimension.
Proof. solve_decision. Defined.

(** [_ROLE_DIMENSION], which the [role_dimension] CHECK restates. *)
Definition role_dimension (role : AccountRole) : AccountDimension :=
  match role with
  | CASH => MONEY
  | CUSTOMER_EQUITY => MONEY
  | POSITION_UNITS => UNITS
  | POSITION_COST => MONEY
  | FEES_EXPENSE => MONEY
  | DIVIDEND_INCOME => MONEY
  | CUSTOMER_RECEIVABLE => MONEY
  | DIVIDEND_RECEIVABLE => MONEY
  | REALIZED_GAIN_LOSS => MONEY
  | FEES_ACCRUED_PAYABLE => MONEY
  | FEE_REVENUE_ACCRUED => MONEY
  | FEE_REVENUE_COLLECTED => MONEY
  end.

Record Account := {
  account_id : uuid;
  account_customer_id : option uuid;
  account_security_id : option uuid;
  account_role : AccountRole;
  account_dimension : AccountDimension;
  account_currency : string;
}.

Inductive JournalEntryType :=
  | TRADE_BUY | TRADE_SELL | DEPOSIT | WITHDRAWAL | DIVIDEND | SPLIT | FEE_ADJUSTMENT
  | CORRECTION | WASH_SALE_ADJUSTMENT.
#[export] Instance JournalEntryType_eq_dec : EqDecision JournalEntryType.
Proof. solve_decision. Defined.

Record JournalEntry := {
  entry_id : uuid;
  entry_type : JournalEntryType;
  entry_effective_date : date;
  entry_recorded_at : instant;
  entry_superseded_by : option uuid;
  entry_supersedes_reason : option string;
  entry_source_event_id : uuid;
  entry_memo : option string;
}.

Record Posting := {
  posting_id : uuid;
  posting_journal_entry_id : uuid;
  posting_account_id : uuid;
  posting_customer_id : option uuid;
  posting_amount_money : option Money;
  posting_quantity_units : option Units;
}.

Inductive SettlementObligationStatus := OBLIGATION_PENDING | OBLIGATION_CONFIRMED | OBLIGATION_FAILED.
#[export] Instance SettlementObligationStatus_eq_dec : EqDecision SettlementObligationStatus.
Proof. solve_decision. Defined.

Record SettlementObligation := {
  obligation_id : uuid;
  obligation_journal_entry_id : uuid;
  obligation_account_id : uuid;
  obligation_amount_money : Money;
  obligation_expected_settlement_date : date;
  obligation_status : SettlementObligationStatus;
  obligation_confirmed_at : option instant;
  obligation_failed_at : option instant;
  obligation_failure_reason : option string;
  obligation_source_event_id : uuid;
}.

Record CustomerCashLock := { cash_lock_customer_id : uuid }.

Inductive InboundEventSource := ALPACA | PLAID | STRIPE | MARKETDATA | CUSTODIAN_FILE.
#[export] Instance InboundEventSource_eq_dec : EqDecision InboundEventSource.
Proof. solve_decision. Defined.

Inductive InboundEventStatus := EVENT_RECEIVED | EVENT_PROCESSING | EVENT_PROCESSED | EVENT_FAILED | EVENT_UNMATCHED.

Record InboundEvent := {
  event_id : uuid;
  event_source : InboundEventSource;
  event_source_event_id : string;
  event_payload : list (string * json);
  event_signature_verified : bool;
  event_received_at : instant;
  event_status : InboundEventStatus;
  event_attempts : Z;
  event_last_error : option string;
}.

(** ** Lots *)

Inductive LotDesignation := UNSPECIFIED | SPECIFIC.

Record TaxLot := {
  lot_id : uuid;
  lot_customer_id : uuid;
  lot_security_id : uuid;
  lot_opening_fill_execution_id : string;
  lot_quantity_opened : Units;
  lot_quantity_remaining : Units;
  lot_original_cost_basis : Money;
  lot_adjusted_basis : Money;
  lot_acquired_at : date;
  lot_designation : LotDesignation;
  lot_designation_window_closes_at : instant;
}.

Record LotConsumption := {
  consumption_id : uuid;
  consumption_closing_fill_execution_id : string;
  consumption_tax_lot_id : uuid;
  consumption_quantity_consumed : Units;
  consumption_realized_gain_loss : Money;
  consumption_is_provisional : bool;
  consumption_sale_date : date;
}.

Record WashSaleAdjustment := {
  wash_id : uuid;
  wash_original_lot_consumption_id : uuid;
  wash_replacement_tax_lot_id : uuid;
  wash_disallowed_amount : Money;
  wash_journal_entry_id : uuid;
}.

(** ** Orders *)

Inductive OrderSide := BUY | SELL.
#[export] Instance OrderSide_eq_dec : EqDecision OrderSide.
Proof. solve_decision. Defined.

Inductive OrderStatus :=
  | DRAFT | AWAITING_APPROVAL | APPROVED | SUBMITTED | ACCEPTED | PARTIALLY_FILLED | FILLED
  | REJECTED | CANCELED | EXPIRED.
#[export] Instance OrderStatus_eq_dec : EqDecision OrderStatus.
Proof. solve_decision. Defined.

Record Order := {
  order_id : uuid;
  order_customer_id : uuid;
  order_security_id : uuid;
  order_side : OrderSide;
  order_quantity_requested : Units;
  order_status : OrderStatus;
  order_filled_quantity : Units;
  order_average_fill_price : option Price;
  order_designated_lot_ids : option (list uuid);
  order_client_order_id : string;
  order_created_at : instant;
  order_updated_at : instant;
}.

Inductive OrderEventType :=
  | EV_SUBMITTED | EV_ACCEPTED | EV_FILL | EV_REJECTED | EV_CANCELED | EV_EXPIRED.
#[export] Instance OrderEventType_eq_dec : EqDecision OrderEventType.
Proof. solve_decision. Defined.

Record OrderEvent := {
  order_event_id : uuid;
  order_event_order_id : uuid;
  order_event_seq : Z;
  order_event_type : OrderEventType;
  order_event_execution_id : option string;
  order_event_payload : list (string * json);
  order_event_recorded_at : instant;
}.

Inductive ApprovalHoldStatus := HOLD_ACTIVE | HOLD_RELEASED.
#[export] Instance ApprovalHoldStatus_eq_dec : EqDecision ApprovalHoldStatus.
Proof. solve_decision. Defined.

Inductive ApprovalHoldReleaseReason :=
  | RELEASE_APPROVED_AND_SUBMITTED | RELEASE_REJECTED | RELEASE_CANCELED | RELEASE_EXPIRED.

Record ApprovalHold := {
  hold_id : uuid;
  hold_order_id : uuid;
  hold_customer_id : uuid;
  hold_amount_money : Money;
  hold_status : ApprovalHoldStatus;
  hold_released_at : option instant;
  hold_release_reason : option ApprovalHoldReleaseReason;
}.

(** ** Market data and returns *)

Inductive SecurityAssetClass := EQUITY | BOND.
Inductive SecurityStatus := SECURITY_ACTIVE | SECURITY_INACTIVE.
#[export] Instance SecurityStatus_eq_dec : EqDecision SecurityStatus.
Proof. solve_decision. Defined.

Record Security := {
  security_id : uuid;
  security_symbol : string;
  security_name : string;
  security_asset_class : SecurityAssetClass;
  security_status : SecurityStatus;
  security_created_at : instant;
}.

Inductive MarketDataSource := LIVE | SIMULATED.
Inductive DailyCloseStatus := CONFIRMED | STALE | MISSING.
#[export] Instance DailyCloseStatus_eq_dec : EqDecision DailyCloseStatus.
Proof. solve_decision. Defined.

Record DailyClose := {
  close_id : uuid;
  close_security_id : uuid;
  close_market_date : date;
  close_price : Price;
  close_source : MarketDataSource;
  close_status : DailyCloseStatus;
  close_recorded_at : instant;
}.

(** [return_pct] is a [NUMERIC(18,10)], kept as its number of quanta. *)
Record SubPeriodReturn := {
  spr_id : uuid;
  spr_customer_id : uuid;
  spr_sub_period_start : date;
  spr_sub_period_end : date;
  spr_return_pct : Z;
  spr_value_begin : Money;
  spr_value_end : Money;
  spr_flow_amount : Money;
  spr_is_provisional : bool;
  spr_recorded_at : instant;
}.

(** ** Restatement *)

Record PublishedSnapshot := {
  snapshot_id : uuid;
  snapshot_customer_id : uuid;
  snapshot_period_start : date;
  snapshot_period_end : date;
  snapshot_publish_watermark : instant;
  snapshot_twr : Z;
  snapshot_balance : Money;
  snapshot_holdings_json : list (string * json);
  snapshot_published_at : instant;
}.

Inductive RestatementTriggerType :=
  | CORRECTED_CLOSE | LATE_DIVIDEND | SPLIT_TRIGGER | WASH_SALE_TRIGGER | MANUAL_CORRECTION.

Record RestatementEvent := {
  restatement_id : uuid;
  restatement_customer_id : uuid;
  restatement_affected_period_start : date;
  restatement_affected_period_end : date;
  restatement_trigger_type : RestatementTriggerType;
  restatement_trigger_source_event_id : uuid;
  restatement_recomputed_at : instant;
}.

(** ** Fees *)

Record FeeAccrual := {
  accrual_id : uuid;
  accrual_customer_id : uuid;
  accrual_date : date;
  accrual_gain_amount : Money;
  accrual_fee_amount : Money;
  accrual_journal_entry_id : uuid;
}.

Inductive FeeChargeStatus := CHARGE_PENDING | CHARGE_SUCCEEDED | CHARGE_FAILED | CHARGE_DUNNING.
#[export] Instance FeeChargeStatus_eq_dec : EqDecision FeeChargeStatus.
Proof. solve_decision. Defined.

Record FeeCharge := {
  charge_id : uuid;
  charge_customer_id : uuid;
  charge_billing_period_start : date;
  charge_billing_period_end : date;
  charge_total_accrued : Money;
  charge_as_published_watermark : option instant;
  charge_status : FeeChargeStatus;
  charge_stripe_charge_id : option string;
  charge_journal_entry_id : option uuid;
}.

Record HighWaterMark := {
  hwm_customer_id : uuid;
  hwm_peak_value : Money;
  hwm_updated_at : instant;
}.

Inductive DunningStatus := RETRYING | EXHAUSTED.
#[export] Instance DunningStatus_eq_dec : EqDecision DunningStatus.
Proof. solve_decision. Defined.

Record DunningState := {
  dunning_fee_charge_id : uuid;
  dunning_customer_id : uuid;
  dunning_attempt_number : Z;
  dunning_next_retry_at : instant;
  dunning_max_attempts : Z;
  dunning_status : DunningStatus;
}.

Record PaymentMethod := {
  pm_customer_id : uuid;
  pm_stripe_customer_id : string;
  pm_stripe_payment_method_id : string;
  pm_updated_at : instant;
}.

Record FeeRestatementDisclosure := {
  disclosure_id : uuid;
  disclosure_customer_id : uuid;
  disclosure_fee_charge_id : uuid;
  disclosure_restatement_event_id : uuid;
  disclosure_created_at : instant;
}.

(** ** Rebalancing *)

Record ModelPortfolio := {
  model_id : uuid;
  model_name : string;
  model_is_active : bool;
}.

(** [weight_pct] is a [NUMERIC(5,4)], kept as its number of quanta. *)
Record TargetWeight := {
  weight_id : uuid;
  weight_model_portfolio_id : uuid;
  weight_security_id : uuid;
  weight_pct : Z;
}.

Record CustomerModelAssignment := {
  assignment_customer_id : uuid;
  assignment_model_portfolio_id : uuid;
  assignment_assigned_at : date;
}.

(** ** Reconciliation *)

Inductive CustodianFileType := FILE_POSITIONS | FILE_CASH | FILE_TRANSACTIONS.

Record CustodianFileRow := {
  file_row_id : uuid;
  file_row_file_type : CustodianFileType;
  file_row_raw_row : list (string * json);
  file_row_import_batch_id : uuid;
  file_row_is_simulated : bool;
  file_row_imported_at : instant;
}.

Inductive ReconciliationBreakType :=
  | POSITION_MISMATCH | CASH_MISMATCH | UNMATCHED_CUSTODIAN_TRANSACTION | UNMATCHED_INTERNAL_TRANSACTION.
#[export] Instance ReconciliationBreakType_eq_dec : EqDecision ReconciliationBreakType.
Proof. solve_decision. Defined.

Inductive ReconciliationBreakStatus := BREAK_OPEN | BREAK_RESOLVED.
#[export] Instance ReconciliationBreakStatus_eq_dec : EqDecision ReconciliationBreakStatus.
Proof. solve_decision. Defined.

Record ReconciliationBreak := {
  break_id : uuid;
  break_type : ReconciliationBreakType;
  break_customer_id : option uuid;
  break_expected : option (list (string * json));
  break_actual : option (list (string * json));
  break_opened_at : instant;
  break_status : ReconciliationBreakStatus;
  break_resolved_at : option instant;
  break_resolved_by : option uuid;
  break_resolution_note : option string;
  break_import_batch_id : uuid;
}.

(** ** Identity and operations *)

Inductive Approval := APPROVAL_PENDING | APPROVAL_APPROVED | APPROVAL_REJECTED.
#[export] Instance Approval_eq_dec : EqDecision Approval.
Proof. solve_decision. Defined.

Record Customer := {
  customer_id : uuid;
  customer_email : string;
  customer_password_hash : string;
  customer_kyc_status : Approval;
  customer_account_approval_status : Approval;
  customer_created_at : instant;
  customer_display_name : option string;
  customer_phone : option string;
  customer_mailing_address : option string;
}.

(** [Customer(email=..., password_hash=...)]: the column defaults. *)
Definition new_customer (id : uuid) (email password_hash : string) (now : instant) : Customer :=
  {| customer_id := id; customer_email := email; customer_password_hash := password_hash;
     customer_kyc_status := APPROVAL_PENDING; customer_account_approval_status := APPROVAL_PENDING;
     customer_created_at := now; customer_display_name := None; customer_phone := None;
     customer_mailing_address := None |}.

Inductive KycSessionStatus := KYC_PENDING | KYC_APPROVED | KYC_REJECTED.
#[export] Instance KycSessionStatus_eq_dec : EqDecision KycSessionStatus.
Proof. solve_decision. Defined.

Record KycSession := {
  kyc_id : uuid;
  kyc_customer_id : uuid;
  kyc_provider_session_id : string;
  kyc_status : KycSessionStatus;
  kyc_attempt_number : Z;
  kyc_created_at : instant;
  kyc_resolved_at : option instant;
}.

Inductive BankLinkStatus := LINK_ACTIVE | LINK_REQUIRES_REAUTH | LINK_SUPERSEDED.
#[export] Instance BankLinkStatus_eq_dec : EqDecision BankLinkStatus.
Proof. solve_decision. Defined.

Record BankLink := {
  link_id : uuid;
  link_customer_id : uuid;
  link_plaid_item_id : string;
  link_plaid_access_token : string;
  link_status : BankLinkStatus;
  link_linked_at : instant;
}.

Inductive JobOutboxStatus := OUTBOX_PENDING | OUTBOX_PROCESSING | OUTBOX_COMPLETED | OUTBOX_DEAD_LETTER.
#[export] Instance JobOutboxStatus_eq_dec : EqDecision JobOutboxStatus.
Proof. solve_decision. Defined.

Record JobOutbox := {
  outbox_id : uuid;
  outbox_task : string;
  outbox_payload : list (string * string);
  outbox_attempts : Z;
  outbox_next_attempt_at : instant;
  outbox_status : JobOutboxStatus;
  outbox_locked_by : option string;
  outbox_created_at : instant;
}.

Record IdempotencyKey := {
  idem_id : uuid;
  idem_customer_id : uuid;
  idem_key : string;
  idem_request_hash : string;
  idem_response_status : Z;
  idem_response_body : json;
  idem_created_at : instant;
}.

Inductive AgentActionType := RESOLVE_BREAK | KYC_OVERRIDE | REBALANCE.
#[export] Instance AgentActionType_eq_dec : EqDecision AgentActionType.
Proof. solve_decision. Defined.
Inductive AgentActionStatus :=
  | ACTION_PENDING | ACTION_APPROVED | ACTION_REJECTED | ACTION_EXECUTED | ACTION_EXECUTION_FAILED.
#[export] Instance AgentActionStatus_eq_dec : EqDecision AgentActionStatus.
Proof. solve_decision. Defined.

Record AgentActionRequest := {
  action_id : uuid;
  action_action : AgentActionType;
  action_arguments : list (string * json);
  action_requesting_agent : string;
  action_justification : string;
  action_status : AgentActionStatus;
  action_reviewed_by : option uuid;
  action_reviewed_at : option instant;
  action_review_note : option string;
  action_execution_error : option string;
  action_executed_at : option instant;
  action_created_at : instant;
}.

Inductive JobCadence := DAILY | MONTHLY | CONTINUOUS.
#[export] Instance JobCadence_eq_dec : EqDecision JobCadence.
Proof. solve_decision. Defined.
Inductive JobRunStatus := RUN_STARTED | RUN_COMPLETED | RUN_FAILED | RUN_SKIPPED.
#[export] Instance JobRunStatus_eq_dec : EqDecision JobRunStatus.
Proof. solve_decision. Defined.

Record JobRun := {
  run_id : uuid;
  run_job_name : string;
  run_cadence : JobCadence;
  run_market_date : date;
  run_started_at : instant;
  run_completed_at : option instant;
  run_status : JobRunStatus;
  run_error : option string;
}.

(** [job_run_month_start] *)
Definition job_run_month_start (d : date) : Z := d - (ymd_of_date d).2 + 1.
#[global] Arguments job_run_month_start : simpl never.

Inductive ValuationRunStatus := RUN_PENDING | RUN_COMPLETE | RUN_PARTIAL.
#[export] Instance ValuationRunStatus_eq_dec : EqDecision ValuationRunStatus.
Proof. solve_decision. Defined.

Record ValuationRun := {
  valuation_market_date : date;
  securities_expected : Z;
  securities_confirmed : Z;
  valuation_status : ValuationRunStatus;
  valuation_recorded_at : instant;
}.

(** A fetched calendar day; a date without a row is not known yet. *)
Record MarketCalendarCache := {
  cache_market_date : date;
  cache_is_trading_day : bool;
  cache_session_open_at : option instant;
  cache_session_close_at : option instant;
  cache_source : MarketDataSource;
  cache_recorded_at : instant;
}.

Record AdminAuditLog := {
  audit_id : uuid;
  audit_actor_id : uuid;
  audit_action : string;
  audit_target_customer_id : option uuid;
  audit_payload_hash : string;
  audit_recorded_at : instant;
}.

(** ** Staff *)

Inductive StaffRole := ADVISER | ADMIN.
#[export] Instance StaffRole_eq_dec : EqDecision StaffRole.
Proof. solve_decision. Defined.

Record Staff := {
  staff_id : uuid;
  staff_email : string;
  staff_password_hash : string;
  staff_role : StaffRole;
  staff_totp_secret : option string;
  staff_created_at : instant;
}.

Record StaffApiToken := {
  token_id : uuid;
  token_staff_id : uuid;
  token_label : string;
  token_hash : string;
  token_created_at : instant;
  token_revoked_at : option instant;
}.

(** ** Chat *)

Inductive ChatSessionStatus := IDLE | STREAMING.
#[export] Instance ChatSessionStatus_eq_dec : EqDecision ChatSessionStatus.
Proof. solve_decision. Defined.

Record ChatSession := {
  chat_id : uuid;
  chat_customer_id : uuid;
  chat_status : ChatSessionStatus;
  chat_created_at : instant;
}.

Inductive ChatMessageRole := USER | ASSISTANT.
#[export] Instance ChatMessageRole_eq_dec : EqDecision ChatMessageRole.
Proof. solve_decision. Defined.

Record ChatMessage := {
  message_id : uuid;
  message_session_id : uuid;
  message_customer_id : option uuid;
  message_role : ChatMessageRole;
  message_content : string;
  message_created_at : instant;
}.

Inductive ChatToolName := GET_DATABASE_SCHEMA | EXECUTE_READ_ONLY_SQL.
Inductive ChatToolCallStatus := CALL_SUCCESS | CALL_VALIDATOR_REJECTED | CALL_TIMEOUT | CALL_ERROR.

Record ChatToolCall := {
  call_id : uuid;
  call_message_id : uuid;
  call_customer_id : option uuid;
  call_tool_name : ChatToolName;
  call_sql_text : option string;
  call_row_count : option Z;
  call_latency_ms : Z;
  call_status : ChatToolCallStatus;
  call_created_at : instant;
}.

(** ** The schema *)

Inductive tables_ :=
  | TAccount | TJournalEntry | TPosting | TSettlementObligation | TCashLock | TInboundEvent
  | TTaxLot | TLotConsumption | TWashSaleAdjustment
  | TOrder | TOrderEvent | TApprovalHold
  | TSecurity | TDailyClose | TSubPeriodReturn | TPublishedSnapshot | TRestatementEvent
  | TFeeAccrual | TFeeCharge | THighWaterMark | TDunningState | TPaymentMethod | TDisclosure
  | TModelPortfolio | TTargetWeight | TModelAssignment
  | TCustodianFileRow | TReconciliationBreak
  | TCustomer | TKycSession | TBankLink | TJobOutbox | TIdempotencyKey | TAgentAction
  | TJobRun | TAuditLog | TStaff | TStaffApiToken | TChatSession | TChatMessage | TChatToolCall
  | TValuationRun | TCalendarCache.

#[export] Instance tables_eq_dec : EqDecision tables_.
Proof. solve_decision. Defined.

Definition row_of (t : tables_) : Type :=
  match t with
  | TAccount => Account
  | TJournalEntry => JournalEntry
  | TPosting => Posting
  | TSettlementObligation => SettlementObligation
  | TCashLock => CustomerCashLock
  | TInboundEvent => InboundEvent
  | TTaxLot => TaxLot
  | TLotConsumption => LotConsumption
  | TWashSaleAdjustment => WashSaleAdjustment
  | TOrder => Order
  | TOrderEvent => OrderEvent
  | TApprovalHold => ApprovalHold
  | TSecurity => Security
  | TDailyClose => DailyClose
  | TSubPeriodReturn => SubPeriodReturn
  | TPublishedSnapshot => PublishedSnapshot
  | TRestatementEvent => RestatementEvent
  | TFeeAccrual => FeeAccrual
  | TFeeCharge => FeeCharge
  | THighWaterMark => HighWaterMark
  | TDunningState => DunningState
  | TPaymentMethod => PaymentMethod
  | TDisclosure => FeeRestatementDisclosure
  | TModelPortfolio => ModelPortfolio
  | TTargetWeight => TargetWeight
  | TModelAssignment => CustomerModelAssignment
  | TCustodianFileRow => CustodianFileRow
  | TReconciliationBreak => ReconciliationBreak
  | TCustomer => Customer
  | TKycSession => KycSession
  | TBankLink => BankLink
  | TJobOutbox => JobOutbox
  | TIdempotencyKey => IdempotencyKey
  | TAgentAction => AgentActionRequest
  | TJobRun => JobRun
  | TAuditLog => AdminAuditLog
  | TStaff => Staff
  | TStaffApiToken => StaffApiToken
  | TChatSession => ChatSession
  | TChatMessage => ChatMessage
  | TChatToolCall => ChatToolCall
  | TValuationRun => ValuationRun
  | TCalendarCache => MarketCalendarCache
  end.

(** The repositories with [append_only = True], and the tables whose UPDATE
    and DELETE grants are revoked. *)
Definition append_only_of (t : tables_) : bool :=
  match t with
  | TJournalEntry | TPosting | TWashSaleAdjustment | TOrderEvent | TDailyClose | TSubPeriodReturn
  | TPublishedSnapshot | TRestatementEvent | TFeeAccrual | TDisclosure | TCustodianFileRow
  | TAuditLog | TChatToolCall => true
  | _ => false
  end.

(** The one table whose rows a service deletes ([FeeChargeService], when a charge
    succeeds at last); DELETE is revoked on most others and used on none. *)
Definition deletable_of (t : tables_) : bool := bool_decide (t = TDunningState).

(** CHECK constraints. *)
Definition valid_of (t : tables_) : row_of t → bool :=
  match t with
  | TAccount => λ a, bool_decide (account_dimension a = role_dimension (account_role a)) &&
                     String.eqb (account_currency a) "USD"
  | TPosting => λ p, xorb (bool_decide (is_Some (posting_amount_money p)))
                          (bool_decide (is_Some (posting_quantity_units p)))
  | TTaxLot => λ l, 0 <=? quanta (lot_quantity_remaining l)
  | TReconciliationBreak => λ b,
      negb (bool_decide (break_status b = BREAK_RESOLVED)) || bool_decide (is_Some (break_resolved_by b))
  | TAgentAction => λ a,
      (negb (bool_decide (action_status a = ACTION_APPROVED ∨ action_status a = ACTION_REJECTED)) ||
       (bool_decide (is_Some (action_reviewed_by a)) && bool_decide (is_Some (action_reviewed_at a)))) &&
      (negb (bool_decide (action_status a = ACTION_EXECUTED)) || bool_decide (is_Some (action_executed_at a))) &&
      (negb (bool_decide (action_status a = ACTION_EXECUTION_FAILED)) ||
       bool_decide (is_Some (action_execution_error a))) &&
      negb (String.eqb (action_justification a) "")
  | _ => λ _, true
  end.

(** Two non-null texts that are equal: a unique nullable column. *)
Definition same_text (a b : option string) : bool :=
  match a, b with Some x, Some y => String.eqb x y | _, _ => false end.

(** Primary keys and unique constraints. *)
Definition conflicts_of (t : tables_) : row_of t → row_of t → bool :=
  match t with
  | TAccount => λ a b, account_id a =? account_id b
  | TJournalEntry => λ a b,
      (entry_id a =? entry_id b) || (entry_source_event_id a =? entry_source_event_id b)
  | TPosting => λ a b, posting_id a =? posting_id b
  | TSettlementObligation => λ a b,
      (obligation_id a =? obligation_id b) || (obligation_source_event_id a =? obligation_source_event_id b)
  | TCashLock => λ a b, cash_lock_customer_id a =? cash_lock_customer_id b
  | TInboundEvent => λ a b, (event_id a =? event_id b) ||
      (bool_decide (event_source a = event_source b) &&
       String.eqb (event_source_event_id a) (event_source_event_id b))
  | TTaxLot => λ a b, (lot_id a =? lot_id b) ||
      String.eqb (lot_opening_fill_execution_id a) (lot_opening_fill_execution_id b)
  | TLotConsumption => λ a b, consumption_id a =? consumption_id b
  | TWashSaleAdjustment => λ a b, (wash_id a =? wash_id b) ||
      (wash_original_lot_consumption_id a =? wash_original_lot_consumption_id b)
  | TOrder => λ a b, (order_id a =? order_id b) ||
      String.eqb (order_client_order_id a) (order_client_order_id b)
  | TOrderEvent => λ a b, (order_event_id a =? order_event_id b) ||
      ((order_event_order_id a =? order_event_order_id b) && (order_event_seq a =? order_event_seq b)) ||
      same_text (order_event_execution_id a) (order_event_execution_id b)
  | TApprovalHold => λ a b, (hold_id a =? hold_id b) || (hold_order_id a =? hold_order_id b)
  | TSecurity => λ a b, (security_id a =? security_id b) ||
      String.eqb (security_symbol a) (security_symbol b)
  | TDailyClose => λ a b, (close_id a =? close_id b) ||
      ((close_security_id a =? close_security_id b) && (close_market_date a =? close_market_date b) &&
       (close_recorded_at a =? close_recorded_at b))
  | TSubPeriodReturn => λ a b, (spr_id a =? spr_id b) ||
      ((spr_customer_id a =? spr_customer_id b) && (spr_sub_period_start a =? spr_sub_period_start b) &&
       (spr_sub_period_end a =? spr_sub_period_end b) && (spr_recorded_at a =? spr_recorded_at b))
  | TPublishedSnapshot => λ a b, snapshot_id a =? snapshot_id b
  | TRestatementEvent => λ a b, restatement_id a =? restatement_id b
  | TFeeAccrual => λ a b, (accrual_id a =? accrual_id b) ||
      ((accrual_customer_id a =? accrual_customer_id b) && (accrual_date a =? accrual_date b))
  | TFeeCharge => λ a b, (charge_id a =? charge_id b) ||
      ((charge_customer_id a =? charge_customer_id b) &&
       (charge_billing_period_start a =? charge_billing_period_start b) &&
       (charge_billing_period_end a =? charge_billing_period_end b)) ||
      same_text (charge_stripe_charge_id a) (charge_stripe_charge_id b)
  | THighWaterMark => λ a b, hwm_customer_id a =? hwm_customer_id b
  | TDunningState => λ a b, dunning_fee_charge_id a =? dunning_fee_charge_id b
  | TPaymentMethod => λ a b, pm_customer_id a =? pm_customer_id b
  | TDisclosure => λ a b, disclosure_id a =? disclosure_id b
  | TModelPortfolio => λ a b, model_id a =? model_id b
  | TTargetWeight => λ a b, (weight_id a =? weight_id b) ||
      ((weight_model_portfolio_id a =? weight_model_portfolio_id b) &&
       (weight_security_id a =? weight_security_id b))
  | TModelAssignment => λ a b, assignment_customer_id a =? assignment_customer_id b
  | TCustodianFileRow => λ a b, file_row_id a =? file_row_id b
  | TReconciliationBreak => λ a b, break_id a =? break_id b
  | TCustomer => λ a b, (customer_id a =? customer_id b) ||
      String.eqb (customer_email a) (customer_email b)
  | TKycSession => λ a b, (kyc_id a =? kyc_id b) ||
      String.eqb (kyc_provider_session_id a) (kyc_provider_session_id b)
  | TBankLink => λ a b, (link_id a =? link_id b) ||
      String.eqb (link_plaid_item_id a) (link_plaid_item_id b) ||
      ((link_customer_id a =? link_customer_id b) && bool_decide (link_status a = LINK_ACTIVE) &&
       bool_decide (link_status b = LINK_ACTIVE))
  | TJobOutbox => λ a b, outbox_id a =? outbox_id b
  | TIdempotencyKey => λ a b, (idem_id a =? idem_id b) ||
      ((idem_customer_id a =? idem_customer_id b) && String.eqb (idem_key a) (idem_key b))
  | TAgentAction => λ a b, action_id a =? action_id b
  | TJobRun => λ a b, (run_id a =? run_id b) ||
      (String.eqb (run_job_name a) (run_job_name b) &&
       ((bool_decide (run_cadence a = DAILY) && bool_decide (run_cadence b = DAILY) &&
         (run_market_date a =? run_market_date b)) ||
        (bool_decide (run_cadence a = MONTHLY) && bool_decide (run_cadence b = MONTHLY) &&
         (job_run_month_start (run_market_date a) =? job_run_month_start (run_market_date b)))))
  | TAuditLog => λ a b, audit_id a =? audit_id b
  | TStaff => λ a b, (staff_id a =? staff_id b) || String.eqb (staff_email a) (staff_email b)
  | TStaffApiToken => λ a b, (token_id a =? token_id b) || String.eqb (token_hash a) (token_hash b)
  | TChatSession => λ a b, chat_id a =? chat_id b
  | TChatMessage => λ a b, message_id a =? message_id b
  | TChatToolCall => λ a b, call_id a =? call_id b
  | TValuationRun => λ a b, valuation_market_date a =? valuation_market_date b
  | TCalendarCache => λ a b, cache_market_date a =? cache_market_date b
  end.

(** The BEFORE UPDATE triggers: [settlement_obligation_single_transition],
    [kyc_session_single_transition],
    [reconciliation_break_single_transition], [agent_action_request_single_transition],
    [fee_charge_watermark_immutable] and [chat_message_single_finalize]. *)
Definition transition_of (t : tables_) : row_of t → row_of t → bool :=
  match t with
  | TSettlementObligation => λ old _, bool_decide (obligation_status old = OBLIGATION_PENDING)
  | TKycSession => λ old _, bool_decide (kyc_status old = KYC_PENDING)
  | TReconciliationBreak => λ old new,
      bool_decide (break_status old = BREAK_OPEN) &&
      bool_decide (break_type new = break_type old) &&
      bool_decide (break_customer_id new = break_customer_id old) &&
      json_fields_eqb (break_expected new) (break_expected old) &&
      json_fields_eqb (break_actual new) (break_actual old) &&
      (break_opened_at new =? break_opened_at old) &&
      (break_import_batch_id new =? break_import_batch_id old)
  | TAgentAction => λ old new,
      match action_status old with
      | ACTION_PENDING => bool_decide (action_status new = ACTION_APPROVED ∨ action_status new = ACTION_REJECTED)
      | ACTION_APPROVED =>
          bool_decide (action_status new = ACTION_EXECUTED ∨ action_status new = ACTION_EXECUTION_FAILED)
      | _ => false
      end &&
      bool_decide (action_action new = action_action old) &&
      json_fields_eqb (Some (action_arguments new)) (Some (action_arguments old)) &&
      String.eqb (action_requesting_agent new) (action_requesting_agent old) &&
      String.eqb (action_justification new) (action_justification old) &&
      (action_created_at new =? action_created_at old)
  | TFeeCharge => λ old new,
      match charge_as_published_watermark old with
      | None => true
      | Some w => bool_decide (charge_as_published_watermark new = Some w)
      end
  | TChatMessage => λ old new,
      String.eqb (message_content old) "" && (message_session_id new =? message_session_id old) &&
      bool_decide (message_role new = message_role old)
  | _ => λ _ _, true
  end.

(** Is there a row with this key? *)
Definition has {A} (key : A → Z) (l : list A) (k : Z) : bool := existsb (λ r, key r =? k) l.

(** The foreign keys whose violation the services' order of writes could meet:
    those between the rows one operation creates.  A reference to a customer,
    a security or an order comes from a row the operation has read. *)
Definition references_of (t : tables_) : (∀ t', list (row_of t')) → row_of t → bool :=
  match t with
  | TJournalEntry => λ db e, has event_id (db TInboundEvent) (entry_source_event_id e)
  | TPosting => λ db p,
      has entry_id (db TJournalEntry) (posting_journal_entry_id p) &&
      has account_id (db TAccount) (posting_account_id p)
  | TSettlementObligation => λ db o,
      has entry_id (db TJournalEntry) (obligation_journal_entry_id o) &&
      has account_id (db TAccount) (obligation_account_id o) &&
      has event_id (db TInboundEvent) (obligation_source_event_id o)
  | TTaxLot => λ db l, existsb (λ e, same_text (order_event_execution_id e)
                                       (Some (lot_opening_fill_execution_id l))) (db TOrderEvent)
  | TLotConsumption => λ db c,
      has lot_id (db TTaxLot) (consumption_tax_lot_id c) &&
      existsb (λ e, same_text (order_event_execution_id e)
                      (Some (consumption_closing_fill_execution_id c))) (db TOrderEvent)
  | TWashSaleAdjustment => λ db w,
      has consumption_id (db TLotConsumption) (wash_original_lot_consumption_id w) &&
      has lot_id (db TTaxLot) (wash_replacement_tax_lot_id w) &&
      has entry_id (db TJournalEntry) (wash_journal_entry_id w)
  | TOrderEvent => λ db e, has order_id (db TOrder) (order_event_order_id e)
  | TApprovalHold => λ db h, has order_id (db TOrder) (hold_order_id h)
  | TFeeAccrual => λ db a, has entry_id (db TJournalEntry) (accrual_journal_entry_id a)
  | TDunningState => λ db s, has charge_id (db TFeeCharge) (dunning_fee_charge_id s)
  | TDisclosure => λ db x,
      has charge_id (db TFeeCharge) (disclosure_fee_charge_id x) &&
      has restatement_id (db TRestatementEvent) (disclosure_restatement_event_id x)
  | TRestatementEvent => λ db r, has event_id (db TInboundEvent) (restatement_trigger_source_event_id r)
  | TChatSession => λ db s, has customer_id (db TCustomer) (chat_customer_id s)
  | TChatMessage => λ db m, has chat_id (db TChatSession) (message_session_id m)
  | TChatToolCall => λ db c, has message_id (db TChatMessage) (call_message_id c)
  | _ => λ _ _, true
  end.

#[export] Instance trueup : Schema := {|
  table := tables_;
  row := row_of;
  append_only := append_only_of;
  deletable := deletable_of;
  valid := valid_of;
  conflicts := conflicts_of;
  transition := transition_of;
  references := references_of;
|}.

(** ** Table accessors *)

Definition accounts (d : db) : list Account := tables d TAccount.
Definition journal_entries (d : db) : list JournalEntry := tables d TJournalEntry.
Definition postings (d : db) : list Posting := tables d TPosting.
Definition settlement_obligations (d : db) : list SettlementObligation := tables d TSettlementObligation.
Definition cash_locks (d : db) : list CustomerCashLock := tables d TCashLock.
Definition inbound_events (d : db) : list InboundEvent := tables d TInboundEvent.
Definition tax_lots (d : db) : list TaxLot := tables d TTaxLot.
Definition lot_consumptions (d : db) : list LotConsumption := tables d TLotConsumption.
Definition wash_sale_adjustments (d : db) : list WashSaleAdjustment := tables d TWashSaleAdjustment.
Definition orders (d : db) : list Order := tables d TOrder.
Definition order_events (d : db) : list OrderEvent := tables d TOrderEvent.
Definition approval_holds (d : db) : list ApprovalHold := tables d TApprovalHold.
Definition securities (d : db) : list Security := tables d TSecurity.
Definition daily_closes (d : db) : list DailyClose := tables d TDailyClose.
Definition sub_period_returns (d : db) : list SubPeriodReturn := tables d TSubPeriodReturn.
Definition published_snapshots (d : db) : list PublishedSnapshot := tables d TPublishedSnapshot.
Definition restatement_events (d : db) : list RestatementEvent := tables d TRestatementEvent.
Definition fee_accruals (d : db) : list FeeAccrual := tables d TFeeAccrual.
Definition fee_charges (d : db) : list FeeCharge := tables d TFeeCharge.
Definition high_water_marks (d : db) : list HighWaterMark := tables d THighWaterMark.
Definition dunning_states (d : db) : list DunningState := tables d TDunningState.
Definition payment_methods (d : db) : list PaymentMethod := tables d TPaymentMethod.
Definition fee_restatement_disclosures (d : db) : list FeeRestatementDisclosure := tables d TDisclosure.
Definition model_portfolios (d : db) : list ModelPortfolio := tables d TModelPortfolio.
Definition target_weights (d : db) : list TargetWeight := tables d TTargetWeight.
Definition customer_model_assignments (d : db) : list CustomerModelAssignment := tables d TModelAssignment.
Definition custodian_file_rows (d : db) : list CustodianFileRow := tables d TCustodianFileRow.
Definition reconciliation_breaks (d : db) : list ReconciliationBreak := tables d TReconciliationBreak.
Definition customers (d : db) : list Customer := tables d TCustomer.
Definition kyc_sessions (d : db) : list KycSession := tables d TKycSession.
Definition bank_links (d : db) : list BankLink := tables d TBankLink.
Definition outbox (d : db) : list JobOutbox := tables d TJobOutbox.
Definition idempotency_keys (d : db) : list IdempotencyKey := tables d TIdempotencyKey.
Definition agent_action_requests (d : db) : list AgentActionRequest := tables d TAgentAction.
Definition job_runs (d : db) : list JobRun := tables d TJobRun.
Definition audit_log (d : db) : list AdminAuditLog := tables d TAuditLog.
Definition staff_members (d : db) : list Staff := tables d TStaff.
Definition staff_api_tokens (d : db) : list StaffApiToken := tables d TStaffApiToken.
Definition chat_sessions (d : db) : list ChatSession := tables d TChatSession.
Definition chat_messages (d : db) : list ChatMessage := tables d TChatMessage.
Definition chat_tool_calls (d : db) : list ChatToolCall := tables d TChatToolCall.
Definition valuation_runs (d : db) : list ValuationRun := tables d TValuationRun.
Definition calendar_cache (d : db) : list MarketCalendarCache := tables d TCalendarCache.

(** A store with no rows. *)
Definition empty_db (now : instant) : db := Db (λ _, []) 1 now.

(** ** Query helpers *)

(** [scalar_one_or_none()] *)
Definition scalar_one_or_none {A} (l : list A) : result (option A) :=
  match l with
  | [] => Ok None
  | [x] => Ok (Some x)
  | _ => Raise MultipleResultsFound
  end.

Lemma scalar_one_or_none_Some {A} (l : list A) x : scalar_one_or_none l = Ok (Some x) ↔ l = [x].
Proof. destruct l as [|y [|]]; cbn; split; congruence. Qed.

Lemma scalar_one_or_none_None {A} (l : list A) : scalar_one_or_none l = Ok None ↔ l = [].
Proof. destruct l as [|y [|]]; cbn; split; congruence. Qed.
