(* ===== verification/Uuids.v ===== *)
(** * Reading a UUID ([uuid.UUID(text)])

    The standard library's parser of UUID texts, as the controllers and the MCP
    tools call it: the ["urn:"] and ["uuid:"] prefixes, braces and hyphens are
    dropped wherever they stand, 32 characters must remain, and [int(text, 16)]
    reads them with its own tolerance for white space, a sign, a ["0x"] prefix
    and underscores.  Texts are ASCII. *)

From S2P Require Import Prelude PyDecimal MoneyTypes Calendar Store Schema.
From Stdlib Require Import String Ascii.
From stdpp Require Import strings.
Open Scope Z_scope.

(** ** [int(text, 16)] *)

Definition code (c : ascii) : Z := Z.of_N (N_of_ascii c).

Definition digit16 (c : ascii) : option Z :=
  let n := code c in
  if (48 <=? n) && (n <=? 57) then Some (n - 48)
  else if (97 <=? n) && (n <=? 102) then Some (n - 87)
  else if (65 <=? n) && (n <=? 70) then Some (n - 55)
  else None.

(** The digits: single underscores may stand between two of them. *)
Fixpoint digits16 (l : list ascii) (acc : Z) (after_digit : bool) : option Z :=
  match l with
  | [] => if after_digit then Some acc else None
  | c :: l =>
      if Ascii.eqb c "_" then if after_digit then digits16 l acc false else None
      else match digit16 c with Some d => digits16 l (acc * 16 + d) true | None => None end
  end.

(** [Py_ISSPACE] *)
Definition is_space (c : ascii) : bool := (code c =? 32) || ((9 <=? code c) && (code c <=? 13)).

Fixpoint lstrip (f : ascii → bool) (l : list ascii) : list ascii :=
  match l with
  | c :: l' => if f c then lstrip f l' else l
  | [] => []
  end.

Definition strip (f : ascii → bool) (l : list ascii) : list ascii := reverse (lstrip f (reverse (lstrip f l))).

(** A ["0x"] prefix, and the one underscore allowed after it. *)
Definition drop_base_prefix (l : list ascii) : list ascii :=
  match l with
  | z :: x :: l' =>
      if Ascii.eqb z "0" && (Ascii.eqb x "x" || Ascii.eqb x "X")
      then match l' with u :: l'' => if Ascii.eqb u "_" then l'' else l' | [] => l' end
      else l
  | _ => l
  end.

Definition int16 (l : list ascii) : option Z :=
  match strip is_space l with
  | c :: l =>
      if Ascii.eqb c "+" then digits16 (drop_base_prefix l) 0 false
      else if Ascii.eqb c "-" then Z.opp <$> digits16 (drop_base_prefix l) 0 false
      else digits16 (drop_base_prefix (c :: l)) 0 false
  | [] => None
  end.

(** ** [uuid.UUID(text)] *)

Fixpoint is_prefix (p l : list ascii) : bool :=
  match p, l with
  | [], _ => true
  | a :: p, b :: l => Ascii.eqb a b && is_prefix p l
  | _ :: _, [] => false
  end.

(** [text.replace(p, "")]: [skip] characters of an occurrence are still to be dropped. *)
Fixpoint erase (p : list ascii) (skip : nat) (l : list ascii) : list ascii :=
  match l with
  | [] => []
  | c :: l' =>
      match skip with
      | S skip => erase p skip l'
      | O => if is_prefix p l then erase p (length p - 1) l' else c :: erase p 0 l'
      end
  end.

Definition chars (s : string) : list ascii := list_ascii_of_string s.

Definition is_brace (c : ascii) : bool := Ascii.eqb c "{" || Ascii.eqb c "}".

Definition parse_uuid (s : string) : result uuid :=
  let hex := erase (chars "-") 0 (strip is_brace (erase (chars "uuid:") 0 (erase (chars "urn:") 0 (chars s)))) in
  if negb (length hex =? 32)%nat then Raise ValueError
  else match int16 hex with
       | None => Raise ValueError
       | Some n => if (0 <=? n) && (n <? 2 ^ 128) then Ok n else Raise ValueError
       end.

(** [row.arguments.get(key)] and friends hold JSON: only a text parses. *)
Definition parse_uuid_json (v : json) : result uuid :=
  match v with
  | JStr s => parse_uuid s
  | JNull => Raise TypeError
  | _ => Raise AttributeError
  end.

(** ** Lemmas: the digits of a printed number *)

Lemma chars_app a b : chars (a +:+ b) = chars a ++ chars b.
Proof. unfold chars. induction a as [|c a IH]; cbn; [done|by rewrite <- IH]. Qed.

(** The characters the parser treats specially. *)
Definition special (c : ascii) : bool := is_space c || is_brace c || existsb (Ascii.eqb c) (chars "_-+uxX").

Lemma hex_digit_plain d : 0 <= d < 16 → digit16 (hex_digit d) = Some d ∧ special (hex_digit d) = false.
Proof.
  intros Hd. assert (Hall : forallb (λ d, bool_decide (digit16 (hex_digit d) = Some d ∧ special (hex_digit d) = false))
                              (seqZ 0 16) = true) by (vm_compute; reflexivity).
  rewrite forallb_forall in Hall. specialize (Hall d). rewrite bool_decide_eq_true in Hall.
  apply Hall, list_elem_of_In, elem_of_seqZ. lia.
Qed.

Lemma hex_S n z : chars (hex (S n) z) = chars (hex n (z / 16)) ++ [hex_digit (z mod 16)].
Proof. cbn [hex]. by rewrite chars_app. Qed.

Lemma hex_plain n z : Forall (λ c, special c = false) (chars (hex n z)).
Proof.
  revert z. induction n as [|n IH]; intros z; [constructor|]. rewrite hex_S, Forall_app. split; [apply IH|].
  constructor; [|constructor]. by apply hex_digit_plain, Z.mod_pos_bound.
Qed.

Lemma hex_length n z : length (chars (hex n z)) = n.
Proof.
  revert z. induction n as [|n IH]; intros z; [done|]. rewrite hex_S, length_app, IH. cbn. lia.
Qed.

Lemma hex_app n k z : chars (hex n (z / 16 ^ Z.of_nat k)) ++ chars (hex k z) = chars (hex (n + k) z).
Proof.
  revert z. induction k as [|k IH]; intros z.
  - cbn. by rewrite Z.div_1_r, app_nil_r, Nat.add_0_r.
  - rewrite Nat.add_succ_r, !hex_S, <- IH, Z.div_div by lia. rewrite Nat2Z.inj_succ, Z.pow_succ_r by lia. by rewrite app_assoc.
Qed.

Lemma digits16_hex n z acc l b :
  digits16 (chars (hex (S n) z) ++ l) acc b = digits16 l (acc * 16 ^ Z.of_nat (S n) + z mod 16 ^ Z.of_nat (S n)) true.
Proof.
  revert z l b. induction n as [|n IH]; intros z l b.
  - rewrite hex_S. cbn [hex chars list_ascii_of_string app digits16].
    destruct (hex_digit_plain (z mod 16)) as [-> Hs]; [by apply Z.mod_pos_bound|].
    unfold special in Hs. apply orb_false_iff in Hs as [_ Hs]. cbn [chars list_ascii_of_string existsb] in Hs.
    apply orb_false_iff in Hs as [-> _]. done.
  - rewrite hex_S, <- app_assoc, IH. cbn [app digits16].
    destruct (hex_digit_plain (z mod 16)) as [-> Hs]; [by apply Z.mod_pos_bound|].
    unfold special in Hs. apply orb_false_iff in Hs as [_ Hs]. cbn [chars list_ascii_of_string existsb] in Hs.
    apply orb_false_iff in Hs as [-> _]. f_equal. rewrite (Nat2Z.inj_succ (S n)), Z.pow_succ_r by lia.
    set (p := 16 ^ Z.of_nat (S n)). assert (0 < p) by (apply Z.pow_pos_nonneg; lia).
    rewrite Z.rem_mul_r by lia. lia.
Qed.

(** ** Lemmas: nothing to drop *)

Lemma erase_none c p l : Forall (λ x, Ascii.eqb c x = false) l → erase (c :: p) 0 l = l.
Proof. induction 1 as [|x l Hx _ IH]; [done|]. cbn [erase is_prefix]. rewrite Hx. cbn. by rewrite IH. Qed.

Lemma lstrip_none f l : Forall (λ x, f x = false) l → lstrip f l = l.
Proof. destruct 1 as [|x l Hx _]; [done|]. cbn. by rewrite Hx. Qed.

Lemma strip_none f l : Forall (λ x, f x = false) l → strip f l = l.
Proof.
  intros Hl. unfold strip. rewrite (lstrip_none f l Hl), lstrip_none, reverse_involutive; [done|]. by apply Forall_reverse.
Qed.

Lemma erase_hyphen l k : Forall (λ x, special x = false) l → erase (chars "-") 0 (l ++ k) = l ++ erase (chars "-") 0 k.
Proof.
  induction 1 as [|x l Hx _ IH]; [done|]. cbn [app chars list_ascii_of_string erase is_prefix].
  destruct (Ascii.eqb_spec "-" x) as [<-|]; [done|]. cbn [andb]. f_equal. exact IH.
Qed.

Lemma special_not l c : special c = true → Forall (λ x, special x = false) l → Forall (λ x, Ascii.eqb c x = false) l.
Proof. intros Hc Hl. apply (Forall_impl _ _ _ Hl). intros x Hx. destruct (Ascii.eqb_spec c x) as [<-|]; congruence. Qed.

Lemma int16_plain l : Forall (λ x, special x = false) l → int16 l = digits16 l 0 false.
Proof.
  intros Hl. unfold int16. rewrite strip_none.
  2: { apply (Forall_impl _ _ _ Hl). unfold special. intros x Hx. by apply orb_false_iff in Hx as [[? _]%orb_false_iff _]. }
  destruct Hl as [|c l Hc Hl]; [done|].
  destruct (Ascii.eqb_spec c "+") as [->|]; [done|]. destruct (Ascii.eqb_spec c "-") as [->|]; [done|].
  f_equal. destruct Hl as [|x l Hx _]; [done|]. unfold drop_base_prefix.
  destruct (Ascii.eqb_spec x "x") as [->|]; [done|]. destruct (Ascii.eqb_spec x "X") as [->|]; [done|].
  by rewrite andb_false_r.
Qed.

Definition uuid_hex (u : uuid) : list ascii := chars (hex 32 u).

Lemma uuid_str_chars u :
  erase (chars "-") 0 (strip is_brace (erase (chars "uuid:") 0 (erase (chars "urn:") 0 (chars (uuid_str u))))) = uuid_hex u.
Proof.
  assert (Hnone : ∀ c, c = "u"%char ∨ is_brace c = true → Forall (λ x, Ascii.eqb c x = false) (chars (uuid_str u))).
  { intros c Hc. unfold uuid_str. rewrite !chars_app, !Forall_app.
    assert (Hs : special c = true) by (unfold special; destruct Hc as [-> | ->]; [done|by rewrite orb_true_r]).
    assert (Hh : Forall (λ x, Ascii.eqb c x = false) (chars "-")).
    { constructor; [|constructor]. destruct (Ascii.eqb_spec c "-") as [->|]; [|done]. by destruct Hc. }
    split_and!; try exact Hh; apply special_not; try exact Hs; apply hex_plain. }
  rewrite (erase_none "u" (chars "rn:")), (erase_none "u" (chars "uid:")) by (apply Hnone; by left).
  rewrite strip_none.
  2: { apply Forall_forall. intros x Hx. destruct (is_brace x) eqn:E; [|done].
       pose proof (Hnone x (or_intror E)) as Hf. rewrite Forall_forall in Hf. specialize (Hf x Hx). by rewrite Ascii.eqb_refl in Hf. }
  assert (Hh : ∀ k, erase (chars "-") 0 (chars "-" ++ k) = erase (chars "-") 0 k) by done.
  assert (Hend : erase (chars "-") 0 (chars (hex 12 u)) = chars (hex 12 u)).
  { by rewrite <- (app_nil_r (chars (hex 12 u))), erase_hyphen by apply hex_plain. }
  unfold uuid_str. rewrite !chars_app. do 4 (rewrite erase_hyphen, Hh by apply hex_plain). rewrite Hend. unfold uuid_hex.
  rewrite <- (hex_app 20 12), <- (hex_app 16 4 (u / _)), <- (hex_app 12 4 (u / _ / _)), <- (hex_app 8 4 (u / _ / _ / _)).
  rewrite !Z.div_div by lia. by rewrite <- !app_assoc.
Qed.

Lemma parse_uuid_printed u : 0 <= u < 2 ^ 128 → parse_uuid (uuid_str u) = Ok u.
Proof.
  intros Hu. unfold parse_uuid. rewrite uuid_str_chars. unfold uuid_hex. rewrite hex_length. cbn [Nat.eqb negb].
  rewrite int16_plain by apply hex_plain.
  rewrite <- (app_nil_r (chars (hex 32 u))), digits16_hex. cbn [digits16].
  replace (0 * _ + u mod _) with u by (rewrite Z.mod_small; lia).
  destruct (Z.leb_spec 0 u), (Z.ltb_spec u (2 ^ 128)); (done || lia).
Qed.

(** What is read is a 128-bit identifier. *)
Lemma parse_uuid_range s u : parse_uuid s = Ok u → 0 <= u < 2 ^ 128.
Proof.
  unfold parse_uuid. destruct (negb _); [done|]. destruct (int16 _) as [n|]; [|done].
  destruct ((0 <=? n) && (n <? 2 ^ 128)) eqn:E; [|done]. intros [= <-]. zbool. lia.
Qed.

Lemma uuid_str_inj u v : 0 <= u < 2 ^ 128 → 0 <= v < 2 ^ 128 → uuid_str u = uuid_str v → u = v.
Proof. intros Hu Hv E. apply (f_equal parse_uuid) in E. rewrite !parse_uuid_printed in E by done. congruence. Qed.

(** Identifiers as texts.  [uuid.UUID(str(u))] is [u] for every 128-bit
    identifier, so the identifiers the services write into payloads, outbox tasks
    and proposals denote the row they were printed from and no other; and whatever
    spelling is read (braces, prefixes, capitals), reading the canonical spelling
    of the result gives the same identifier. *)
Theorem uuid_text_roundtrip :
  (∀ u, 0 <= u < 2 ^ 128 → parse_uuid (uuid_str u) = Ok u) ∧
  (∀ u v, 0 <= u < 2 ^ 128 → 0 <= v < 2 ^ 128 → uuid_str u = uuid_str v → u = v) ∧
  (∀ s u, parse_uuid s = Ok u → parse_uuid (uuid_str u) = Ok u).
Proof.
  split_and!; [exact parse_uuid_printed|exact uuid_str_inj|].
  intros s u Hs. apply parse_uuid_printed. by eapply parse_uuid_range.
Qed.

(** The tolerance of the reader: prefixes, braces, capitals, a sign, a base prefix. *)
Lemma parse_uuid_samples :
  parse_uuid "{12345678-1234-1234-1234-123456789ABC}" = parse_uuid "urn:uuid:12345678123412341234123456789abc" ∧
  parse_uuid "+0000000000000000000000000000001" = Ok 1 ∧ parse_uuid "0x_00000000000000000000000000001" = Ok 1 ∧
  parse_uuid "12345678123412341234123456789ab" = Raise ValueError ∧
  parse_uuid "1__00000000000000000000000000000" = Raise ValueError.
Proof. by vm_compute. Qed.
