(* ===== verification/Cursors.v ===== *)
(** * Pagination cursors as texts ([core/pagination.py])

    A cursor is the base64 text of a JSON list followed by a checksum.  The parts
    of the standard library the codec rests on are defined here: base64 with
    CPython's lenient decoder, and the reader and writer of JSON for ASCII
    documents.  SHA-256 and the decoding of documents that are not ASCII are
    parameters. *)

From S2P Require Import Prelude PyDecimal MoneyTypes Calendar Store Schema Uuids.
From Stdlib Require Import String Ascii.
From stdpp Require Import strings.
Open Scope Z_scope.

(** ** Base64, the URL-safe alphabet *)

Abbreviation byte := Z (only parsing).

Definition char_of (n : Z) : ascii := ascii_of_N (Z.to_N n).

Definition b64_char (n : Z) : ascii :=
  if n <? 26 then char_of (65 + n)
  else if n <? 52 then char_of (71 + n)
  else if n <? 62 then char_of (n - 4)
  else if n =? 62 then "-"%char else "_"%char.

(** The table of [binascii], after the URL-safe translation: both alphabets read. *)
Definition b64_value (c : ascii) : option Z :=
  let n := code c in
  if (65 <=? n) && (n <=? 90) then Some (n - 65)
  else if (97 <=? n) && (n <=? 122) then Some (n - 71)
  else if (48 <=? n) && (n <=? 57) then Some (n + 4)
  else if Ascii.eqb c "-" || Ascii.eqb c "+" then Some 62
  else if Ascii.eqb c "_" || Ascii.eqb c "/" then Some 63
  else None.

(** [base64.urlsafe_b64encode] *)
Fixpoint b64encode (l : list byte) : list ascii :=
  match l with
  | [] => []
  | [a] => [b64_char (a / 4); b64_char (a mod 4 * 16); "="; "="]%char
  | [a; b] => [b64_char (a / 4); b64_char (a mod 4 * 16 + b / 16); b64_char (b mod 16 * 4); "="]%char
  | a :: b :: c :: l =>
      b64_char (a / 4) :: b64_char (a mod 4 * 16 + b / 16) :: b64_char (b mod 16 * 4 + c / 64) ::
      b64_char (c mod 64) :: b64encode l
  end.

(** [binascii.a2b_base64], not strict: [quad] characters of a group of four are
    read, [left] holds their bits that are not in a byte yet; characters outside
    the alphabet are skipped, and a full padding ends the text.  [None] is
    [binascii.Error]. *)
Fixpoint a2b (quad left pads : Z) (l : list ascii) : option (list byte) :=
  match l with
  | [] => if quad =? 0 then Some [] else None
  | c :: l =>
      if Ascii.eqb c "=" then
        if (2 <=? quad) && (4 <=? quad + (pads + 1)) then Some []
        else a2b quad left (if 2 <=? quad then pads + 1 else pads) l
      else match b64_value c with
           | None => a2b quad left pads l
           | Some v =>
               if quad =? 0 then a2b 1 v 0 l
               else if quad =? 1 then cons (left * 4 + v / 16) <$> a2b 2 (v mod 16) 0 l
               else if quad =? 2 then cons (left * 16 + v / 4) <$> a2b 3 (v mod 4) 0 l
               else cons (left * 64 + v) <$> a2b 0 0 0 l
           end
  end.

Definition b64decode (l : list ascii) : option (list byte) := a2b 0 0 0 l.

(** [text.rstrip("=")] *)
Definition rstrip_pad (l : list ascii) : list ascii := reverse (lstrip (λ c, Ascii.eqb c "=") (reverse l)).

(** ** Writing JSON ([json.dumps] with [separators=(",", ":")]) *)

Definition hex4 (n : Z) : list ascii := chars (hex 4 n).

Definition QUOTE : ascii := "034".
Definition BACKSLASH : ascii := "092".

Definition dump_char (c : ascii) : list ascii :=
  let n := code c in
  if Ascii.eqb c QUOTE || Ascii.eqb c BACKSLASH then [BACKSLASH; c]
  else if n =? 10 then [BACKSLASH; "n"%char]
  else if n =? 13 then [BACKSLASH; "r"%char]
  else if n =? 9 then [BACKSLASH; "t"%char]
  else if n =? 12 then [BACKSLASH; "f"%char]
  else if n =? 8 then [BACKSLASH; "b"%char]
  else if (32 <=? n) && (n <=? 126) then [c]
  else BACKSLASH :: "u"%char :: hex4 n.

Definition dump_string (s : string) : list ascii := QUOTE :: concat (dump_char <$> chars s) ++ [QUOTE].

(** A [CursorValue]; a float is given by its text. *)
Definition dump_scalar (v : json) : list ascii :=
  match v with
  | JNull => chars "null"
  | JBool true => chars "true"
  | JBool false => chars "false"
  | JInt n => chars (str_int n)
  | JFloat r => chars r
  | JStr s => dump_string s
  | _ => []
  end.

Fixpoint join (sep : ascii) (l : list (list ascii)) : list ascii :=
  match l with
  | [] => []
  | [x] => x
  | x :: l => x ++ sep :: join sep l
  end.

Definition dump_list (vs : list json) : list ascii := "["%char :: join "," (dump_scalar <$> vs) ++ ["]"%char].

(** ** Reading JSON ([json.loads] of a text) *)

Definition json_space (c : ascii) : bool := (code c =? 32) || (code c =? 9) || (code c =? 10) || (code c =? 13).

Definition skip_space : list ascii → list ascii := lstrip json_space.

(** The character of a [\uXXXX] escape outside ASCII is left to [unicode_char]. *)
Section Reader.
Context (unicode_char : Z → list ascii).

Definition escaped (c : ascii) : option ascii :=
  if Ascii.eqb c QUOTE then Some QUOTE
  else if Ascii.eqb c BACKSLASH then Some BACKSLASH
  else if Ascii.eqb c "/" then Some "/"%char
  else if Ascii.eqb c "b" then Some (char_of 8)
  else if Ascii.eqb c "f" then Some (char_of 12)
  else if Ascii.eqb c "n" then Some (char_of 10)
  else if Ascii.eqb c "r" then Some (char_of 13)
  else if Ascii.eqb c "t" then Some (char_of 9)
  else None.

Definition hex4_value (a b c d : ascii) : option Z :=
  match digit16 a, digit16 b, digit16 c, digit16 d with
  | Some a, Some b, Some c, Some d => Some (((a * 16 + b) * 16 + c) * 16 + d)
  | _, _, _, _ => None
  end.

(** The rest of a string, after its opening quote, and what follows it. *)
Fixpoint read_string (l : list ascii) : option (list ascii * list ascii) :=
  match l with
  | [] => None
  | c :: l =>
      if Ascii.eqb c QUOTE then Some ([], l)
      else if Ascii.eqb c BACKSLASH then
        match l with
        | [] => None
        | e :: l =>
            if Ascii.eqb e "u" then
              match l with
              | h1 :: h2 :: h3 :: h4 :: l =>
                  match hex4_value h1 h2 h3 h4 with
                  | None => None
                  | Some n => prod_map (app (if n <? 128 then [char_of n] else unicode_char n)) id <$> read_string l
                  end
              | _ => None
              end
            else match escaped e with
                 | None => None
                 | Some x => prod_map (cons x) id <$> read_string l
                 end
        end
      else if code c <? 32 then None
      else prod_map (cons c) id <$> read_string l
  end.

Definition is_dec (c : ascii) : bool := (48 <=? code c) && (code c <=? 57).

Fixpoint span (f : ascii → bool) (l : list ascii) : list ascii * list ascii :=
  match l with
  | c :: l' => if f c then prod_map (cons c) id (span f l') else ([], l)
  | [] => ([], [])
  end.

Definition decimal_value (ds : list ascii) : Z := foldl (λ acc c, acc * 10 + (code c - 48)) 0 ds.

(** The fraction and the exponent of a number, when they are there. *)
Definition read_fraction (l : list ascii) : list ascii * list ascii :=
  match l with
  | c :: l' =>
      if Ascii.eqb c "." then
        match span is_dec l' with ([], _) => ([], l) | (ds, rest) => (c :: ds, rest) end
      else ([], l)
  | [] => ([], l)
  end.

Definition read_sign (l : list ascii) : list ascii * list ascii :=
  match l with
  | s :: r => if Ascii.eqb s "+" || Ascii.eqb s "-" then ([s], r) else ([], l)
  | [] => ([], l)
  end.

Definition read_exponent (l : list ascii) : list ascii * list ascii :=
  match l with
  | e :: l' =>
      if Ascii.eqb e "e" || Ascii.eqb e "E" then
        let '(sign, l'') := read_sign l' in
        match span is_dec l'' with ([], _) => ([], l) | (ds, rest) => (e :: sign ++ ds, rest) end
      else ([], l)
  | [] => ([], l)
  end.

(** A number: a sign, an integer without leading zeros, a fraction, an exponent. *)
Definition read_number (l : list ascii) : option (json * list ascii) :=
  let '(sign, l1) := match l with
                     | s :: r => if Ascii.eqb s "-" then ([s], r) else ([], l)
                     | [] => ([], l)
                     end in
  let '(int, l2) := match l1 with
                    | z :: r => if Ascii.eqb z "0" then ([z], r) else span is_dec l1
                    | [] => ([], l1)
                    end in
  match int with
  | [] => None
  | _ =>
      let '(frac, l3) := read_fraction l2 in
      let '(expo, l4) := read_exponent l3 in
      match frac, expo with
      | [], [] => Some (JInt ((if bool_decide (sign = []) then 1 else -1) * decimal_value int), l4)
      | _, _ => Some (JFloat (string_of_list_ascii (sign ++ int ++ frac ++ expo)), l4)
      end
  end.

(** A literal, and what follows it. *)
Definition read_literal (word : string) (v : json) (l : list ascii) : option (json * list ascii) :=
  if is_prefix (chars word) l then Some (v, drop (String.length word) l) else None.

(** One value, given the readers of the items of a list and of the fields of an object. *)
Definition value_step (read_items : list ascii → option (list json * list ascii))
    (read_fields : list ascii → option (list (string * json) * list ascii)) (l : list ascii) : option (json * list ascii) :=
  match l with
  | [] => None
  | c :: l' =>
      if Ascii.eqb c QUOTE then prod_map (λ s, JStr (string_of_list_ascii s)) id <$> read_string l'
      else if Ascii.eqb c "[" then
        let r := skip_space l' in
        if is_prefix ["]"%char] r then Some (JList [], drop 1 r) else prod_map JList id <$> read_items r
      else if Ascii.eqb c "{" then
        let r := skip_space l' in
        if is_prefix ["}"%char] r then Some (JObj [], drop 1 r) else prod_map JObj id <$> read_fields r
      else if Ascii.eqb c "n" then read_literal "null" JNull l
      else if Ascii.eqb c "t" then read_literal "true" (JBool true) l
      else if Ascii.eqb c "f" then read_literal "false" (JBool false) l
      else if Ascii.eqb c "N" then read_literal "NaN" (JFloat "nan") l
      else if Ascii.eqb c "I" then read_literal "Infinity" (JFloat "inf") l
      else if is_prefix (chars "-Infinity") l then read_literal "-Infinity" (JFloat "-inf") l
      else read_number l
  end.

(** The items of a list, after its bracket. *)
Definition items_step (read_value : list ascii → option (json * list ascii))
    (read_items : list ascii → option (list json * list ascii)) (l : list ascii) : option (list json * list ascii) :=
  '(v, r) ← read_value l;
  match skip_space r with
  | c :: r =>
      if Ascii.eqb c "]" then Some ([v], r)
      else if Ascii.eqb c "," then prod_map (cons v) id <$> read_items (skip_space r)
      else None
  | [] => None
  end.

(** The fields of an object, after its brace. *)
Definition fields_step (read_value : list ascii → option (json * list ascii))
    (read_fields : list ascii → option (list (string * json) * list ascii)) (l : list ascii)
    : option (list (string * json) * list ascii) :=
  match l with
  | c :: l =>
      if negb (Ascii.eqb c QUOTE) then None
      else
        '(key, r) ← read_string l;
        match skip_space r with
        | d :: r =>
            if negb (Ascii.eqb d ":") then None
            else
              '(v, r) ← read_value (skip_space r);
              match skip_space r with
              | c :: r =>
                  if Ascii.eqb c "}" then Some ([(string_of_list_ascii key, v)], r)
                  else if Ascii.eqb c "," then prod_map (cons (string_of_list_ascii key, v)) id <$> read_fields (skip_space r)
                  else None
              | [] => None
              end
        | [] => None
        end
  | [] => None
  end.

(** Every call takes a unit of fuel. *)
Fixpoint read_value (fuel : nat) (l : list ascii) : option (json * list ascii) :=
  match fuel with O => None | S fuel => value_step (read_items fuel) (read_fields fuel) l end
with read_items (fuel : nat) (l : list ascii) : option (list json * list ascii) :=
  match fuel with O => None | S fuel => items_step (read_value fuel) (read_items fuel) l end
with read_fields (fuel : nat) (l : list ascii) : option (list (string * json) * list ascii) :=
  match fuel with O => None | S fuel => fields_step (read_value fuel) (read_fields fuel) l end.

(** [JSONDecoder.decode]; [None] is [JSONDecodeError].  Every step of the reader
    consumes a character, so the length of the text is enough fuel. *)
Definition read_document (l : list ascii) : option json :=
  match read_value (2 * length l + 2) (skip_space l) with
  | Some (v, r) => if bool_decide (skip_space r = []) then Some v else None
  | None => None
  end.
End Reader.

(** ** Lemmas: base64 *)

Definition is_byte (b : byte) : Prop := 0 <= b < 256.

Lemma b64_char_value n : 0 <= n < 64 → b64_value (b64_char n) = Some n ∧ Ascii.eqb (b64_char n) "=" = false.
Proof.
  intros Hn.
  assert (Hall : forallb (λ n, bool_decide (b64_value (b64_char n) = Some n ∧ Ascii.eqb (b64_char n) "=" = false)) (seqZ 0 64) = true)
    by (vm_compute; reflexivity).
  rewrite forallb_forall in Hall. specialize (Hall n). rewrite bool_decide_eq_true in Hall.
  apply Hall, list_elem_of_In, elem_of_seqZ. lia.
Qed.

(** Reading one character of the alphabet. *)
Lemma a2b_char n quad left pads l : 0 <= n < 64 →
  a2b quad left pads (b64_char n :: l) =
    if quad =? 0 then a2b 1 n 0 l
    else if quad =? 1 then cons (left * 4 + n / 16) <$> a2b 2 (n mod 16) 0 l
    else if quad =? 2 then cons (left * 16 + n / 4) <$> a2b 3 (n mod 4) 0 l
    else cons (left * 64 + n) <$> a2b 0 0 0 l.
Proof. intros [Hv He]%b64_char_value. cbn [a2b]. by rewrite He, Hv. Qed.

Lemma list_triple_ind {A} (P : list A → Prop) :
  P [] → (∀ a, P [a]) → (∀ a b, P [a; b]) → (∀ a b c l, P l → P (a :: b :: c :: l)) → ∀ l, P l.
Proof.
  intros H0 H1 H2 H3. enough (∀ l, P l ∧ (∀ a, P (a :: l)) ∧ ∀ a b, P (a :: b :: l)) by firstorder.
  induction l as [|x l (IH1 & IH2 & IH3)]; auto.
Qed.

Lemma a2b_pad2 left : a2b 2 left 0 ["="; "="]%char = Some [].
Proof. done. Qed.
Lemma a2b_pad1 left : a2b 3 left 0 ["="]%char = Some [].
Proof. done. Qed.

Ltac b64_bounds := Z.to_euclidean_division_equations; lia.

Lemma b64_roundtrip l : Forall is_byte l → b64decode (b64encode l) = Some l.
Proof.
  unfold b64decode.
  induction l as [|a|a b|a b c l IH] using list_triple_ind; intros Hl; rewrite ?Forall_cons in Hl; unfold is_byte in Hl; cbn [b64encode].
  - done.
  - destruct Hl as [Ha _]. do 2 (rewrite a2b_char by b64_bounds; cbn [Z.eqb Pos.eqb]). rewrite a2b_pad2.
    cbn [fmap option_fmap option_map]. do 2 f_equal. b64_bounds.
  - destruct Hl as (Ha & Hb & _). do 3 (rewrite a2b_char by b64_bounds; cbn [Z.eqb Pos.eqb]). rewrite a2b_pad1.
    cbn [fmap option_fmap option_map]. f_equal. f_equal; [|f_equal]; b64_bounds.
  - destruct Hl as (Ha & Hb & Hc & Hl). do 4 (rewrite a2b_char by b64_bounds; cbn [Z.eqb Pos.eqb]).
    change (is_byte) with (λ b, 0 <= b < 256) in IH. rewrite IH by done.
    cbn [fmap option_fmap option_map]. f_equal. f_equal; [|f_equal; [|f_equal]]; b64_bounds.
Qed.

(** The text is made of groups of four, the last one padded. *)
Lemma b64_shape l : Forall is_byte l →
  ∃ u p, b64encode l = u ++ replicate p "="%char ∧ Forall (λ c, Ascii.eqb c "=" = false) u ∧
    Z.of_nat p = (- Z.of_nat (length u)) mod 4 ∧ Z.of_nat (length u) * 3 <= Z.of_nat (length l) * 4 + 2.
Proof.
  induction l as [|a|a b|a b c l IH] using list_triple_ind; intros Hl; rewrite ?Forall_cons in Hl; unfold is_byte in Hl; cbn [b64encode].
  - by exists [], 0%nat.
  - destruct Hl as [Ha _]. eexists [_; _], 2%nat. split_and!; [reflexivity| |done|cbn; lia].
    repeat constructor; apply b64_char_value; b64_bounds.
  - destruct Hl as (Ha & Hb & _). eexists [_; _; _], 1%nat. split_and!; [reflexivity| |done|cbn; lia].
    repeat constructor; apply b64_char_value; b64_bounds.
  - destruct Hl as (Ha & Hb & Hc & Hl). destruct (IH Hl) as (u & p & -> & Hu & Hp & Hlen).
    eexists (_ :: _ :: _ :: _ :: u), p. split_and!; [reflexivity| | |cbn [length]; lia].
    + repeat (constructor; [apply b64_char_value; b64_bounds|]). done.
    + rewrite Hp. cbn [length]. replace (- Z.of_nat (S (S (S (S (length u)))))) with (- Z.of_nat (length u) + (-1) * 4) by lia.
      by rewrite Z.mod_add.
Qed.

Lemma rstrip_pad_app u p : Forall (λ c, Ascii.eqb c "=" = false) u → rstrip_pad (u ++ replicate p "="%char) = u.
Proof.
  intros Hu. unfold rstrip_pad. rewrite reverse_app, reverse_replicate.
  assert (Hp : ∀ l, lstrip (λ c, Ascii.eqb c "=") (replicate p "="%char ++ l) = lstrip (λ c, Ascii.eqb c "=") l) by (intros l; induction p; done).
  rewrite Hp, lstrip_none, reverse_involutive; [done|]. by apply Forall_reverse.
Qed.

(** ** Lemmas: reading what was written *)

(** The sort keys the routes put into a cursor: texts, booleans and nulls. *)
Definition ascii_text (s : string) : bool := forallb (λ c, code c <? 128) (chars s).

Definition plain_scalar (v : json) : bool :=
  match v with JNull | JBool _ => true | JStr s => ascii_text s | _ => false end.

Section ReaderLemmas.
Context (unicode_char : Z → list ascii).

Lemma read_string_char c l :
  (code c <? 128) = true → read_string unicode_char (dump_char c ++ l) = prod_map (cons c) id <$> read_string unicode_char l.
Proof. destruct c as [[] [] [] [] [] [] [] []]; intros Hc; first [reflexivity|discriminate Hc]. Qed.

Lemma read_string_dump cs l :
  forallb (λ c, code c <? 128) cs = true → read_string unicode_char (concat (dump_char <$> cs) ++ QUOTE :: l) = Some (cs, l).
Proof.
  induction cs as [|c cs IH]; cbn [forallb]; [done|]. intros [Hc Hcs]%andb_true_iff.
  rewrite fmap_cons. cbn [concat]. rewrite <- app_assoc, read_string_char, IH by done. done.
Qed.

Lemma read_scalar fuel v l : plain_scalar v = true → read_value unicode_char (S fuel) (dump_scalar v ++ l) = Some (v, l).
Proof.
  destruct v as [|[]| | |s| |]; try done; intros Hs. cbn [dump_scalar]. unfold dump_string.
  rewrite <- app_comm_cons, <- app_assoc. cbn [app read_value value_step Ascii.eqb QUOTE Bool.eqb].
  rewrite read_string_dump by done. cbn. by rewrite string_of_list_ascii_of_string.
Qed.

(** No value starts with white space or closes a list. *)
Lemma scalar_start v l : plain_scalar v = true →
  ∃ c k, (dump_scalar v ++ l = c :: k) ∧ json_space c = false ∧ Ascii.eqb c "]" = false.
Proof.
  destruct v as [|[]| | |s| |]; try done; intros Hs; eexists _, _; (split; [reflexivity|]); by vm_compute.
Qed.

Lemma read_items_dump fuel vs l :
  forallb plain_scalar vs = true → vs ≠ [] → (length vs < fuel)%nat →
  read_items unicode_char fuel (join "," (dump_scalar <$> vs) ++ "]"%char :: l) = Some (vs, l).
Proof.
  revert fuel. induction vs as [|v vs IH]; intros fuel Hvs Hne Hf; [done|]. clear Hne.
  cbn [forallb] in Hvs. apply andb_true_iff in Hvs as [Hv Hvs]. destruct fuel as [|[|fuel]]; [lia|cbn in Hf; lia|].
  change (read_items unicode_char (S (S fuel)) ?k) with (items_step (read_value unicode_char (S fuel)) (read_items unicode_char (S fuel)) k).
  unfold items_step.
  destruct vs as [|w vs]; rewrite fmap_cons.
  - cbn [join fmap list_fmap]. rewrite read_scalar by done. done.
  - change (join "," (dump_scalar v :: (dump_scalar <$> w :: vs))) with (dump_scalar v ++ ","%char :: join "," (dump_scalar <$> w :: vs)).
    rewrite <- app_assoc, read_scalar by done. cbn [mbind option_bind]. rewrite <- app_comm_cons.
    change (skip_space (","%char :: ?k)) with (","%char :: k).
    assert (Hsk : skip_space (join "," (dump_scalar <$> w :: vs) ++ "]"%char :: l) = join "," (dump_scalar <$> w :: vs) ++ "]"%char :: l).
    { cbn [forallb] in Hvs. apply andb_true_iff in Hvs as [Hw _].
      destruct vs as [|x vs]; cbn [fmap list_fmap join]; rewrite <- ?app_assoc;
        (match goal with |- context [dump_scalar w ++ ?k] => destruct (scalar_start w k Hw) as (c & m & -> & Hc & _) end);
        unfold skip_space; cbn [lstrip]; by rewrite Hc. }
    cbn [Ascii.eqb Bool.eqb]. rewrite Hsk, IH; [done|done|done|cbn [length] in *; lia].
Qed.

Lemma read_dumped vs : forallb plain_scalar vs = true → vs ≠ [] → read_document unicode_char (dump_list vs) = Some (JList vs).
Proof.
  intros Hvs Hne. unfold read_document, dump_list.
  change (skip_space ("["%char :: ?k)) with ("["%char :: k).
  set (body := join "," (dump_scalar <$> vs) ++ ["]"%char]).
  assert (Hfuel : ∃ f, (2 * length ("["%char :: body) + 2 = S (S f))%nat ∧ (length vs < S f)%nat).
  { exists (2 * length ("["%char :: body))%nat. split; [lia|]. unfold body. cbn [length]. rewrite length_app.
    assert (length vs <= length (join "," (dump_scalar <$> vs)) + 1)%nat; [|cbn; lia].
    clear. induction vs as [|v [|w vs] IH]; [cbn; lia|cbn; lia|].
    change (join "," (dump_scalar <$> v :: w :: vs)) with (dump_scalar v ++ ","%char :: join "," (dump_scalar <$> w :: vs)).
    rewrite length_app. cbn [length] in *. lia. }
  destruct Hfuel as (f & -> & Hf). 
  assert (Hst : ∃ c m, body = c :: m ∧ json_space c = false ∧ Ascii.eqb c "]" = false).
  { destruct vs as [|v vs]; [done|]. cbn [forallb] in Hvs. apply andb_true_iff in Hvs as [Hv _]. unfold body.
    destruct vs as [|x vs]; cbn [fmap list_fmap join]; rewrite <- ?app_assoc; by apply scalar_start. }
  destruct Hst as (c & m & Hb & Hc & Hbr).
  assert (Hval : read_value unicode_char (S (S f)) ("["%char :: body) = prod_map JList id <$> read_items unicode_char (S f) body).
  { cbn [read_value value_step Ascii.eqb QUOTE Bool.eqb]. rewrite Hb. unfold skip_space. cbn [lstrip]. rewrite Hc.
    cbn [is_prefix]. by rewrite Ascii.eqb_sym, Hbr. }
  rewrite Hval. unfold body. rewrite read_items_dump by done. done.
Qed.

(** *** The fuel of the reader is enough *)

Lemma lstrip_length f l : (length (lstrip f l) <= length l)%nat.
Proof. induction l as [|c l IH]; cbn; [done|]. destruct (f c); cbn; lia. Qed.

Lemma read_string_length l s r : read_string unicode_char l = Some (s, r) → (length r < length l)%nat.
Proof.
  revert s r. induction l as [l IH] using (well_founded_induction (well_founded_ltof _ length)). unfold ltof in IH.
  intros s r. destruct l as [|c l]; [done|]. cbn [read_string].
  assert (Hstep : ∀ k (f : list ascii → list ascii), (length k < length (c :: l))%nat →
    prod_map f id <$> read_string unicode_char k = Some (s, r) → (length r < length (c :: l))%nat).
  { intros k f Hk ([s' r'] & Hr & [= _ ->])%fmap_Some. specialize (IH k Hk s' r' Hr). cbn in *. lia. }
  destruct (Ascii.eqb c QUOTE); [intros [= _ <-]; cbn; lia|].
  destruct (Ascii.eqb c BACKSLASH).
  - destruct l as [|e l]; [done|]. destruct (Ascii.eqb e "u").
    + destruct l as [|h1 [|h2 [|h3 [|h4 l]]]]; try done. destruct (hex4_value h1 h2 h3 h4); [|done].
      apply Hstep. cbn. lia.
    + destruct (escaped e); [|done]. apply Hstep. cbn. lia.
  - destruct (code c <? 32); [done|]. apply Hstep. cbn. lia.
Qed.

Lemma span_length f l : (length (span f l).2 <= length l)%nat ∧ ((span f l).1 ≠ [] → (length (span f l).2 < length l)%nat).
Proof.
  induction l as [|c l [IH _]]; cbn; [split; [lia|done]|]. destruct (f c); [|split; [done|done]].
  destruct (span f l) as [a b]. cbn in *. split; [lia|intros _; lia].
Qed.

Lemma read_fraction_length l : (length (read_fraction l).2 <= length l)%nat.
Proof.
  destruct l as [|c l]; cbn; [done|]. destruct (Ascii.eqb c "."); [|done].
  pose proof (span_length is_dec l) as [Hs _]. destruct (span is_dec l) as [[|d ds] rest]; cbn in *; lia.
Qed.

Lemma read_exponent_length l : (length (read_exponent l).2 <= length l)%nat.
Proof.
  destruct l as [|c l]; [done|]. unfold read_exponent. destruct (_ || _); [|done].
  assert (Hs : (length (read_sign l).2 <= length l)%nat) by (destruct l as [|x l]; [done|]; cbn; destruct (_ || _); cbn; lia).
  destruct (read_sign l) as [sign k]. pose proof (span_length is_dec k) as [Hk _].
  destruct (span is_dec k) as [[|d ds] rest]; cbn in *; lia.
Qed.

Lemma read_number_length l v r : read_number l = Some (v, r) → (length r < length l)%nat.
Proof.
  unfold read_number. set (p := match l with [] => _ | _ :: _ => _ end).
  assert (Hp : (length p.2 <= length l)%nat) by (unfold p; destruct l as [|c l]; [done|]; destruct (Ascii.eqb c "-"); cbn; lia).
  destruct p as [sign l1]. cbn in Hp. set (q := match l1 with [] => _ | _ :: _ => _ end).
  assert (Hq : q.1 ≠ [] → (length q.2 < length l1)%nat).
  { unfold q. destruct l1 as [|c l1]; [done|]. destruct (Ascii.eqb c "0"); [intros _; cbn; lia|]. apply span_length. }
  destruct q as [ip l2]. cbn in Hq. destruct ip as [|x ip]; [done|]. specialize (Hq ltac:(done)).
  pose proof (read_fraction_length l2) as Hf. destruct (read_fraction l2) as [fr l3]. cbn in Hf.
  pose proof (read_exponent_length l3) as He. destruct (read_exponent l3) as [ex l4]. cbn in He.
  destruct fr, ex; intros [= _ <-]; lia.
Qed.

Lemma is_prefix_length p l : is_prefix p l = true → (length p <= length l)%nat.
Proof.
  revert l. induction p as [|a p IH]; intros [|b l]; cbn; try done; [lia|]. intros [_ H%IH]%andb_true_iff. lia.
Qed.

Lemma read_literal_length w v l x r : (0 < String.length w)%nat → read_literal w v l = Some (x, r) → (length r < length l)%nat.
Proof.
  intros Hw. unfold read_literal. destruct (is_prefix (chars w) l) eqn:E; [|done]. apply is_prefix_length in E.
  assert (Hl : length (chars w) = String.length w) by (clear; unfold chars; induction w; cbn; congruence).
  intros [= _ <-]. rewrite length_drop. lia.
Qed.

(** What is read is consumed. *)
Lemma reader_length fuel :
  (∀ l v r, read_value unicode_char fuel l = Some (v, r) → (length r < length l)%nat) ∧
  (∀ l v r, read_items unicode_char fuel l = Some (v, r) → (length r < length l)%nat) ∧
  (∀ l v r, read_fields unicode_char fuel l = Some (v, r) → (length r < length l)%nat).
Proof.
  induction fuel as [|fuel (IH1 & IH2 & IH3)]; [done|].
  assert (Hsp : ∀ l, (length (skip_space l) <= length l)%nat) by (intros l; apply lstrip_length).
  split_and!; intros l v r.
  - cbn [read_value]. unfold value_step. destruct l as [|c l]; [done|].
    destruct (Ascii.eqb c QUOTE); [intros ([s' r'] & H%read_string_length & [= _ ->])%fmap_Some; cbn; lia|].
    specialize (Hsp l).
    destruct (Ascii.eqb c "["); [|destruct (Ascii.eqb c "{")].
    + assert (Hi : prod_map JList id <$> read_items unicode_char fuel (skip_space l) = Some (v, r) → (length r < length (c :: l))%nat)
        by (intros ([s' r'] & H%IH2 & [= _ ->])%fmap_Some; cbn; lia).
      cbn zeta. destruct (is_prefix _ _); [|exact Hi]. intros [= _ <-]. rewrite length_drop. cbn [length]. lia.
    + assert (Hi : prod_map JObj id <$> read_fields unicode_char fuel (skip_space l) = Some (v, r) → (length r < length (c :: l))%nat)
        by (intros ([s' r'] & H%IH3 & [= _ ->])%fmap_Some; cbn; lia).
      cbn zeta. destruct (is_prefix _ _); [|exact Hi]. intros [= _ <-]. rewrite length_drop. cbn [length]. lia.
    + repeat (match goal with |- (if ?b then _ else _) = _ → _ => destruct b end;
              [intros H; eapply read_literal_length; [|exact H]; cbn; lia|]). apply read_number_length.
  - cbn [read_items]. unfold items_step. intros ([x k] & Hx%IH1 & H)%bind_Some. specialize (Hsp k). destruct (skip_space k) as [|c m]; [done|].
    cbn in *. destruct (Ascii.eqb c "]"); [injection H as _ <-; lia|]. destruct (Ascii.eqb c ","); [|done].
    apply fmap_Some in H as ([ws r'] & H%IH2 & [= _ ->]). pose proof (lstrip_length json_space m). unfold skip_space in H. lia.
  - cbn [read_fields]. unfold fields_step. destruct l as [|c l]; [done|]. destruct (negb _); [done|].
    intros ([key k] & Hk%read_string_length & H)%bind_Some. specialize (Hsp k). destruct (skip_space k) as [|d m]; [done|].
    destruct (negb _); [done|]. apply bind_Some in H as ([x k2] & Hx%IH1 & H).
    pose proof (lstrip_length json_space m). unfold skip_space in Hx. pose proof (lstrip_length json_space k2) as H2. unfold skip_space in H.
    destruct (lstrip json_space k2) as [|e m2]; [done|]. cbn in *.
    destruct (Ascii.eqb e "}"); [injection H as _ <-; lia|]. destruct (Ascii.eqb e ","); [|done].
    apply fmap_Some in H as ([ws r'] & H%IH3 & [= _ ->]). pose proof (lstrip_length json_space m2). lia.
Qed.

(** Twice the length of the text is enough: more fuel reads the same. *)
Lemma reader_fuel fuel :
  (∀ l, (2 * length l < fuel)%nat → read_value unicode_char (S fuel) l = read_value unicode_char fuel l) ∧
  (∀ l, (2 * length l + 1 < fuel)%nat → read_items unicode_char (S fuel) l = read_items unicode_char fuel l) ∧
  (∀ l, (2 * length l + 1 < fuel)%nat → read_fields unicode_char (S fuel) l = read_fields unicode_char fuel l).
Proof.
  induction fuel as [|fuel (IH1 & IH2 & IH3)]; [split_and!; intros; lia|].
  assert (Hsp : ∀ l, (length (skip_space l) <= length l)%nat) by (intros l; apply lstrip_length).
  split_and!; intros l Hl.
  - destruct l as [|c l]; [done|]. specialize (Hsp l). cbn [length] in Hl. specialize (IH2 (skip_space l) ltac:(lia)). specialize (IH3 (skip_space l) ltac:(lia)).
    change (value_step unicode_char (read_items unicode_char (S fuel)) (read_fields unicode_char (S fuel)) (c :: l) =
            value_step unicode_char (read_items unicode_char fuel) (read_fields unicode_char fuel) (c :: l)).
    unfold value_step. rewrite IH2, IH3. done.
  - change (items_step (read_value unicode_char (S fuel)) (read_items unicode_char (S fuel)) l =
            items_step (read_value unicode_char fuel) (read_items unicode_char fuel) l).
    unfold items_step. rewrite IH1 by lia.
    destruct (read_value unicode_char fuel l) as [[x k]|] eqn:E; [|done]. cbn [mbind option_bind].
    apply (proj1 (reader_length fuel)) in E. specialize (Hsp k). destruct (skip_space k) as [|c m]; [done|]. cbn [length] in *.
    pose proof (lstrip_length json_space m). rewrite IH2 by (unfold skip_space; lia). done.
  - change (fields_step unicode_char (read_value unicode_char (S fuel)) (read_fields unicode_char (S fuel)) l =
            fields_step unicode_char (read_value unicode_char fuel) (read_fields unicode_char fuel) l).
    unfold fields_step. destruct l as [|c l]; [done|].
    destruct (negb _); [done|]. destruct (read_string unicode_char l) as [[key k]|] eqn:Ek; [|done]. cbn [mbind option_bind].
    apply read_string_length in Ek. specialize (Hsp k). destruct (skip_space k) as [|d m]; [done|]. destruct (negb _); [done|].
    pose proof (lstrip_length json_space m). cbn [length] in *. rewrite IH1 by (unfold skip_space; lia).
    destruct (read_value unicode_char fuel (skip_space m)) as [[x k2]|] eqn:E; [|done]. cbn [mbind option_bind].
    apply (proj1 (reader_length fuel)) in E. unfold skip_space in E. pose proof (lstrip_length json_space k2) as H2.
    change (skip_space k2) with (lstrip json_space k2). destruct (lstrip json_space k2) as [|e m2]; [done|]. cbn [length] in *.
    pose proof (lstrip_length json_space m2). rewrite IH3 by (unfold skip_space; lia). done.
Qed.

Lemma read_document_fuel l fuel :
  (2 * length l + 2 <= fuel)%nat → read_value unicode_char fuel (skip_space l) = read_value unicode_char (2 * length l + 2) (skip_space l).
Proof.
  intros Hf. induction Hf as [|fuel Hf IH]; [done|]. rewrite <- IH. apply reader_fuel.
  pose proof (lstrip_length json_space l). unfold skip_space. lia.
Qed.
End ReaderLemmas.
