(* ===== verification/Iso.v ===== *)
(** * Dates and instants as ISO 8601 texts

    [date.isoformat], [datetime.isoformat] of an aware UTC instant, and the
    readers [fromisoformat].  A reader accepts more shapes than the printer
    writes; the others are the argument [other] of its definition. *)

From S2P Require Import Prelude PyDecimal MoneyTypes Dates Calendar Store Schema Uuids Cursors.
From Stdlib Require Import String Ascii.
From stdpp Require Import strings.
Open Scope Z_scope.

(** ** Fixed-width fields *)

(** The field of [width] digits at the head of a text. *)
Definition field (width : nat) (l : list ascii) : option (Z * list ascii) :=
  let ds := take width l in
  if (length ds =? width)%nat && forallb is_dec ds then Some (decimal_value ds, drop width l) else None.

Definition expect (c : ascii) (l : list ascii) : option (list ascii) :=
  match l with x :: l => if Ascii.eqb x c then Some l else None | [] => None end.

(** ** Dates *)

(** [date.isoformat()]: dates are printed by [date_str]. *)
Definition date_iso (d : date) : string := date_str d.

Definition read_date (l : list ascii) : option (date * list ascii) :=
  '(y, l) ← field 4 l; l ← expect "-" l;
  '(m, l) ← field 2 l; l ← expect "-" l;
  '(d, l) ← field 2 l;
  match date_of_ymd y m d with Ok n => Some (n, l) | Raise _ => None end.

(** [date.fromisoformat(text)] *)
Definition date_fromisoformat (other : string → result date) (s : string) : result date :=
  match read_date (chars s) with
  | Some (n, []) => Ok n
  | _ => other s
  end.

(** ** Instants *)

(** The instants a [datetime] in UTC holds. *)
Definition MIN_INSTANT : instant := (MIN_ORDINAL - EPOCH_ORDINAL) * US_PER_DAY.
Definition MAX_INSTANT : instant := (MAX_ORDINAL + 1 - EPOCH_ORDINAL) * US_PER_DAY - 1.

Definition is_datetime (t : instant) : bool := (MIN_INSTANT <=? t) && (t <=? MAX_INSTANT).

(** [datetime.isoformat()]: the microseconds are left out when they are zero. *)
Definition datetime_iso (t : instant) : string :=
  let us := t mod US_PER_DAY in
  let s := us / 1000000 in
  (date_iso (date_of_local t) +:+ "T" +:+ padded 2 (s / 3600) +:+ ":" +:+ padded 2 (s / 60 mod 60) +:+ ":" +:+ padded 2 (s mod 60)
   +:+ (if Z.eqb (us mod 1000000) 0 then "" else "." +:+ padded 6 (us mod 1000000)) +:+ "+00:00")%string.

Definition read_micro (l : list ascii) : option (Z * list ascii) :=
  match expect "." l with
  | Some l => field 6 l
  | None => Some (0, l)
  end.

Definition read_datetime (l : list ascii) : option (instant * list ascii) :=
  '(d, l) ← read_date l; l ← expect "T" l;
  '(hh, l) ← field 2 l; l ← expect ":" l;
  '(mi, l) ← field 2 l; l ← expect ":" l;
  '(ss, l) ← field 2 l;
  '(us, l) ← read_micro l;
  if (hh <? 24) && (mi <? 60) && (ss <? 60) && is_prefix (chars "+00:00") l
  then Some ((d - EPOCH_ORDINAL) * US_PER_DAY + ((hh * 60 + mi) * 60 + ss) * 1000000 + us, drop 6 l)
  else None.

(** [datetime.fromisoformat(text)] *)
Definition datetime_fromisoformat (other : string → result instant) (s : string) : result instant :=
  match read_datetime (chars s) with
  | Some (t, []) => Ok t
  | _ => other s
  end.

(** ** Lemmas: the calendar's conversions are inverse *)

(** The month of a day of the year, as [ymd_of_date] finds it. *)
Definition month_of (leap : bool) (n : Z) : Z :=
  let month := (n + 50) / 32 in if n <? days_before_month leap month then month - 1 else month.

Definition month_ok (leap : bool) (n : Z) : bool :=
  let m := month_of leap n in
  let d := n - days_before_month leap m + 1 in
  (1 <=? m) && (m <=? 12) && (1 <=? d) && (d <=? 31) && (d <=? days_in_month leap m).

Lemma month_checked : forallb (λ n, month_ok true n && month_ok false n) (seqZ 0 365) = true.
Proof. vm_compute. reflexivity. Qed.

Lemma month_spec leap n : 0 <= n < 365 →
  let m := month_of leap n in let d := n - days_before_month leap m + 1 in
  1 <= m <= 12 ∧ 1 <= d <= 31 ∧ d <= days_in_month leap m.
Proof.
  intros Hn. pose proof (proj1 (forallb_forall _ _) month_checked n) as Hc.
  assert (Hin : In n (seqZ 0 365)) by (apply list_elem_of_In, elem_of_seqZ; lia). specialize (Hc Hin).
  apply andb_true_iff in Hc as [H1 H2]. assert (Hc : month_ok leap n = true) by (destruct leap; done).
  unfold month_ok in Hc. cbn zeta in *. zbool. lia.
Qed.

(** A year from its position in the cycles of 400, 100 and 4 years. *)
Lemma year_of_cycles a b c e : 0 <= b < 4 → 0 <= c < 25 → 0 <= e < 4 →
  let y := a * 400 + b * 100 + c * 4 + e + 1 in
  is_leap y = (e =? 3) && (negb (c =? 24) || (b =? 3)) ∧
  days_before_year y = 146097 * a + 36524 * b + 1461 * c + 365 * e.
Proof.
  intros Hb Hc He y.
  assert (E4 : y mod 4 = (e + 1) mod 4) by (unfold y; replace (a * 400 + b * 100 + c * 4 + e + 1) with (e + 1 + (a * 100 + b * 25 + c) * 4) by lia; by rewrite Z.mod_add).
  assert (E100 : y mod 100 = (c * 4 + e + 1) mod 100) by (unfold y; replace (a * 400 + b * 100 + c * 4 + e + 1) with (c * 4 + e + 1 + (a * 4 + b) * 100) by lia; by rewrite Z.mod_add).
  assert (E400 : y mod 400 = (b * 100 + c * 4 + e + 1) mod 400) by (unfold y; replace (a * 400 + b * 100 + c * 4 + e + 1) with (b * 100 + c * 4 + e + 1 + a * 400) by lia; by rewrite Z.mod_add).
  split.
  - unfold is_leap. rewrite E4, E100, E400. clear -Hb Hc He.
    apply eq_true_iff_eq. rewrite !andb_true_iff, !orb_true_iff, !negb_true_iff, !Z.eqb_eq, !Z.eqb_neq.
    Z.div_mod_to_equations. lia.
  - unfold days_before_year, y. Z.div_mod_to_equations. lia.
Qed.

Lemma ymd_spec n : MIN_ORDINAL <= n <= MAX_ORDINAL →
  ∃ y m d, ymd_of_date n = (y, m, d) ∧ date_of_ymd y m d = Ok n ∧ 1 <= y <= 9999 ∧ 1 <= m <= 12 ∧ 1 <= d <= 31.
Proof.
  unfold MIN_ORDINAL, MAX_ORDINAL. intros Hn. unfold ymd_of_date.
  set (a := (n - 1) / 146097). set (n1 := (n - 1) mod 146097). set (b := n1 / 36524). set (n2 := n1 mod 36524).
  set (c := n2 / 1461). set (n3 := n2 mod 1461). set (e := n3 / 365). set (r := n3 mod 365). cbn zeta.
  assert (Ha : n - 1 = 146097 * a + n1 ∧ 0 <= n1 < 146097 ∧ 0 <= a <= 24) by (unfold a, n1; Z.div_mod_to_equations; lia).
  assert (Hb : n1 = 36524 * b + n2 ∧ 0 <= n2 < 36524 ∧ 0 <= b <= 4) by (clear -Ha; unfold b, n2; Z.div_mod_to_equations; lia).
  assert (Hc : n2 = 1461 * c + n3 ∧ 0 <= n3 < 1461 ∧ 0 <= c <= 24) by (clear -Hb; unfold c, n3; Z.div_mod_to_equations; lia).
  assert (He : n3 = 365 * e + r ∧ 0 <= r < 365 ∧ 0 <= e <= 4) by (clear -Hc; unfold e, r; Z.div_mod_to_equations; lia).
  clearbody a n1 b n2 c n3 e r.
  destruct ((e =? 4) || (b =? 4)) eqn:E.
  - (* the last day of a leap year *)
    apply orb_true_iff in E. rewrite !Z.eqb_eq in E.
    set (c' := if b =? 4 then 24 else c). set (b' := if b =? 4 then 3 else b).
    assert (Hy : a * 400 + b * 100 + c * 4 + e + 1 - 1 = a * 400 + b' * 100 + c' * 4 + 3 + 1 ∧ 0 <= b' < 4 ∧ 0 <= c' < 25 ∧
                 (c' = 24 → b' = 3) ∧ n = 146097 * a + 36524 * b' + 1461 * c' + 365 * 3 + 366)
      by (unfold b', c'; destruct (Z.eqb_spec b 4); lia).
    destruct Hy as (Hy & Hb' & Hc' & Hbc & En). clearbody b' c'.
    destruct (year_of_cycles a b' c' 3 Hb' Hc' ltac:(lia)) as [Hleap Hdays]. cbn zeta in Hleap, Hdays.
    assert (Hl : (3 =? 3) && (negb (c' =? 24) || (b' =? 3)) = true) by (destruct (Z.eqb_spec c' 24), (Z.eqb_spec b' 3); cbn; lia).
    rewrite Hl in Hleap. eexists _, _, _. split; [done|]. rewrite Hy. unfold date_of_ymd. rewrite Hleap, Hdays.
    replace (1 <=? _) with true by (symmetry; apply Z.leb_le; lia). replace (_ <=? 9999) with true by (symmetry; apply Z.leb_le; lia).
    change (days_in_month true 12) with 31. change (days_before_month true 12) with 335. cbn.
    split_and!; try lia. f_equal. lia.
  - apply orb_false_iff in E as [E4 Eb]. apply Z.eqb_neq in E4, Eb.
    destruct (year_of_cycles a b c e ltac:(lia) ltac:(lia) ltac:(lia)) as [Hleap Hdays]. cbn zeta in Hleap, Hdays.
    set (leap := (e =? 3) && _) in *. fold (month_of leap r).
    destruct (month_spec leap r ltac:(lia)) as (Hm & Hd & Hdm). cbn zeta in Hm, Hd, Hdm.
    eexists _, _, _. split; [done|]. unfold date_of_ymd. rewrite Hleap, Hdays.
    repeat match goal with |- context [?x <=? ?y] => replace (x <=? y) with true by (symmetry; apply Z.leb_le; lia) end.
    cbn [andb]. split_and!; try lia. f_equal. lia.
Qed.

(** ** Lemmas: what is printed reads back *)

Lemma digit_char_code d : 0 <= d <= 9 → code (digit_char d) = 48 + d.
Proof.
  intros Hd. assert (Hall : forallb (λ d, code (digit_char d) =? 48 + d) (seqZ 0 10) = true) by (vm_compute; reflexivity).
  rewrite forallb_forall in Hall. specialize (Hall d). rewrite Z.eqb_eq in Hall. apply Hall, list_elem_of_In, elem_of_seqZ. lia.
Qed.

Lemma decimal_value_digits ds : Forall (λ d, 0 <= d <= 9) ds →
  forallb is_dec (digit_char <$> ds) = true ∧ decimal_value (digit_char <$> ds) = value_be ds.
Proof.
  intros Hds. unfold decimal_value, value_be. generalize 0 as acc.
  induction Hds as [|d ds Hd _ IH]; intros acc; [done|]. cbn [fmap list_fmap forallb foldl].
  destruct (IH (acc * 10 + (code (digit_char d) - 48))) as [Hall ->]. rewrite Hall.
  unfold is_dec. rewrite digit_char_code by done. split; [|f_equal; lia].
  rewrite andb_true_iff. split; [|done]. rewrite andb_true_iff, !Z.leb_le. lia.
Qed.

Lemma chars_zeros k : chars (zeros k) = digit_char <$> replicate k 0.
Proof. induction k as [|k IH]; [done|]. cbn [zeros]. by rewrite chars_app, IH. Qed.

Lemma chars_digits ds : chars (string_of_digits ds) = digit_char <$> ds.
Proof. unfold chars. induction ds as [|d ds IH]; [done|]. cbn. by rewrite IH. Qed.

Lemma string_of_digits_length ds : String.length (string_of_digits ds) = length ds.
Proof. induction ds as [|d ds IH]; [done|]. cbn. by rewrite IH. Qed.

(** A number that fits its field is printed with exactly its digits. *)
Lemma padded_digits width n : (0 < width)%nat → 0 <= n < 10 ^ Z.of_nat width →
  let ds := replicate (width - length (digits n)) 0 ++ reverse (digits n) in
  chars (padded width n) = digit_char <$> ds ∧ Forall (λ d, 0 <= d <= 9) ds ∧ length ds = width.
Proof.
  intros Hw Hn. destruct (digits_spec n ltac:(lia)) as (Hv & Hd & Hlen). cbn zeta in Hlen |- *.
  assert (Hle : (length (digits n) <= width)%nat).
  { destruct (decide (n = 0)) as [->|Hz]; [cbn; lia|]. destruct Hlen as (Hl1 & _ & Hl).
    destruct (decide (length (digits n) <= width)%nat); [done|exfalso].
    pose proof (pow10_mono (Z.of_nat width) (Z.of_nat (length (digits n)) - 1)). lia. }
  split_and!.
  - unfold padded, str_nat. rewrite chars_app, chars_zeros, chars_digits, fmap_app, string_of_digits_length, length_reverse. done.
  - apply Forall_app. split; [apply Forall_replicate; lia|by apply Forall_reverse].
  - rewrite length_app, length_replicate, length_reverse. lia.
Qed.

Lemma field_read width n l : (0 < width)%nat → 0 <= n < 10 ^ Z.of_nat width →
  field width (chars (padded width n) ++ l) = Some (n, l).
Proof.
  intros Hw Hn. destruct (padded_digits width n Hw Hn) as (Ec & Hds & Hlen). cbn zeta in *.
  destruct (digits_spec n ltac:(lia)) as (Hv & _).
  destruct (decimal_value_digits _ Hds) as [Hall Hval]. rewrite <- Ec in Hall, Hval.
  assert (Hlw : length (chars (padded width n)) = width) by (by rewrite Ec, length_fmap).
  rewrite value_be_zeros, value_be_reverse, Hv in Hval.
  unfold field. cbn zeta. rewrite take_app_length', drop_app_length' by done. by rewrite Hlw, Nat.eqb_refl, Hall, Hval.
Qed.

Lemma expect_cons c l : expect c (c :: l) = Some l.
Proof. unfold expect. by rewrite Ascii.eqb_refl. Qed.

Lemma read_date_iso n l : MIN_ORDINAL <= n <= MAX_ORDINAL → read_date (chars (date_iso n) ++ l) = Some (n, l).
Proof.
  intros Hn. destruct (ymd_spec n Hn) as (y & m & d & Hymd & Hd & Hy & Hm & Hdd). unfold date_iso, date_str. rewrite Hymd.
  rewrite !chars_app. change (chars "-") with ["-"%char]. rewrite <- !app_assoc. unfold read_date.
  rewrite field_read by (cbn; lia). cbn [mbind option_bind app]. rewrite expect_cons. cbn [mbind option_bind].
  rewrite field_read by (cbn; lia). cbn [mbind option_bind app]. rewrite expect_cons. cbn [mbind option_bind].
  rewrite field_read by (cbn; lia). cbn [mbind option_bind]. by rewrite Hd.
Qed.

Lemma date_iso_read other n : MIN_ORDINAL <= n <= MAX_ORDINAL → date_fromisoformat other (date_iso n) = Ok n.
Proof. intros Hn. unfold date_fromisoformat. rewrite <- (app_nil_r (chars _)), read_date_iso by done. done. Qed.

Lemma is_datetime_spec t : is_datetime t = true →
  let us := t mod US_PER_DAY in let s := us / 1000000 in
  MIN_ORDINAL <= date_of_local t <= MAX_ORDINAL ∧
  t = (date_of_local t - EPOCH_ORDINAL) * US_PER_DAY + ((s / 3600 * 60 + s / 60 mod 60) * 60 + s mod 60) * 1000000 + us mod 1000000 ∧
  0 <= s / 3600 < 24 ∧ 0 <= s / 60 mod 60 < 60 ∧ 0 <= s mod 60 < 60 ∧ 0 <= us mod 1000000 < 1000000.
Proof.
  unfold is_datetime, MIN_INSTANT, MAX_INSTANT, date_of_local, MIN_ORDINAL, MAX_ORDINAL, EPOCH_ORDINAL, US_PER_DAY.
  intros Ht. zbool. cbn zeta. rewrite <- Z.div_div by lia. Z.div_mod_to_equations. lia.
Qed.

Lemma read_datetime_iso t l : is_datetime t = true → read_datetime (chars (datetime_iso t) ++ l) = Some (t, l).
Proof.
  intros Ht. destruct (is_datetime_spec t Ht) as (Hd & Et & Hh & Hm & Hs & Hu). cbn zeta in *. unfold datetime_iso. cbn zeta.
  set (us := t mod US_PER_DAY) in *. set (s := us / 1000000) in *.
  rewrite !chars_app. rewrite <- !app_assoc. unfold read_datetime.
  rewrite read_date_iso by done. cbn [mbind option_bind app]. change (chars "T") with ["T"%char]. change (chars ":") with [":"%char].
  cbn [app]. rewrite expect_cons. cbn [mbind option_bind].
  rewrite field_read by (cbn; lia). cbn [mbind option_bind]. rewrite expect_cons. cbn [mbind option_bind].
  rewrite field_read by (cbn; lia). cbn [mbind option_bind]. rewrite expect_cons. cbn [mbind option_bind].
  rewrite field_read by (cbn; lia). cbn [mbind option_bind].
  assert (Hmicro : read_micro (chars (if Z.eqb (us mod 1000000) 0 then "" else "." +:+ padded 6 (us mod 1000000)) ++ chars "+00:00" ++ l) =
                   Some (us mod 1000000, chars "+00:00" ++ l)).
  { destruct (Z.eqb_spec (us mod 1000000) 0) as [E|E]; [by rewrite E|].
    rewrite chars_app. change (chars ".") with ["."%char]. cbn [app]. unfold read_micro. rewrite expect_cons. apply field_read; cbn; lia. }
  rewrite Hmicro. cbn [mbind option_bind].
  replace (s / 3600 <? 24) with true by (symmetry; apply Z.ltb_lt; lia).
  replace (s / 60 mod 60 <? 60) with true by (symmetry; apply Z.ltb_lt; lia).
  replace (s mod 60 <? 60) with true by (symmetry; apply Z.ltb_lt; lia). cbn -[US_PER_DAY EPOCH_ORDINAL date_of_local Z.mul Z.add].
  by rewrite <- Et.
Qed.

Lemma datetime_iso_read other t : is_datetime t = true → datetime_fromisoformat other (datetime_iso t) = Ok t.
Proof. intros Ht. unfold datetime_fromisoformat. rewrite <- (app_nil_r (chars _)), read_datetime_iso by done. done. Qed.

(** Printed dates and instants are ASCII texts of bounded length. *)
Definition short_text (bound : nat) (s : string) : Prop := ascii_text s = true ∧ (length (chars s) <= bound)%nat.

Lemma short_app a b s t : short_text a s → short_text b t → short_text (a + b) (s +:+ t).
Proof.
  unfold short_text, ascii_text. intros [Hs Ls] [Ht Lt]. rewrite chars_app, forallb_app, Hs, Ht, length_app. split; [done|lia].
Qed.

Lemma short_padded width n : (0 < width)%nat → 0 <= n < 10 ^ Z.of_nat width → short_text width (padded width n).
Proof.
  intros Hw Hn. destruct (padded_digits width n Hw Hn) as (Ec & Hds & Hlen). unfold short_text, ascii_text.
  rewrite Ec, length_fmap, Hlen. split; [|done]. apply forallb_forall. intros c Hc%list_elem_of_In.
  apply list_elem_of_fmap in Hc as (d & -> & Hin). rewrite Forall_forall in Hds. specialize (Hds d Hin). cbn in Hds.
  rewrite digit_char_code by done. apply Z.ltb_lt. lia.
Qed.

Lemma short_date_iso n : MIN_ORDINAL <= n <= MAX_ORDINAL → short_text 10 (date_iso n).
Proof.
  intros Hn. destruct (ymd_spec n Hn) as (y & m & d & Hymd & _ & Hy & Hm & Hdd). unfold date_iso, date_str. rewrite Hymd.
  apply (short_app 4 6); [apply short_padded; cbn; lia|]. apply (short_app 1 5); [done|].
  apply (short_app 2 3); [apply short_padded; cbn; lia|]. apply (short_app 1 2); [done|]. apply short_padded; cbn; lia.
Qed.

Lemma short_datetime_iso t : is_datetime t = true → short_text 32 (datetime_iso t).
Proof.
  intros Ht. destruct (is_datetime_spec t Ht) as (Hd & _ & Hh & Hm & Hs & Hu). cbn zeta in *. unfold datetime_iso. cbn zeta.
  apply (short_app 10 22); [by apply short_date_iso|]. apply (short_app 1 21); [done|].
  apply (short_app 2 19); [apply short_padded; cbn; lia|]. apply (short_app 1 18); [done|].
  apply (short_app 2 16); [apply short_padded; cbn; lia|]. apply (short_app 1 15); [done|].
  apply (short_app 2 13); [apply short_padded; cbn; lia|]. apply (short_app 7 6); [|done].
  destruct (Z.eqb _ _); [split; [done|cbn; lia]|]. apply (short_app 1 6); [done|]. apply short_padded; cbn; lia.
Qed.
