(* ===== verification/Ledger.v ===== *)
(** * The double-entry ledger ([services/ledger/posting_service.py], [models/ledger])

    Accounts, journal entries, postings and settlement obligations: the one
    path that writes an entry ([PostingService]), the database triggers behind
    it, the obligation's single transition, and the cash lock. *)

From S2P Require Import Prelude PyDecimal MoneyTypes Calendar Store Schema.
From Stdlib Require Import String.
From stdpp Require Import strings.
Open Scope Z_scope.

(** ** Accounts *)

(** [Account.create]: the dimension comes from the role. *)
Definition account_create (role : AccountRole) (customer_id security_id : option uuid) : prog Account :=
  require (negb (bool_decide (role = POSITION_UNITS ∨ role = POSITION_COST) &&
                 bool_decide (security_id = None))) ValueError ;;
  id ← uuid4;
  mret {| account_id := id; account_customer_id := customer_id; account_security_id := security_id;
          account_role := role; account_dimension := role_dimension role; account_currency := "USD" |}.

(** [AccountRepository.get_by_id] *)
Definition account_by_id (d : db) (id : uuid) : option Account :=
  head (filter (λ a, account_id a = id) (accounts d)).

(** The account lookup the services share: by owner, role and, when given, security. *)
Definition select_accounts (d : db) (customer : option uuid) (role : AccountRole)
    (security : option uuid) : list Account :=
  filter (λ a, account_customer_id a = customer ∧ account_role a = role ∧
               (security = None ∨ account_security_id a = security)) (accounts d).

(** [get_or_create_customer_account] *)
Definition get_or_create_customer_account (customer : uuid) (role : AccountRole)
    (security : option uuid) : prog Account :=
  found ← queries (λ d, scalar_one_or_none (select_accounts d (Some customer) role security));
  match found with
  | Some account => mret account
  | None =>
      account ← account_create role (Some customer) security;
      add TAccount account ;;
      mret account
  end.

(** [require_customer_account] *)
Definition require_customer_account (customer : uuid) (role : AccountRole) : prog Account :=
  found ← queries (λ d, scalar_one_or_none (select_accounts d (Some customer) role None));
  match found with
  | Some account => mret account
  | None => throw RuntimeError
  end.

(** [get_or_create_house_account] *)
Definition get_or_create_house_account (role : AccountRole) : prog Account :=
  found ← queries (λ d, scalar_one_or_none (select_accounts d None role None));
  match found with
  | Some account => mret account
  | None =>
      account ← account_create role None None;
      add TAccount account ;;
      mret account
  end.

(** [record_inbound_event]: the event a posting is tied to, [f"{kind}:{uuid4()}"]. *)
Definition record_inbound_event (source : InboundEventSource) (kind : string)
    (payload : list (string * json)) : prog InboundEvent :=
  suffix ← uuid4;
  id ← uuid4;
  now ← gets db_now;
  let event := {| event_id := id; event_source := source;
                  event_source_event_id := kind +:+ ":" +:+ uuid_str suffix;
                  event_payload := payload; event_signature_verified := true;
                  event_received_at := now; event_status := EVENT_RECEIVED;
                  event_attempts := 0; event_last_error := None |} in
  add TInboundEvent event ;;
  mret event.

(** ** Posting legs *)

Record PostingLeg := Leg {
  leg_account_id : uuid;
  leg_amount_money : option Money;
  leg_quantity_units : option Units;
}.

Definition money_leg (account : uuid) (amount : Money) : PostingLeg := Leg account (Some amount) None.
Definition units_leg (account : uuid) (quantity : Units) : PostingLeg := Leg account None (Some quantity).

(** The body of the loop of [_validate_legs]. *)
Definition validate_leg (total : Money) (leg : PostingLeg) : result Money :=
  let has_money := bool_decide (is_Some (leg_amount_money leg)) in
  let has_units := bool_decide (is_Some (leg_quantity_units leg)) in
  ensure (negb (eqb has_money has_units)) InvalidPostingLegError ;;
  match leg_amount_money leg with
  | Some amount => q_add total amount
  | None => Ok total
  end.

(** [_validate_legs] *)
Definition validate_legs (legs : list PostingLeg) : result () :=
  ensure (negb (bool_decide (length legs = 0%nat))) InvalidPostingLegError ;;
  total ← foldr_result validate_leg legs zero;
  ensure (q_eqb total zero) UnbalancedEntryError.

(** ** Writing an entry *)

(** The [posting_before_insert] trigger: the owner is copied from the account,
    and the leg must have the account's dimension.  An account that does not
    exist leaves the fields null and the foreign key then fails. *)
Definition posting_before_insert (d : db) (p : Posting) : result Posting :=
  let acct := account_by_id d (posting_account_id p) in
  ensure (negb (bool_decide ((account_dimension <$> acct) = Some MONEY) &&
                bool_decide (is_Some (posting_quantity_units p)))) DbRaise ;;
  ensure (negb (bool_decide ((account_dimension <$> acct) = Some UNITS) &&
                bool_decide (is_Some (posting_amount_money p)))) DbRaise ;;
  Ok {| posting_id := posting_id p; posting_journal_entry_id := posting_journal_entry_id p;
        posting_account_id := posting_account_id p;
        posting_customer_id := acct ≫= account_customer_id;
        posting_amount_money := posting_amount_money p;
        posting_quantity_units := posting_quantity_units p |}.

(** One iteration of the loop of [_write] that adds the postings. *)
Definition write_leg (entry : JournalEntry) (leg : PostingLeg) : prog () :=
  id ← uuid4;
  posting ← queries (λ d, posting_before_insert d
    {| posting_id := id; posting_journal_entry_id := entry_id entry;
       posting_account_id := leg_account_id leg; posting_customer_id := None;
       posting_amount_money := leg_amount_money leg;
       posting_quantity_units := leg_quantity_units leg |});
  add TPosting posting.

(** [_write] *)
Definition write (type : JournalEntryType) (effective_date : date) (source_event_id : uuid)
    (legs : list PostingLeg) (memo : option string) (superseded_by : option uuid)
    (supersedes_reason : option string) : prog JournalEntry :=
  lift (validate_legs legs) ;;
  id ← uuid4;
  now ← gets db_now;
  let entry := {| entry_id := id; entry_type := type; entry_effective_date := effective_date;
                  entry_recorded_at := now; entry_superseded_by := superseded_by;
                  entry_supersedes_reason := supersedes_reason;
                  entry_source_event_id := source_event_id; entry_memo := memo |} in
  add TJournalEntry entry ;;
  for_each legs (write_leg entry) ;;
  mret entry.

(** [post] *)
Definition post (type : JournalEntryType) (effective_date : date) (source_event_id : uuid)
    (legs : list PostingLeg) (memo : option string) : prog JournalEntry :=
  write type effective_date source_event_id legs memo None None.

(** [correct] *)
Definition correct (original : JournalEntry) (effective_date : date) (source_event_id : uuid)
    (legs : list PostingLeg) (reason : string) (memo : option string) : prog JournalEntry :=
  write (entry_type original) effective_date source_event_id legs memo
        (Some (entry_id original)) (Some reason).

(** [is_superseded] *)
Definition is_superseded (d : db) (id : uuid) : bool :=
  existsb (λ e, bool_decide (entry_superseded_by e = Some id)) (journal_entries d).

(** [PostingRepository.for_journal_entry] *)
Definition for_journal_entry (d : db) (id : uuid) : list Posting :=
  filter (λ p, posting_journal_entry_id p = id) (postings d).

(** The money of one posting, in quanta. *)
Definition posting_money (p : Posting) : Z :=
  match posting_amount_money p with Some m => quanta m | None => 0 end.

(** [check_journal_entry_balance], for one entry. *)
Definition entry_total (d : db) (id : uuid) : Z := sum_by posting_money (for_journal_entry d id).

(** The deferred [ledger_balance] trigger, run at COMMIT for the written entries. *)
Definition ledger_balance (d : db) : bool :=
  forallb (λ e, entry_total d (entry_id e) =? 0) (journal_entries d).

(** ** Settlement obligations *)

(** [SettlementObligation(...)] and [add]. *)
Definition add_obligation (entry account : uuid) (amount : Money) (expected : date)
    (source_event_id : uuid) : prog SettlementObligation :=
  id ← uuid4;
  let o := {| obligation_id := id; obligation_journal_entry_id := entry;
              obligation_account_id := account; obligation_amount_money := amount;
              obligation_expected_settlement_date := expected; obligation_status := OBLIGATION_PENDING;
              obligation_confirmed_at := None; obligation_failed_at := None;
              obligation_failure_reason := None; obligation_source_event_id := source_event_id |} in
  add TSettlementObligation o ;;
  mret o.

Definition obligation_by_id (d : db) (id : uuid) : option SettlementObligation :=
  head (filter (λ o, obligation_id o = id) (settlement_obligations d)).

(** [confirm]: the argument is the object the caller has loaded, possibly
    before another transaction changed the row; the trigger sees the row. *)
Definition confirm (o : SettlementObligation) (confirmed_at : instant) : prog () :=
  require (bool_decide (obligation_status o = OBLIGATION_PENDING)) ValueError ;;
  update TSettlementObligation (λ r, obligation_id r =? obligation_id o) (λ r,
    {| obligation_id := obligation_id r; obligation_journal_entry_id := obligation_journal_entry_id r;
       obligation_account_id := obligation_account_id r;
       obligation_amount_money := obligation_amount_money r;
       obligation_expected_settlement_date := obligation_expected_settlement_date r;
       obligation_status := OBLIGATION_CONFIRMED; obligation_confirmed_at := Some confirmed_at;
       obligation_failed_at := obligation_failed_at r;
       obligation_failure_reason := obligation_failure_reason r;
       obligation_source_event_id := obligation_source_event_id r |}).

(** [fail] *)
Definition fail_obligation (o : SettlementObligation) (failed_at : instant) (reason : string) : prog () :=
  require (bool_decide (obligation_status o = OBLIGATION_PENDING)) ValueError ;;
  update TSettlementObligation (λ r, obligation_id r =? obligation_id o) (λ r,
    {| obligation_id := obligation_id r; obligation_journal_entry_id := obligation_journal_entry_id r;
       obligation_account_id := obligation_account_id r;
       obligation_amount_money := obligation_amount_money r;
       obligation_expected_settlement_date := obligation_expected_settlement_date r;
       obligation_status := OBLIGATION_FAILED; obligation_confirmed_at := obligation_confirmed_at r;
       obligation_failed_at := Some failed_at; obligation_failure_reason := Some reason;
       obligation_source_event_id := obligation_source_event_id r |}).

(** ** The cash lock *)

(** [create_for_customer] *)
Definition create_cash_lock (customer : uuid) : prog () :=
  add TCashLock {| cash_lock_customer_id := customer |}.

(** [acquire]: [SELECT ... FOR UPDATE]; programs run one after the other, so
    only the missing row is observable. *)
Definition acquire_cash_lock (customer : uuid) : prog () :=
  found ← queries (λ d, scalar_one_or_none
    (filter (λ l, cash_lock_customer_id l = customer) (cash_locks d)));
  match found with
  | Some _ => mret tt
  | None => throw CustomerCashLockMissingError
  end.

(** ** Lemmas: validating legs *)

(** Exactly one of the two amounts is set. *)
Definition one_dimension (leg : PostingLeg) : bool :=
  negb (eqb (bool_decide (is_Some (leg_amount_money leg))) (bool_decide (is_Some (leg_quantity_units leg)))).

Definition leg_money (leg : PostingLeg) : Z :=
  match leg_amount_money leg with Some m => quanta m | None => 0 end.

Lemma validate_leg_Ok total leg total' :
  validate_leg total leg = Ok total' → one_dimension leg = true ∧ quanta total' = quanta total + leg_money leg.
Proof.
  unfold validate_leg, leg_money. rewrite bind_Ok. intros (? & H & Ha). apply ensure_Ok in H.
  split; [done|]. destruct (leg_amount_money leg); [by apply q_add_Ok in Ha as [_ ->]|].
  injection Ha as <-. lia.
Qed.

Lemma validate_fold_Ok legs total total' :
  foldr_result validate_leg legs total = Ok total' →
  forallb one_dimension legs = true ∧ quanta total' = quanta total + sum_by leg_money legs.
Proof.
  revert total. induction legs as [|leg legs IH]; intros total; cbn [foldr_result].
  - intros [= <-]. rewrite sum_by_nil. split; [done|lia].
  - rewrite bind_Ok. intros (t & Ht & H). apply validate_leg_Ok in Ht as [H1 H2].
    apply IH in H as [H3 H4]. cbn. rewrite H1, H3, sum_by_cons. split; [done|lia].
Qed.

Lemma validate_legs_Ok legs :
  validate_legs legs = Ok tt →
  legs ≠ [] ∧ forallb one_dimension legs = true ∧ sum_by leg_money legs = 0.
Proof.
  unfold validate_legs. rewrite bind_Ok. intros (? & Hl & H). apply ensure_Ok in Hl.
  apply bind_Ok in H as (total & Ht & He). apply ensure_Ok in He.
  apply validate_fold_Ok in Ht as [H1 H2]. unfold q_eqb in He. cbn in H2, He. zbool.
  split_and!; [by intros ->|done|lia].
Qed.

(** With no overflow in sight, the running total is the exact sum. *)
Lemma validate_fold_total legs (total : Money) :
  Z.abs (quanta total) + sum_by (λ l, Z.abs (leg_money l)) legs < 10 ^ 18 →
  forallb one_dimension legs = true →
  foldr_result validate_leg legs total = Ok (QD (quanta total + sum_by leg_money legs)).
Proof.
  revert total. induction legs as [|leg legs IH]; intros total; cbn [forallb foldr_result].
  - rewrite !sum_by_nil. intros _ _. destruct total. cbn. do 2 f_equal. lia.
  - rewrite !sum_by_cons. intros Hb [H1 H2]%andb_true_iff.
    assert (0 <= sum_by (λ l, Z.abs (leg_money l)) legs) by (apply sum_by_nonneg; lia).
    assert (Hleg : validate_leg total leg = Ok (QD (quanta total + leg_money leg))).
    { unfold validate_leg, one_dimension in *. rewrite H1. cbn. unfold leg_money in *.
      destruct (leg_amount_money leg) as [m|]; [|destruct total; cbn; do 2 f_equal; lia].
      rewrite q_add_spec by (apply in_range_spec; cbn [precision]; lia).
      apply check_range_Ok. split; [|done]. apply in_range_spec. cbn [precision]. lia. }
    rewrite Hleg. cbn [mbind result_bind]. rewrite IH; [|cbn; lia|done]. cbn. do 2 f_equal. lia.
Qed.

Lemma validate_fold_bad legs (total : Money) :
  Z.abs (quanta total) + sum_by (λ l, Z.abs (leg_money l)) legs < 10 ^ 18 →
  forallb one_dimension legs = false →
  foldr_result validate_leg legs total = Raise InvalidPostingLegError.
Proof.
  revert total. induction legs as [|leg legs IH]; intros total; cbn [forallb foldr_result]; [done|].
  rewrite sum_by_cons. intros Hb.
  assert (0 <= sum_by (λ l, Z.abs (leg_money l)) legs) by (apply sum_by_nonneg; lia).
  destruct (one_dimension leg) eqn:H1; cbn [andb]; intros H2.
  - pose proof (validate_fold_total [leg] total) as Hleg. rewrite !sum_by_cons, !sum_by_nil in Hleg.
    cbn [forallb foldr_result] in Hleg. rewrite H1 in Hleg. specialize (Hleg ltac:(lia) eq_refl).
    destruct (validate_leg total leg) as [t|e] eqn:E; [|done]. cbn in Hleg |- *.
    injection Hleg as ->. apply IH; [cbn; lia|done].
  - unfold validate_leg. unfold one_dimension in H1. by rewrite H1.
Qed.

(** ** Lemmas: writing an entry *)

(** A posting is the record of a leg of the entry, under its account's owner
    and in its account's dimension. *)
Definition posting_of (d : db) (entry : uuid) (leg : PostingLeg) (p : Posting) : Prop :=
  posting_journal_entry_id p = entry ∧ posting_account_id p = leg_account_id leg ∧
  posting_amount_money p = leg_amount_money leg ∧ posting_quantity_units p = leg_quantity_units leg ∧
  ∃ a, account_by_id d (leg_account_id leg) = Some a ∧ posting_customer_id p = account_customer_id a ∧
       match account_dimension a with
       | MONEY => is_Some (leg_amount_money leg)
       | UNITS => is_Some (leg_quantity_units leg)
       end.

Lemma account_by_id_Some d id a : account_by_id d id = Some a → a ∈ accounts d ∧ account_id a = id.
Proof.
  unfold account_by_id. intros H. apply head_Some_elem_of in H.
  apply list_elem_of_filter in H as [? ?]. done.
Qed.

Lemma has_account d id : has account_id (accounts d) id = true → is_Some (account_by_id d id).
Proof.
  unfold has, account_by_id. rewrite existsb_exists. intros (a & Ha & E). apply Z.eqb_eq in E.
  destruct (filter _ _) eqn:F; [|by eexists].
  assert (a ∈ filter (λ a, account_id a = id) (accounts d)) as Hin.
  { apply list_elem_of_filter. split; [done|by apply list_elem_of_In]. }
  rewrite F in Hin. by apply elem_of_nil in Hin.
Qed.

Lemma posting_trigger_Ok d p p' :
  posting_before_insert d p = Ok p' →
  posting_id p' = posting_id p ∧ posting_journal_entry_id p' = posting_journal_entry_id p ∧
  posting_account_id p' = posting_account_id p ∧ posting_amount_money p' = posting_amount_money p ∧
  posting_quantity_units p' = posting_quantity_units p ∧
  posting_customer_id p' = account_by_id d (posting_account_id p) ≫= account_customer_id ∧
  ∀ a, account_by_id d (posting_account_id p) = Some a →
    match account_dimension a with
    | MONEY => posting_quantity_units p = None
    | UNITS => posting_amount_money p = None
    end.
Proof.
  unfold posting_before_insert. cbn zeta. rewrite bind_Ok. intros (u1 & H1 & H).
  apply bind_Ok in H as (u2 & H2 & [= <-]). apply ensure_Ok in H1, H2. split_and!; try done.
  intros a Ha. rewrite Ha in H1, H2. cbn in H1, H2. destruct (account_dimension a); cbn in H1, H2.
  - destruct (posting_quantity_units p); [by cbn in H1|done].
  - destruct (posting_amount_money p); [by cbn in H2|done].
Qed.

Lemma write_leg_Ok entry leg d u d' :
  run (write_leg entry leg) d = Ok (u, d') →
  ∃ p, postings d' = postings d ++ [p] ∧ posting_of d (entry_id entry) leg p ∧
       (∃ e, e ∈ journal_entries d ∧ entry_id e = entry_id entry) ∧
       ∀ t, t ≠ TPosting → tables d' t = tables d t.
Proof.
  unfold write_leg. intros (id & d1 & [-> ->]%run_uuid4_Ok & H)%run_bind_Ok.
  apply run_bind_Ok in H as (p & d1 & [Hp <-]%run_queries_Ok & [Hacc ->]%run_add_Ok).
  apply posting_trigger_Ok in Hp as (_ & He & Ha & Hm & Hu & Hc & Hdim).
  cbn [posting_journal_entry_id posting_account_id posting_amount_money posting_quantity_units] in *.
  apply andb_true_iff in Hacc as [[Hv Hr]%andb_true_iff _].
  apply andb_true_iff in Hr as [Hre Hra]. cbn [tables] in *.
  exists p. split_and!.
  - unfold postings, insert_row. by rewrite tables_set_same.
  - unfold posting_of. split_and!; [done..|]. rewrite Ha in Hra.
    apply has_account in Hra as [a Haa]. change (account_by_id d (leg_account_id leg) = Some a) in Haa.
    change (account_by_id _ (leg_account_id leg)) with (account_by_id d (leg_account_id leg)) in Hc, Hdim.
    rewrite Haa in Hc. exists a. split_and!; [done|done|]. specialize (Hdim a Haa). cbn in Hv.
    rewrite Hm, Hu in Hv. destruct (account_dimension a); rewrite Hdim in Hv.
    + by destruct (leg_amount_money leg).
    + by destruct (leg_quantity_units leg).
  - unfold has in Hre. apply existsb_exists in Hre as (e & Hin & E). apply Z.eqb_eq in E.
    rewrite He in E. exists e. split; [|done]. by apply list_elem_of_In.
  - intros t Ht. unfold insert_row. rewrite tables_set_ne; [done|]. by intros <-.
Qed.

Lemma postings_frame d d' : (∀ t, t ≠ TPosting → tables d' t = tables d t) →
  accounts d' = accounts d ∧ journal_entries d' = journal_entries d.
Proof. intros H. unfold accounts, journal_entries. by rewrite !H. Qed.

Lemma write_legs_Ok entry legs d u d' :
  run (for_each legs (write_leg entry)) d = Ok (u, d') →
  ∃ ps, postings d' = postings d ++ ps ∧ Forall2 (posting_of d (entry_id entry)) legs ps ∧
        (∀ t, t ≠ TPosting → tables d' t = tables d t) ∧
        (legs ≠ [] → ∃ e, e ∈ journal_entries d ∧ entry_id e = entry_id entry).
Proof.
  revert d. induction legs as [|leg legs IH]; intros d; cbn [for_each].
  - intros [_ <-]%run_ret_Ok. exists []. rewrite app_nil_r. by split_and!.
  - intros (u1 & d1 & H1 & H2)%run_bind_Ok.
    apply write_leg_Ok in H1 as (p & Hp & Hof & He & Hf). apply IH in H2 as (ps & Hps & Hofs & Hf' & _).
    pose proof (postings_frame _ _ Hf) as [Hacc _].
    exists (p :: ps). split_and!.
    + by rewrite Hps, Hp, <- app_assoc.
    + constructor; [done|]. eapply Forall2_impl; [exact Hofs|]. unfold posting_of, account_by_id. by rewrite Hacc.
    + intros t Ht. by rewrite Hf', Hf.
    + done.
Qed.

(** What a successful [_write] does to the store. *)
Record written (type : JournalEntryType) (effective : date) (source : uuid) (legs : list PostingLeg)
    (superseded : option uuid) (d : db) (entry : JournalEntry) (d' : db) : Prop := {
  written_entries : journal_entries d' = journal_entries d ++ [entry];
  written_new : ∀ e, e ∈ journal_entries d → entry_id e ≠ entry_id entry ∧ entry_source_event_id e ≠ source;
  written_type : entry_type entry = type;
  written_date : entry_effective_date entry = effective;
  written_source : entry_source_event_id entry = source;
  written_superseded : entry_superseded_by entry = superseded;
  written_recorded : entry_recorded_at entry = db_now d;
  written_postings : ∃ ps, postings d' = postings d ++ ps ∧ Forall2 (posting_of d (entry_id entry)) legs ps;
  written_balanced : legs ≠ [] ∧ sum_by leg_money legs = 0;
  written_frame : ∀ t, t ≠ TJournalEntry → t ≠ TPosting → tables d' t = tables d t;
}.

Lemma accepts_entry_fresh d entry :
  accepts (H := trueup) TJournalEntry d entry = true →
  ∀ e, e ∈ journal_entries d → entry_id e ≠ entry_id entry ∧
       entry_source_event_id e ≠ entry_source_event_id entry.
Proof.
  unfold accepts. intros [_ Hc]%andb_true_iff e He. rewrite forallb_forall in Hc.
  specialize (Hc e (proj1 (list_elem_of_In _ _) He)). cbn in Hc. apply negb_true_iff, orb_false_iff in Hc.
  destruct Hc. by zbool.
Qed.

Lemma write_Ok type date source legs memo sup reason d entry d' :
  run (write type date source legs memo sup reason) d = Ok (entry, d') →
  written type date source legs sup d entry d'.
Proof.
  unfold write. intros ([] & d1 & [Hlegs <-]%run_lift_Ok & H)%run_bind_Ok.
  apply run_bind_Ok in H as (id & d1 & [-> ->]%run_uuid4_Ok & H).
  apply run_bind_Ok in H as (now & d1 & [<- <-]%run_gets_Ok & H). cbn zeta in H.
  match type of H with run (add _ ?e ≫= _) _ = _ => set (ent := e) in * end.
  apply run_bind_Ok in H as (u & d1 & [Hacc ->]%run_add_Ok & H).
  apply run_bind_Ok in H as (u' & d1 & Hw & [<- <-]%run_ret_Ok).
  apply validate_legs_Ok in Hlegs as (Hne & _ & Hsum).
  apply write_legs_Ok in Hw as (ps & Hps & Hof & Hf & _).
  assert (He : ∀ d0, journal_entries (insert_row (H := trueup) TJournalEntry ent d0) = journal_entries d0 ++ [ent]).
  { intros d0. unfold journal_entries, insert_row. by rewrite tables_set_same. }
  constructor; try done.
  - unfold journal_entries. rewrite (Hf TJournalEntry) by done. apply He.
  - intros e Hin. by apply (accepts_entry_fresh _ _ Hacc).
  - exists ps. rewrite Hps. split; [done|]. exact Hof.
  - intros t Ht1 Ht2. rewrite Hf by done. unfold insert_row. by rewrite tables_set_ne.
Qed.

(** ** The ledger invariant *)

(** Every posting belongs to an entry, sits on an account of its dimension
    under that account's owner, every entry's money sums to zero, and every
    settlement obligation is of an existing entry and account. *)
Definition posting_ok (d : db) (p : Posting) : Prop :=
  (∃ e, e ∈ journal_entries d ∧ entry_id e = posting_journal_entry_id p) ∧
  ∃ a, a ∈ accounts d ∧ account_id a = posting_account_id p ∧ posting_customer_id p = account_customer_id a ∧
       match account_dimension a with
       | MONEY => is_Some (posting_amount_money p)
       | UNITS => is_Some (posting_quantity_units p)
       end.

Definition obligation_ok (d : db) (o : SettlementObligation) : Prop :=
  (∃ e, e ∈ journal_entries d ∧ entry_id e = obligation_journal_entry_id o) ∧
  (∃ a, a ∈ accounts d ∧ account_id a = obligation_account_id o).

Definition ledger_ok (d : db) : Prop :=
  Forall (posting_ok d) (postings d) ∧ (∀ id, entry_total d id = 0) ∧
  Forall (obligation_ok d) (settlement_obligations d).

(** The tables the invariant looks at. *)
Definition ledger_tables : list tables_ := [TAccount; TJournalEntry; TPosting; TSettlementObligation].

Lemma posting_ok_mono d d' p :
  accounts d ⊆ accounts d' → journal_entries d ⊆ journal_entries d' → posting_ok d p → posting_ok d' p.
Proof. intros Ha He [(e & ? & ?) (a & ? & ?)]. split; [exists e|exists a]; split; auto. Qed.

Lemma obligation_ok_mono d d' o :
  accounts d ⊆ accounts d' → journal_entries d ⊆ journal_entries d' → obligation_ok d o → obligation_ok d' o.
Proof. intros Ha He [(e & ? & ?) (a & ? & ?)]. split; [exists e|exists a]; split; auto. Qed.

Lemma for_entry_app d d' ps id :
  postings d' = postings d ++ ps →
  entry_total d' id = entry_total d id + sum_by posting_money (filter (λ p, posting_journal_entry_id p = id) ps).
Proof.
  intros H. unfold entry_total, for_journal_entry. by rewrite H, filter_app, sum_by_app.
Qed.

Lemma postings_of_sum d id legs ps :
  Forall2 (posting_of d id) legs ps →
  filter (λ p, posting_journal_entry_id p = id) ps = ps ∧ sum_by posting_money ps = sum_by leg_money legs.
Proof.
  induction 1 as [|leg p legs ps Hp _ [IH1 IH2]]; [done|].
  destruct Hp as (He & _ & Hm & _). rewrite filter_cons_True, IH1 by done. split; [done|].
  rewrite !sum_by_cons, IH2. unfold posting_money, leg_money. by rewrite Hm.
Qed.

Lemma postings_of_other d id id' legs ps :
  Forall2 (posting_of d id) legs ps → id ≠ id' → filter (λ p, posting_journal_entry_id p = id') ps = [].
Proof.
  intros H Hne. induction H as [|leg p legs ps Hp _ IH]; [done|].
  destruct Hp as (He & _). rewrite filter_cons_False, IH by congruence. done.
Qed.

(** An entry that does not exist has no postings. *)
Lemma entry_total_none d id :
  Forall (posting_ok d) (postings d) → (∀ e, e ∈ journal_entries d → entry_id e ≠ id) →
  entry_total d id = 0.
Proof.
  intros Hok Hno. unfold entry_total, for_journal_entry.
  replace (filter _ _) with (@nil Posting); [done|]. symmetry. apply elem_of_nil_inv.
  intros p [Hp Hin]%list_elem_of_filter. rewrite Forall_forall in Hok.
  destruct (Hok p Hin) as [(e & He & Hid) _]. by apply (Hno e); [|congruence].
Qed.

Lemma written_ledger_ok type date source legs sup d entry d' :
  ledger_ok d → written type date source legs sup d entry d' → ledger_ok d'.
Proof.
  intros (Hok & Hbal & Hob) [He Hnew _ _ _ _ _ (ps & Hps & Hof) [_ Hsum] Hf].
  assert (Hacc : accounts d' = accounts d) by (unfold accounts; by rewrite Hf).
  assert (Hmono : ∀ p, posting_ok d p → posting_ok d' p).
  { intros p. apply posting_ok_mono; [by rewrite Hacc|]. rewrite He. set_solver. }
  split_and!.
  - rewrite Hps. apply Forall_app. split; [by eapply Forall_impl|].
    apply Forall_forall. intros p Hp. apply list_elem_of_lookup in Hp as (i & Hi).
    destruct (Forall2_lookup_r _ _ _ _ _ Hof Hi) as (leg & _ & (H1 & H2 & H3 & H4 & a & Ha & H6 & H7)).
    split.
    + exists entry. rewrite He. split; [set_solver|done].
    + apply account_by_id_Some in Ha as [Ha H5]. exists a. by rewrite Hacc, H2, H3, H4.
  - intros id. rewrite (for_entry_app _ _ _ id Hps), Hbal.
    destruct (decide (entry_id entry = id)) as [<-|Hne].
    + destruct (postings_of_sum _ _ _ _ Hof) as [-> ->]. lia.
    + by rewrite (postings_of_other _ _ _ _ _ Hof Hne).
  - unfold settlement_obligations in *. rewrite Hf by done. eapply Forall_impl; [exact Hob|].
    intros o. apply obligation_ok_mono; [by rewrite Hacc|]. rewrite He. set_solver.
Qed.

Lemma ledger_ok_frame d d' :
  (∀ t, t ∈ ledger_tables → tables d' t = tables d t) → ledger_ok d → ledger_ok d'.
Proof.
  unfold ledger_tables. intros Hf (Hok & Hbal & Hob).
  assert (postings d' = postings d) as Hp by (apply (Hf TPosting); set_solver).
  assert (accounts d' = accounts d) as Ha by (apply (Hf TAccount); set_solver).
  assert (journal_entries d' = journal_entries d) as He by (apply (Hf TJournalEntry); set_solver).
  assert (settlement_obligations d' = settlement_obligations d) as Hs
    by (apply (Hf TSettlementObligation); set_solver).
  split_and!.
  - rewrite Hp. eapply Forall_impl; [exact Hok|]. intros p. apply posting_ok_mono; by rewrite ?Ha, ?He.
  - intros id. unfold entry_total, for_journal_entry. rewrite Hp. apply Hbal.
  - unfold obligation_ok. by rewrite Hs, He, Ha.
Qed.

Lemma ledger_ok_new_account d a : ledger_ok d → ledger_ok (insert_row (H := trueup) TAccount a d).
Proof.
  intros (Hok & Hbal & Hob).
  assert (accounts d ⊆ accounts (insert_row (H := trueup) TAccount a d)) as Hsub.
  { unfold accounts, insert_row. rewrite tables_set_same. set_solver. }
  split_and!; [|exact Hbal|].
  - change (postings (insert_row _ _ _)) with (postings d). eapply Forall_impl; [exact Hok|].
    intros p. by apply posting_ok_mono.
  - change (settlement_obligations (insert_row _ _ _)) with (settlement_obligations d).
    eapply Forall_impl; [exact Hob|]. intros o. by apply obligation_ok_mono.
Qed.

Lemma preserves_write type date source legs memo sup reason :
  preserves ledger_ok (write type date source legs memo sup reason).
Proof. intros d e d' Hok Hr. apply write_Ok in Hr. by eapply written_ledger_ok. Qed.

Lemma preserves_post type date source legs memo : preserves ledger_ok (post type date source legs memo).
Proof. exact (preserves_write _ _ _ _ _ _ _). Qed.

Lemma preserves_correct o date source legs reason memo :
  preserves ledger_ok (correct o date source legs reason memo).
Proof. exact (preserves_write _ _ _ _ _ _ _). Qed.

Lemma preserves_add_account a : preserves ledger_ok (add TAccount a).
Proof. intros d u d' Hok [_ ->]%run_add_Ok. by apply ledger_ok_new_account. Qed.

Lemma preserves_add_other t r :
  t ∉ ledger_tables → preserves ledger_ok (add t r).
Proof.
  intros Ht. eapply (preserves_frame _ [t]); [|apply writes_add; set_solver].
  intros d d' Hf. apply ledger_ok_frame. intros t' Ht'. apply Hf. intros ->%list_elem_of_singleton. done.
Qed.

Lemma preserves_try_add_other t r :
  t ∉ ledger_tables → preserves ledger_ok (try_add t r).
Proof.
  intros Ht. eapply (preserves_frame _ [t]); [|apply writes_try_add; set_solver].
  intros d d' Hf. apply ledger_ok_frame. intros t' Ht'. apply Hf. intros ->%list_elem_of_singleton. done.
Qed.

Lemma preserves_update_other t p f :
  t ∉ ledger_tables → preserves ledger_ok (update t p f).
Proof.
  intros Ht. eapply (preserves_frame _ [t]); [|apply writes_update; set_solver].
  intros d d' Hf. apply ledger_ok_frame. intros t' Ht'. apply Hf. intros ->%list_elem_of_singleton. done.
Qed.

Lemma preserves_uuid4 : preserves ledger_ok uuid4.
Proof. by intros d n d' Hok [_ ->]%run_uuid4_Ok. Qed.

#[export] Hint Resolve preserves_post preserves_correct preserves_add_account preserves_uuid4 : preserves.
#[export] Hint Extern 1 (preserves ledger_ok (add ?t _)) =>
  apply preserves_add_other; unfold ledger_tables; set_solver : preserves.
#[export] Hint Extern 1 (preserves ledger_ok (try_add ?t _)) =>
  apply preserves_try_add_other; unfold ledger_tables; set_solver : preserves.
#[export] Hint Extern 1 (preserves ledger_ok (update ?t _ _)) =>
  apply preserves_update_other; unfold ledger_tables; set_solver : preserves.

Lemma preserves_account_create role c s : preserves ledger_ok (account_create role c s).
Proof. unfold account_create. preserves_auto. Qed.
#[export] Hint Resolve preserves_account_create : preserves.

Lemma preserves_get_or_create c role s : preserves ledger_ok (get_or_create_customer_account c role s).
Proof. unfold get_or_create_customer_account. preserves_auto. Qed.

Lemma preserves_require_account c role : preserves ledger_ok (require_customer_account c role).
Proof. unfold require_customer_account. preserves_auto. Qed.

Lemma preserves_house_account role : preserves ledger_ok (get_or_create_house_account role).
Proof. unfold get_or_create_house_account. preserves_auto. Qed.

Lemma preserves_inbound_event source kind payload :
  preserves ledger_ok (record_inbound_event source kind payload).
Proof. unfold record_inbound_event. preserves_auto. Qed.

Lemma preserves_obligation_row o : preserves ledger_ok (add TSettlementObligation o).
Proof.
  intros d u d' (Hok & Hbal & Hob) [Hacc ->]%run_add_Ok. split_and!; [exact Hok|exact Hbal|].
  unfold settlement_obligations, insert_row. rewrite tables_set_same. apply Forall_app. split; [exact Hob|].
  constructor; [|constructor]. apply andb_true_iff in Hacc as [[_ Hr]%andb_true_iff _]. cbn in Hr.
  apply andb_true_iff in Hr as [[Hr Ha]%andb_true_iff _].
  apply existsb_exists in Hr as (e & He & E). apply existsb_exists in Ha as (a & Ha & Ea).
  split; [exists e|exists a]; (split; [by apply list_elem_of_In|by apply Z.eqb_eq]).
Qed.

(** An update that keeps an obligation's entry. *)
Lemma preserves_obligation_update p f :
  (∀ o, obligation_journal_entry_id (f o) = obligation_journal_entry_id o ∧
        obligation_account_id (f o) = obligation_account_id o) →
  preserves ledger_ok (update TSettlementObligation p f).
Proof.
  intros Hid d u d' (Hok & Hbal & Hob) (_ & _ & _ & _ & ->)%run_update_Ok.
  split_and!; [exact Hok|exact Hbal|]. unfold settlement_obligations. rewrite tables_set_same.
  apply Forall_fmap. eapply Forall_impl; [exact Hob|]. intros o. unfold obligation_ok. cbn. destruct (p o); [|done].
  destruct (Hid o) as [-> ->]. done.
Qed.
#[export] Hint Resolve preserves_obligation_row : preserves.
#[export] Hint Extern 1 (preserves ledger_ok (update TSettlementObligation _ _)) =>
  apply preserves_obligation_update; by intros ? : preserves.

Lemma preserves_add_obligation e a m x s : preserves ledger_ok (add_obligation e a m x s).
Proof. unfold add_obligation. preserves_auto. Qed.

Lemma preserves_confirm o at_ : preserves ledger_ok (confirm o at_).
Proof. unfold confirm. preserves_auto. Qed.

Lemma preserves_fail o at_ r : preserves ledger_ok (fail_obligation o at_ r).
Proof. unfold fail_obligation. preserves_auto. Qed.

Lemma preserves_acquire c : preserves ledger_ok (acquire_cash_lock c).
Proof. unfold acquire_cash_lock. preserves_auto. Qed.

#[export] Hint Resolve preserves_get_or_create preserves_require_account preserves_house_account
  preserves_inbound_event preserves_add_obligation preserves_confirm preserves_fail
  preserves_acquire : preserves.
(** ** What the ledger programs write *)

Lemma writes_account_create role c s : writes [] (account_create role c s).
Proof. unfold account_create. writes_auto. Qed.
#[export] Hint Resolve writes_account_create : writes.

Lemma writes_get_or_create c role s : writes [TAccount] (get_or_create_customer_account c role s).
Proof. unfold get_or_create_customer_account. writes_auto. Qed.

Lemma writes_require_account c role : writes [] (require_customer_account c role).
Proof. unfold require_customer_account. writes_auto. Qed.

Lemma writes_house_account role : writes [TAccount] (get_or_create_house_account role).
Proof. unfold get_or_create_house_account. writes_auto. Qed.

Lemma writes_inbound_event s k p : writes [TInboundEvent] (record_inbound_event s k p).
Proof. unfold record_inbound_event. writes_auto. Qed.

Lemma writes_write ty d0 s l m sup r : writes [TJournalEntry; TPosting] (write ty d0 s l m sup r).
Proof. unfold write, write_leg. writes_auto. Qed.

Lemma writes_post ty d0 s l m : writes [TJournalEntry; TPosting] (post ty d0 s l m).
Proof. exact (writes_write _ _ _ _ _ _ _). Qed.

Lemma writes_add_obligation e a m x s : writes [TSettlementObligation] (add_obligation e a m x s).
Proof. unfold add_obligation. writes_auto. Qed.

Lemma writes_confirm o at_ : writes [TSettlementObligation] (confirm o at_).
Proof. unfold confirm. writes_auto. Qed.

Lemma writes_fail o at_ r : writes [TSettlementObligation] (fail_obligation o at_ r).
Proof. unfold fail_obligation. writes_auto. Qed.

Lemma writes_acquire c : writes [] (acquire_cash_lock c).
Proof. unfold acquire_cash_lock. writes_auto. Qed.

#[export] Hint Resolve writes_get_or_create writes_require_account writes_house_account writes_inbound_event
  writes_post writes_add_obligation writes_confirm writes_fail writes_acquire : writes.


(** ** Properties *)

(** [_validate_legs] decides exactly the balanced entries: with legs whose
    amounts cannot overflow a NUMERIC(18,4) sum, it raises
    [InvalidPostingLegError] for an empty entry or a leg that sets none or both
    amounts, [UnbalancedEntryError] when the money does not sum to zero, and
    accepts everything else. *)
Theorem validate_legs_decides legs :
  sum_by (λ l, Z.abs (leg_money l)) legs < 10 ^ 18 →
  validate_legs legs =
    if bool_decide (legs = []) || negb (forallb one_dimension legs) then Raise InvalidPostingLegError
    else if sum_by leg_money legs =? 0 then Ok tt else Raise UnbalancedEntryError.
Proof.
  intros Hb. unfold validate_legs. destruct legs as [|leg legs']; [done|].
  set (legs := leg :: legs') in *. change (bool_decide (legs = [])) with false.
  assert (negb (bool_decide (length legs = 0%nat)) = true) as -> by done.
  cbn [ensure orb mbind result_bind]. destruct (forallb one_dimension legs) eqn:E; cbn [negb].
  - rewrite validate_fold_total by done. cbn [mbind result_bind]. unfold q_eqb. cbn [quanta zero].
    rewrite Z.add_0_l. unfold ensure. by destruct (_ =? 0).
  - by rewrite validate_fold_bad.
Qed.

Lemma validate_legs_decides_witness :
  validate_legs [money_leg 1 (QD 50000); money_leg 2 (QD (-40000))] = Raise UnbalancedEntryError.
Proof.
  rewrite (validate_legs_decides [money_leg 1 (QD 50000); money_leg 2 (QD (-40000))] ltac:(by vm_compute)).
  by vm_compute.
Defined.

(** C1. A posted entry is a double entry: posting appends one entry and one
    posting per leg, in order, each on an existing account of the leg's
    dimension and under that account's owner, the entry's money sums to zero,
    nothing else is written, and the ledger invariant is kept. *)
Theorem post_double_entry type date source legs memo d entry d' :
  ledger_ok d → run (post type date source legs memo) d = Ok (entry, d') →
  ledger_ok d' ∧ journal_entries d' = journal_entries d ++ [entry] ∧
  (∃ ps, postings d' = postings d ++ ps ∧ Forall2 (posting_of d (entry_id entry)) legs ps) ∧
  entry_total d' (entry_id entry) = 0 ∧ sum_by leg_money legs = 0 ∧
  entry_type entry = type ∧ entry_effective_date entry = date ∧ entry_source_event_id entry = source ∧
  ∀ t, t ≠ TJournalEntry → t ≠ TPosting → tables d' t = tables d t.
Proof.
  intros Hok Hr. pose proof (write_Ok _ _ _ _ _ _ _ _ _ _ Hr) as Hw.
  pose proof (written_ledger_ok _ _ _ _ _ _ _ _ Hok Hw) as Hok'.
  destruct Hw as [He Hnew Ht Hd Hs Hsup Hrec Hps [_ Hsum] Hf]. split_and!; try done. apply Hok'.
Qed.

(** A store with one customer (7) and a deposit's event, for the witnesses. *)
Definition sample_account (id : uuid) (role : AccountRole) : Account :=
  {| account_id := id; account_customer_id := Some 7; account_security_id := None;
     account_role := role; account_dimension := role_dimension role; account_currency := "USD" |}.

Definition sample_event (id : uuid) : InboundEvent :=
  {| event_id := id; event_source := PLAID; event_source_event_id := uuid_str id; event_payload := [];
     event_signature_verified := true; event_received_at := 0; event_status := EVENT_RECEIVED;
     event_attempts := 0; event_last_error := None |}.

Definition sample_ledger : db :=
  let d := set_table (H := trueup) TAccount
             [sample_account 1 CASH; sample_account 2 CUSTOMER_EQUITY] (empty_db 0) in
  let d := set_table (H := trueup) TInboundEvent [sample_event 3; sample_event 4] d in
  Db (tables d) 100 1000.

Definition sample_deposit : prog JournalEntry :=
  post DEPOSIT 738154 3 [money_leg 1 (QD 500000); money_leg 2 (QD (-500000))] None.

Definition sample_entry : JournalEntry :=
  {| entry_id := 100; entry_type := DEPOSIT; entry_effective_date := 738154; entry_recorded_at := 1000;
     entry_superseded_by := None; entry_supersedes_reason := None; entry_source_event_id := 3;
     entry_memo := None |}.

Definition sample_posted : db := (run_or sample_deposit sample_ledger sample_entry).2.

Lemma sample_deposit_runs : run sample_deposit sample_ledger = Ok (sample_entry, sample_posted).
Proof.
  transitivity (Ok (run_or sample_deposit sample_ledger sample_entry)).
  - apply run_or_Ok. vm_compute. reflexivity.
  - by f_equal.
Qed.

Lemma sample_ledger_ok : ledger_ok sample_ledger.
Proof. split_and!; [constructor|done|constructor]. Qed.

Lemma post_double_entry_witness :
  ledger_ok sample_posted ∧ length (postings sample_posted) = 2%nat.
Proof.
  split; [|by vm_compute].
  exact (proj1 (post_double_entry _ _ _ _ _ _ _ _ sample_ledger_ok sample_deposit_runs)).
Defined.

(** C27. History is append-only for every program over the repositories: no
    run removes, changes or reorders a journal entry, posting, order event,
    close, return, snapshot, accrual or any other row of an append-only
    table; it can only add rows after them. *)
Theorem history_append_only {A} (m : prog A) (d d' : db) (a : A) :
  run m d = Ok (a, d') →
  journal_entries d `prefix_of` journal_entries d' ∧ postings d `prefix_of` postings d' ∧
  order_events d `prefix_of` order_events d' ∧ daily_closes d `prefix_of` daily_closes d' ∧
  sub_period_returns d `prefix_of` sub_period_returns d' ∧
  published_snapshots d `prefix_of` published_snapshots d' ∧
  ∀ t, append_only_of t = true → tables d t `prefix_of` tables d' t.
Proof.
  intros (_ & _ & He)%run_extends. split_and!; try (by apply (He TPosting)); try by apply He.
  - by apply (He TJournalEntry).
  - by apply (He TOrderEvent).
  - by apply (He TDailyClose).
  - by apply (He TSubPeriodReturn).
  - by apply (He TPublishedSnapshot).
Qed.

Lemma history_append_only_witness : journal_entries sample_ledger `prefix_of` journal_entries sample_posted.
Proof. exact (proj1 (history_append_only _ _ _ _ sample_deposit_runs)). Defined.

(** A settlement obligation changes status once: whatever program runs,
    an obligation that is confirmed or failed stays exactly as it is, and
    confirming or failing one that is no longer pending raises, also when the
    caller holds a stale copy that still says pending. *)
Theorem obligation_single_transition {A} (m : prog A) (d d' : db) (a : A) i o :
  run m d = Ok (a, d') → settlement_obligations d !! i = Some o → obligation_status o ≠ OBLIGATION_PENDING →
  settlement_obligations d' !! i = Some o ∧
  ∀ stale at_ reason, obligation_id stale = obligation_id o →
    is_ok (run (confirm stale at_) d') = false ∧ is_ok (run (fail_obligation stale at_ reason) d') = false.
Proof.
  intros Hr Ho Hne.
  assert (Hd' : settlement_obligations d' !! i = Some o).
  { destruct (run_evolves (H := trueup) _ _ _ _ TSettlementObligation eq_refl Hr) as (l & new & Hl & Hev).
    unfold settlement_obligations in *. rewrite Hl.
    destruct (Forall2_lookup_l _ _ _ _ _ Hev Ho) as (o' & Hl' & Hrtc).
    apply lookup_app_l_Some. refine (eq_trans Hl' _). f_equal. symmetry.
    inversion Hrtc as [|x y z Hxy]; [done|]. cbn in Hxy. by apply bool_decide_eq_true in Hxy. }
  split; [done|]. intros stale at_ reason Hid.
  assert (Hblock : ∀ f, may_update (H := trueup) TSettlementObligation
                          (λ r, obligation_id r =? obligation_id stale) f d' = false).
  { intros f. unfold may_update. apply not_true_iff_false. intros Hall. rewrite forallb_forall in Hall.
    specialize (Hall o (proj1 (list_elem_of_In _ _) (list_elem_of_lookup_2 _ _ _ Hd'))).
    cbn in Hall. rewrite Hid, Z.eqb_refl in Hall. cbn in Hall. by apply bool_decide_eq_true in Hall. }
  unfold confirm, fail_obligation.
  split; (rewrite run_bind; unfold require;
          destruct (bool_decide _); [|done]; cbn [run update]; rewrite Hblock; done).
Qed.

Definition sample_obligation : SettlementObligation :=
  {| obligation_id := 50; obligation_journal_entry_id := 100; obligation_account_id := 1;
     obligation_amount_money := QD 500000; obligation_expected_settlement_date := 738156;
     obligation_status := OBLIGATION_FAILED; obligation_confirmed_at := None;
     obligation_failed_at := Some 5; obligation_failure_reason := Some "ach_return";
     obligation_source_event_id := 4 |}.

Definition sample_failed : db :=
  set_table (H := trueup) TSettlementObligation [sample_obligation] sample_ledger.

Lemma obligation_single_transition_witness :
  settlement_obligations (run_or sample_deposit sample_failed sample_entry).2 !! 0%nat = Some sample_obligation.
Proof.
  assert (Hr : run sample_deposit sample_failed = Ok (run_or sample_deposit sample_failed sample_entry))
    by (apply run_or_Ok; vm_compute; reflexivity).
  rewrite (surjective_pairing (run_or _ _ _)) in Hr.
  exact (proj1 (obligation_single_transition sample_deposit _ _ _ 0%nat sample_obligation Hr eq_refl ltac:(done))).
Defined.

(** ** When posting succeeds *)

(** Identifiers still to be drawn are new to the ledger. *)
Definition ledger_fresh (d : db) : Prop :=
  (∀ e, e ∈ journal_entries d → entry_id e < next_uuid d) ∧
  (∀ p, p ∈ postings d → posting_id p < next_uuid d).

(** The leg's account exists and has the leg's dimension. *)
Definition leg_accepted (d : db) (leg : PostingLeg) : bool :=
  match account_by_id d (leg_account_id leg) with
  | Some a => match account_dimension a with
              | MONEY => bool_decide (leg_quantity_units leg = None)
              | UNITS => bool_decide (leg_amount_money leg = None)
              end
  | None => false
  end.

Lemma account_by_id_has d id a : account_by_id d id = Some a → has account_id (accounts d) id = true.
Proof.
  intros [Ha Hid]%account_by_id_Some. apply existsb_exists. exists a.
  split; [by apply list_elem_of_In|by apply Z.eqb_eq].
Qed.

Lemma write_leg_runs entry leg d :
  (∀ p, p ∈ postings d → posting_id p < next_uuid d) →
  has entry_id (journal_entries d) (entry_id entry) = true →
  one_dimension leg = true → leg_accepted d leg = true →
  ∃ d', run (write_leg entry leg) d = Ok (tt, d') ∧ (∀ p, p ∈ postings d' → posting_id p < next_uuid d').
Proof.
  intros Hfresh He H1 Hacc. unfold leg_accepted in Hacc.
  destruct (account_by_id d (leg_account_id leg)) as [a|] eqn:Ha; [|done].
  set (d1 := Db (tables d) (next_uuid d + 1) (db_now d)).
  set (p := {| posting_id := next_uuid d; posting_journal_entry_id := entry_id entry;
               posting_account_id := leg_account_id leg; posting_customer_id := account_customer_id a;
               posting_amount_money := leg_amount_money leg;
               posting_quantity_units := leg_quantity_units leg |}).
  assert (Hins : accepts (H := trueup) TPosting d1 p = true).
  { unfold accepts. rewrite !andb_true_iff. split_and!.
    - cbn. unfold one_dimension in H1. by destruct (leg_amount_money leg), (leg_quantity_units leg).
    - change (has entry_id (journal_entries d) (entry_id entry) &&
              has account_id (accounts d) (leg_account_id leg) = true).
      by rewrite He, (account_by_id_has d _ a Ha).
    - apply forallb_forall. intros q Hq. apply list_elem_of_In in Hq. specialize (Hfresh q Hq). cbn.
      apply negb_true_iff, Z.eqb_neq. lia. }
  exists (insert_row (H := trueup) TPosting p d1). split.
  - apply run_bind_Ok. exists (next_uuid d), d1. split; [by apply run_uuid4_Ok|].
    apply run_bind_Ok. exists p, d1. split; [|by apply run_add_Ok].
    apply run_queries_Ok. split; [|done]. unfold posting_before_insert.
    cbn [posting_account_id posting_quantity_units posting_amount_money].
    change (account_by_id _ (leg_account_id leg)) with (account_by_id d (leg_account_id leg)).
    rewrite Ha. cbn. unfold one_dimension in H1.
    destruct (account_dimension a); apply bool_decide_eq_true in Hacc; unfold p; rewrite Hacc; done.
  - intros q. change (next_uuid _) with (next_uuid d + 1). unfold postings, insert_row.
    rewrite tables_set_same, elem_of_app, list_elem_of_singleton.
    intros [Hq| ->]; [apply Hfresh in Hq; lia|cbn; lia].
Qed.

Lemma write_legs_run entry legs d :
  (∀ p, p ∈ postings d → posting_id p < next_uuid d) →
  has entry_id (journal_entries d) (entry_id entry) = true →
  forallb one_dimension legs = true → forallb (leg_accepted d) legs = true →
  is_ok (run (for_each legs (write_leg entry)) d) = true.
Proof.
  revert d. induction legs as [|leg legs IH]; intros d Hf He; cbn [forallb for_each]; [done|].
  intros [H1 H2]%andb_true_iff [H3 H4]%andb_true_iff.
  destruct (write_leg_runs entry leg d Hf He H1 H3) as (d' & Hr & Hf').
  pose proof (write_leg_Ok _ _ _ _ _ Hr) as (p & _ & _ & _ & Hframe).
  pose proof (postings_frame _ _ Hframe) as [Ha Hj].
  rewrite run_bind, Hr. apply IH; [done|by rewrite Hj|done|].
  unfold leg_accepted, account_by_id in *. by rewrite Ha.
Qed.

(** C26. Posting is total on what it promises to accept: with fresh identifiers
    it returns an entry exactly when the legs are valid, every leg's account
    exists in the leg's dimension, and the source event is recorded and not
    yet tied to an entry, so one event is posted at most once. *)
Theorem post_succeeds_iff type date source legs memo d :
  ledger_fresh d →
  is_ok (run (post type date source legs memo) d) = true ↔
    validate_legs legs = Ok tt ∧ forallb (leg_accepted d) legs = true ∧
    has event_id (inbound_events d) source = true ∧
    ∀ e, e ∈ journal_entries d → entry_source_event_id e ≠ source.
Proof.
  intros [Hfe Hfp]. split.
  - destruct (run _ d) as [[entry d']|] eqn:Hr; [|done]. intros _. unfold post in Hr.
    pose proof (write_Ok _ _ _ _ _ _ _ _ _ _ Hr) as Hw. unfold write in Hr.
    apply run_bind_Ok in Hr as ([] & d1 & [Hlegs <-]%run_lift_Ok & Hr).
    apply run_bind_Ok in Hr as (id & d1 & [-> ->]%run_uuid4_Ok & Hr).
    apply run_bind_Ok in Hr as (now & d1 & [<- <-]%run_gets_Ok & Hr). cbn zeta in Hr.
    apply run_bind_Ok in Hr as (u & d1 & [Hacc ->]%run_add_Ok & _).
    unfold accepts in Hacc. apply andb_true_iff in Hacc as [[_ Href]%andb_true_iff _]. cbn in Href.
    destruct Hw as [He Hnew _ _ _ _ _ (ps & _ & Hof) _ _]. split_and!; [done| |done|].
    + apply validate_legs_Ok in Hlegs as (_ & Hone & _). rewrite forallb_forall in Hone |- *.
      intros leg Hin. specialize (Hone leg Hin). apply list_elem_of_In, list_elem_of_lookup in Hin as (i & Hi).
      destruct (Forall2_lookup_l _ _ _ _ _ Hof Hi) as (p & _ & (_ & _ & _ & _ & a & Ha & _ & Hdim)).
      unfold leg_accepted. rewrite Ha. unfold one_dimension in Hone.
      destruct (account_dimension a), (leg_amount_money leg), (leg_quantity_units leg);
        by destruct Hdim.
    + intros e Hin. by apply Hnew.
  - intros (Hv & Hacc & Hev & Hsrc). unfold post, write. rewrite run_bind, Hv. cbn [lift run].
    rewrite run_bind. cbn [run uuid4]. rewrite run_bind. cbn [run gets]. rewrite run_bind.
    match goal with |- context [run (add _ ?e) ?x] => set (entry := e); set (d1 := x) end.
    assert (Hins : accepts (H := trueup) TJournalEntry d1 entry = true).
    { unfold accepts. rewrite !andb_true_iff. split_and!; [done|exact Hev|].
      apply forallb_forall. intros e He. apply list_elem_of_In in He. specialize (Hfe e He). cbn.
      apply negb_true_iff, orb_false_iff. rewrite !Z.eqb_neq. split; [lia|by apply Hsrc]. }
    rewrite (proj2 (run_add_Ok _ _ tt _ _) (conj Hins eq_refl)), run_bind.
    apply validate_legs_Ok in Hv as (_ & Hone & _).
    pose proof (write_legs_run entry legs (insert_row (H := trueup) TJournalEntry entry d1)) as Hw.
    destruct (run (for_each legs (write_leg entry)) _) as [[u d']|]; [done|]. apply Hw.
    + intros p Hp. specialize (Hfp p Hp). cbn. lia.
    + apply existsb_exists. exists entry. split; [|apply Z.eqb_refl]. apply list_elem_of_In.
      unfold journal_entries, insert_row. rewrite tables_set_same. set_solver.
    + done.
    + exact Hacc.
Qed.

Lemma post_succeeds_iff_witness :
  is_ok (run (post DEPOSIT 738154 3 [money_leg 1 (QD 500000); money_leg 2 (QD (-500000))] None) sample_ledger) = true.
Proof.
  apply (post_succeeds_iff DEPOSIT 738154 3 _ None sample_ledger).
  - split; [intros e He|intros p Hp]; exfalso; [by apply elem_of_nil in He|by apply elem_of_nil in Hp].
  - split_and!; [vm_compute; reflexivity..|].
    intros e He. exfalso. by apply elem_of_nil in He.
Defined.
