(* ===== verification/CashPolicy.v ===== *)
(** * Cash policy ([services/ledger/cash_policy_service.py])

    Settled, withdrawable and investable cash as pure functions of the ledger:
    nothing stores a balance.  The order subsystem supplies the holds through
    the interface [HoldsProvider]. *)

From S2P Require Import Prelude PyDecimal MoneyTypes Calendar Store Schema Ledger.
From Stdlib Require Import String.
From stdpp Require Import strings.
Open Scope Z_scope.

(** The [HoldsProvider] protocol. *)
Class HoldsProvider := {
  holds : uuid → db → result Money;
  open_buy_commitments : uuid → db → result Money;
}.

(** ** The queries *)

(** An obligation of this entry exists. *)
Definition has_obligation (d : db) (entry : uuid) : bool :=
  existsb (λ o, obligation_journal_entry_id o =? entry) (settlement_obligations d).

(** A confirmed obligation of this entry exists. *)
Definition has_confirmed_obligation (d : db) (entry : uuid) : bool :=
  existsb (λ o, (obligation_journal_entry_id o =? entry) &&
                bool_decide (obligation_status o = OBLIGATION_CONFIRMED)) (settlement_obligations d).

(** [Posting.amount_money < Money("0.00")]; a null amount is not below zero. *)
Definition pending_outflow (p : Posting) : bool :=
  match posting_amount_money p with Some m => quanta m <? 0 | None => false end.

(** The role of a posting's account, through the join. *)
Definition posting_role (d : db) (p : Posting) : option AccountRole :=
  account_role <$> account_by_id d (posting_account_id p).

(** A posting on the customer's cash account. *)
Definition on_cash (d : db) (customer : uuid) (p : Posting) : bool :=
  bool_decide (posting_customer_id p = Some customer) && bool_decide (posting_role d p = Some CASH).

(** The condition of [settled_cash]. *)
Definition counts_as_settled (d : db) (p : Posting) : bool :=
  negb (has_obligation d (posting_journal_entry_id p)) ||
  has_confirmed_obligation d (posting_journal_entry_id p) || pending_outflow p.

Definition settled_cash (customer : uuid) (d : db) : result Money :=
  sql_sum (omap posting_amount_money
    (filter (λ p, on_cash d customer p = true ∧ counts_as_settled d p = true) (postings d))).

(** The type of the entry of an obligation, through the join. *)
Definition obligation_entry_type (d : db) (o : SettlementObligation) : option JournalEntryType :=
  entry_type <$> head (filter (λ e, entry_id e = obligation_journal_entry_id o) (journal_entries d)).

Definition obligation_owner (d : db) (o : SettlementObligation) : option uuid :=
  account_by_id d (obligation_account_id o) ≫= account_customer_id.

(** [_unsettled_obligation_total] *)
Definition unsettled_obligation_total (type : JournalEntryType) (customer : uuid) (d : db) : result Money :=
  sql_sum (obligation_amount_money <$>
    filter (λ o, obligation_owner d o = Some customer ∧ obligation_status o = OBLIGATION_PENDING ∧
                 obligation_entry_type d o = Some type) (settlement_obligations d)).

Definition unsettled_sale_proceeds (customer : uuid) (d : db) : result Money :=
  unsettled_obligation_total TRADE_SELL customer d.

Definition unsettled_deposit_proceeds (customer : uuid) (d : db) : result Money :=
  unsettled_obligation_total DEPOSIT customer d.

Section Policy.
Context `{HoldsProvider}.

Definition withdrawable (customer : uuid) (d : db) : result Money :=
  settled ← settled_cash customer d;
  held ← holds customer d;
  q_sub settled held.

Definition investable (customer : uuid) (d : db) : result Money :=
  settled ← settled_cash customer d;
  sales ← unsettled_sale_proceeds customer d;
  deposits ← unsettled_deposit_proceeds customer d;
  commitments ← open_buy_commitments customer d;
  held ← holds customer d;
  t ← q_add settled sales;
  t ← q_add t deposits;
  t ← q_sub t commitments;
  q_sub t held.
End Policy.

(** ** The figures in quanta *)

Definition settled_quanta (customer : uuid) (d : db) : Z :=
  sum_by posting_money
    (filter (λ p, on_cash d customer p = true ∧ counts_as_settled d p = true) (postings d)).

Definition unsettled_quanta (type : JournalEntryType) (customer : uuid) (d : db) : Z :=
  sum_by (λ o, quanta (obligation_amount_money o))
    (filter (λ o, obligation_owner d o = Some customer ∧ obligation_status o = OBLIGATION_PENDING ∧
                  obligation_entry_type d o = Some type) (settlement_obligations d)).

(** The customer's cash account balance: every cash posting, settled or not. *)
Definition cash_balance (customer : uuid) (d : db) : Z :=
  sum_by posting_money (filter (λ p, on_cash d customer p = true) (postings d)).

Lemma sum_omap_money (l : list Posting) :
  sum_by (@quanta MoneyD) (omap posting_amount_money l) = sum_by posting_money l.
Proof.
  induction l as [|p l IH]; [done|]. cbn. rewrite sum_by_cons. unfold posting_money at 1.
  destruct (posting_amount_money p); [by rewrite sum_by_cons, IH|]. by rewrite IH.
Qed.

Lemma settled_cash_Ok c d m :
  settled_cash c d = Ok m → quanta m = settled_quanta c d.
Proof. intros [_ ->]%sql_sum_Ok. apply sum_omap_money. Qed.

Lemma unsettled_Ok type c d m :
  unsettled_obligation_total type c d = Ok m → quanta m = unsettled_quanta type c d.
Proof. intros [_ ->]%sql_sum_Ok. by rewrite sum_by_fmap. Qed.

(** ** How the writes of a service move the figures *)

(** A leg on the customer's cash account. *)
Definition leg_on_cash (d : db) (customer : uuid) (leg : PostingLeg) : bool :=
  match account_by_id d (leg_account_id leg) with
  | Some a => bool_decide (account_customer_id a = Some customer) && bool_decide (account_role a = CASH)
  | None => false
  end.

(** The money of the legs on the customer's cash account. *)
Definition legs_on_cash (d : db) (customer : uuid) (legs : list PostingLeg) : Z :=
  sum_by leg_money (filter (λ leg, leg_on_cash d customer leg = true) legs).

(** The money an entry pays into the customer's cash account. *)
Definition cash_inflow (d : db) (customer entry : uuid) : Z :=
  sum_by (λ p, Z.max 0 (posting_money p))
    (filter (λ p, on_cash d customer p = true ∧ posting_journal_entry_id p = entry) (postings d)).

Lemma posting_of_on_cash d e leg p c : posting_of d e leg p → on_cash d c p = leg_on_cash d c leg.
Proof.
  intros (_ & Ha & _ & _ & a & Hacc & Hc & _). unfold on_cash, leg_on_cash, posting_role.
  rewrite Ha, Hacc, Hc. cbn. f_equal. by case_bool_decide; case_bool_decide; congruence.
Qed.

Lemma sum_filter_posted d e c (f : Z → Z) legs ps :
  Forall2 (posting_of d e) legs ps →
  sum_by (λ p, f (posting_money p)) (filter (λ p, on_cash d c p = true ∧ posting_journal_entry_id p = e) ps) =
  sum_by (λ l, f (leg_money l)) (filter (λ l, leg_on_cash d c l = true) legs).
Proof.
  induction 1 as [|leg p legs ps Hp _ IH]; [done|].
  pose proof (posting_of_on_cash _ _ _ _ c Hp) as Hc. destruct Hp as (He & _ & Hm & _).
  rewrite !filter_cons, Hc. destruct (leg_on_cash d c leg).
  - rewrite decide_True by done. rewrite decide_True by done. rewrite !sum_by_cons, IH. unfold posting_money, leg_money. by rewrite Hm.
  - rewrite decide_False by naive_solver. by rewrite decide_False by done.
Qed.

Lemma account_by_id_prefix d d' id :
  accounts d `prefix_of` accounts d' → (∃ a, a ∈ accounts d ∧ account_id a = id) →
  account_by_id d' id = account_by_id d id.
Proof.
  intros [k Hk] (a & Ha & Hid). unfold account_by_id. rewrite Hk, filter_app.
  destruct (filter _ (accounts d)) eqn:E; [|done]. exfalso.
  assert (a ∈ filter (λ a, account_id a = id) (accounts d)) as Hin by (by apply list_elem_of_filter).
  rewrite E in Hin. by apply elem_of_nil in Hin.
Qed.

(** The ledger of [d'] is that of [d], with at most new accounts. *)
Definition same_ledger (d d' : db) : Prop :=
  accounts d `prefix_of` accounts d' ∧ journal_entries d' = journal_entries d ∧
  postings d' = postings d ∧ settlement_obligations d' = settlement_obligations d.

#[export] Instance same_ledger_preorder : PreOrder same_ledger.
Proof.
  split; [by intros d; split_and!|].
  intros d1 d2 d3 (H1 & H2 & H3 & H4) (H5 & H6 & H7 & H8). split_and!; [by etrans|congruence..].
Qed.

Lemma on_cash_same d d' c p :
  ledger_ok d → accounts d `prefix_of` accounts d' → p ∈ postings d → on_cash d' c p = on_cash d c p.
Proof.
  intros (Hok & _) Ha Hp. rewrite Forall_forall in Hok. destruct (Hok p Hp) as [_ (a & Hin & Hid & _)].
  unfold on_cash, posting_role. rewrite (account_by_id_prefix d d'); [done|done|by exists a].
Qed.

Lemma counts_same d d' p :
  settlement_obligations d' = settlement_obligations d → counts_as_settled d' p = counts_as_settled d p.
Proof. intros H. unfold counts_as_settled, has_obligation, has_confirmed_obligation. by rewrite H. Qed.

Lemma owner_same d d' o :
  ledger_ok d → accounts d `prefix_of` accounts d' → o ∈ settlement_obligations d →
  obligation_owner d' o = obligation_owner d o.
Proof.
  intros (_ & _ & Hob) Ha Ho. rewrite Forall_forall in Hob. destruct (Hob o Ho) as [_ Hacc].
  unfold obligation_owner. by rewrite (account_by_id_prefix d d').
Qed.

(** New accounts and writes elsewhere leave every figure. *)
Lemma figures_same d d' c :
  ledger_ok d → same_ledger d d' →
  settled_quanta c d' = settled_quanta c d ∧ cash_balance c d' = cash_balance c d ∧
  (∀ type, unsettled_quanta type c d' = unsettled_quanta type c d) ∧
  (∀ e, cash_inflow d' c e = cash_inflow d c e).
Proof.
  intros Hok (Ha & He & Hp & Ho). pose proof (λ p, on_cash_same d d' c p Hok Ha) as Hon.
  unfold settled_quanta, cash_balance, unsettled_quanta, cash_inflow. rewrite Hp, Ho. split_and!.
  - f_equal. apply filter_iff. intros p Hin. by rewrite Hon, (counts_same d d').
  - f_equal. apply filter_iff. intros p Hin. by rewrite Hon.
  - intros type. f_equal. apply filter_iff. intros o Hin. rewrite (owner_same d d' o) by done.
    unfold obligation_entry_type. by rewrite He.
  - intros e. f_equal. apply filter_iff. intros p Hin. by rewrite Hon.
Qed.

(** What posting an entry does to the figures: its cash legs settle at once. *)
Lemma figures_written type date source legs sup d entry d' c :
  ledger_ok d → written type date source legs sup d entry d' →
  settled_quanta c d' = settled_quanta c d + legs_on_cash d c legs ∧
  cash_balance c d' = cash_balance c d + legs_on_cash d c legs ∧
  (∀ type', unsettled_quanta type' c d' = unsettled_quanta type' c d) ∧
  cash_inflow d' c (entry_id entry) =
    sum_by (λ l, Z.max 0 (leg_money l)) (filter (λ leg, leg_on_cash d c leg = true) legs) ∧
  has_obligation d' (entry_id entry) = false.
Proof.
  intros Hok [He Hnew _ _ _ _ _ (ps & Hps & Hof) _ Hf]. destruct Hok as (Hpok & Hbal & Hob).
  assert (Ha : accounts d' = accounts d) by (unfold accounts; by rewrite Hf).
  assert (Ho : settlement_obligations d' = settlement_obligations d)
    by (unfold settlement_obligations; by rewrite Hf).
  assert (Hon : ∀ p, on_cash d' c p = on_cash d c p).
  { intros p. unfold on_cash, posting_role, account_by_id. by rewrite Ha. }
  assert (Hno : has_obligation d' (entry_id entry) = false).
  { unfold has_obligation. rewrite Ho. apply not_true_iff_false. intros (o & Hin & E)%existsb_exists.
    rewrite Forall_forall in Hob. destruct (Hob o) as [(e & Hine & Eid) _]; [by apply list_elem_of_In|].
    destruct (Hnew e Hine) as [Hne _]. zbool. congruence. }
  assert (Hids : ∀ p, p ∈ ps → posting_journal_entry_id p = entry_id entry).
  { intros p (i & Hi)%list_elem_of_lookup. destruct (Forall2_lookup_r _ _ _ _ _ Hof Hi) as (l & _ & Hl). apply Hl. }
  assert (Hsum : ∀ f, sum_by (λ p, f (posting_money p)) (filter (λ p, on_cash d c p = true) ps) =
                      sum_by (λ l, f (leg_money l)) (filter (λ l, leg_on_cash d c l = true) legs)).
  { intros f. rewrite <- (sum_filter_posted _ _ c f _ _ Hof). f_equal. apply filter_iff.
    intros p Hp. rewrite (Hids p Hp). naive_solver. }
  assert (Hsum1 : sum_by posting_money (filter (λ p, on_cash d c p = true) ps) = legs_on_cash d c legs)
    by exact (Hsum (λ z, z)).
  split_and!; [| | | |done].
  - unfold settled_quanta. rewrite Hps, filter_app, sum_by_app, <- Hsum1. f_equal.
    + f_equal. apply filter_iff. intros p _. by rewrite Hon, (counts_same d d').
    + f_equal. apply filter_iff. intros p Hp. rewrite Hon. unfold counts_as_settled.
      rewrite (Hids p Hp), Hno. cbn. naive_solver.
  - unfold cash_balance. rewrite Hps, filter_app, sum_by_app, <- Hsum1. f_equal;
      f_equal; apply filter_iff; intros p _; by rewrite Hon.
  - intros type'. unfold unsettled_quanta. rewrite Ho. f_equal. apply filter_iff. intros o Hin.
    rewrite Forall_forall in Hob. destruct (Hob o Hin) as [(e & Hine & Eid) _].
    unfold obligation_owner, account_by_id, obligation_entry_type. rewrite Ha, He, filter_app.
    destruct (filter _ (journal_entries d)) eqn:E; [exfalso|done].
    assert (e ∈ filter (λ e, entry_id e = obligation_journal_entry_id o) (journal_entries d)) as Hx
      by (by apply list_elem_of_filter).
    rewrite E in Hx. by apply elem_of_nil in Hx.
  - unfold cash_inflow. rewrite Hps, filter_app, sum_by_app.
    assert (filter (λ p, on_cash d' c p = true ∧ posting_journal_entry_id p = entry_id entry) (postings d) = []) as ->.
    { apply elem_of_nil_inv. intros p [[_ Hp] Hin]%list_elem_of_filter. rewrite Forall_forall in Hpok.
      destruct (Hpok p Hin) as [(e & Hine & Eid) _]. destruct (Hnew e Hine). congruence. }
    rewrite sum_by_nil, Z.add_0_l, <- (Hsum (Z.max 0)). f_equal. apply filter_iff.
    intros p Hp. rewrite Hon, (Hids p Hp). naive_solver.
Qed.

(** A change of an entry's obligations moves exactly its inflow. *)
Lemma settled_change d d' c e (before after : bool) :
  accounts d' = accounts d → postings d' = postings d →
  (∀ p, posting_journal_entry_id p ≠ e → counts_as_settled d' p = counts_as_settled d p) →
  (∀ p, posting_journal_entry_id p = e → counts_as_settled d p = before || pending_outflow p) →
  (∀ p, posting_journal_entry_id p = e → counts_as_settled d' p = after || pending_outflow p) →
  settled_quanta c d' = settled_quanta c d + (Z.b2z after - Z.b2z before) * cash_inflow d c e.
Proof.
  intros Ha Hp Hother Hb Hafter.
  assert (Hon : ∀ p, on_cash d' c p = on_cash d c p).
  { intros p. unfold on_cash, posting_role, account_by_id. by rewrite Ha. }
  unfold settled_quanta, cash_inflow. rewrite Hp. clear Hp. induction (postings d) as [|p l IH]; [unfold sum_by; cbn; lia|].
  rewrite !filter_cons, Hon. destruct (on_cash d c p).
  2: { rewrite !decide_False by naive_solver. exact IH. }
  destruct (decide (posting_journal_entry_id p = e)) as [Hpe|Hpe].
  - rewrite (Hb p Hpe), (Hafter p Hpe). rewrite (decide_True (P := _ ∧ posting_journal_entry_id p = e)) by done.
    assert (if pending_outflow p then posting_money p < 0 else 0 <= posting_money p) as Hpo.
    { unfold pending_outflow, posting_money. destruct (posting_amount_money p) as [m|]; [|done].
      destruct (Z.ltb_spec (quanta m) 0); lia. }
    destruct (pending_outflow p), after, before; cbn [orb Z.b2z] in *;
      repeat (first [rewrite decide_True by done|rewrite decide_False by naive_solver]);
      rewrite ?sum_by_cons, ?IH; lia.
  - rewrite (Hother p Hpe). rewrite (decide_False (P := _ ∧ posting_journal_entry_id p = e)) by naive_solver.
    destruct (counts_as_settled d p).
    + rewrite !decide_True by done. rewrite !sum_by_cons, IH. lia.
    + rewrite !decide_False by naive_solver. exact IH.
Qed.

Lemma obligation_key (a b : SettlementObligation) :
  obligation_id a = obligation_id b → conflicts (Schema := trueup) TSettlementObligation a b = true.
Proof. intros E. cbn. by rewrite E, Z.eqb_refl. Qed.

Lemma account_key (a b : Account) :
  account_id a = account_id b → conflicts (Schema := trueup) TAccount a b = true.
Proof. intros E. cbn. by rewrite E, Z.eqb_refl. Qed.

Lemma account_by_id_In d a : integrity d → a ∈ accounts d → account_by_id d (account_id a) = Some a.
Proof.
  intros Hd Ha. unfold account_by_id. pose proof (filter_unique TAccount account_id d a account_key Hd Ha) as E.
  exact (f_equal head E).
Qed.

Lemma obligation_by_id_In d o :
  integrity d → o ∈ settlement_obligations d → obligation_by_id d (obligation_id o) = Some o.
Proof.
  intros Hd Ho. unfold obligation_by_id.
  pose proof (filter_unique TSettlementObligation obligation_id d o obligation_key Hd Ho) as E.
  exact (f_equal head E).
Qed.

(** The amount an obligation adds to the unsettled proceeds of a customer. *)
Definition unsettled_amount (d : db) (type : JournalEntryType) (customer : uuid) (o : SettlementObligation) : Z :=
  if bool_decide (obligation_owner d o = Some customer ∧ obligation_entry_type d o = Some type)
  then quanta (obligation_amount_money o) else 0.

Lemma unsettled_filter d type c (o : SettlementObligation) :
  sum_by (λ o, quanta (obligation_amount_money o))
    (filter (λ o, obligation_owner d o = Some c ∧ obligation_status o = OBLIGATION_PENDING ∧
                  obligation_entry_type d o = Some type) [o]) =
  if bool_decide (obligation_status o = OBLIGATION_PENDING) then unsettled_amount d type c o else 0.
Proof.
  rewrite filter_cons, filter_nil. unfold unsettled_amount.
  destruct (decide (obligation_owner d o = Some c ∧ obligation_status o = OBLIGATION_PENDING ∧
                    obligation_entry_type d o = Some type)) as [(H1 & H2 & H3)|Hn].
  - rewrite !bool_decide_eq_true_2 by done. unfold sum_by. cbn. lia.
  - rewrite sum_by_nil. case_bool_decide as H2; [|done]. rewrite bool_decide_eq_false_2; [done|]. naive_solver.
Qed.

(** Recording an obligation withholds its entry's inflow until it confirms. *)
Lemma figures_new_obligation e a m x s d o d' c :
  run (add_obligation e a m x s) d = Ok (o, d') →
  obligation_status o = OBLIGATION_PENDING ∧ obligation_journal_entry_id o = e ∧
  obligation_account_id o = a ∧ obligation_amount_money o = m ∧ obligation_expected_settlement_date o = x ∧
  settlement_obligations d' = settlement_obligations d ++ [o] ∧
  (∀ t, t ≠ TSettlementObligation → tables d' t = tables d t) ∧
  (has_obligation d e = false →
   settled_quanta c d' = settled_quanta c d - cash_inflow d c e) ∧
  cash_balance c d' = cash_balance c d ∧ cash_inflow d' c e = cash_inflow d c e ∧
  (∀ type, unsettled_quanta type c d' = unsettled_quanta type c d + unsettled_amount d type c o).
Proof.
  unfold add_obligation. intros (id & d1 & [-> ->]%run_uuid4_Ok & H)%run_bind_Ok. cbn zeta in H.
  match type of H with run (add _ ?row ≫= _) _ = _ => set (ob := row) in * end.
  apply run_bind_Ok in H as (u & d1 & [Hacc ->]%run_add_Ok & [<- <-]%run_ret_Ok).
  assert (Hob : settlement_obligations (insert_row (H := trueup) TSettlementObligation ob
                  (Db (tables d) (next_uuid d + 1) (db_now d))) = settlement_obligations d ++ [ob]).
  { unfold settlement_obligations, insert_row. by rewrite tables_set_same. }
  assert (Hf : ∀ t, t ≠ TSettlementObligation →
    tables (insert_row (H := trueup) TSettlementObligation ob (Db (tables d) (next_uuid d + 1) (db_now d))) t = tables d t).
  { intros t Ht. unfold insert_row. by rewrite tables_set_ne. }
  revert Hob Hf. generalize (insert_row (H := trueup) TSettlementObligation ob
    (Db (tables d) (next_uuid d + 1) (db_now d))) as d'. intros d' Hob Hf.
  pose proof (Hf TAccount ltac:(done)) as Ha. pose proof (Hf TPosting ltac:(done)) as Hp.
  pose proof (Hf TJournalEntry ltac:(done)) as He.
  assert (Hon : ∀ p, on_cash d' c p = on_cash d c p).
  { intros p. unfold on_cash, posting_role, account_by_id, accounts. by rewrite Ha. }
  split_and!; try done.
  - intros Hno. rewrite (settled_change d d' c e true false); [cbn; lia|done|done| | |].
    + intros p Hne. unfold counts_as_settled, has_obligation, has_confirmed_obligation.
      rewrite Hob, !existsb_app. cbn. destruct (Z.eqb_spec e (posting_journal_entry_id p)); [congruence|].
      by rewrite !orb_false_r.
    + intros p Hpe. unfold counts_as_settled. by rewrite Hpe, Hno.
    + intros p Hpe. unfold counts_as_settled. rewrite Hpe. unfold has_obligation, has_confirmed_obligation in *.
      rewrite Hob, !existsb_app, Hno. cbn. rewrite Z.eqb_refl. cbn. rewrite !orb_false_r.
      assert (existsb (λ o, (obligation_journal_entry_id o =? e) && bool_decide (obligation_status o = OBLIGATION_CONFIRMED))
                (settlement_obligations d) = false) as ->; [|done].
      apply not_true_iff_false. intros (o & Hin & [E _]%andb_true_iff)%existsb_exists.
      apply not_true_iff_false in Hno. apply Hno, existsb_exists. by exists o.
  - unfold cash_balance, postings. rewrite Hp. f_equal. apply filter_iff. intros p _. by rewrite Hon.
  - unfold cash_inflow, postings. rewrite Hp. f_equal. apply filter_iff. intros p _. by rewrite Hon.
  - intros type. unfold unsettled_quanta.
    assert (∀ o, obligation_owner d' o = obligation_owner d o) as Hown
      by (intros o; unfold obligation_owner, account_by_id, accounts; by rewrite Ha).
    assert (∀ o, obligation_entry_type d' o = obligation_entry_type d o) as Het
      by (intros o; unfold obligation_entry_type, journal_entries; by rewrite He).
    rewrite (filter_iff _ (λ o, obligation_owner d o = Some c ∧ obligation_status o = OBLIGATION_PENDING ∧
                  obligation_entry_type d o = Some type)) by (intros o _; by rewrite Hown, Het).
    rewrite Hob, filter_app, sum_by_app. f_equal. apply (unsettled_filter d type c ob).
Qed.

(** An obligation of an entry that has no other leaves its pending state:
    confirming releases the inflow, failing keeps it withheld. *)
Lemma figures_resolve status f o d u d' c :
  integrity d → o ∈ settlement_obligations d → obligation_status o = OBLIGATION_PENDING →
  (∀ o', o' ∈ settlement_obligations d → obligation_journal_entry_id o' = obligation_journal_entry_id o → o' = o) →
  (∀ r, obligation_status (f r) = status ∧ obligation_journal_entry_id (f r) = obligation_journal_entry_id r) →
  status ≠ OBLIGATION_PENDING →
  run (update TSettlementObligation (λ r, obligation_id r =? obligation_id o) f) d = Ok (u, d') →
  (∀ t, t ≠ TSettlementObligation → tables d' t = tables d t) ∧
  settled_quanta c d' = settled_quanta c d +
    (if bool_decide (status = OBLIGATION_CONFIRMED) then cash_inflow d c (obligation_journal_entry_id o) else 0) ∧
  cash_balance c d' = cash_balance c d ∧
  ∀ type, unsettled_quanta type c d' = unsettled_quanta type c d - unsettled_amount d type c o.
Proof.
  intros Hd Ho Hpend Honly Hfr Hst (_ & _ & _ & _ & ->)%run_update_Ok.
  destruct (update_one (H := trueup) TSettlementObligation obligation_id f d o obligation_key Hd Ho) as (l1 & l2 & Hl & Hu & Hne).
  rewrite Hu. set (d' := set_table _ _ d).
  assert (Hob' : settlement_obligations d' = l1 ++ f o :: l2)
    by (unfold settlement_obligations, d'; by rewrite tables_set_same).
  assert (Hob : settlement_obligations d = l1 ++ o :: l2) by exact Hl.
  assert (Hf : ∀ t, t ≠ TSettlementObligation → tables d' t = tables d t)
    by (intros t Ht; unfold d'; by rewrite tables_set_ne).
  pose proof (Hf TAccount ltac:(done)) as Ha. pose proof (Hf TPosting ltac:(done)) as Hp.
  pose proof (Hf TJournalEntry ltac:(done)) as He. destruct (Hfr o) as [Hs Hid].
  set (e := obligation_journal_entry_id o) in *.
  assert (Hoff : ∀ x, x ∈ l1 ++ l2 → obligation_journal_entry_id x ≠ e).
  { intros x Hx E. apply (Hne x Hx). f_equal. apply Honly; [|done]. rewrite Hob. set_solver. }
  assert (Hnone : ∀ (g : SettlementObligation → bool) l, l ⊆ l1 ++ l2 →
            existsb (λ x, (obligation_journal_entry_id x =? e) && g x) l = false).
  { intros g l Hs'. apply not_true_iff_false. intros (x & Hx & [E _]%andb_true_iff)%existsb_exists.
    apply Z.eqb_eq in E. apply (Hoff x); [|done]. by apply Hs', list_elem_of_In. }
  split_and!; [done| | |].
  - rewrite (settled_change d d' c e false (bool_decide (status = OBLIGATION_CONFIRMED))); [| done|done| | |].
    + case_bool_decide; cbn; lia.
    + intros p Hpe. unfold counts_as_settled, has_obligation, has_confirmed_obligation.
      rewrite Hob, Hob', !existsb_app. cbn. rewrite Hid. fold e.
      destruct (Z.eqb_spec e (posting_journal_entry_id p)); [congruence|]. done.
    + intros p Hpe. unfold counts_as_settled, has_obligation, has_confirmed_obligation.
      rewrite Hpe, Hob, !existsb_app. cbn. fold e. rewrite Z.eqb_refl, Hpend. cbn. rewrite orb_true_r. cbn.
      by rewrite !Hnone by set_solver.
    + intros p Hpe. unfold counts_as_settled, has_obligation, has_confirmed_obligation.
      rewrite Hpe, Hob', !existsb_app. cbn. rewrite Hid, Hs, Z.eqb_refl. cbn. rewrite orb_true_r. cbn.
      rewrite !Hnone by set_solver. cbn. by rewrite orb_false_r.
  - unfold cash_balance, postings. rewrite Hp. apply f_equal. apply filter_iff. intros p _.
    unfold on_cash, posting_role, account_by_id, accounts. by rewrite Ha.
  - intros type. unfold unsettled_quanta.
    assert (∀ o, obligation_owner d' o = obligation_owner d o) as Hown
      by (intros x; unfold obligation_owner, account_by_id, accounts; by rewrite Ha).
    assert (∀ o, obligation_entry_type d' o = obligation_entry_type d o) as Het
      by (intros x; unfold obligation_entry_type, journal_entries; by rewrite He).
    rewrite (filter_iff _ (λ o, obligation_owner d o = Some c ∧ obligation_status o = OBLIGATION_PENDING ∧
                  obligation_entry_type d o = Some type) (settlement_obligations d'))
      by (intros x _; by rewrite Hown, Het).
    rewrite Hob, Hob', !(cons_middle _ l1), !filter_app, !sum_by_app, !unsettled_filter, Hs.
    rewrite bool_decide_eq_false_2 by done. rewrite bool_decide_eq_true_2 by done. lia.
Qed.

(** ** Programs that leave the ledger, accounts aside *)

Lemma same_ledger_frame d0 d d' :
  (∀ t, t ∈ ledger_tables → tables d' t = tables d t) → same_ledger d0 d → same_ledger d0 d'.
Proof.
  unfold ledger_tables. intros Hf (H1 & H2 & H3 & H4).
  unfold same_ledger, accounts, journal_entries, postings, settlement_obligations.
  rewrite (Hf TAccount), (Hf TJournalEntry), (Hf TPosting), (Hf TSettlementObligation) by set_solver.
  by split_and!.
Qed.

Lemma same_add_account d0 a : preserves (same_ledger d0) (add TAccount a).
Proof.
  intros d u d' (H1 & H2 & H3 & H4) [_ ->]%run_add_Ok. split_and!; [|done..].
  unfold accounts, insert_row. rewrite tables_set_same. etrans; [exact H1|]. by apply prefix_app_r.
Qed.

Lemma same_other {A} d0 ts (m : prog A) :
  writes ts m → forallb (λ t, bool_decide (t ∉ ledger_tables)) ts = true → preserves (same_ledger d0) m.
Proof.
  intros Hw Hts. eapply (preserves_frame _ ts); [|done]. intros d d' Hf. apply same_ledger_frame.
  intros t Ht. apply Hf. intros Hin. rewrite forallb_forall in Hts.
  apply list_elem_of_In in Hin. specialize (Hts t Hin). by apply bool_decide_eq_true in Hts.
Qed.

#[export] Hint Resolve same_add_account : preserves.
#[export] Hint Extern 1 (preserves (same_ledger _) uuid4) => apply (same_other _ []); [apply writes_uuid4|done] : preserves.
#[export] Hint Extern 1 (preserves (same_ledger _) (add ?t _)) =>
  apply (same_other _ [t]); [apply writes_add; set_solver|done] : preserves.
#[export] Hint Extern 1 (preserves (same_ledger _) (try_add ?t _)) =>
  apply (same_other _ [t]); [apply writes_try_add; set_solver|done] : preserves.
#[export] Hint Extern 1 (preserves (same_ledger _) (update ?t _ _)) =>
  apply (same_other _ [t]); [apply writes_update; set_solver|done] : preserves.

Lemma same_account_create d0 role c s : preserves (same_ledger d0) (account_create role c s).
Proof. unfold account_create. preserves_auto. Qed.
#[export] Hint Resolve same_account_create : preserves.

Lemma same_get_or_create d0 c role s : preserves (same_ledger d0) (get_or_create_customer_account c role s).
Proof. unfold get_or_create_customer_account. preserves_auto. Qed.

Lemma same_require_account d0 c role : preserves (same_ledger d0) (require_customer_account c role).
Proof. unfold require_customer_account. preserves_auto. Qed.

Lemma same_house_account d0 role : preserves (same_ledger d0) (get_or_create_house_account role).
Proof. unfold get_or_create_house_account. preserves_auto. Qed.

Lemma same_inbound_event d0 s k p : preserves (same_ledger d0) (record_inbound_event s k p).
Proof. unfold record_inbound_event. preserves_auto. Qed.

Lemma same_acquire d0 c : preserves (same_ledger d0) (acquire_cash_lock c).
Proof. unfold acquire_cash_lock. preserves_auto. Qed.

#[export] Hint Resolve same_get_or_create same_require_account same_house_account same_inbound_event
  same_acquire : preserves.

(** A step that leaves the ledger, with the facts that survive it. *)
Lemma same_step {A} (m : prog A) d a d' :
  preserves (same_ledger d) m → ledger_ok d → integrity d → preserves ledger_ok m →
  run m d = Ok (a, d') → same_ledger d d' ∧ ledger_ok d' ∧ integrity d'.
Proof.
  intros Hs Hok Hd Hpres Hr. split_and!.
  - exact (Hs d a d' (reflexivity d) Hr).
  - exact (Hpres d a d' Hok Hr).
  - exact (run_integrity _ _ _ _ Hd Hr).
Qed.

Lemma select_one d c role s a :
  scalar_one_or_none (select_accounts d (Some c) role s) = Ok (Some a) →
  a ∈ accounts d ∧ account_customer_id a = Some c ∧ account_role a = role.
Proof.
  intros E%scalar_one_or_none_Some. assert (a ∈ select_accounts d (Some c) role s) as Hin by (rewrite E; set_solver).
  apply list_elem_of_filter in Hin as [(? & ? & _) ?]. done.
Qed.

(** The account a lookup returns is in the ledger afterwards, with its owner and role. *)
Lemma require_account_Ok c role d a d' :
  run (require_customer_account c role) d = Ok (a, d') →
  d' = d ∧ a ∈ accounts d ∧ account_customer_id a = Some c ∧ account_role a = role.
Proof.
  unfold require_customer_account. intros ([b|] & d1 & [Hs <-]%run_queries_Ok & H)%run_bind_Ok; [|done].
  apply run_ret_Ok in H as [<- <-]. apply select_one in Hs. by split.
Qed.

Lemma account_create_Ok role c s d a d' :
  run (account_create role c s) d = Ok (a, d') →
  account_customer_id a = c ∧ account_role a = role ∧ account_security_id a = s ∧
  account_dimension a = role_dimension role ∧ tables d' = tables d.
Proof. unfold account_create. intros Hr. by inv_run. Qed.

Lemma get_or_create_Ok c role s d a d' :
  run (get_or_create_customer_account c role s) d = Ok (a, d') →
  a ∈ accounts d' ∧ account_customer_id a = Some c ∧ account_role a = role.
Proof.
  unfold get_or_create_customer_account. intros ([b|] & d1 & [Hs <-]%run_queries_Ok & H)%run_bind_Ok.
  - apply run_ret_Ok in H as [<- <-]. by apply select_one in Hs.
  - apply run_bind_Ok in H as (b & d2 & (Hc & Hr & _)%account_create_Ok & H).
    apply run_bind_Ok in H as (u & d3 & [_ ->]%run_add_Ok & [<- <-]%run_ret_Ok).
    split; [|done]. unfold accounts, insert_row. rewrite tables_set_same. set_solver.
Qed.

(** The cash money of the two legs of a payment. *)
Lemma leg_on_cash_In d c a leg :
  integrity d → a ∈ accounts d → leg_account_id leg = account_id a →
  leg_on_cash d c leg = bool_decide (account_customer_id a = Some c) && bool_decide (account_role a = CASH).
Proof. intros Hd Ha Hl. unfold leg_on_cash. by rewrite Hl, account_by_id_In. Qed.

(** Withdrawable and investable cash are the documented sums, exactly:
    withdrawable is settled cash minus holds, investable adds the pending sale
    and deposit proceeds and subtracts open buys and holds; so the two differ
    by the unsettled inflows less the open buys. *)
Theorem cash_policy_formulas `{HoldsProvider} c d w i h o :
  withdrawable c d = Ok w → investable c d = Ok i → holds c d = Ok h → open_buy_commitments c d = Ok o →
  quanta w = settled_quanta c d - quanta h ∧
  quanta i = settled_quanta c d + unsettled_quanta TRADE_SELL c d + unsettled_quanta DEPOSIT c d
             - quanta o - quanta h ∧
  quanta i - quanta w = unsettled_quanta TRADE_SELL c d + unsettled_quanta DEPOSIT c d - quanta o.
Proof.
  intros Hw Hi Hh Ho. unfold withdrawable in Hw. unfold investable in Hi. rewrite Hh in *. rewrite Ho in Hi.
  apply bind_Ok in Hw as (s & Hs & Hw). cbn in Hw. apply q_sub_Ok in Hw as [_ Hw].
  rewrite Hs in Hi. cbn [mbind result_bind] in Hi.
  apply bind_Ok in Hi as (sales & Hsales & Hi). apply bind_Ok in Hi as (deps & Hdeps & Hi).
  apply bind_Ok in Hi as (t1 & H1 & Hi). apply bind_Ok in Hi as (t2 & H2 & Hi).
  apply bind_Ok in Hi as (t3 & H3 & Hi).
  apply q_add_Ok in H1 as [_ H1]. apply q_add_Ok in H2 as [_ H2].
  apply q_sub_Ok in H3 as [_ H3]. apply q_sub_Ok in Hi as [_ Hi].
  apply settled_cash_Ok in Hs. apply unsettled_Ok in Hsales, Hdeps. lia.
Qed.

(** The order subsystem with nothing outstanding, for the witnesses. *)
Definition no_holds : HoldsProvider :=
  {| holds := λ _ _, Ok zero; open_buy_commitments := λ _ _, Ok zero |}.

Lemma cash_policy_formulas_witness :
  quanta (@QD MoneyD 0) - quanta (@QD MoneyD 0) =
  unsettled_quanta TRADE_SELL 7 sample_ledger + unsettled_quanta DEPOSIT 7 sample_ledger - 0.
Proof.
  exact (proj2 (proj2 (cash_policy_formulas (H := no_holds) 7 sample_ledger (QD 0) (QD 0) zero zero
    eq_refl eq_refl eq_refl eq_refl))).
Defined.
