(* ===== verification/Funding.v ===== *)
(** * Identity and funding ([services/identity])

    Identity verification, account approval, bank links, deposits with their
    ACH returns, and withdrawals.  The identity and bank providers are
    parameters: only the handles they return are used. *)

From S2P Require Import Prelude PyDecimal MoneyTypes Calendar Store Schema Ledger CashPolicy.
From Stdlib Require Import String.
From stdpp Require Import strings.
Open Scope Z_scope.

(** ** Customers *)

Definition customer_by_id (d : db) (id : uuid) : option Customer :=
  head (filter (λ c, customer_id c = id) (customers d)).

(** The value of a [KycStatus] or an [AccountApprovalStatus]. *)
Definition approval_value (a : Approval) : string :=
  match a with
  | APPROVAL_PENDING => "pending"
  | APPROVAL_APPROVED => "approved"
  | APPROVAL_REJECTED => "rejected"
  end.

(** The eligibility gate the funding and order services share, with the reason
    the exception carries: both approvals must be [approved]. *)
Definition ineligibility (d : db) (customer : uuid) : option string :=
  match customer_by_id d customer with
  | None => Some "customer_not_found"
  | Some c =>
      if negb (bool_decide (customer_kyc_status c = APPROVAL_APPROVED))
      then Some ("kyc_status_" +:+ approval_value (customer_kyc_status c))
      else if negb (bool_decide (customer_account_approval_status c = APPROVAL_APPROVED))
      then Some ("account_approval_status_" +:+ approval_value (customer_account_approval_status c))
      else None
  end.

Definition set_kyc_status (s : Approval) (c : Customer) : Customer :=
  {| customer_id := customer_id c; customer_email := customer_email c;
     customer_password_hash := customer_password_hash c; customer_kyc_status := s;
     customer_account_approval_status := customer_account_approval_status c;
     customer_created_at := customer_created_at c; customer_display_name := customer_display_name c;
     customer_phone := customer_phone c; customer_mailing_address := customer_mailing_address c |}.

Definition set_account_approval (s : Approval) (c : Customer) : Customer :=
  {| customer_id := customer_id c; customer_email := customer_email c;
     customer_password_hash := customer_password_hash c; customer_kyc_status := customer_kyc_status c; customer_account_approval_status := s;
     customer_created_at := customer_created_at c; customer_display_name := customer_display_name c;
     customer_phone := customer_phone c; customer_mailing_address := customer_mailing_address c |}.

(** ** Identity verification ([KycService]) *)

(** [map_verification_session_status] *)
Definition map_verification_session_status (stripe_status : string) (attempt_number max_attempts : Z)
    : result KycSessionStatus :=
  if String.eqb stripe_status "verified" then Ok KYC_APPROVED
  else if String.eqb stripe_status "canceled" then Ok KYC_REJECTED
  else if String.eqb stripe_status "requires_input" || String.eqb stripe_status "processing" then
    if String.eqb stripe_status "requires_input" && (max_attempts <=? attempt_number)
    then Ok KYC_REJECTED else Ok KYC_PENDING
  else Raise ValueError.

(** [latest_for_customer]: the session with the highest attempt number. *)
Definition latest_kyc_session (d : db) (customer : uuid) : option KycSession :=
  max_by kyc_attempt_number (filter (λ k, kyc_customer_id k = customer) (kyc_sessions d)).

(** [start_verification]: the port returns the provider's session id. *)
Definition start_verification (kyc_port : option (uuid → string)) (max_attempts : Z) (customer : uuid)
    : prog string :=
  found ← gets (λ d, customer_by_id d customer);
  match found with
  | None => throw CustomerNotFoundError
  | Some c =>
      latest ← gets (λ d, latest_kyc_session d customer);
      require (negb (bool_decide (customer_kyc_status c = APPROVAL_REJECTED) &&
                     match latest with Some k => max_attempts <=? kyc_attempt_number k | None => false end))
        KycLockedError ;;
      match kyc_port with
      | None => throw KycPortNotConfiguredError
      | Some create_verification_session =>
          let provider_session_id := create_verification_session customer in
          id ← uuid4;
          now ← gets db_now;
          add TKycSession
            {| kyc_id := id; kyc_customer_id := customer; kyc_provider_session_id := provider_session_id;
               kyc_status := KYC_PENDING;
               kyc_attempt_number := match latest with None => 1 | Some k => kyc_attempt_number k + 1 end;
               kyc_created_at := now; kyc_resolved_at := None |} ;;
          mret provider_session_id
      end
  end.

(** [SqlKycSessionRepository.resolve] *)
Definition resolve_kyc_session (k : KycSession) (status : KycSessionStatus) (resolved_at : instant) : prog () :=
  require (bool_decide (kyc_status k = KYC_PENDING)) KycSessionAlreadyResolvedError ;;
  update TKycSession (λ r, kyc_id r =? kyc_id k) (λ r,
    {| kyc_id := kyc_id r; kyc_customer_id := kyc_customer_id r;
       kyc_provider_session_id := kyc_provider_session_id r; kyc_status := status;
       kyc_attempt_number := kyc_attempt_number r; kyc_created_at := kyc_created_at r;
       kyc_resolved_at := Some resolved_at |}).

(** [apply_verification_verdict] *)
Definition apply_verification_verdict (max_attempts : Z) (now : instant) (provider_session_id stripe_status : string)
    : prog (option uuid) :=
  found ← queries (λ d, scalar_one_or_none
    (filter (λ k, kyc_provider_session_id k = provider_session_id) (kyc_sessions d)));
  match found with
  | None => throw CustomerNotFoundError
  | Some k =>
      mapped ← lift (map_verification_session_status stripe_status (kyc_attempt_number k) max_attempts);
      if bool_decide (mapped = KYC_PENDING) then mret None
      else
        resolve_kyc_session k mapped now ;;
        customer ← gets (λ d, customer_by_id d (kyc_customer_id k));
        match customer with
        | None => throw CustomerNotFoundError
        | Some c =>
            update TCustomer (λ r, customer_id r =? customer_id c)
              (set_kyc_status (if bool_decide (mapped = KYC_APPROVED) then APPROVAL_APPROVED
                               else APPROVAL_REJECTED)) ;;
            mret (Some (kyc_customer_id k))
        end
  end.

(** [sync_latest_verification]: the port returns the provider's status text. *)
Definition sync_latest_verification (kyc_port : option (string → string)) (max_attempts : Z) (now : instant)
    (customer : uuid) : prog (option uuid) :=
  latest ← gets (λ d, latest_kyc_session d customer);
  match latest with
  | None => mret None
  | Some k =>
      if negb (bool_decide (kyc_status k = KYC_PENDING)) then mret None
      else match kyc_port with
           | None => throw KycPortNotConfiguredError
           | Some retrieve_verification_session =>
               apply_verification_verdict max_attempts now (kyc_provider_session_id k)
                 (retrieve_verification_session (kyc_provider_session_id k))
           end
  end.

(** ** Account approval ([AccountApprovalService]) *)

(** [_ensure_ledger_accounts] *)
Definition ensure_ledger_accounts (customer : uuid) : prog () :=
  for_each [CASH; CUSTOMER_EQUITY] (λ role,
    existing ← queries (λ d, scalar_one_or_none (select_accounts d (Some customer) role None));
    match existing with
    | Some _ => mret tt
    | None => account ← account_create role (Some customer) None; add TAccount account
    end) ;;
  lock ← queries (λ d, scalar_one_or_none (filter (λ l, cash_lock_customer_id l = customer) (cash_locks d)));
  match lock with
  | Some _ => mret tt
  | None => create_cash_lock customer
  end.

(** [approve_if_eligible] *)
Definition approve_if_eligible (customer : uuid) : prog bool :=
  found ← gets (λ d, customer_by_id d customer);
  match found with
  | None => throw ValueError
  | Some c =>
      if negb (bool_decide (customer_kyc_status c = APPROVAL_APPROVED)) then mret false
      else if bool_decide (customer_account_approval_status c = APPROVAL_APPROVED) then mret false
      else
        ensure_ledger_accounts customer ;;
        update TCustomer (λ r, customer_id r =? customer_id c) (set_account_approval APPROVAL_APPROVED) ;;
        mret true
  end.

(** ** Bank links ([BankLinkService], [SqlBankLinkRepository]) *)

Definition link_is_current (l : BankLink) : bool :=
  bool_decide (link_status l = LINK_ACTIVE ∨ link_status l = LINK_REQUIRES_REAUTH).

(** [current_for_customer] *)
Definition current_link (d : db) (customer : uuid) : result (option BankLink) :=
  scalar_one_or_none (filter (λ l, link_customer_id l = customer ∧ link_is_current l = true) (bank_links d)).

Definition set_link_status (s : BankLinkStatus) (l : BankLink) : BankLink :=
  {| link_id := link_id l; link_customer_id := link_customer_id l; link_plaid_item_id := link_plaid_item_id l;
     link_plaid_access_token := link_plaid_access_token l; link_status := s; link_linked_at := link_linked_at l |}.

(** [supersede_and_activate]: one flush, its UPDATEs before its INSERT. *)
Definition supersede_and_activate (new_link : BankLink) : prog () :=
  update TBankLink (λ l, (link_customer_id l =? link_customer_id new_link) && link_is_current l)
    (set_link_status LINK_SUPERSEDED) ;;
  add TBankLink new_link.

(** [create_link]: the port exchanges the public token for the item id and access token. *)
Definition create_link (bank_port : option (string → string * string)) (customer : uuid)
    (plaid_public_token : string) : prog BankLink :=
  match bank_port with
  | None => throw BankPortNotConfiguredError
  | Some exchange_public_token =>
      let '(item, token) := exchange_public_token plaid_public_token in
      id ← uuid4;
      now ← gets db_now;
      let new_link := {| link_id := id; link_customer_id := customer; link_plaid_item_id := item;
                         link_plaid_access_token := token; link_status := LINK_ACTIVE;
                         link_linked_at := now |} in
      supersede_and_activate new_link ;;
      mret new_link
  end.

(** [apply_item_login_required] *)
Definition apply_item_login_required (plaid_item_id : string) : prog () :=
  found ← queries (λ d, scalar_one_or_none
    (filter (λ l, link_plaid_item_id l = plaid_item_id) (bank_links d)));
  match found with
  | None => throw BankLinkNotFoundError
  | Some l =>
      if bool_decide (link_status l = LINK_ACTIVE)
      then update TBankLink (λ r, link_id r =? link_id l) (set_link_status LINK_REQUIRES_REAUTH)
      else mret tt
  end.

(** ** What deposits and withdrawals share *)

(** [_check_funding_eligibility] *)
Definition check_funding_eligibility (customer : uuid) : prog () :=
  reason ← gets (λ d, ineligibility d customer);
  match reason with
  | Some r => throw (FundingNotEligibleError r)
  | None => mret tt
  end.

(** [_check_active_bank_link] *)
Definition check_active_bank_link (customer : uuid) : prog BankLink :=
  found ← queries (λ d, current_link d customer);
  match found with
  | None => throw NoActiveBankLinkError
  | Some l =>
      require (negb (bool_decide (link_status l = LINK_REQUIRES_REAUTH))) BankReauthRequiredError ;;
      mret l
  end.

(** [DepositService._account_for]: only the receivable account is created on demand. *)
Definition account_for (customer : uuid) (role : AccountRole) : prog Account :=
  found ← queries (λ d, scalar_one_or_none (select_accounts d (Some customer) role None));
  match found with
  | Some account => mret account
  | None =>
      if bool_decide (role = CUSTOMER_RECEIVABLE) then
        account ← account_create role (Some customer) None;
        add TAccount account ;;
        mret account
      else throw RuntimeError
  end.

(** [deposited_on] *)
Definition deposited_on (customer : uuid) (effective_date : date) (d : db) : result Money :=
  sql_sum (omap posting_amount_money
    (filter (λ p, on_cash d customer p = true ∧
                  existsb (λ e, (entry_id e =? posting_journal_entry_id p) &&
                                bool_decide (entry_type e = DEPOSIT) &&
                                (entry_effective_date e =? effective_date)) (journal_entries d) = true)
            (postings d))).

(** [check_deposit_caps] *)
Definition check_deposit_caps (amount deposited_today cap_per_transaction cap_per_day : Money) : result () :=
  ensure (negb (q_ltb cap_per_transaction amount)) (DepositCapExceededError "per_transaction") ;;
  total ← q_add deposited_today amount;
  ensure (negb (q_ltb cap_per_day total)) (DepositCapExceededError "per_day").

(** [build_ach_return_correction_legs] *)
Definition build_ach_return_correction_legs (cash receivable : uuid) (amount : Money) : result (list PostingLeg) :=
  negated ← q_neg amount;
  Ok [money_leg cash negated; money_leg receivable amount].

(** [_record_inbound_event] of the deposit service. *)
Definition funding_event (customer : uuid) (amount : Money) (kind : string) : prog InboundEvent :=
  record_inbound_event PLAID kind
    [("kind", JStr kind); ("customer_id", JStr (uuid_str customer)); ("amount", JStr (q_str amount))].

Definition ACH_SETTLEMENT_CALENDAR_DAYS : Z := 2.

(** ** Deposits ([DepositService]) *)

Record DepositResult := {
  deposit_journal_entry_id : uuid;
  deposit_settlement_obligation_id : uuid;
  deposit_expected_settlement_date : date;
}.

(** [initiate]; [now] is the service's clock. *)
Definition initiate_deposit (cap_per_transaction cap_per_day : Money) (now : instant)
    (customer : uuid) (amount : Money) : prog DepositResult :=
  check_funding_eligibility customer ;;
  check_active_bank_link customer ;;
  acquire_cash_lock customer ;;
  let today := date_of_local now in
  deposited_today ← queries (deposited_on customer today);
  lift (check_deposit_caps amount deposited_today cap_per_transaction cap_per_day) ;;
  cash_account ← account_for customer CASH;
  equity_account ← account_for customer CUSTOMER_EQUITY;
  entry_event ← funding_event customer amount "deposit_initiated";
  negated ← lift (q_neg amount);
  entry ← post DEPOSIT today (event_id entry_event)
    [money_leg (account_id cash_account) amount; money_leg (account_id equity_account) negated] None;
  obligation_event ← funding_event customer amount "deposit_settlement_expected";
  expected ← lift (date_add today ACH_SETTLEMENT_CALENDAR_DAYS);
  obligation ← add_obligation (entry_id entry) (account_id cash_account) amount expected
    (event_id obligation_event);
  mret {| deposit_journal_entry_id := entry_id entry;
          deposit_settlement_obligation_id := obligation_id obligation;
          deposit_expected_settlement_date := expected |}.

(** [apply_ach_return] *)
Definition apply_ach_return (now : instant) (settlement_obligation_id : uuid) : prog () :=
  found ← gets (λ d, obligation_by_id d settlement_obligation_id);
  match found with
  | None => throw SettlementObligationNotFoundError
  | Some obligation =>
      account ← gets (λ d, account_by_id d (obligation_account_id obligation));
      match account with
      | Some cash_account =>
          match account_customer_id cash_account with
          | Some customer =>
              fail_obligation obligation now "ach_return" ;;
              receivable_account ← account_for customer CUSTOMER_RECEIVABLE;
              correction_event ← funding_event customer (obligation_amount_money obligation) "deposit_ach_return";
              legs ← lift (build_ach_return_correction_legs (account_id cash_account)
                             (account_id receivable_account) (obligation_amount_money obligation));
              post CORRECTION (date_of_local now) (event_id correction_event) legs
                (Some "ACH return on bounced deposit (S2 §5.2 step 4)") ;;
              mret tt
          | None => throw SettlementObligationNotFoundError
          end
      | None => throw SettlementObligationNotFoundError
      end
  end.

(** ** Withdrawals ([WithdrawalService]) *)

Record WithdrawalResult := {
  withdrawal_journal_entry_id : uuid;
  withdrawal_destination_bank_link_id : uuid;
}.

(** [initiate] *)
Definition initiate_withdrawal `{HoldsProvider} (now : instant) (customer : uuid) (amount : Money)
    : prog WithdrawalResult :=
  check_funding_eligibility customer ;;
  destination ← check_active_bank_link customer;
  acquire_cash_lock customer ;;
  available ← queries (withdrawable customer);
  require (negb (q_ltb available amount)) InsufficientWithdrawableCashError ;;
  cash_account ← require_customer_account customer CASH;
  equity_account ← require_customer_account customer CUSTOMER_EQUITY;
  event ← record_inbound_event PLAID "withdrawal_initiated"
    [("customer_id", JStr (uuid_str customer)); ("amount", JStr (q_str amount))];
  negated ← lift (q_neg amount);
  entry ← post WITHDRAWAL (date_of_local now) (event_id event)
    [money_leg (account_id cash_account) negated; money_leg (account_id equity_account) amount] None;
  mret {| withdrawal_journal_entry_id := entry_id entry;
          withdrawal_destination_bank_link_id := link_id destination |}.

(** ** The cash page ([FundingSummaryService]) *)

(** [_outstanding_receivable] *)
Definition outstanding_receivable (customer : uuid) (d : db) : result Money :=
  sql_sum (omap posting_amount_money
    (filter (λ p, posting_customer_id p = Some customer ∧ posting_role d p = Some CUSTOMER_RECEIVABLE)
            (postings d))).

(** ** Lemmas *)

(** A payment: one leg on the customer's cash account, one elsewhere. *)
Lemma payment_on_cash d customer c a b x y (f : Z → Z) :
  integrity d → a ∈ accounts d → account_customer_id a = Some customer → account_role a = CASH →
  b ∈ accounts d → account_role b ≠ CASH →
  sum_by (λ l, f (leg_money l))
    (filter (λ leg, leg_on_cash d c leg = true) [money_leg (account_id a) x; money_leg (account_id b) y]) =
  if bool_decide (customer = c) then f (quanta x) else 0.
Proof.
  intros Hd Ha Hc Hr Hb Hbr.
  pose proof (leg_on_cash_In d c a (money_leg (account_id a) x) Hd Ha eq_refl) as H1.
  pose proof (leg_on_cash_In d c b (money_leg (account_id b) y) Hd Hb eq_refl) as H2.
  rewrite Hc, Hr, (bool_decide_eq_true_2 (CASH = CASH)), andb_true_r in H1 by done.
  rewrite (bool_decide_eq_false_2 (account_role b = CASH)), andb_false_r in H2 by done.
  rewrite !filter_cons, filter_nil, H1, H2. rewrite (decide_False (P := false = true)) by done.
  do 2 case_bool_decide; try congruence; [by rewrite decide_True, sum_by_cons, sum_by_nil, Z.add_0_r by done|].
  by rewrite decide_False by done.
Qed.

Lemma same_check_eligibility d0 c : preserves (same_ledger d0) (check_funding_eligibility c).
Proof. unfold check_funding_eligibility. preserves_auto. Qed.

Lemma same_check_link d0 c : preserves (same_ledger d0) (check_active_bank_link c).
Proof. unfold check_active_bank_link. preserves_auto. Qed.

Lemma same_account_for d0 c role : preserves (same_ledger d0) (account_for c role).
Proof. unfold account_for. preserves_auto. Qed.

Lemma same_funding_event d0 c m k : preserves (same_ledger d0) (funding_event c m k).
Proof. unfold funding_event. preserves_auto. Qed.

#[export] Hint Resolve same_check_eligibility same_check_link same_account_for same_funding_event : preserves.

Lemma preserves_check_eligibility c : preserves ledger_ok (check_funding_eligibility c).
Proof. unfold check_funding_eligibility. preserves_auto. Qed.

Lemma preserves_check_link c : preserves ledger_ok (check_active_bank_link c).
Proof. unfold check_active_bank_link. preserves_auto. Qed.

Lemma preserves_account_for c role : preserves ledger_ok (account_for c role).
Proof. unfold account_for. preserves_auto. Qed.

Lemma preserves_funding_event c m k : preserves ledger_ok (funding_event c m k).
Proof. unfold funding_event. preserves_auto. Qed.

#[export] Hint Resolve preserves_check_eligibility preserves_check_link preserves_account_for
  preserves_funding_event : preserves.

(** Every funding service keeps the ledger invariant. *)
Lemma preserves_initiate_deposit p q now c m : preserves ledger_ok (initiate_deposit p q now c m).
Proof. unfold initiate_deposit. preserves_auto. Qed.

Lemma preserves_apply_ach_return now o : preserves ledger_ok (apply_ach_return now o).
Proof. unfold apply_ach_return. preserves_auto. Qed.

Lemma preserves_initiate_withdrawal `{HoldsProvider} now c m :
  preserves ledger_ok (initiate_withdrawal now c m).
Proof. unfold initiate_withdrawal. preserves_auto. Qed.

Lemma preserves_approve_if_eligible c : preserves ledger_ok (approve_if_eligible c).
Proof. unfold approve_if_eligible, ensure_ledger_accounts, create_cash_lock. preserves_auto. Qed.

Lemma check_eligibility_Ok c d u d' :
  run (check_funding_eligibility c) d = Ok (u, d') → d' = d ∧ ineligibility d c = None.
Proof.
  unfold check_funding_eligibility. intros ([r|] & d1 & [Hr <-]%run_gets_Ok & H)%run_bind_Ok; [done|].
  by apply run_ret_Ok in H as [_ <-].
Qed.

Lemma check_link_Ok c d l d' :
  run (check_active_bank_link c) d = Ok (l, d') →
  d' = d ∧ current_link d c = Ok (Some l) ∧ link_status l ≠ LINK_REQUIRES_REAUTH.
Proof.
  unfold check_active_bank_link. intros ([r|] & d1 & [Hr <-]%run_queries_Ok & H)%run_bind_Ok; [|done].
  apply run_bind_Ok in H as (u & d2 & [Hq <-]%run_require_Ok & [<- <-]%run_ret_Ok).
  split_and!; try done. by apply negb_true_iff, bool_decide_eq_false in Hq.
Qed.

Lemma acquire_Ok c d u d' : run (acquire_cash_lock c) d = Ok (u, d') → d' = d.
Proof. unfold acquire_cash_lock. intros Hr. inv_run. by case_match; inv_run. Qed.

Lemma account_for_Ok c role d a d' :
  run (account_for c role) d = Ok (a, d') →
  a ∈ accounts d' ∧ account_customer_id a = Some c ∧ account_role a = role.
Proof.
  unfold account_for. intros ([b|] & d1 & [Hs <-]%run_queries_Ok & H)%run_bind_Ok.
  - apply run_ret_Ok in H as [<- <-]. by apply select_one in Hs.
  - destruct (bool_decide _); [|done].
    apply run_bind_Ok in H as (b & d2 & (Hc & Hr & _)%account_create_Ok & H).
    apply run_bind_Ok in H as (u & d3 & [_ ->]%run_add_Ok & [<- <-]%run_ret_Ok).
    split; [|done]. unfold accounts, insert_row. rewrite tables_set_same. set_solver.
Qed.

Lemma same_accounts d d' a : same_ledger d d' → a ∈ accounts d → a ∈ accounts d'.
Proof. intros ([k ->] & _) Ha. set_solver. Qed.

(** Posting a payment moves the customer's cash by the amount of its cash leg,
    and nobody else's. *)
Lemma post_payment type date source memo customer a b x y d entry d' :
  ledger_ok d → integrity d →
  a ∈ accounts d → account_customer_id a = Some customer → account_role a = CASH →
  b ∈ accounts d → account_role b ≠ CASH →
  run (post type date source [money_leg (account_id a) x; money_leg (account_id b) y] memo) d = Ok (entry, d') →
  ledger_ok d' ∧ integrity d' ∧ accounts d' = accounts d ∧ has_obligation d' (entry_id entry) = false ∧
  entry_type entry = type ∧ journal_entries d' = journal_entries d ++ [entry] ∧
  (∀ e, e ∈ journal_entries d → entry_id e ≠ entry_id entry) ∧
  settlement_obligations d' = settlement_obligations d ∧
  ∀ c, settled_quanta c d' = settled_quanta c d + (if bool_decide (customer = c) then quanta x else 0) ∧
       cash_balance c d' = cash_balance c d + (if bool_decide (customer = c) then quanta x else 0) ∧
       (∀ type', unsettled_quanta type' c d' = unsettled_quanta type' c d) ∧
       cash_inflow d' c (entry_id entry) = (if bool_decide (customer = c) then Z.max 0 (quanta x) else 0).
Proof.
  intros Hok Hd Ha Hac Har Hb Hbr Hrun. pose proof (write_Ok _ _ _ _ _ _ _ _ _ _ Hrun) as Hw.
  pose proof (preserves_post _ _ _ _ _ d entry d' Hok Hrun) as Hok'.
  pose proof (run_integrity _ _ _ _ Hd Hrun) as Hd'.
  pose proof Hw as [He Hnew Ht _ _ _ _ _ _ Hf].
  assert (Hacc : accounts d' = accounts d) by (unfold accounts; by rewrite Hf).
  split_and!; try done.
  - by apply (figures_written _ _ _ _ _ _ _ _ customer Hok Hw).
  - intros e Hin. by apply Hnew.
  - unfold settlement_obligations. by rewrite Hf.
  - intros c. destruct (figures_written _ _ _ _ _ _ _ _ c Hok Hw) as (H1 & H2 & H3 & H4 & _).
    assert (legs_on_cash d c [money_leg (account_id a) x; money_leg (account_id b) y] =
            if bool_decide (customer = c) then quanta x else 0) as Hl
      by exact (payment_on_cash d customer c a b x y (λ z, z) Hd Ha Hac Har Hb Hbr).
    rewrite Hl in H1, H2. rewrite (payment_on_cash d customer c a b x y (Z.max 0) Hd Ha Hac Har Hb Hbr) in H4.
    by split_and!.
Qed.

(** ** Properties *)

(** C3. A withdrawal never overdraws: when [initiate] succeeds the customer was
    eligible and linked, the amount was at most settled cash minus holds, and
    settled cash falls by exactly the amount (at once, pending or not), so it
    still covers the holds; nobody else's cash moves, and the ledger stays
    balanced. *)
Theorem withdrawal_never_overdraws `{HoldsProvider} now customer amount d res d' :
  ledger_ok d → integrity d →
  run (initiate_withdrawal now customer amount) d = Ok (res, d') →
  ineligibility d customer = None ∧
  (∃ link, current_link d customer = Ok (Some link) ∧ link_status link ≠ LINK_REQUIRES_REAUTH ∧
           withdrawal_destination_bank_link_id res = link_id link) ∧
  (∃ held, holds customer d = Ok held ∧
           quanta amount <= settled_quanta customer d - quanta held ∧
           quanta held <= settled_quanta customer d') ∧
  settled_quanta customer d' = settled_quanta customer d - quanta amount ∧
  (∀ c, c ≠ customer → settled_quanta c d' = settled_quanta c d) ∧
  (∀ type c, unsettled_quanta type c d' = unsettled_quanta type c d) ∧ ledger_ok d'.
Proof.
  intros Hok Hd Hrun. unfold initiate_withdrawal in Hrun.
  apply run_bind_Ok in Hrun as (u1 & d1 & [-> Hel]%check_eligibility_Ok & Hrun).
  apply run_bind_Ok in Hrun as (link & d1 & (-> & Hlink & Hauth)%check_link_Ok & Hrun).
  apply run_bind_Ok in Hrun as (u2 & d1 & ->%acquire_Ok & Hrun).
  apply run_bind_Ok in Hrun as (w & d1 & [Hw <-]%run_queries_Ok & Hrun).
  apply run_bind_Ok in Hrun as (u3 & d1 & [Hle <-]%run_require_Ok & Hrun).
  apply run_bind_Ok in Hrun as (a & d1 & (-> & Ha & Hac & Har)%require_account_Ok & Hrun).
  apply run_bind_Ok in Hrun as (b & d1 & (-> & Hb & Hbc & Hbr)%require_account_Ok & Hrun).
  apply run_bind_Ok in Hrun as (ev & d1 & Hev & Hrun).
  destruct (same_step _ d ev d1 (same_inbound_event _ _ _ _) Hok Hd (preserves_inbound_event _ _ _) Hev)
    as (Hsame & Hok1 & Hd1).
  apply run_bind_Ok in Hrun as (neg & d2 & [Hneg <-]%run_lift_Ok & Hrun).
  apply run_bind_Ok in Hrun as (entry & d2 & Hpost & [<- <-]%run_ret_Ok).
  apply q_neg_Ok in Hneg as [_ Hneg].
  destruct (post_payment _ _ _ _ customer a b neg amount d1 entry d2 Hok1 Hd1
    (same_accounts _ _ _ Hsame Ha) Hac Har (same_accounts _ _ _ Hsame Hb) ltac:(by rewrite Hbr) Hpost)
    as (Hok2 & _ & _ & _ & _ & _ & _ & _ & Hfig).
  assert (Hs : settled_quanta customer d2 = settled_quanta customer d - quanta amount).
  { destruct (Hfig customer) as (-> & _). rewrite bool_decide_eq_true_2, Hneg by done.
    destruct (figures_same d d1 customer Hok Hsame) as (-> & _). lia. }
  split_and!; try done; [by exists link| | |].
  - unfold withdrawable in Hw. apply bind_Ok in Hw as (s & Hs1 & Hw). apply bind_Ok in Hw as (held & Hh & Hw).
    apply q_sub_Ok in Hw as [_ Hw]. apply settled_cash_Ok in Hs1. exists held.
    unfold q_ltb in Hle. zbool. split_and!; [done|lia|lia].
  - intros c Hc. destruct (Hfig c) as (-> & _). rewrite bool_decide_eq_false_2 by done.
    destruct (figures_same d d1 c Hok Hsame) as (-> & _). lia.
  - intros type c. destruct (Hfig c) as (_ & _ & -> & _).
    by destruct (figures_same d d1 c Hok Hsame) as (_ & _ & -> & _).
Qed.

(** Customer 7, approved and linked, with 50 in settled cash. *)
Definition sample_customer : Customer :=
  set_account_approval APPROVAL_APPROVED (set_kyc_status APPROVAL_APPROVED (new_customer 7 "ada@example.com" "" 0)).

Definition sample_link : BankLink :=
  {| link_id := 60; link_customer_id := 7; link_plaid_item_id := "item"; link_plaid_access_token := "token";
     link_status := LINK_ACTIVE; link_linked_at := 0 |}.

Definition with_customer (d : db) : db :=
  set_table (H := trueup) TCustomer [sample_customer]
    (set_table (H := trueup) TBankLink [sample_link]
      (set_table (H := trueup) TCashLock [{| cash_lock_customer_id := 7 |}] d)).

Definition sample_funded : db := with_customer sample_posted.

Lemma with_customer_ok d : ledger_ok d → ledger_ok (with_customer d).
Proof. apply ledger_ok_frame. intros t Ht. unfold with_customer. rewrite !tables_set_ne; set_solver. Qed.

Lemma sample_funded_ok : ledger_ok sample_funded.
Proof. exact (with_customer_ok _ (preserves_post _ _ _ _ _ _ _ _ sample_ledger_ok sample_deposit_runs)). Qed.

Lemma sample_funded_integrity : integrity sample_funded.
Proof. apply integrity_check. intros []; vm_compute; reflexivity. Qed.

Definition sample_withdrawal : prog WithdrawalResult :=
  initiate_withdrawal (H := no_holds) 0 7 (QD 200000).

Definition sample_withdrawn : WithdrawalResult * db := run_or sample_withdrawal sample_funded (Build_WithdrawalResult 0 0).

Lemma sample_withdrawal_runs : run sample_withdrawal sample_funded = Ok (sample_withdrawn.1, sample_withdrawn.2).
Proof.
  rewrite <- surjective_pairing. apply run_or_Ok. vm_compute. reflexivity.
Qed.

Lemma withdrawal_never_overdraws_witness :
  settled_quanta 7 sample_withdrawn.2 = settled_quanta 7 sample_funded - 200000 ∧
  settled_quanta 7 sample_funded = 500000.
Proof.
  split; [|by vm_compute].
  exact (proj1 (proj2 (proj2 (proj2 (withdrawal_never_overdraws (H := no_holds) 0 7 (QD 200000) _ _ _
    sample_funded_ok sample_funded_integrity sample_withdrawal_runs))))).
Defined.

(** What a successful deposit leaves behind. *)
Record deposited (customer : uuid) (amount : Money) (d : db) (res : DepositResult) (d' : db) : Prop := {
  deposited_ledger : ledger_ok d' ∧ integrity d';
  deposited_obligation : ∃ o a, o ∈ settlement_obligations d' ∧
    obligation_id o = deposit_settlement_obligation_id res ∧
    obligation_journal_entry_id o = deposit_journal_entry_id res ∧
    obligation_status o = OBLIGATION_PENDING ∧ obligation_amount_money o = amount ∧
    obligation_account_id o = account_id a ∧ a ∈ accounts d' ∧ account_customer_id a = Some customer ∧
    account_role a = CASH ∧
    (∀ o', o' ∈ settlement_obligations d' →
       obligation_journal_entry_id o' = obligation_journal_entry_id o → o' = o) ∧
    (∀ c type, unsettled_amount d' type c o =
       if bool_decide (customer = c ∧ type = DEPOSIT) then quanta amount else 0);
  deposited_figures : ∀ c,
    let mine := if bool_decide (customer = c) then quanta amount else 0 in
    settled_quanta c d' = settled_quanta c d + mine - Z.max 0 mine ∧
    cash_balance c d' = cash_balance c d + mine ∧
    cash_inflow d' c (deposit_journal_entry_id res) = Z.max 0 mine ∧
    unsettled_quanta DEPOSIT c d' = unsettled_quanta DEPOSIT c d + mine ∧
    unsettled_quanta TRADE_SELL c d' = unsettled_quanta TRADE_SELL c d;
}.

Lemma entry_type_In d o e :
  journal_entries d = filter (λ e', entry_id e' ≠ obligation_journal_entry_id o) (journal_entries d) ++ [e] →
  entry_id e = obligation_journal_entry_id o → obligation_entry_type d o = Some (entry_type e).
Proof.
  intros Hl He. unfold obligation_entry_type. rewrite Hl, filter_app, filter_cons_True, filter_nil by done.
  rewrite list_filter_filter. replace (filter _ (journal_entries d)) with (@nil JournalEntry); [done|].
  symmetry. apply elem_of_nil_inv. intros x [[H1 H2] _]%list_elem_of_filter. done.
Qed.

Lemma has_obligation_false d e :
  has_obligation d e = false → ∀ o, o ∈ settlement_obligations d → obligation_journal_entry_id o ≠ e.
Proof.
  unfold has_obligation. intros Hno o Ho E. apply not_true_iff_false in Hno. apply Hno, existsb_exists.
  exists o. split; [by apply list_elem_of_In|by apply Z.eqb_eq].
Qed.

(** The tail of [initiate]: the entry, then its obligation. *)
(** The deposit's obligation as the unsettled sums count it. *)
Lemma unsettled_of_deposit dx l o a entry customer amount c type :
  integrity dx → a ∈ accounts dx → account_customer_id a = Some customer → entry_type entry = DEPOSIT →
  journal_entries dx = l ++ [entry] → (∀ e, e ∈ l → entry_id e ≠ entry_id entry) →
  obligation_journal_entry_id o = entry_id entry → obligation_account_id o = account_id a →
  obligation_amount_money o = amount →
  unsettled_amount dx type c o = if bool_decide (customer = c ∧ type = DEPOSIT) then quanta amount else 0.
Proof.
  intros Hdx Ha Hac Het Hje Hfresh Ho2 Ho3 <-. unfold unsettled_amount, obligation_owner.
  rewrite Ho3, account_by_id_In by done. cbn [mbind option_bind]. rewrite Hac, (entry_type_In dx o entry); [|..|by rewrite Ho2].
  - rewrite Het. case_bool_decide; case_bool_decide; naive_solver.
  - rewrite Hje, Ho2, filter_app. f_equal. rewrite filter_cons_False, filter_nil, app_nil_r by naive_solver.
    symmetry. apply filter_all. intros e He. by apply Hfresh.
Qed.

(** What follows the payment: the event of the settlement and the obligation. *)
Lemma deposit_recorded customer amount exp ev a entry o d d3 d4 d5 d6 :
  ledger_ok d → same_ledger d d3 → ledger_ok d4 → same_ledger d4 d5 → ledger_ok d5 → integrity d5 →
  a ∈ accounts d3 → account_customer_id a = Some customer → account_role a = CASH →
  accounts d4 = accounts d3 → has_obligation d4 (entry_id entry) = false → entry_type entry = DEPOSIT →
  journal_entries d4 = journal_entries d3 ++ [entry] → (∀ e, e ∈ journal_entries d3 → entry_id e ≠ entry_id entry) →
  (∀ c, let mine := if bool_decide (customer = c) then quanta amount else 0 in
     settled_quanta c d4 = settled_quanta c d3 + mine ∧ cash_balance c d4 = cash_balance c d3 + mine ∧
     (∀ type, unsettled_quanta type c d4 = unsettled_quanta type c d3) ∧
     cash_inflow d4 c (entry_id entry) = if bool_decide (customer = c) then Z.max 0 (quanta amount) else 0) →
  run (add_obligation (entry_id entry) (account_id a) amount exp ev) d5 = Ok (o, d6) →
  deposited customer amount d {| deposit_journal_entry_id := entry_id entry; deposit_settlement_obligation_id := obligation_id o;
                                 deposit_expected_settlement_date := exp |} d6.
Proof.
  intros Hok Hsame Hok4 S5 Hok5 Hd5 Ha3 Hac Har Hacc4 Hno Het Hje Hfresh Hfig Hadd.
  pose proof (preserves_add_obligation _ _ _ _ _ _ _ _ Hok5 Hadd) as Hok6.
  pose proof (run_integrity _ _ _ _ Hd5 Hadd) as Hd6.
  assert (Hno5 : has_obligation d5 (entry_id entry) = false).
  { destruct S5 as (_ & _ & _ & E). unfold has_obligation in *. by rewrite E. }
  pose proof (figures_new_obligation _ _ _ _ _ _ _ _ customer Hadd) as (Ho1 & Ho2 & Ho3 & Ho4 & _ & Ho5 & Hf & _).
  assert (Eacc : accounts d5 = accounts d6) by (unfold accounts; by rewrite Hf).
  assert (Eje : journal_entries d5 = journal_entries d6) by (unfold journal_entries; by rewrite Hf).
  assert (Ha5 : a ∈ accounts d5) by (apply (same_accounts _ _ _ S5); by rewrite Hacc4).
  assert (Hje5 : journal_entries d5 = journal_entries d3 ++ [entry]) by (destruct S5 as (_ & -> & _); done).
  constructor; [done| |].
  - exists o, a. split_and!; try done; [rewrite Ho5; set_solver|by rewrite <- Eacc| |].
    + intros o' Ho' E. rewrite Ho5 in Ho'. apply elem_of_app in Ho' as [Ho'|Ho']; [|set_solver].
      exfalso. apply (has_obligation_false _ _ Hno5 o' Ho'). congruence.
    + intros c type. by apply (unsettled_of_deposit d6 (journal_entries d3) o a entry); rewrite <- ?Eacc, <- ?Eje.
  - intros c mine. cbn [deposit_journal_entry_id].
    pose proof (figures_new_obligation _ _ _ _ _ _ _ _ c Hadd) as (_ & _ & _ & _ & _ & _ & _ & F1 & F2 & F3 & F4).
    destruct (figures_same d d3 c Hok Hsame) as (G1 & G2 & G3 & _).
    destruct (Hfig c) as (K1 & K2 & K3 & K4). destruct (figures_same d4 d5 c Hok4 S5) as (L1 & L2 & L3 & L4).
    assert (Hinf : cash_inflow d5 c (entry_id entry) = Z.max 0 mine).
    { rewrite L4, K4. unfold mine. case_bool_decide; [done|lia]. }
    pose proof (λ type, unsettled_of_deposit d5 _ o a entry customer amount c type Hd5 Ha5 Hac Het Hje5 Hfresh Ho2 Ho3 Ho4) as Hun.
    split_and!; [by rewrite F1, Hinf, L1, K1, G1|by rewrite F2, L2, K2, G2|by rewrite F3| |].
    + rewrite F4, Hun, L3, K3, G3. unfold mine. do 2 case_bool_decide; naive_solver lia.
    + rewrite F4, Hun, L3, K3, G3, bool_decide_eq_false_2 by naive_solver. lia.
Qed.

Lemma deposit_tail cap_t cap_d now customer amount d res d' :
  ledger_ok d → integrity d →
  run (initiate_deposit cap_t cap_d now customer amount) d = Ok (res, d') →
  ineligibility d customer = None ∧
  (∃ today, deposited_on customer (date_of_local now) d = Ok today ∧
            check_deposit_caps amount today cap_t cap_d = Ok tt) ∧
  deposited customer amount d res d'.
Proof.
  intros Hok Hd Hrun. unfold initiate_deposit in Hrun. cbn zeta in Hrun.
  apply run_bind_Ok in Hrun as (u1 & d1 & [-> Hel]%check_eligibility_Ok & Hrun).
  apply run_bind_Ok in Hrun as (link & d1 & (-> & Hlink & Hauth)%check_link_Ok & Hrun).
  apply run_bind_Ok in Hrun as (u2 & d1 & ->%acquire_Ok & Hrun).
  apply run_bind_Ok in Hrun as (today & d1 & [Htoday <-]%run_queries_Ok & Hrun).
  apply run_bind_Ok in Hrun as ([] & d1 & [Hcaps <-]%run_lift_Ok & Hrun).
  split; [done|]. split; [by exists today|].
  apply run_bind_Ok in Hrun as (a & d1 & Hra & Hrun).
  destruct (same_step _ _ _ _ (same_account_for _ _ _) Hok Hd (preserves_account_for _ _) Hra) as (S1 & Hok1 & Hd1).
  apply account_for_Ok in Hra as (Ha & Hac & Har).
  apply run_bind_Ok in Hrun as (b & d2 & Hrb & Hrun).
  destruct (same_step _ _ _ _ (same_account_for _ _ _) Hok1 Hd1 (preserves_account_for _ _) Hrb) as (S2 & Hok2 & Hd2).
  apply account_for_Ok in Hrb as (Hb & Hbc & Hbr).
  apply run_bind_Ok in Hrun as (ev & d3 & Hev & Hrun).
  destruct (same_step _ _ _ _ (same_funding_event _ _ _ _) Hok2 Hd2 (preserves_funding_event _ _ _) Hev) as (S3 & Hok3 & Hd3).
  apply run_bind_Ok in Hrun as (neg & d4 & [Hneg <-]%run_lift_Ok & Hrun).
  apply run_bind_Ok in Hrun as (entry & d4 & Hpost & Hrun).
  pose proof (same_accounts _ _ _ S3 (same_accounts _ _ _ S2 Ha)) as Ha3.
  destruct (post_payment _ _ _ _ customer a b amount neg d3 entry d4 Hok3 Hd3 Ha3 Hac Har
    (same_accounts _ _ _ S3 Hb) ltac:(by rewrite Hbr) Hpost)
    as (Hok4 & Hd4 & Hacc4 & Hno & Het & Hje & Hfresh & Hob4 & Hfig).
  apply run_bind_Ok in Hrun as (ev2 & d5 & Hev2 & Hrun).
  destruct (same_step _ _ _ _ (same_funding_event _ _ _ _) Hok4 Hd4 (preserves_funding_event _ _ _) Hev2) as (S5 & Hok5 & Hd5).
  apply run_bind_Ok in Hrun as (exp & d6 & [Hexp <-]%run_lift_Ok & Hrun).
  apply run_bind_Ok in Hrun as (o & d6 & Hadd & [<- <-]%run_ret_Ok).
  refine (deposit_recorded _ _ _ _ _ _ _ _ d3 d4 d5 _ Hok _ Hok4 S5 Hok5 Hd5 Ha3 Hac Har Hacc4 Hno Het Hje Hfresh Hfig Hadd).
  etrans; [exact S1|etrans; [exact S2|exact S3]].
Qed.

(** The life of a deposit: [initiate] accepts only within both caps, leaves
    settled (hence withdrawable) cash as it was while the amount appears in the
    balance and in the pending proceeds that investable cash counts; confirming
    its obligation moves exactly the amount from pending to settled, so
    investable cash does not change when the deposit settles. *)
Theorem deposit_lifecycle cap_t cap_d now customer amount d res d1 :
  ledger_ok d → integrity d → 0 <= quanta amount →
  run (initiate_deposit cap_t cap_d now customer amount) d = Ok (res, d1) →
  (∃ today, deposited_on customer (date_of_local now) d = Ok today ∧
     quanta amount <= quanta cap_t ∧ quanta today + quanta amount <= quanta cap_d) ∧
  settled_quanta customer d1 = settled_quanta customer d ∧
  cash_balance customer d1 = cash_balance customer d + quanta amount ∧
  unsettled_quanta DEPOSIT customer d1 = unsettled_quanta DEPOSIT customer d + quanta amount ∧
  ∃ o, o ∈ settlement_obligations d1 ∧ obligation_id o = deposit_settlement_obligation_id res ∧
    ∀ at_ u d2, run (confirm o at_) d1 = Ok (u, d2) →
      settled_quanta customer d2 = settled_quanta customer d + quanta amount ∧
      unsettled_quanta DEPOSIT customer d2 = unsettled_quanta DEPOSIT customer d ∧
      settled_quanta customer d2 + unsettled_quanta DEPOSIT customer d2 =
        settled_quanta customer d1 + unsettled_quanta DEPOSIT customer d1.
Proof.
  intros Hok Hd Hpos Hrun.
  destruct (deposit_tail _ _ _ _ _ _ _ _ Hok Hd Hrun) as (_ & (today & Ht & Hcaps) & [[Hok1 Hd1] Hob Hfig]).
  destruct Hob as (o & a & Hin & Hid & Hje & Hst & Ham & Hacc & _ & _ & _ & Honly & Hun).
  destruct (Hfig customer) as (F1 & F2 & F3 & F4 & _). rewrite bool_decide_eq_true_2 in F1, F2, F3, F4 by done.
  rewrite Z.max_r in F1, F3 by done.
  split_and!; [|lia|lia|lia|].
  - exists today. unfold check_deposit_caps in Hcaps. apply bind_Ok in Hcaps as ([] & H1 & Hcaps).
    apply bind_Ok in Hcaps as (total & Hadd & H2). apply ensure_Ok in H1, H2.
    apply q_add_Ok in Hadd as [_ Hadd]. unfold q_ltb in H1, H2. zbool. split_and!; [done|lia|lia].
  - exists o. split_and!; [done|done|]. intros at_ u d2 (u' & d1' & [_ <-]%run_require_Ok & Hup)%run_bind_Ok.
    apply (figures_resolve OBLIGATION_CONFIRMED _ o d1 u d2 customer Hd1 Hin Hst Honly) in Hup
      as (_ & G1 & _ & G2); [|done|done].
    rewrite bool_decide_eq_true_2 in G1 by done. rewrite Hje, F3 in G1.
    specialize (G2 DEPOSIT). rewrite Hun, bool_decide_eq_true_2 in G2 by done. lia.
Qed.

Definition sample_cap : Money := QD 1000000.

Definition sample_funding : prog DepositResult := initiate_deposit sample_cap sample_cap 0 7 (QD 300000).

Definition sample_pending : DepositResult * db := run_or sample_funding sample_funded (Build_DepositResult 0 0 0).

Lemma sample_funding_runs : run sample_funding sample_funded = Ok (sample_pending.1, sample_pending.2).
Proof. rewrite <- surjective_pairing. apply run_or_Ok. vm_compute. reflexivity. Qed.

Lemma deposit_lifecycle_witness :
  settled_quanta 7 sample_pending.2 = settled_quanta 7 sample_funded.
Proof.
  exact (proj1 (proj2 (deposit_lifecycle _ _ _ 7 (QD 300000) _ _ _ sample_funded_ok sample_funded_integrity
    ltac:(done) sample_funding_runs))).
Defined.

(** The return of a pending deposit takes the amount twice from settled
    cash: the balance is restored to what it was before the deposit and the
    customer owes the amount as a receivable, but the failed obligation keeps
    the deposit's inflow out of settled cash while the correcting outflow
    counts, so settled (and withdrawable) cash ends below what it was before
    the deposit by the whole amount. *)
Theorem ach_return_withholds_twice cap_t cap_d now customer amount d res d1 now' u d2 :
  ledger_ok d → integrity d → 0 <= quanta amount →
  run (initiate_deposit cap_t cap_d now customer amount) d = Ok (res, d1) →
  run (apply_ach_return now' (deposit_settlement_obligation_id res)) d1 = Ok (u, d2) →
  cash_balance customer d2 = cash_balance customer d ∧
  settled_quanta customer d2 = settled_quanta customer d - quanta amount ∧
  unsettled_quanta DEPOSIT customer d2 = unsettled_quanta DEPOSIT customer d ∧ ledger_ok d2.
Proof.
  intros Hok Hd Hpos Hrun Hret. pose proof (preserves_apply_ach_return now' (deposit_settlement_obligation_id res)) as Hpres.
  destruct (deposit_tail _ _ _ _ _ _ _ _ Hok Hd Hrun) as (_ & _ & [[Hok1 Hd1] Hob Hfig]).
  specialize (Hpres _ _ _ Hok1 Hret). clear Hrun.
  destruct Hob as (o & a & Hin & Hid & Hje & Hst & Ham & Hacc & Ha & Hac & Har & Honly & Hun).
  destruct (Hfig customer) as (F1 & F2 & F3 & F4 & _). rewrite bool_decide_eq_true_2 in F1, F2, F3, F4 by done.
  rewrite Z.max_r in F1, F3 by done. rewrite <- Hid in Hret. unfold apply_ach_return in Hret.
  apply run_bind_Ok in Hret as (found & dx & [Hfound <-]%run_gets_Ok & Hret).
  rewrite obligation_by_id_In in Hfound by done. subst found.
  apply run_bind_Ok in Hret as (acc & dx & [Hcash <-]%run_gets_Ok & Hret).
  rewrite Hacc, account_by_id_In in Hcash by done. subst acc. rewrite Hac in Hret.
  apply run_bind_Ok in Hret as (u1 & d3 & Hfail & Hret).
  pose proof (preserves_fail _ _ _ _ _ _ Hok1 Hfail) as Hok3. pose proof (run_integrity _ _ _ _ Hd1 Hfail) as Hd3.
  apply run_bind_Ok in Hfail as (u2 & d1' & [_ <-]%run_require_Ok & Hup).
  apply (figures_resolve OBLIGATION_FAILED _ o d1 u1 d3 customer Hd1 Hin Hst Honly) in Hup
    as (Hframe & G1 & G2 & G3); [|done|done].
  rewrite bool_decide_eq_false_2 in G1 by done. specialize (G3 DEPOSIT).
  rewrite Hun, bool_decide_eq_true_2 in G3 by done.
  apply run_bind_Ok in Hret as (r & d4 & Hr & Hret).
  destruct (same_step _ _ _ _ (same_account_for _ _ _) Hok3 Hd3 (preserves_account_for _ _) Hr) as (S4 & Hok4 & Hd4).
  apply account_for_Ok in Hr as (Hra & Hrc & Hrr).
  apply run_bind_Ok in Hret as (ev & d5 & Hev & Hret).
  destruct (same_step _ _ _ _ (same_funding_event _ _ _ _) Hok4 Hd4 (preserves_funding_event _ _ _) Hev) as (S5 & Hok5 & Hd5).
  apply run_bind_Ok in Hret as (legs & d6 & [Hlegs <-]%run_lift_Ok & Hret).
  apply run_bind_Ok in Hret as (entry & d6 & Hpost & [_ <-]%run_ret_Ok).
  unfold build_ach_return_correction_legs in Hlegs. apply bind_Ok in Hlegs as (neg & Hneg & [= <-]).
  apply q_neg_Ok in Hneg as [_ Hneg].
  assert (Hsame : same_ledger d3 d5) by (etrans; [exact S4|exact S5]).
  assert (Ha5 : a ∈ accounts d5).
  { apply (same_accounts _ _ _ Hsame). unfold accounts. by rewrite Hframe. }
  destruct (post_payment _ _ _ _ customer a r neg _ d5 entry d6 Hok5 Hd5 Ha5 Hac Har
    (same_accounts _ _ _ S5 Hra) ltac:(by rewrite Hrr) Hpost) as (_ & _ & _ & _ & _ & _ & _ & _ & K).
  destruct (K customer) as (K1 & K2 & K3 & _). rewrite bool_decide_eq_true_2 in K1, K2 by done.
  destruct (figures_same d3 d5 customer Hok3 Hsame) as (L1 & L2 & L3 & _).
  rewrite Hneg, Ham in *. specialize (K3 DEPOSIT). specialize (L3 DEPOSIT). split_and!; [lia|lia|lia|done].
Qed.

Definition sample_returned : () * db :=
  run_or (apply_ach_return 0 (deposit_settlement_obligation_id sample_pending.1)) sample_pending.2 tt.

Lemma sample_return_runs :
  run (apply_ach_return 0 (deposit_settlement_obligation_id sample_pending.1)) sample_pending.2 =
  Ok (sample_returned.1, sample_returned.2).
Proof. rewrite <- surjective_pairing. apply run_or_Ok. vm_compute. reflexivity. Qed.

Lemma ach_return_withholds_twice_witness :
  cash_balance 7 sample_returned.2 = 500000 ∧ settled_quanta 7 sample_returned.2 = 500000 - 300000.
Proof.
  destruct (ach_return_withholds_twice _ _ _ 7 (QD 300000) _ _ _ _ _ _ sample_funded_ok sample_funded_integrity
    ltac:(done) sample_funding_runs sample_return_runs) as (H1 & H2 & _).
  split; [rewrite H1|rewrite H2]; by vm_compute.
Defined.

(** Nothing requires a positive amount: "withdrawing" minus 20 pays 20 in. *)
Lemma negative_withdrawal_credits :
  ∃ res d', run (initiate_withdrawal (H := no_holds) 0 7 (QD (-200000))) sample_funded = Ok (res, d') ∧
            settled_quanta 7 d' = settled_quanta 7 sample_funded + 200000.
Proof.
  pose (r := run_or (initiate_withdrawal (H := no_holds) 0 7 (QD (-200000))) sample_funded (Build_WithdrawalResult 0 0)).
  exists r.1, r.2. split; [rewrite <- surjective_pairing; apply run_or_Ok|]; vm_compute; reflexivity.
Qed.
