(* ===== verification/Valuation.v ===== *)
(** * Valuation and time-weighted returns ([services/valuation], [models/marketdata])

    Whole-book valuation against confirmed closing prices, and the
    time-weighted return: a period split at the dates of external flows, one
    stored sub-period return per piece, linked geometrically. *)

From S2P Require Import Prelude PyDecimal MoneyTypes Calendar Store Schema Ledger CashPolicy.
From Stdlib Require Import String.
From stdpp Require Import strings.
Open Scope Z_scope.

(** ** Closing prices ([DailyCloseRepository]) *)

(** [latest_confirmed] *)
Definition latest_confirmed (d : db) (security : uuid) (market_date : date) : option DailyClose :=
  max_by close_recorded_at
    (filter (λ c, close_security_id c = security ∧ close_market_date c = market_date ∧
                  close_status c = CONFIRMED) (daily_closes d)).

(** ** The whole book ([ValuationService]) *)

Inductive Completeness := Complete | Partial.
#[export] Instance Completeness_eq_dec : EqDecision Completeness.
Proof. solve_decision. Defined.

Record BookValuation := {
  total_value : Money;
  as_of_date : date;
  completeness : Completeness;
}.

(** The entry of a posting, through the join. *)
Definition posting_entry (d : db) (p : Posting) : option JournalEntry :=
  head (filter (λ e, entry_id e = posting_journal_entry_id p) (journal_entries d)).

Definition effective_by (d : db) (on : date) (p : Posting) : bool :=
  match posting_entry d p with Some e => entry_effective_date e <=? on | None => false end.

(** The security of a posting's account, through the join. *)
Definition posting_security (d : db) (p : Posting) : option uuid :=
  account_by_id d (posting_account_id p) ≫= account_security_id.

(** [_cash_balance] *)
Definition cash_balance_as_of (customer : uuid) (on : date) (d : db) : result Money :=
  sql_sum (omap posting_amount_money
    (filter (λ p, on_cash d customer p = true ∧ effective_by d on p = true) (postings d))).

(** The unit postings of a customer up to a date. *)
Definition unit_postings (customer : uuid) (on : date) (d : db) : list Posting :=
  filter (λ p, posting_customer_id p = Some customer ∧ posting_role d p = Some POSITION_UNITS ∧
               effective_by d on p = true) (postings d).

(** [_position_units]: one row per security, GROUP BY. *)
Definition position_units_rows (customer : uuid) (on : date) (d : db) : result (list (uuid * Units)) :=
  let ps := unit_postings customer on d in
  map_result (λ security,
    units ← sql_sum (omap posting_quantity_units
              (filter (λ p, posting_security d p = Some security) ps));
    Ok (security, units)) (remove_dups (omap (posting_security d) ps)).

(** [position_units]: the holdings that are not zero. *)
Definition position_units (customer : uuid) (on : date) (d : db) : result (list (uuid * Units)) :=
  rows ← position_units_rows customer on d;
  Ok (filter (λ r : uuid * Units, q_eqb r.2 zero = false) rows).

(** The body of the loop of [value_book]. *)
Definition value_position (d : db) (on : date) (acc : Money * Completeness) (row : uuid * Units)
    : result (Money * Completeness) :=
  let '(total, flag) := acc in
  let '(security, units) := row in
  if q_eqb units zero then Ok acc
  else match latest_confirmed d security on with
       | None => Ok (total, Partial)
       | Some close =>
           worth ← units_times_price units (close_price close);
           total ← q_add total worth;
           Ok (total, flag)
       end.

(** [value_book] *)
Definition value_book (customer : uuid) (on : date) (d : db) : result BookValuation :=
  cash ← cash_balance_as_of customer on d;
  rows ← position_units_rows customer on d;
  '(total, flag) ← foldr_result (value_position d on) rows (cash, Complete);
  Ok {| total_value := total; as_of_date := on; completeness := flag |}.

(** ** External flows and sub-periods ([TwrService]) *)

Definition is_external_flow (e : JournalEntry) : bool :=
  bool_decide (entry_type e = DEPOSIT ∨ entry_type e = WITHDRAWAL).

(** [_flow_dates] *)
Definition flow_dates (customer : uuid) (period_start period_end : date) (d : db) : list date :=
  remove_dups (omap (λ p,
    match posting_entry d p with
    | Some e =>
        if bool_decide (posting_customer_id p = Some customer) && is_external_flow e &&
           (period_start <? entry_effective_date e) && (entry_effective_date e <? period_end)
        then Some (entry_effective_date e) else None
    | None => None
    end) (postings d)).

(** [_boundaries] *)
Definition boundaries (customer : uuid) (period_start period_end : date) (d : db) : list date :=
  sort_by Z.leb (remove_dups (period_start :: flow_dates customer period_start period_end d ++ [period_end])).

(** [itertools.pairwise] *)
Definition pairwise {A} (l : list A) : list (A * A) := zip l (tail l).

(** The posting's entry is an external flow effective on this date. *)
Definition flow_on (d : db) (on : date) (p : Posting) : bool :=
  match posting_entry d p with
  | Some e => is_external_flow e && (entry_effective_date e =? on)
  | None => false
  end.

(** [_flow_amount_on] *)
Definition flow_amount_on (customer : uuid) (on : date) (d : db) : result Money :=
  sql_sum (omap posting_amount_money
    (filter (λ p, on_cash d customer p = true ∧
                  flow_on d on p = true) (postings d))).

(** [_RETURN_QUANTUM]: returns are kept as multiples of [1E-10]. *)
Definition RETURN_EXP : Z := -10.

Definition quantize_return (x : dec) : result Z :=
  q ← dec_quantize x RETURN_EXP;
  Ok (coef q).

(** A stored window, and the [latest_for_sub_period] and
    [as_of_for_sub_period] lookups. *)
Definition window (r : SubPeriodReturn) : date * date := (spr_sub_period_start r, spr_sub_period_end r).

Definition window_rows (d : db) (customer : uuid) (w : date * date) : list SubPeriodReturn :=
  filter (λ r, spr_customer_id r = customer ∧ window r = w) (sub_period_returns d).

Definition latest_for_sub_period (d : db) (customer : uuid) (w : date * date) : option SubPeriodReturn :=
  max_by spr_recorded_at (window_rows d customer w).

Definition as_of_for_sub_period (d : db) (customer : uuid) (w : date * date) (cutoff : instant)
    : option SubPeriodReturn :=
  max_by spr_recorded_at (filter (λ r, spr_recorded_at r <= cutoff) (window_rows d customer w)).

(** The return of a sub-period: a zero base contributes zero. *)
Definition return_of (value_begin value_end flow_amount : Money) : result Z :=
  if q_eqb value_begin zero then quantize_return (dec_of_Z 0)
  else
    gain ← q_sub value_end value_begin;
    gain ← q_sub gain flow_amount;
    raw ← ratio gain value_begin;
    quantize_return raw.

(** The figures [_sub_period_return] recomputes from the ledger and the closes. *)
Record SubPeriodFigures := {
  figure_return : Z;
  figure_begin : Money;
  figure_end : Money;
  figure_flow : Money;
  figure_provisional : bool;
}.

Definition sub_period_figures (customer : uuid) (v_begin v_end : date) (d : db) : result SubPeriodFigures :=
  begin_valuation ← value_book customer v_begin d;
  end_valuation ← value_book customer v_end d;
  flow ← flow_amount_on customer v_end d;
  pct ← return_of (total_value begin_valuation) (total_value end_valuation) flow;
  Ok {| figure_return := pct; figure_begin := total_value begin_valuation;
        figure_end := total_value end_valuation; figure_flow := flow;
        figure_provisional := bool_decide (completeness begin_valuation = Partial) ||
                              bool_decide (completeness end_valuation = Partial) |}.

(** Does the stored row already say so? *)
Definition same_figures (r : SubPeriodReturn) (f : SubPeriodFigures) : bool :=
  (spr_return_pct r =? figure_return f) && q_eqb (spr_value_begin r) (figure_begin f) &&
  q_eqb (spr_value_end r) (figure_end f) && q_eqb (spr_flow_amount r) (figure_flow f) &&
  eqb (spr_is_provisional r) (figure_provisional f).

(** [_sub_period_return].  A return of more than eight integer digits does not
    fit the [NUMERIC(18,10)] column. *)
Definition sub_period_return (customer : uuid) (v_begin v_end : date) : prog SubPeriodReturn :=
  figures ← queries (sub_period_figures customer v_begin v_end);
  existing ← gets (λ d, latest_for_sub_period d customer (v_begin, v_end));
  let store :=
    id ← uuid4;
    now ← gets db_now;
    let row := {| spr_id := id; spr_customer_id := customer; spr_sub_period_start := v_begin;
                  spr_sub_period_end := v_end; spr_return_pct := figure_return figures;
                  spr_value_begin := figure_begin figures; spr_value_end := figure_end figures;
                  spr_flow_amount := figure_flow figures;
                  spr_is_provisional := figure_provisional figures; spr_recorded_at := now |} in
    require (Z.abs (figure_return figures) <? 10 ^ 18) DbRaise ;;
    add TSubPeriodReturn row ;;
    mret row in
  match existing with
  | Some r => if same_figures r figures then mret r else store
  | None => store
  end.

(** The loop of [link]: [linked *= 1 + return_pct]. *)
Definition link_step (linked : dec) (r : SubPeriodReturn) : dec :=
  dec_mul linked (dec_add (dec_of_Z 1) (Dec (spr_return_pct r) RETURN_EXP)).

(** [link] *)
Definition link (sub_periods : list SubPeriodReturn) : result Z :=
  quantize_return (dec_sub (foldl link_step (dec_of_Z 1) sub_periods) (dec_of_Z 1)).

Record TwrResult := {
  twr : Z;
  twr_period_start : date;
  twr_period_end : date;
  twr_is_provisional : bool;
  twr_sub_periods : list SubPeriodReturn;
}.

(** [compute_twr] *)
Definition compute_twr (customer : uuid) (period_start period_end : date) : prog TwrResult :=
  bounds ← gets (boundaries customer period_start period_end);
  sub_periods ← map_prog (λ w, sub_period_return customer w.1 w.2) (pairwise bounds);
  linked ← lift (link sub_periods);
  mret {| twr := linked; twr_period_start := period_start; twr_period_end := period_end;
          twr_is_provisional := existsb spr_is_provisional sub_periods;
          twr_sub_periods := sub_periods |}.

(** ** Reading stored windows ([SubPeriodReturnRepository]) *)

Definition window_le (a b : date * date) : bool := (a.1 <? b.1) || ((a.1 =? b.1) && (a.2 <=? b.2)).

(** The latest row of every distinct window, in window order. *)
Definition latest_by_window (rows : list SubPeriodReturn) : list SubPeriodReturn :=
  omap (λ w, max_by spr_recorded_at (filter (λ r, window r = w) rows))
    (sort_by window_le (remove_dups (window <$> rows))).

(** [containing] *)
Definition containing (d : db) (customer : uuid) (on : date) : list SubPeriodReturn :=
  latest_by_window (filter (λ r, spr_customer_id r = customer ∧ spr_sub_period_start r <= on ∧
                                 on <= spr_sub_period_end r) (sub_period_returns d)).

(** [list_in_range] *)
Definition list_in_range (d : db) (customer : uuid) (start_date : option date) (end_date : date)
    (cutoff : instant) : list SubPeriodReturn :=
  latest_by_window (filter (λ r, spr_customer_id r = customer ∧ spr_sub_period_start r <= end_date ∧
                                 spr_recorded_at r <= cutoff ∧
                                 from_option (λ s, s <=? spr_sub_period_end r) true start_date = true)
                           (sub_period_returns d)).

(** ** The performance chart ([PortfolioPerformanceService]) *)

Record PerformancePoint := { point_as_of_date : date; point_value : Money }.

(** [_to_points] *)
Definition to_points (sub_periods : list SubPeriodReturn) : list PerformancePoint :=
  match sub_periods with
  | [] => []
  | first :: _ =>
      {| point_as_of_date := spr_sub_period_start first; point_value := spr_value_begin first |} ::
      ((λ r, {| point_as_of_date := spr_sub_period_end r; point_value := spr_value_end r |}) <$> sub_periods)
  end.

Record PortfolioPerformance := {
  performance_period_start : option date;
  performance_period_end : date;
  performance_cumulative_twr : Z;
  performance_is_provisional : bool;
  performance_points : list PerformancePoint;
}.

(** [performance], with the start of the range the caller's label stands for. *)
Definition performance (customer : uuid) (start_date : option date) (cutoff : instant) (today : date) (d : db)
    : result PortfolioPerformance :=
  let sub_periods := list_in_range d customer start_date today cutoff in
  cumulative ← link sub_periods;
  Ok {| performance_period_start := spr_sub_period_start <$> head sub_periods;
        performance_period_end := today;
        performance_cumulative_twr := cumulative;
        performance_is_provisional := existsb spr_is_provisional sub_periods;
        performance_points := to_points sub_periods |}.

(** ** Lemmas *)

(** What a holding is worth at its confirmed close: the exact product, rounded
    once to four decimals. *)
Definition worth (d : db) (on : date) (row : uuid * Units) : Z :=
  if quanta row.2 =? 0 then 0
  else match latest_confirmed d row.1 on with
       | Some c => rhe (quanta (close_price c) * quanta row.2) (10 ^ 8)
       | None => 0
       end.

(** A holding without a confirmed close. *)
Definition unpriced (d : db) (on : date) (row : uuid * Units) : bool :=
  negb (quanta row.2 =? 0) && bool_decide (latest_confirmed d row.1 on = None).

Lemma value_fold_Ok d on rows total flag total' flag' :
  foldr_result (value_position d on) rows (total, flag) = Ok (total', flag') →
  quanta total' = quanta total + sum_by (worth d on) rows ∧
  flag' = if existsb (unpriced d on) rows then Partial else flag.
Proof.
  revert total flag. induction rows as [|[s u] rows IH]; intros total flag; cbn [foldr_result].
  - intros [= <- <-]. rewrite sum_by_nil. split; [lia|done].
  - rewrite bind_Ok. intros ([t f] & Hstep & H). apply IH in H as [H1 H2]. rewrite sum_by_cons.
    cbn [existsb]. unfold value_position in Hstep. unfold worth at 1. unfold unpriced at 1. cbn [fst snd].
    unfold q_eqb in Hstep. cbn [quanta zero] in Hstep. destruct (quanta u =? 0).
    + injection Hstep as <- <-. cbn. split; [lia|done].
    + destruct (latest_confirmed d s on) as [c|].
      * apply bind_Ok in Hstep as (w & Hw & Hstep). apply bind_Ok in Hstep as (t' & Ht & [= <- <-]).
        apply units_times_price_Ok in Hw as [_ Hw]. apply q_add_Ok in Ht as [_ Ht]. cbn. split; [lia|done].
      * injection Hstep as <- <-. cbn. split; [lia|]. rewrite H2. by destruct (existsb _ rows).
Qed.

Definition posting_units (p : Posting) : Z :=
  match posting_quantity_units p with Some u => quanta u | None => 0 end.

Lemma sum_omap_units (l : list Posting) :
  sum_by (@quanta UnitsD) (omap posting_quantity_units l) = sum_by posting_units l.
Proof.
  induction l as [|p l IH]; [done|]. cbn. rewrite sum_by_cons. unfold posting_units at 1.
  destruct (posting_quantity_units p); [by rewrite sum_by_cons, IH|]. by rewrite IH.
Qed.

(** The units of a security a customer holds on a date. *)
Definition units_held (customer security : uuid) (on : date) (d : db) : Z :=
  sum_by posting_units (filter (λ p, posting_security d p = Some security) (unit_postings customer on d)).

Lemma position_units_rows_Ok c on d rows :
  position_units_rows c on d = Ok rows →
  NoDup rows.*1 ∧ (∀ s u, (s, u) ∈ rows → quanta u = units_held c s on d) ∧
  ∀ s, s ∈ rows.*1 ↔ ∃ p, p ∈ unit_postings c on d ∧ posting_security d p = Some s.
Proof.
  unfold position_units_rows. intros Hr%map_result_Forall2.
  set (ss := remove_dups (omap (posting_security d) (unit_postings c on d))) in *.
  assert (Hfst : rows.*1 = ss).
  { clear -Hr. induction Hr as [|s row ss rows H _ IH]; [done|].
    apply bind_Ok in H as (u & _ & [= <-]). cbn. by rewrite IH. }
  split_and!.
  - rewrite Hfst. apply NoDup_remove_dups.
  - intros s u (i & Hi)%list_elem_of_lookup. destruct (Forall2_lookup_r _ _ _ _ _ Hr Hi) as (s' & _ & H).
    apply bind_Ok in H as (u' & [_ Hu]%sql_sum_Ok & [= <- <-]). rewrite Hu. apply sum_omap_units.
  - intros s. rewrite Hfst. unfold ss. rewrite elem_of_remove_dups, list_elem_of_omap. naive_solver.
Qed.

(** The cash of a customer on a date, settled or not. *)
Definition cash_held (customer : uuid) (on : date) (d : db) : Z :=
  sum_by posting_money (filter (λ p, on_cash d customer p = true ∧ effective_by d on p = true) (postings d)).

Lemma cash_balance_as_of_Ok c on d m : cash_balance_as_of c on d = Ok m → quanta m = cash_held c on d.
Proof. intros [_ ->]%sql_sum_Ok. apply sum_omap_money. Qed.

(** ** Properties *)

(** What a posting adds up to a date to a customer's accounts of a kind, read
    off the three tables. *)
Definition posted_on (kind : Account → bool) (amount : Posting → Z) (customer : uuid) (on : date) (d : db) : Z :=
  sum_by (λ p,
    match head (filter (λ a, account_id a = posting_account_id p) (accounts d)),
          head (filter (λ e, entry_id e = posting_journal_entry_id p) (journal_entries d)) with
    | Some a, Some e =>
        if bool_decide (posting_customer_id p = Some customer) && kind a && (entry_effective_date e <=? on)
        then amount p else 0
    | _, _ => 0
    end) (postings d).

Definition cash_posted : uuid → date → db → Z :=
  posted_on (λ a, bool_decide (account_role a = CASH)) posting_money.

Definition units_posted (customer security : uuid) : date → db → Z :=
  posted_on (λ a, bool_decide (account_role a = POSITION_UNITS ∧ account_security_id a = Some security))
    posting_units customer.

(** A confirmed close of the security on the date, of the latest recorded; none
    if there is none. *)
Definition confirmed_close (d : db) (on : date) (security : uuid) (found : option DailyClose) : Prop :=
  let fits c := close_security_id c = security ∧ close_market_date c = on ∧ close_status c = CONFIRMED in
  match found with
  | Some c => c ∈ daily_closes d ∧ fits c ∧ ∀ x, x ∈ daily_closes d → fits x → close_recorded_at x <= close_recorded_at c
  | None => ∀ x, x ∈ daily_closes d → ¬ fits x
  end.

Definition market_worth (found : option DailyClose) (units : Z) : Z :=
  match found with Some c => rhe (quanta (close_price c) * units) (10 ^ 8) | None => 0 end.

Lemma latest_confirmed_close d on s : confirmed_close d on s (latest_confirmed d s on).
Proof.
  unfold confirmed_close. cbn zeta. destruct (latest_confirmed d s on) as [c|] eqn:E; unfold latest_confirmed in E.
  - apply max_by_Some in E as [[Hf Hin]%list_elem_of_filter Hmax]. split_and!; [done|naive_solver..|].
    intros x Hx Hfx. apply Hmax. by apply list_elem_of_filter.
  - apply max_by_None in E. intros x Hx Hfx.
    by apply (elem_of_nil x); rewrite <- E; apply list_elem_of_filter.
Qed.

Lemma cash_held_posted c on d : cash_held c on d = cash_posted c on d.
Proof.
  unfold cash_held, cash_posted, posted_on. rewrite sum_by_filter. apply sum_by_ext. intros p _.
  unfold on_cash, posting_role, effective_by, posting_entry, account_by_id.
  destruct (head (filter _ (accounts d))) as [a|]; cbn [fmap option_fmap option_map];
    [|rewrite decide_False; [done|by intros [[_ ?%bool_decide_eq_true]%andb_true_iff _]]].
  destruct (head (filter _ (journal_entries d))) as [e|]; [|rewrite decide_False; [done|by intros [_ ?]]].
  rewrite (bool_decide_ext (Some (account_role a) = Some CASH) (account_role a = CASH)) by (split; [by intros [= ->]|by intros ->]).
  destruct (bool_decide (posting_customer_id p = Some c)), (bool_decide (account_role a = CASH)),
    (entry_effective_date e <=? on); cbn [andb]; case_decide as Hd; first [done|by destruct Hd as [? ?]|by destruct Hd].
Qed.

Lemma units_held_posted c s on d : units_held c s on d = units_posted c s on d.
Proof.
  unfold units_held, unit_postings, units_posted, posted_on. rewrite list_filter_filter, sum_by_filter.
  apply sum_by_ext. intros p _. unfold posting_security, posting_role, effective_by, posting_entry, account_by_id.
  destruct (head (filter _ (accounts d))) as [a|]; cbn [fmap option_fmap option_map mbind option_bind];
    [|rewrite decide_False; [done|by intros [? _]]].
  destruct (head (filter _ (journal_entries d))) as [e|]; [|rewrite decide_False; [done|by intros (_ & _ & _ & ?)]].
  destruct (bool_decide_reflect (posting_customer_id p = Some c)),
    (bool_decide_reflect (account_role a = POSITION_UNITS ∧ account_security_id a = Some s)),
    (entry_effective_date e <=? on); cbn [andb]; case_decide as Hd; first [done|destruct Hd as (? & ? & [=] & ?); first [done|tauto]|
      destruct Hd; split_and!; first [done|tauto|f_equal; tauto]].
Qed.

(** C14. The value of a book is exact and never silently partial.  It is the
    customer's cash posted up to the date plus, for every security of which they
    hold units by the postings up to the date - each once, none left out - those
    units times that date's latest confirmed close, rounded once per holding;
    and it is flagged partial exactly when some holding has no confirmed close on
    that date, whose worth is then left out, not replaced by another day's. *)
Theorem value_book_exact c on d v :
  value_book c on d = Ok v →
  as_of_date v = on ∧
  ∃ (holdings : list uuid) (close_of : uuid → option DailyClose),
    NoDup holdings ∧ (∀ s, s ∈ holdings ↔ units_posted c s on d ≠ 0) ∧ (∀ s, confirmed_close d on s (close_of s)) ∧
    quanta (total_value v) = cash_posted c on d + sum_by (λ s, market_worth (close_of s) (units_posted c s on d)) holdings ∧
    (completeness v = Partial ↔ ∃ s, s ∈ holdings ∧ close_of s = None).
Proof.
  unfold value_book. intros Hv. apply bind_Ok in Hv as (cash & Hc & Hv).
  apply bind_Ok in Hv as (rows & Hr & Hv). apply bind_Ok in Hv as ([t f] & Hf & [= <-]). split; [done|].
  destruct (position_units_rows_Ok _ _ _ _ Hr) as (Hnd & Hu & Hex).
  apply value_fold_Ok in Hf as [Ht Hflag]. apply cash_balance_as_of_Ok in Hc. rewrite cash_held_posted in Hc.
  exists (filter (λ r : uuid * Units, quanta r.2 ≠ 0) rows).*1, (λ s, latest_confirmed d s on).
  assert (Hin : ∀ s, s ∈ (filter (λ r : uuid * Units, quanta r.2 ≠ 0) rows).*1 ↔ units_posted c s on d ≠ 0).
  { intros s. rewrite <- units_held_posted. split.
    - intros ([s' u] & -> & [Hne Hin]%list_elem_of_filter)%list_elem_of_fmap. cbn [fst snd] in *. by rewrite <- (Hu s' u Hin).
    - intros Hne. assert (s ∈ rows.*1) as ([s' u] & -> & Hrow)%list_elem_of_fmap.
      { destruct (decide (s ∈ rows.*1)) as [|Hno]; [done|]. destruct Hne. unfold units_held.
        rewrite filter_none; [done|]. intros p Hp Es. apply Hno, Hex. by exists p. }
      cbn [fst] in *. apply list_elem_of_fmap. exists (s', u). split; [done|]. apply list_elem_of_filter.
      split; [|done]. cbn [snd]. by rewrite (Hu s' u Hrow). }
  split_and!; [|exact Hin|intros s; apply latest_confirmed_close| |].
  - apply (sublist_NoDup _ _ Hnd), fmap_sublist, sublist_filter.
  - cbn [total_value]. rewrite Ht, Hc, sum_by_fmap, sum_by_filter. f_equal. apply sum_by_ext. intros [s u] Hrow.
    unfold worth, market_worth. cbn [fst snd]. rewrite <- units_held_posted, <- (Hu s u Hrow).
    destruct (Z.eqb_spec (quanta u) 0) as [E|E]; [by rewrite decide_False by (rewrite E; by intros [])|].
    by rewrite decide_True by done.
  - cbn [completeness]. rewrite Hflag. destruct (existsb (unpriced d on) rows) eqn:E; split; try done.
    + intros _. apply existsb_exists in E as ([s u] & Hrow & E). unfold unpriced in E. cbn in E. zbool.
      apply bool_decide_eq_true in H0. exists s. split; [|done]. apply Hin. rewrite <- units_held_posted.
      apply list_elem_of_In in Hrow. by rewrite <- (Hu s u Hrow).
    + intros (s & ([s' u] & -> & [Hne Hrow]%list_elem_of_filter)%list_elem_of_fmap & Hnone).
      rewrite <- not_true_iff_false in E. destruct E. apply existsb_exists. exists (s', u).
      split; [by apply list_elem_of_In|]. unfold unpriced. cbn [fst snd] in *.
      by rewrite Hnone, bool_decide_eq_true_2, andb_true_r by done; apply negb_true_iff, Z.eqb_neq.
Qed.

(** Customer 7 with 50 in cash and 10 units of security 900, closed at 4.25. *)
Definition sample_book : db :=
  let d := set_table (H := trueup) TAccount (accounts sample_posted ++
    [{| account_id := 5; account_customer_id := Some 7; account_security_id := Some 900;
        account_role := POSITION_UNITS; account_dimension := UNITS; account_currency := "USD" |}]) sample_posted in
  let d := set_table (H := trueup) TPosting (postings sample_posted ++
    [{| posting_id := 500; posting_journal_entry_id := 100; posting_account_id := 5;
        posting_customer_id := Some 7; posting_amount_money := None;
        posting_quantity_units := Some (QD 10000000) |}]) d in
  set_table (H := trueup) TDailyClose
    [{| close_id := 600; close_security_id := 900; close_market_date := 738155; close_price := QD 4250000;
        close_source := LIVE; close_status := CONFIRMED; close_recorded_at := 10 |}] d.

Lemma value_book_exact_witness :
  ∃ holdings close_of, (∀ s, s ∈ holdings ↔ units_posted 7 s 738155 sample_book ≠ 0) ∧ 900 ∈ holdings ∧
    925000 = 500000 + sum_by (λ s, market_worth (close_of s) (units_posted 7 s 738155 sample_book)) holdings ∧
    ∀ s, s ∈ holdings → close_of s ≠ None.
Proof.
  destruct (value_book_exact 7 738155 sample_book
    {| total_value := QD 925000; as_of_date := 738155; completeness := Complete |} eq_refl)
    as (_ & holdings & close_of & _ & Hin & _ & Hv & Hp).
  exists holdings, close_of. split_and!; [done|apply Hin; vm_compute; discriminate|exact Hv|].
  intros s Hs Hnone. by discriminate (proj2 Hp (ex_intro _ s (conj Hs Hnone))).
Defined.

(** Every date list of [boundaries] in order. *)
Lemma boundaries_In c s e d x :
  x ∈ boundaries c s e d ↔ x = s ∨ x ∈ flow_dates c s e d ∨ x = e.
Proof. unfold boundaries. rewrite sort_by_perm, elem_of_remove_dups. set_solver. Qed.

Lemma flow_dates_In c s e d x :
  x ∈ flow_dates c s e d ↔
  ∃ p je, p ∈ postings d ∧ posting_entry d p = Some je ∧ posting_customer_id p = Some c ∧
    is_external_flow je = true ∧ entry_effective_date je = x ∧ s < x < e.
Proof.
  unfold flow_dates. rewrite elem_of_remove_dups, list_elem_of_omap. split.
  - intros (p & Hp & H). destruct (posting_entry d p) as [je|] eqn:E; [|done].
    destruct (_ && _) eqn:Eb; [|done]. injection H as <-.
    apply andb_true_iff in Eb as [[[H1%bool_decide_eq_true H2]%andb_true_iff H3%Z.ltb_lt]%andb_true_iff H4%Z.ltb_lt].
    exists p, je. by split_and!.
  - intros (p & je & Hp & Hje & Hc & Hf & <- & H). exists p. split; [done|]. rewrite Hje, Hf.
    rewrite bool_decide_eq_true_2 by done. cbn.
    rewrite (proj2 (Z.ltb_lt _ _)) by lia. by rewrite (proj2 (Z.ltb_lt _ _)) by lia.
Qed.

Lemma sorted_strict (l : list Z) : StronglySorted (le_of Z.leb) l → NoDup l → StronglySorted Z.lt l.
Proof.
  induction 1 as [|x l Hs IH Hf]; intros Hnd; [constructor|]. apply NoDup_cons in Hnd as [Hx Hnd].
  constructor; [by apply IH|]. rewrite Forall_forall in *. intros y Hy. specialize (Hf y Hy).
  unfold le_of in Hf. apply Z.leb_le in Hf. assert (x ≠ y) by (by intros ->). lia.
Qed.

Lemma boundaries_sorted c s e d : StronglySorted Z.lt (boundaries c s e d).
Proof.
  apply sorted_strict.
  - apply sort_by_sorted; [intros x y; rewrite !Z.leb_le; lia|intros x y z; rewrite !Z.leb_le; lia].
  - unfold boundaries. rewrite sort_by_perm. apply NoDup_remove_dups.
Qed.

Lemma sorted_head_min (l : list Z) x y : StronglySorted Z.lt l → head l = Some x → y ∈ l → x <= y.
Proof.
  intros Hs Hh Hy. destruct l as [|z l]; [done|]. injection Hh as ->.
  apply StronglySorted_inv in Hs as [_ Hf]. apply elem_of_cons in Hy as [->|Hy]; [lia|].
  rewrite Forall_forall in Hf. specialize (Hf y Hy). lia.
Qed.

Lemma sorted_last_max (l : list Z) x y : StronglySorted Z.lt l → last l = Some x → y ∈ l → y <= x.
Proof.
  revert y. induction l as [|z l IH]; intros y Hs Hl Hy; [by apply elem_of_nil in Hy|].
  apply StronglySorted_inv in Hs as [Hs Hf]. destruct l as [|w l].
  - injection Hl as ->. apply list_elem_of_singleton in Hy. lia.
  - change (last (z :: w :: l)) with (last (w :: l)) in Hl. apply elem_of_cons in Hy as [->|Hy]; [|by apply IH].
    rewrite Forall_forall in Hf. assert (w <= x) by (apply IH; [done..|set_solver]).
    specialize (Hf w ltac:(set_solver)). lia.
Qed.

(** The sub-periods of a period are a partition of it at its flow dates:
    the boundaries strictly increase from the period's start to its end, every
    date strictly inside on which the customer deposited or withdrew is one of
    them, and nothing else is, so same-day flows make one break and no
    sub-period is empty. *)
Theorem boundaries_partition c s e d :
  s <= e →
  StronglySorted Z.lt (boundaries c s e d) ∧
  head (boundaries c s e d) = Some s ∧ last (boundaries c s e d) = Some e ∧
  (∀ x, s < x < e → x ∈ boundaries c s e d ↔
     ∃ p je, p ∈ postings d ∧ posting_entry d p = Some je ∧ posting_customer_id p = Some c ∧
       is_external_flow je = true ∧ entry_effective_date je = x) ∧
  (∀ w, w ∈ pairwise (boundaries c s e d) → s <= w.1 < w.2 ∧ w.2 <= e).
Proof.
  intros Hse. pose proof (boundaries_sorted c s e d) as Hs.
  assert (Hin : ∀ x, x ∈ boundaries c s e d → s <= x <= e).
  { intros x. rewrite boundaries_In, flow_dates_In. naive_solver lia. }
  assert (Hs_in : s ∈ boundaries c s e d) by (apply boundaries_In; auto).
  assert (He_in : e ∈ boundaries c s e d) by (apply boundaries_In; auto).
  split_and!; [done| | | |].
  - destruct (head _) as [x|] eqn:E.
    + pose proof (sorted_head_min _ _ _ Hs E Hs_in). apply head_Some_elem_of in E as Ein.
      apply Hin in Ein. f_equal. lia.
    + apply head_None in E. rewrite E in Hs_in. by apply elem_of_nil in Hs_in.
  - destruct (last _) as [x|] eqn:E.
    + pose proof (sorted_last_max _ _ _ Hs E He_in). apply last_Some_elem_of in E as Ein.
      apply Hin in Ein. f_equal. lia.
    + apply last_None in E. rewrite E in He_in. by apply elem_of_nil in He_in.
  - intros x Hx. rewrite boundaries_In, flow_dates_In. naive_solver lia.
  - intros w. generalize (boundaries c s e d) Hs Hin. intros l. clear. induction l as [|x [|y l] IH]; intros Hs Hin; cbn.
    + by intros ?%elem_of_nil.
    + by intros ?%elem_of_nil.
    + apply StronglySorted_inv in Hs as [Hs Hf]. intros [->|Hw]%elem_of_cons.
      * cbn. rewrite Forall_forall in Hf. specialize (Hf y ltac:(set_solver)).
        pose proof (Hin x ltac:(set_solver)). pose proof (Hin y ltac:(set_solver)). lia.
      * apply IH; [done| |done]. intros z Hz. apply Hin. set_solver.
Qed.
Lemma boundaries_partition_witness : StronglySorted Z.lt (boundaries 7 738150 738160 sample_book).
Proof. exact (proj1 (boundaries_partition 7 738150 738160 sample_book ltac:(done))). Defined.


(** ** Stored sub-periods *)

(** The tables a valuation reads. *)
Definition valuation_tables : list tables_ := [TAccount; TJournalEntry; TPosting; TDailyClose].

Definition same_valuation (d d' : db) : Prop :=
  ∀ t, t ∈ valuation_tables → tables d' t = tables d t.

#[export] Instance same_valuation_preorder : PreOrder same_valuation.
Proof.
  split; [by intros d t Ht|]. intros d1 d2 d3 H1 H2 t Ht. by rewrite (H2 t Ht), (H1 t Ht).
Qed.

Lemma same_valuation_tables d d' :
  same_valuation d d' →
  accounts d' = accounts d ∧ journal_entries d' = journal_entries d ∧ postings d' = postings d ∧
  daily_closes d' = daily_closes d.
Proof.
  intros H. unfold valuation_tables in H. split_and!;
    [apply (H TAccount)|apply (H TJournalEntry)|apply (H TPosting)|apply (H TDailyClose)]; set_solver.
Qed.

Lemma sub_period_figures_frame c b e d d' :
  same_valuation d d' → sub_period_figures c b e d' = sub_period_figures c b e d.
Proof.
  intros (Ha & He & Hp & Hc)%same_valuation_tables.
  unfold sub_period_figures, value_book, flow_amount_on, value_position, latest_confirmed,
    cash_balance_as_of, position_units_rows, unit_postings, on_cash, posting_role, effective_by, flow_on,
    posting_entry, posting_security, account_by_id.
  rewrite Ha, He, Hp, Hc. reflexivity.
Qed.

Lemma boundaries_frame c s e d d' : same_valuation d d' → boundaries c s e d' = boundaries c s e d.
Proof.
  intros (Ha & He & Hp & _)%same_valuation_tables.
  unfold boundaries, flow_dates, posting_entry. by rewrite He, Hp.
Qed.

Lemma writes_sub_period_return c b e : writes [TSubPeriodReturn] (sub_period_return c b e).
Proof. unfold sub_period_return. writes_auto. Qed.
#[export] Hint Resolve writes_sub_period_return : writes.

Lemma writes_compute_twr c s e : writes [TSubPeriodReturn] (compute_twr c s e).
Proof. unfold compute_twr. writes_auto. Qed.
#[export] Hint Resolve writes_compute_twr : writes.

(** Stored returns were recorded in the past. *)
Definition returns_past (d : db) : Prop := ∀ r, r ∈ sub_period_returns d → spr_recorded_at r <= db_now d.

(** The row answers for its window: it is the latest, and says what the ledger says. *)
Definition answers (d : db) (c : uuid) (w : date * date) (r : SubPeriodReturn) : Prop :=
  latest_for_sub_period d c w = Some r ∧ window r = w ∧
  ∃ f, sub_period_figures c w.1 w.2 d = Ok f ∧ same_figures r f = true.

Lemma latest_window d c w r : latest_for_sub_period d c w = Some r →
  r ∈ sub_period_returns d ∧ spr_customer_id r = c ∧ window r = w.
Proof.
  unfold latest_for_sub_period, window_rows. intros [Hin _]%max_by_Some.
  apply list_elem_of_filter in Hin as [[? ?] ?]. done.
Qed.

(** A stored answer is returned as it is, and nothing is written. *)
Lemma answered d c b e r : answers d c (b, e) r → run (sub_period_return c b e) d = Ok (r, d).
Proof.
  intros (Hl & _ & f & Hf & Hs). unfold sub_period_return.
  apply run_bind_Ok. exists f, d. split; [by apply run_queries_Ok|].
  apply run_bind_Ok. exists (Some r), d. split; [by apply run_gets_Ok|]. by rewrite Hs.
Qed.

Lemma same_figures_row id c b e f now :
  same_figures {| spr_id := id; spr_customer_id := c; spr_sub_period_start := b; spr_sub_period_end := e;
    spr_return_pct := figure_return f; spr_value_begin := figure_begin f; spr_value_end := figure_end f;
    spr_flow_amount := figure_flow f; spr_is_provisional := figure_provisional f; spr_recorded_at := now |} f = true.
Proof. unfold same_figures, q_eqb. cbn. by rewrite !Z.eqb_refl, eqb_reflx. Qed.

(** A newer row becomes the latest of its window. *)
Lemma latest_app d r :
  accepts (H := trueup) TSubPeriodReturn d r = true → returns_past d → spr_recorded_at r = db_now d →
  ∀ d', sub_period_returns d' = sub_period_returns d ++ [r] →
  latest_for_sub_period d' (spr_customer_id r) (window r) = Some r.
Proof.
  intros Hacc Hpast Hnow d' Hd'. unfold latest_for_sub_period.
  assert (Hw : window_rows d' (spr_customer_id r) (window r) =
               window_rows d (spr_customer_id r) (window r) ++ [r]).
  { unfold window_rows. rewrite Hd', filter_app, (filter_cons_True _ r), filter_nil by done. done. }
  rewrite Hw. destruct (max_by _ _) as [x|] eqn:E.
  2: { apply max_by_None in E. by apply app_nil in E as [_ ?]. }
  apply max_by_Some in E as [Hin Hmax]. specialize (Hmax r ltac:(set_solver)).
  apply elem_of_app in Hin as [Hin|Hin]; [exfalso|by apply list_elem_of_singleton in Hin as ->].
  unfold window_rows in Hin. apply list_elem_of_filter in Hin as [[Hc Hwin] Hin].
  specialize (Hpast x Hin). unfold accepts in Hacc. apply andb_true_iff in Hacc as [_ Hacc].
  rewrite forallb_forall in Hacc. specialize (Hacc x (proj1 (list_elem_of_In _ _) Hin)).
  cbn in Hacc. injection Hwin as H1 H2.
  rewrite Hc, H1, H2, !Z.eqb_refl in Hacc. cbn in Hacc.
  rewrite (proj2 (Z.eqb_eq (spr_recorded_at x) (spr_recorded_at r))) in Hacc by lia.
  by rewrite orb_true_r in Hacc.
Qed.

(** One recomputation: either the stored row stands, or exactly one newer row
    is added; in both cases the result answers for the window from then on. *)
Lemma sub_period_return_Ok c b e d r d' :
  returns_past d → run (sub_period_return c b e) d = Ok (r, d') →
  answers d' c (b, e) r ∧ same_valuation d d' ∧ returns_past d' ∧ db_now d' = db_now d ∧
  (d' = d ∨ sub_period_returns d' = sub_period_returns d ++ [r] ∧ spr_recorded_at r = db_now d) ∧
  ∀ w, w ≠ (b, e) → latest_for_sub_period d' c w = latest_for_sub_period d c w.
Proof.
  intros Hpast Hrun. pose proof (writes_sub_period_return c b e d r d' Hrun) as Hw.
  assert (Hval : same_valuation d d').
  { intros t Ht. apply Hw. unfold valuation_tables in Ht. set_solver. }
  unfold sub_period_return in Hrun. apply run_bind_Ok in Hrun as (f & d1 & [Hf <-]%run_queries_Ok & Hrun).
  apply run_bind_Ok in Hrun as (ex & d1 & [Hex <-]%run_gets_Ok & Hrun). cbn zeta in Hrun.
  assert (Hf' : sub_period_figures c b e d' = Ok f) by (by rewrite (sub_period_figures_frame _ _ _ d d')).
  assert (Hcase : (∃ s, ex = Some s ∧ same_figures s f = true ∧ r = s ∧ d' = d) ∨
    ∃ id, r = {| spr_id := id; spr_customer_id := c; spr_sub_period_start := b; spr_sub_period_end := e;
      spr_return_pct := figure_return f; spr_value_begin := figure_begin f; spr_value_end := figure_end f;
      spr_flow_amount := figure_flow f; spr_is_provisional := figure_provisional f; spr_recorded_at := db_now d |} ∧
      accepts (H := trueup) TSubPeriodReturn d r = true ∧ sub_period_returns d' = sub_period_returns d ++ [r] ∧
      db_now d' = db_now d).
  { revert Hrun. match goal with |- context [uuid4 ≫= ?k] => set (store := uuid4 ≫= k) end. intros Hrun.
    assert (Hstore : run store d = Ok (r, d') → ∃ id, r = {| spr_id := id; spr_customer_id := c; spr_sub_period_start := b; spr_sub_period_end := e;
      spr_return_pct := figure_return f; spr_value_begin := figure_begin f; spr_value_end := figure_end f;
      spr_flow_amount := figure_flow f; spr_is_provisional := figure_provisional f; spr_recorded_at := db_now d |} ∧
      accepts (H := trueup) TSubPeriodReturn d r = true ∧ sub_period_returns d' = sub_period_returns d ++ [r] ∧
      db_now d' = db_now d).
    { clear Hrun. intros (id & d1 & [-> ->]%run_uuid4_Ok & Hrun)%run_bind_Ok.
      apply run_bind_Ok in Hrun as (now & d1 & [<- <-]%run_gets_Ok & Hrun). cbn zeta in Hrun.
      apply run_bind_Ok in Hrun as (u & d1 & [_ <-]%run_require_Ok & Hrun).
      apply run_bind_Ok in Hrun as (u' & d1 & [Hacc ->]%run_add_Ok & [<- <-]%run_ret_Ok).
      exists (next_uuid d). split_and!; [done|exact Hacc| |done].
      unfold sub_period_returns, insert_row. by rewrite tables_set_same. }
    destruct ex as [s|]; [|by right; apply Hstore]. destruct (same_figures s f) eqn:Es; [|by right; apply Hstore].
    apply run_ret_Ok in Hrun as [<- <-]. left. by exists s. }
  destruct Hcase as [(s & -> & Hs & -> & ->)|(id & Hr & Hacc & Hrows & Hnow)].
  - split_and!; try done; [|by left]. split_and!; [done| |by exists f].
    by apply latest_window in Hex as (_ & _ & ->).
  - assert (Hc : spr_customer_id r = c ∧ window r = (b, e) ∧ spr_recorded_at r = db_now d ∧ same_figures r f = true)
      by (rewrite Hr; split_and!; [done..|apply same_figures_row]).
    destruct Hc as (Hc & Hwin & Hrec & Hs).
    pose proof (latest_app d r Hacc Hpast Hrec d' Hrows) as Hl. rewrite Hc, Hwin in Hl.
    split_and!; [split_and!; [done|done|by exists f]|done| |done|by right|].
    + intros x. rewrite Hrows, Hnow. intros [Hx|Hx]%elem_of_app; [by apply Hpast|].
      apply list_elem_of_singleton in Hx as ->. lia.
    + intros w Hne. unfold latest_for_sub_period, window_rows. rewrite Hrows, filter_app.
      rewrite (filter_cons_False _ r) by naive_solver. by rewrite filter_nil, app_nil_r.
Qed.

Lemma map_prog_answers c ws d rs d' :
  NoDup ws → returns_past d →
  run (map_prog (λ w, sub_period_return c w.1 w.2) ws) d = Ok (rs, d') →
  Forall2 (answers d' c) ws rs ∧ same_valuation d d' ∧ returns_past d' ∧ db_now d' = db_now d ∧
  (∀ w, w ∉ ws → latest_for_sub_period d' c w = latest_for_sub_period d c w).
Proof.
  intros Hnd. revert d rs. induction Hnd as [|[b e] ws Hw Hnd IH]; intros d rs Hp; cbn [map_prog].
  - intros [<- <-]%run_ret_Ok. split_and!; [constructor|done..].
  - intros (r & d1 & H1 & H)%run_bind_Ok. apply run_bind_Ok in H as (rs' & d2 & H2 & [<- <-]%run_ret_Ok).
    destruct (sub_period_return_Ok _ _ _ _ _ _ Hp H1) as ((Hl & Hwin & f & Hf & Hs) & Hv1 & Hp1 & Hn1 & _ & Ho1).
    destruct (IH _ _ Hp1 H2) as (Ha & Hv2 & Hp2 & Hn2 & Ho2). split_and!; [|by etrans|done|congruence|].
    + constructor; [|done]. split_and!; [by rewrite Ho2|done|]. exists f.
      by rewrite (sub_period_figures_frame _ _ _ d1 d2).
    + intros w Hnw. rewrite Ho2 by set_solver. apply Ho1. set_solver.
Qed.

Lemma map_prog_answered c ws d rs :
  Forall2 (answers d c) ws rs → run (map_prog (λ w, sub_period_return c w.1 w.2) ws) d = Ok (rs, d).
Proof.
  induction 1 as [|[b e] r ws rs Ha _ IH]; [done|]. cbn [map_prog fst snd].
  apply run_bind_Ok. exists r, d. split; [by apply answered|].
  apply run_bind_Ok. by exists rs, d.
Qed.

Lemma pairwise_NoDup (l : list Z) : StronglySorted Z.lt l → NoDup (pairwise l).
Proof.
  intros Hs. apply (NoDup_fmap_1 fst). induction l as [|x [|y l] IH]; [constructor|constructor|].
  apply StronglySorted_inv in Hs as [Hs Hf]. cbn. constructor; [|by apply IH].
  intros Hin. assert (x ∈ y :: l) as Hx.
  { apply list_elem_of_fmap in Hin as ([a b] & -> & Hin).
    exact (elem_of_zip_l a b (y :: l) l Hin). }
  rewrite Forall_forall in Hf. specialize (Hf x Hx). lia.
Qed.

Lemma compute_twr_answers c s e d res d' :
  returns_past d → run (compute_twr c s e) d = Ok (res, d') →
  Forall2 (answers d' c) (pairwise (boundaries c s e d)) (twr_sub_periods res) ∧
  link (twr_sub_periods res) = Ok (twr res) ∧
  twr_is_provisional res = existsb spr_is_provisional (twr_sub_periods res) ∧
  same_valuation d d' ∧ returns_past d' ∧ db_now d' = db_now d.
Proof.
  intros Hp Hrun. unfold compute_twr in Hrun.
  apply run_bind_Ok in Hrun as (bs & d1 & [<- <-]%run_gets_Ok & Hrun).
  apply run_bind_Ok in Hrun as (rs & d1 & Hmap & Hrun).
  apply run_bind_Ok in Hrun as (tw & d2 & [Hlink <-]%run_lift_Ok & [<- <-]%run_ret_Ok).
  apply map_prog_answers in Hmap as (Ha & Hv & Hp' & Hn & _); [|by apply pairwise_NoDup, boundaries_sorted|done].
  by split_and!.
Qed.

(** C15. A time-weighted return is reproducible: after it has been computed, the
    period's windows are exactly the pieces between consecutive boundaries,
    each answered by the latest stored row, linked into the figure; computing
    the same period again, as long as the ledger and the closes have not
    changed, gives the very same rows and figure and writes nothing.  This is
    what lets a restatement touch only the windows whose figures moved. *)
Theorem compute_twr_reproducible c s e d res d' :
  returns_past d → run (compute_twr c s e) d = Ok (res, d') →
  (window <$> twr_sub_periods res) = pairwise (boundaries c s e d) ∧
  link (twr_sub_periods res) = Ok (twr res) ∧
  twr_is_provisional res = existsb spr_is_provisional (twr_sub_periods res) ∧
  (∀ r, r ∈ twr_sub_periods res → r ∈ sub_period_returns d') ∧
  (∀ t, t ≠ TSubPeriodReturn → tables d' t = tables d t) ∧
  ∀ d2, same_valuation d' d2 → sub_period_returns d2 = sub_period_returns d' →
    run (compute_twr c s e) d2 = Ok (res, d2).
Proof.
  intros Hp Hrun. pose proof (writes_compute_twr c s e d res d' Hrun) as Hw.
  pose proof (compute_twr_answers _ _ _ _ _ _ Hp Hrun) as (Ha & Hlink & Hprov & Hv & _ & _).
  split_and!; try done.
  - clear -Ha. induction Ha as [|w r ws rs (_ & Hw & _) _ IH]; [done|]. cbn. by rewrite Hw, IH.
  - intros r (i & Hi)%list_elem_of_lookup. destruct (Forall2_lookup_r _ _ _ _ _ Ha Hi) as (w & _ & Hl & _).
    by apply latest_window in Hl as [? _].
  - intros t Ht. apply Hw. by intros ->%list_elem_of_singleton.
  - intros d2 Hv2 Hr2. unfold compute_twr. apply run_bind_Ok. eexists _, d2. split; [by apply run_gets_Ok|].
    rewrite (boundaries_frame _ _ _ d' d2), (boundaries_frame _ _ _ d d') by done.
    apply run_bind_Ok. exists (twr_sub_periods res), d2. split.
    + apply map_prog_answered. eapply Forall2_impl; [exact Ha|]. intros w r (Hl & Hw' & f & Hf & Hs).
      split_and!; [|done|].
      * unfold latest_for_sub_period, window_rows in *. by rewrite Hr2.
      * exists f. by rewrite (sub_period_figures_frame _ _ _ d' d2).
    + apply run_bind_Ok. exists (twr res), d2. split; [by apply run_lift_Ok|]. apply run_ret_Ok. split; [|done].
      unfold compute_twr in Hrun. inv_run. done.
Qed.

Definition sample_period : prog TwrResult := compute_twr 7 738150 738155.

Definition sample_computed : TwrResult * db := run_or sample_period sample_book (Build_TwrResult 0 0 0 false []).

Lemma compute_twr_reproducible_witness :
  run sample_period sample_computed.2 = Ok (sample_computed.1, sample_computed.2) ∧
  length (twr_sub_periods sample_computed.1) = 2%nat.
Proof.
  split; [|by vm_compute].
  assert (Hr : run sample_period sample_book = Ok (sample_computed.1, sample_computed.2)).
  { rewrite <- surjective_pairing. apply run_or_Ok. vm_compute. reflexivity. }
  refine (proj2 (proj2 (proj2 (proj2 (proj2 (compute_twr_reproducible 7 738150 738155 sample_book _ _ _ Hr)))))
    _ (reflexivity _) eq_refl).
  intros r Hr'. exfalso. by apply elem_of_nil in Hr'.
Defined.
