(* ===== verification/Restatement.v ===== *)
(** * Publication and restatement ([services/restatement], [models/restatement])

    A published snapshot pins a period's figures to a watermark; a correction
    recomputes the stored windows it falls in, logs an event per window, and
    cross-checks every published period it touches.  The fee subsystem's
    disclosure hook is the interface [FeeDisclosureChecker]. *)

From S2P Require Import Prelude PyDecimal MoneyTypes Calendar Store Schema Ledger CashPolicy Valuation.
From Stdlib Require Import String.
From stdpp Require Import strings.
Open Scope Z_scope.

(** ** Snapshots ([SnapshotService]) *)

Record DerivedFigures := {
  derived_twr : Z;
  derived_balance : Money;
  derived_sub_periods : list SubPeriodReturn;
}.

(** [sub_periods[-1].value_end if sub_periods else Money("0.00")] *)
Definition closing_balance (sub_periods : list SubPeriodReturn) : Money :=
  match last sub_periods with Some r => spr_value_end r | None => zero end.

(** [SecurityRepository.get_by_id] *)
Definition security_by_id (d : db) (id : uuid) : option Security :=
  head (filter (λ s, security_id s = id) (securities d)).

(** [_current_holdings] *)
Definition current_holdings (customer : uuid) (on : date) (d : db) : result (list (string * json)) :=
  rows ← position_units_rows customer on d;
  Ok (omap (M := list) (λ row : uuid * Units,
    let '(security, units) := row in
    if q_eqb units zero then None
    else Some (uuid_str security,
      JObj [("symbol", match security_by_id d security with
                       | Some s => JStr (security_symbol s) | None => JNull end);
            ("quantity", JStr (q_str units));
            ("close_price", match latest_confirmed d security on with
                            | Some c => JStr (q_str (close_price c)) | None => JNull end)])) rows).

(** [publish] *)
Definition publish (customer : uuid) (period_start period_end : date) : prog PublishedSnapshot :=
  computed ← compute_twr customer period_start period_end;
  watermark ← gets db_now;
  holdings ← queries (current_holdings customer period_end);
  id ← uuid4;
  let snapshot := {| snapshot_id := id; snapshot_customer_id := customer;
                     snapshot_period_start := period_start; snapshot_period_end := period_end;
                     snapshot_publish_watermark := watermark; snapshot_twr := twr computed;
                     snapshot_balance := closing_balance (twr_sub_periods computed);
                     snapshot_holdings_json := holdings; snapshot_published_at := watermark |} in
  add TPublishedSnapshot snapshot ;;
  mret snapshot.

(** [derive] *)
Definition derive (customer : uuid) (period_start period_end : date) (cutoff : instant) (d : db)
    : result DerivedFigures :=
  sub_periods ← map_result (λ w,
    match as_of_for_sub_period d customer w cutoff with
    | Some r => Ok r
    | None => Raise SnapshotDerivationError
    end) (pairwise (boundaries customer period_start period_end d));
  linked ← link sub_periods;
  Ok {| derived_twr := linked; derived_balance := closing_balance sub_periods;
        derived_sub_periods := sub_periods |}.

(** [cross_check] *)
Definition cross_check (snapshot : PublishedSnapshot) (d : db) : result () :=
  derived ← derive (snapshot_customer_id snapshot) (snapshot_period_start snapshot)
              (snapshot_period_end snapshot) (snapshot_publish_watermark snapshot) d;
  ensure ((derived_twr derived =? snapshot_twr snapshot) &&
          q_eqb (derived_balance derived) (snapshot_balance snapshot)) SnapshotCrossCheckFailedError.

(** [latest_for_period] and [list_touching] of the repository. *)
Definition latest_for_period (d : db) (customer : uuid) (period_start : date) : option PublishedSnapshot :=
  max_by snapshot_publish_watermark
    (filter (λ s, snapshot_customer_id s = customer ∧ snapshot_period_start s = period_start)
            (published_snapshots d)).

Definition list_touching (d : db) (customer : uuid) (on : date) : list PublishedSnapshot :=
  filter (λ s, snapshot_customer_id s = customer ∧ snapshot_period_start s <= on ∧
               on <= snapshot_period_end s) (published_snapshots d).

(** ** Restatement ([RestatementService]) *)

(** [check_and_disclose(customer, period_start, period_end, restatement_event)] *)
Class FeeDisclosureChecker := {
  check_and_disclose : uuid → date → date → uuid → prog ();
  check_and_disclose_writes : ∀ c s e r, writes [TDisclosure] (check_and_disclose c s e r);
}.

Definition restatement_event (customer : uuid) (period_start period_end : date)
    (trigger : RestatementTriggerType) (source_event_id : uuid) : prog RestatementEvent :=
  id ← uuid4;
  now ← gets db_now;
  let event := {| restatement_id := id; restatement_customer_id := customer;
                  restatement_affected_period_start := period_start;
                  restatement_affected_period_end := period_end;
                  restatement_trigger_type := trigger;
                  restatement_trigger_source_event_id := source_event_id;
                  restatement_recomputed_at := now |} in
  add TRestatementEvent event ;;
  mret event.

(** The body of the loop of [_relink_and_cross_check]. *)
Definition relink_one (checker : option FeeDisclosureChecker) (customer restatement_event_id : uuid)
    (relinked : list (date * date)) (snapshot : PublishedSnapshot) : prog (list (date * date)) :=
  let key := (snapshot_period_start snapshot, snapshot_period_end snapshot) in
  relinked ← (if bool_decide (key ∈ relinked) then mret relinked
              else compute_twr customer key.1 key.2 ;; mret (key :: relinked));
  queries (cross_check snapshot) ;;
  match checker with
  | Some hook => check_and_disclose (FeeDisclosureChecker := hook) customer key.1 key.2 restatement_event_id
  | None => mret tt
  end ;;
  mret relinked.

(** [_relink_and_cross_check] *)
Definition relink_and_cross_check (checker : option FeeDisclosureChecker) (customer : uuid)
    (affected_date : date) (restatement_event_id : uuid) : prog () :=
  touched ← gets (λ d, list_touching d customer affected_date);
  fold_prog (relink_one checker customer restatement_event_id) touched [] ;;
  mret tt.

(** The body of the loop over the windows. *)
Definition restate_window (customer : uuid) (trigger : RestatementTriggerType) (source_event_id : uuid)
    (w : SubPeriodReturn) : prog (RestatementEvent * SubPeriodReturn) :=
  event ← restatement_event customer (spr_sub_period_start w) (spr_sub_period_end w) trigger source_event_id;
  recomputed ← sub_period_return customer (spr_sub_period_start w) (spr_sub_period_end w);
  mret (event, recomputed).

(** [restate] *)
Definition restate (checker : option FeeDisclosureChecker) (customer : uuid) (affected_date : date)
    (trigger : RestatementTriggerType) (source_event_id : uuid) : prog (list SubPeriodReturn) :=
  windows ← gets (λ d, containing d customer affected_date);
  match windows with
  | [] =>
      restatement_event customer affected_date affected_date trigger source_event_id ;;
      mret []
  | _ =>
      done ← map_prog (restate_window customer trigger source_event_id) windows;
      match done with
      | (first, _) :: _ =>
          relink_and_cross_check checker customer affected_date (restatement_id first) ;;
          mret (snd <$> done)
      | [] => mret []
      end
  end.

(** ** The fee disclosure hook ([FeeRestatementDisclosureService]) *)

(** [has_succeeded_charge_for_period] *)
Definition has_succeeded_charge_for_period (d : db) (customer : uuid) (period_start period_end : date)
    : result (option FeeCharge) :=
  scalar_one_or_none (filter (λ f,
    charge_customer_id f = customer ∧ charge_billing_period_start f <= period_end ∧
    period_start <= charge_billing_period_end f ∧ charge_status f = CHARGE_SUCCEEDED) (fee_charges d)).

(** [check_and_disclose] *)
Definition disclose (customer : uuid) (period_start period_end : date) (restatement_event_id : uuid) : prog () :=
  charge ← queries (λ d, has_succeeded_charge_for_period d customer period_start period_end);
  match charge with
  | None => mret tt
  | Some f =>
      id ← uuid4;
      now ← gets db_now;
      add TDisclosure {| disclosure_id := id; disclosure_customer_id := customer;
                         disclosure_fee_charge_id := charge_id f;
                         disclosure_restatement_event_id := restatement_event_id;
                         disclosure_created_at := now |}
  end.

Lemma writes_disclose c s e r : writes [TDisclosure] (disclose c s e r).
Proof. unfold disclose. writes_auto. Qed.

#[export] Instance FeeRestatementDisclosureService : FeeDisclosureChecker :=
  {| check_and_disclose := disclose; check_and_disclose_writes := writes_disclose |}.

(** ** Lemmas *)

Lemma writes_publish c s e : writes [TSubPeriodReturn; TPublishedSnapshot] (publish c s e).
Proof. unfold publish. writes_auto. Qed.

(** The tables a restatement may write. *)
Definition restatement_tables : list tables_ := [TSubPeriodReturn; TRestatementEvent; TDisclosure].

Lemma writes_restatement_event c s e t id : writes restatement_tables (restatement_event c s e t id).
Proof. unfold restatement_event, restatement_tables. writes_auto. Qed.
#[export] Hint Resolve writes_restatement_event : writes.

Lemma writes_relink_one checker c r l s : writes [TSubPeriodReturn; TDisclosure] (relink_one checker c r l s).
Proof.
  unfold relink_one. apply writes_bind.
  - destruct (bool_decide _); [apply writes_ret|]. writes_auto.
  - intros relinked. apply writes_bind; [apply writes_queries|]. intros _. apply writes_bind; [|intros _; apply writes_ret].
    destruct checker as [hook|]; [|apply writes_ret].
    eapply writes_weaken; [apply check_and_disclose_writes|]. set_solver.
Qed.

Lemma writes_relink checker c on id : writes [TSubPeriodReturn; TDisclosure] (relink_and_cross_check checker c on id).
Proof.
  unfold relink_and_cross_check. apply writes_bind; [apply writes_gets|]. intros touched.
  apply writes_bind; [|intros _; apply writes_ret]. apply writes_fold. intros l s. apply writes_relink_one.
Qed.

Lemma writes_restate_window c t id w : writes restatement_tables (restate_window c t id w).
Proof.
  unfold restate_window. apply writes_bind; [apply writes_restatement_event|]. intros ev.
  apply writes_bind; [|intros r; apply writes_ret].
  eapply writes_weaken; [apply writes_sub_period_return|]. unfold restatement_tables. set_solver.
Qed.

Lemma writes_restate checker c on t id :
  writes [TSubPeriodReturn; TRestatementEvent; TDisclosure] (restate checker c on t id).
Proof.
  change (writes restatement_tables (restate checker c on t id)).
  unfold restate. apply writes_bind; [apply writes_gets|]. intros [|w ws].
  - apply writes_bind; [apply writes_restatement_event|]. intros _. apply writes_ret.
  - apply writes_bind; [apply writes_map; intros ?; apply writes_restate_window|]. intros [|[ev r] l]; [apply writes_ret|].
    apply writes_bind; [|intros _; apply writes_ret].
    eapply writes_weaken; [apply writes_relink|]. unfold restatement_tables. set_solver.
Qed.
#[export] Hint Resolve writes_restate : writes.

Lemma preserves_writes {A} ts (m : prog A) :
  writes ts m → forallb (λ t, bool_decide (t ∉ ledger_tables)) ts = true → preserves ledger_ok m.
Proof.
  intros Hw Hts. eapply preserves_frame; [|exact Hw]. intros d d' Hf. apply ledger_ok_frame.
  intros t Ht. apply Hf. intros Hin. rewrite forallb_forall in Hts.
  apply list_elem_of_In in Hin. specialize (Hts t Hin). by apply bool_decide_eq_true in Hts.
Qed.

Lemma preserves_restate checker c on t id : preserves ledger_ok (restate checker c on t id).
Proof. eapply preserves_writes; [apply writes_restate|done]. Qed.
#[export] Hint Resolve preserves_restate : preserves.

(** What a publication is made of. *)
Lemma publish_Ok c s e d snap d' :
  returns_past d → run (publish c s e) d = Ok (snap, d') →
  ∃ res dx, run (compute_twr c s e) d = Ok (res, dx) ∧ same_valuation dx d' ∧
    sub_period_returns d' = sub_period_returns dx ∧ db_now d' = db_now dx ∧
    snapshot_customer_id snap = c ∧ snapshot_period_start snap = s ∧ snapshot_period_end snap = e ∧
    snapshot_publish_watermark snap = db_now d ∧ snapshot_twr snap = twr res ∧
    snapshot_balance snap = closing_balance (twr_sub_periods res) ∧
    published_snapshots d' = published_snapshots d ++ [snap].
Proof.
  intros Hp Hrun. unfold publish in Hrun. apply run_bind_Ok in Hrun as (res & dx & Hc & Hrun).
  pose proof (compute_twr_answers _ _ _ _ _ _ Hp Hc) as (_ & _ & _ & _ & _ & Hnow).
  pose proof (writes_compute_twr c s e d res dx Hc TPublishedSnapshot ltac:(by intros ?%list_elem_of_singleton)) as Hsn.
  apply run_bind_Ok in Hrun as (now & d1 & [<- <-]%run_gets_Ok & Hrun).
  apply run_bind_Ok in Hrun as (h & d1 & [Hh <-]%run_queries_Ok & Hrun).
  apply run_bind_Ok in Hrun as (id & d1 & [-> ->]%run_uuid4_Ok & Hrun). cbn zeta in Hrun.
  apply run_bind_Ok in Hrun as (u & d1 & [_ ->]%run_add_Ok & [<- <-]%run_ret_Ok).
  exists res, dx. split_and!; try done.
  - intros t Ht. unfold insert_row. rewrite tables_set_ne; [done|]. intros <-.
    unfold valuation_tables in Ht. set_solver.
  - unfold published_snapshots, insert_row. rewrite tables_set_same. cbn [tables]. by rewrite Hsn.
Qed.

Lemma as_of_answers d d2 c w r cutoff new :
  returns_past d → db_now d = cutoff → latest_for_sub_period d c w = Some r →
  sub_period_returns d2 = sub_period_returns d ++ new → (∀ x, x ∈ new → cutoff < spr_recorded_at x) →
  as_of_for_sub_period d2 c w cutoff = Some r.
Proof.
  intros Hp Hnow Hl Hrows Hnew. unfold as_of_for_sub_period. rewrite <- Hl. unfold latest_for_sub_period.
  f_equal. unfold window_rows. rewrite Hrows, filter_app, filter_app, (filter_none _ (filter _ new)), app_nil_r.
  - apply filter_all. intros x [_ Hx]%list_elem_of_filter. specialize (Hp x Hx). lia.
  - intros x [_ Hx]%list_elem_of_filter. specialize (Hnew x Hx). lia.
Qed.

Lemma map_result_answers d c cutoff ws rs :
  Forall2 (λ w r, as_of_for_sub_period d c w cutoff = Some r) ws rs →
  map_result (λ w, match as_of_for_sub_period d c w cutoff with
                   | Some r => Ok r | None => Raise SnapshotDerivationError end) ws = Ok rs.
Proof. intros H. apply map_result_Forall2. eapply Forall2_impl; [exact H|]. cbn. by intros w r ->. Qed.

(** ** Properties *)

(** The boundaries are determined by which dates saw a flow. *)
Lemma boundaries_ext c s e d d' :
  (∀ x, x ∈ flow_dates c s e d' ↔ x ∈ flow_dates c s e d) → boundaries c s e d' = boundaries c s e d.
Proof.
  intros Hf. apply (StronglySorted_unique_strong Z.lt); [lia|apply boundaries_sorted..|].
  unfold boundaries. rewrite !sort_by_perm. apply NoDup_Permutation; [apply NoDup_remove_dups..|].
  intros x. rewrite !elem_of_remove_dups, !elem_of_cons, !elem_of_app, Hf. done.
Qed.

(** Every boundary but the first ends a window. *)
Lemma pairwise_ends (l : list Z) x : x ∈ tail l → ∃ y, (y, x) ∈ pairwise l.
Proof.
  unfold pairwise. induction l as [|z [|y l] IH]; cbn [tail zip zip_with]; [by intros ?%elem_of_nil..|].
  intros [->|Hx]%elem_of_cons; [exists z; by left|]. destruct (IH Hx) as [w Hw]. exists w. by right.
Qed.

Lemma flow_ends_window c s e d x : x ∈ flow_dates c s e d → ∃ y, (y, x) ∈ pairwise (boundaries c s e d).
Proof.
  intros Hx. apply pairwise_ends. pose proof (boundaries_sorted c s e d) as Hs.
  assert (Hin : x ∈ boundaries c s e d) by (apply boundaries_In; auto).
  assert (Hsin : s ∈ boundaries c s e d) by (apply boundaries_In; auto).
  apply flow_dates_In in Hx as (_ & _ & _ & _ & _ & _ & _ & Hlt).
  destruct (boundaries c s e d) as [|y l]; [by apply elem_of_nil in Hin|].
  pose proof (sorted_head_min _ y s Hs eq_refl Hsin).
  apply elem_of_cons in Hin as [->|]; [lia|done].
Qed.

(** Without a return on file for a window, a derivation raises. *)
Lemma derive_missing c s e cutoff d w :
  w ∈ pairwise (boundaries c s e d) → as_of_for_sub_period d c w cutoff = None →
  derive c s e cutoff d = Raise SnapshotDerivationError.
Proof.
  intros Hw Hnone. unfold derive.
  assert (map_result (λ w, match as_of_for_sub_period d c w cutoff with
            | Some r => Ok r | None => Raise SnapshotDerivationError end) (pairwise (boundaries c s e d)) =
          Raise SnapshotDerivationError) as ->; [|done].
  induction (pairwise (boundaries c s e d)) as [|v l IH]; [by apply elem_of_nil in Hw|]. cbn [map_result].
  apply elem_of_cons in Hw as [<-|Hw]; [by rewrite Hnone|].
  destruct (as_of_for_sub_period d c v cutoff); [|done]. cbn [mbind result_bind]. by rewrite IH.
Qed.

(** C16. A published snapshot reproduces as long as no external flow is back-dated
    into its period.  Whatever is recorded after its watermark (newer returns
    from corrected closes, late dividends, splits), while the period has the flow
    dates it had, deriving the period at the watermark gives exactly the published
    return and balance, so [cross_check] passes, and it fails on any snapshot
    whose return or balance differs from the derived one.  A deposit or
    withdrawal back-dated to a day inside the period on which no stored return
    of the customer ended breaks the period at that day, for which nothing was
    on file at the watermark: [cross_check] then raises
    [SnapshotDerivationError], every time. *)
Theorem published_snapshot_reproduces c s e d snap d1 :
  returns_past d → run (publish c s e) d = Ok (snap, d1) →
  ∀ d2 new, sub_period_returns d2 = sub_period_returns d1 ++ new →
    (∀ x, x ∈ new → snapshot_publish_watermark snap < spr_recorded_at x) →
    ((∀ x, x ∈ flow_dates c s e d2 ↔ x ∈ flow_dates c s e d1) →
     run (queries (cross_check snap)) d2 = Ok (tt, d2) ∧
     ∀ forged, snapshot_customer_id forged = c → snapshot_period_start forged = s →
       snapshot_period_end forged = e → snapshot_publish_watermark forged = snapshot_publish_watermark snap →
       snapshot_twr forged ≠ snapshot_twr snap ∨ snapshot_balance forged ≠ snapshot_balance snap →
       cross_check forged d2 = Raise SnapshotCrossCheckFailedError) ∧
    (∀ x, x ∈ flow_dates c s e d2 →
       (∀ r, r ∈ sub_period_returns d1 → spr_customer_id r = c → spr_sub_period_end r ≠ x) →
       cross_check snap d2 = Raise SnapshotDerivationError).
Proof.
  intros Hp Hrun d2 new Hrows Hnew. split; [|].
  2: { intros x [y Hw]%flow_ends_window Hx.
    destruct (publish_Ok _ _ _ _ _ _ Hp Hrun) as (_ & _ & _ & _ & _ & _ & H1 & H2 & H3 & _).
    unfold cross_check. rewrite H1, H2, H3, (derive_missing _ _ _ _ _ _ Hw); [done|].
    apply max_by_None, filter_none. intros r Hr Hcut. apply list_elem_of_filter in Hr as [[Hc Hwin] Hr].
    rewrite Hrows in Hr. apply elem_of_app in Hr as [Hr|Hr]; [|specialize (Hnew r Hr); lia].
    apply (Hx r Hr Hc). unfold window in Hwin. by injection Hwin. }
  intros Hb%boundaries_ext.
  destruct (publish_Ok _ _ _ _ _ _ Hp Hrun) as (res & dx & Hc & Hv & Hr1 & Hn1 & H1 & H2 & H3 & H4 & H5 & H6 & _).
  pose proof (compute_twr_answers _ _ _ _ _ _ Hp Hc) as (Ha & Hlink & _ & Hvx & Hpx & Hnx).
  assert (Hder : derive c s e (snapshot_publish_watermark snap) d2 =
    Ok {| derived_twr := twr res; derived_balance := closing_balance (twr_sub_periods res);
          derived_sub_periods := twr_sub_periods res |}).
  { unfold derive. rewrite Hb, (boundaries_frame _ _ _ dx d1), (boundaries_frame _ _ _ d dx) by done.
    rewrite (map_result_answers _ _ _ _ (twr_sub_periods res)).
    - cbn [mbind result_bind]. by rewrite Hlink.
    - eapply Forall2_impl; [exact Ha|]. intros w r (Hl & _).
      eapply (as_of_answers dx); [done| |done| |exact Hnew]; [congruence|by rewrite Hrows, Hr1]. }
  split.
  - apply run_queries_Ok. split; [|done]. unfold cross_check. rewrite H1, H2, H3, Hder. cbn.
    rewrite H5, H6. unfold q_eqb. by rewrite !Z.eqb_refl.
  - intros forged F1 F2 F3 F4 Hdiff. unfold cross_check. rewrite F1, F2, F3, F4, Hder. cbn.
    rewrite H5, H6 in Hdiff. unfold ensure, q_eqb. destruct (_ && _) eqn:E; [exfalso|done]. zbool.
    destruct Hdiff as [Hd|Hd]; apply Hd; [done|].
    destruct (snapshot_balance forged), (closing_balance _). cbn in *. by f_equal.
Qed.

(** Publishing the period of the valuation example. *)
Definition sample_publication : PublishedSnapshot * db :=
  run_or (publish 7 738150 738155) sample_book
    {| snapshot_id := 0; snapshot_customer_id := 0; snapshot_period_start := 0; snapshot_period_end := 0;
       snapshot_publish_watermark := 0; snapshot_twr := 0; snapshot_balance := zero;
       snapshot_holdings_json := []; snapshot_published_at := 0 |}.

(** A deposit made later with an earlier effective date. *)
Definition sample_backdated : db :=
  let d := sample_publication.2 in
  set_table (H := trueup) TPosting (postings d ++
    [{| posting_id := 501; posting_journal_entry_id := 101; posting_account_id := 1; posting_customer_id := Some 7;
        posting_amount_money := Some (QD 10000); posting_quantity_units := None |}])
    (set_table (H := trueup) TJournalEntry (journal_entries d ++
      [{| entry_id := 101; entry_type := DEPOSIT; entry_effective_date := 738152; entry_recorded_at := 20;
          entry_superseded_by := None; entry_supersedes_reason := None; entry_source_event_id := 1; entry_memo := None |}]) d).

Lemma published_snapshot_reproduces_witness :
  run (queries (cross_check sample_publication.1)) sample_publication.2 = Ok (tt, sample_publication.2) ∧
  cross_check sample_publication.1 sample_backdated = Raise SnapshotDerivationError.
Proof.
  assert (Hr : run (publish 7 738150 738155) sample_book = Ok (sample_publication.1, sample_publication.2)).
  { rewrite <- surjective_pairing. apply run_or_Ok. vm_compute. reflexivity. }
  assert (Hp : returns_past sample_book) by (intros r Hr'; exfalso; by apply elem_of_nil in Hr').
  assert (Hno : ∀ r : SubPeriodReturn, r ∈ [] → snapshot_publish_watermark sample_publication.1 < spr_recorded_at r)
    by (intros r Hr'; exfalso; by apply elem_of_nil in Hr').
  split.
  - refine (proj1 (proj1 (published_snapshot_reproduces 7 738150 738155 sample_book _ _ Hp Hr
      sample_publication.2 [] _ Hno) _)); [symmetry; apply app_nil_r|done].
  - refine (proj2 (published_snapshot_reproduces 7 738150 738155 sample_book _ _ Hp Hr
      sample_backdated [] _ Hno) 738152 _ _); [symmetry; apply app_nil_r| |].
    + assert (flow_dates 7 738150 738155 sample_backdated = [738154; 738152]) as -> by (vm_compute; reflexivity). right. by left.
    + intros r Hr' _ He. assert (forallb (λ r, negb (spr_sub_period_end r =? 738152)) (sub_period_returns sample_publication.2) = true) as Hf
        by (vm_compute; reflexivity).
      rewrite forallb_forall in Hf. apply list_elem_of_In, Hf in Hr'. by rewrite He in Hr'.
Defined.

(** ** What a restatement does *)

Lemma restatement_event_Ok c s e t id d ev d' :
  run (restatement_event c s e t id) d = Ok (ev, d') →
  restatement_events d' = restatement_events d ++ [ev] ∧ restatement_customer_id ev = c ∧
  restatement_affected_period_start ev = s ∧ restatement_affected_period_end ev = e ∧
  restatement_trigger_type ev = t ∧ restatement_trigger_source_event_id ev = id ∧
  (∀ t', t' ≠ TRestatementEvent → tables d' t' = tables d t') ∧ db_now d' = db_now d.
Proof.
  unfold restatement_event. intros (u & d1 & [-> ->]%run_uuid4_Ok & H)%run_bind_Ok.
  apply run_bind_Ok in H as (now & d1 & [<- <-]%run_gets_Ok & H). cbn zeta in H.
  apply run_bind_Ok in H as (u' & d1 & [_ ->]%run_add_Ok & [<- <-]%run_ret_Ok). split_and!; try done.
  intros t' Ht. unfold insert_row. by rewrite tables_set_ne.
Qed.

(** The events and rows of the affected windows. *)
Definition restated (c : uuid) (t : RestatementTriggerType) (id : uuid) (w : SubPeriodReturn)
    (done : RestatementEvent * SubPeriodReturn) : Prop :=
  restatement_customer_id done.1 = c ∧ restatement_affected_period_start done.1 = spr_sub_period_start w ∧
  restatement_affected_period_end done.1 = spr_sub_period_end w ∧ restatement_trigger_type done.1 = t ∧
  restatement_trigger_source_event_id done.1 = id ∧ window done.2 = window w.

Lemma restate_windows_Ok c t id ws d done d' :
  returns_past d → run (map_prog (restate_window c t id) ws) d = Ok (done, d') →
  Forall2 (restated c t id) ws done ∧ restatement_events d' = restatement_events d ++ (fst <$> done) ∧
  returns_past d'.
Proof.
  revert d done. induction ws as [|w ws IH]; intros d done Hp; cbn [map_prog].
  - intros [<- <-]%run_ret_Ok. cbn. rewrite app_nil_r. split_and!; [constructor|done|done].
  - intros ([ev r] & d1 & H1 & H)%run_bind_Ok. apply run_bind_Ok in H as (rest & d2 & H2 & [<- <-]%run_ret_Ok).
    unfold restate_window in H1. apply run_bind_Ok in H1 as (ev' & d3 & He & H1).
    apply run_bind_Ok in H1 as (r' & d4 & Hs & [[= <- <-] <-]%run_ret_Ok).
    apply restatement_event_Ok in He as (E1 & E2 & E3 & E4 & E5 & E6 & Ef & En).
    assert (Hp3 : returns_past d3).
    { intros x Hx. rewrite En. apply Hp. unfold sub_period_returns in *. by rewrite Ef in Hx. }
    pose proof (writes_sub_period_return _ _ _ _ _ _ Hs TRestatementEvent ltac:(by intros ?%list_elem_of_singleton)) as Hre.
    destruct (sub_period_return_Ok _ _ _ _ _ _ Hp3 Hs) as ((_ & Hw & _) & _ & Hp4 & _).
    destruct (IH _ _ Hp4 H2) as (F & G & Hp'). split_and!; [|cbn|done].
    + constructor; [by split_and!|done].
    + rewrite G. unfold restatement_events in *. by rewrite Hre, E1, <- app_assoc.
Qed.

(** A restatement is audited and contained: it logs exactly one event per
    stored window that contains the affected date, with that window's bounds
    and the trigger (or a single event for the date when no window does),
    returns one recomputed row per window, never changes what was stored
    before, and writes nothing but returns, restatement events and
    disclosures: the ledger, the lots and the snapshots are untouched. *)
Theorem restate_audited checker c on t id d rows d' :
  returns_past d → run (restate checker c on t id) d = Ok (rows, d') →
  (∀ t', t' ∉ restatement_tables → tables d' t' = tables d t') ∧
  sub_period_returns d `prefix_of` sub_period_returns d' ∧
  match containing d c on with
  | [] => rows = [] ∧ ∃ ev, restatement_events d' = restatement_events d ++ [ev] ∧
            restatement_customer_id ev = c ∧ restatement_affected_period_start ev = on ∧
            restatement_affected_period_end ev = on ∧ restatement_trigger_source_event_id ev = id
  | windows => ∃ events, Forall2 (restated c t id) windows (zip events rows) ∧
                 length events = length rows ∧ restatement_events d' = restatement_events d ++ events
  end.
Proof.
  intros Hp Hrun. split_and!.
  - exact (writes_restate _ _ _ _ _ _ _ _ Hrun).
  - apply run_extends in Hrun as (_ & _ & He). by apply (He TSubPeriodReturn).
  - unfold restate in Hrun. apply run_bind_Ok in Hrun as (ws & d1 & [<- <-]%run_gets_Ok & Hrun).
    destruct (containing d c on) as [|w ws].
    + apply run_bind_Ok in Hrun as (ev & d1 & He & [<- <-]%run_ret_Ok).
      apply restatement_event_Ok in He as (E1 & E2 & E3 & E4 & E5 & E6 & _). split; [done|]. by exists ev.
    + apply run_bind_Ok in Hrun as (done & d1 & Hmap & Hrun).
      destruct (restate_windows_Ok _ _ _ _ _ _ _ Hp Hmap) as (Hf & He & _).
      destruct done as [|[ev r] done]; [by inversion Hf|].
      apply run_bind_Ok in Hrun as (u & d2 & Hrel & [<- <-]%run_ret_Ok).
      assert (Hev : restatement_events d2 = restatement_events d1).
      { apply (writes_relink _ _ _ _ _ _ _ Hrel TRestatementEvent). clear. set_solver. }
      exists (fst <$> (ev, r) :: done). split_and!.
      * by rewrite zip_fst_snd.
      * by rewrite !length_fmap.
      * by rewrite Hev, He.
Qed.

Lemma restate_audited_witness :
  ∃ ev, restatement_events (run_or (restate None 7 738152 SPLIT_TRIGGER 3) sample_book []).2 =
        restatement_events sample_book ++ [ev] ∧ restatement_affected_period_start ev = 738152.
Proof.
  assert (Hr : run (restate None 7 738152 SPLIT_TRIGGER 3) sample_book =
               Ok (run_or (restate None 7 738152 SPLIT_TRIGGER 3) sample_book []))
    by (apply run_or_Ok; vm_compute; reflexivity).
  rewrite (surjective_pairing (run_or _ _ _)) in Hr.
  destruct (restate_audited None 7 738152 SPLIT_TRIGGER 3 sample_book _ _
    ltac:(intros r Hr'; exfalso; by apply elem_of_nil in Hr') Hr) as (_ & _ & H).
  change (containing sample_book 7 738152) with (@nil SubPeriodReturn) in H.
  destruct H as (_ & ev & H1 & _ & H2 & _). exists ev. exact (conj H1 H2).
Defined.

(** The disclosure hook has three outcomes: with no succeeded charge
    overlapping the touched period it writes nothing; with one it records one
    disclosure of that charge for the restatement; and with two or more (a
    published period that spans two succeeded billing periods) it raises
    [MultipleResultsFound], which fails the whole restatement and with it the
    correction that triggered it. *)
Theorem disclose_outcomes c s e id d :
  let succeeded := filter (λ f, charge_customer_id f = c ∧ charge_billing_period_start f <= e ∧
    s <= charge_billing_period_end f ∧ charge_status f = CHARGE_SUCCEEDED) (fee_charges d) in
  match succeeded with
  | [] => run (disclose c s e id) d = Ok (tt, d)
  | [f] => has restatement_id (restatement_events d) id = true →
           (∀ x, x ∈ fee_restatement_disclosures d → disclosure_id x < next_uuid d) →
           ∃ x d', run (disclose c s e id) d = Ok (tt, d') ∧
             fee_restatement_disclosures d' = fee_restatement_disclosures d ++ [x] ∧
             disclosure_customer_id x = c ∧ disclosure_fee_charge_id x = charge_id f ∧
             disclosure_restatement_event_id x = id ∧ ∀ t, t ≠ TDisclosure → tables d' t = tables d t
  | _ => run (disclose c s e id) d = Raise MultipleResultsFound
  end.
Proof.
  intros succeeded. assert (Hs : has_succeeded_charge_for_period d c s e = scalar_one_or_none succeeded) by done.
  destruct succeeded as [|f [|g l]] eqn:E.
  - unfold disclose. rewrite run_bind. unfold queries. cbn [run]. by rewrite Hs.
  - intros Hid Hfresh. set (d1 := Db (tables d) (next_uuid d + 1) (db_now d)).
    set (x := {| disclosure_id := next_uuid d; disclosure_customer_id := c; disclosure_fee_charge_id := charge_id f;
                 disclosure_restatement_event_id := id; disclosure_created_at := db_now d |}).
    assert (Hacc : accepts (H := trueup) TDisclosure d1 x = true).
    { unfold accepts. rewrite !andb_true_iff. split_and!; [done| |].
      - change (has charge_id (fee_charges d) (charge_id f) && has restatement_id (restatement_events d) id = true).
        rewrite Hid, andb_true_r. apply existsb_exists. exists f. split; [|apply Z.eqb_refl].
        assert (f ∈ [f]) as Hf by set_solver. rewrite <- E in Hf.
        apply list_elem_of_filter in Hf as [_ Hf]. by apply list_elem_of_In.
      - apply forallb_forall. intros y Hy. apply list_elem_of_In in Hy. specialize (Hfresh y Hy). cbn.
        apply negb_true_iff, Z.eqb_neq. lia. }
    exists x, (insert_row (H := trueup) TDisclosure x d1). split_and!; try done.
    + unfold disclose. apply run_bind_Ok. exists (Some f), d. split; [by apply run_queries_Ok|].
      apply run_bind_Ok. exists (next_uuid d), d1. split; [by apply run_uuid4_Ok|].
      apply run_bind_Ok. exists (db_now d), d1. split; [by apply run_gets_Ok|]. by apply run_add_Ok.
    + intros t Ht. unfold insert_row. by rewrite tables_set_ne.
  - unfold disclose. rewrite run_bind. unfold queries. cbn [run]. by rewrite Hs.
Qed.

(** Two succeeded billing periods inside one published period. *)
Definition sample_charge (id : uuid) (first last : date) : FeeCharge :=
  {| charge_id := id; charge_customer_id := 7; charge_billing_period_start := first;
     charge_billing_period_end := last; charge_total_accrued := QD 10000;
     charge_as_published_watermark := None; charge_status := CHARGE_SUCCEEDED;
     charge_stripe_charge_id := None; charge_journal_entry_id := None |}.

Definition sample_two_charges : db :=
  set_table (H := trueup) TFeeCharge [sample_charge 1 738100 738130; sample_charge 2 738131 738160] (empty_db 0).

Lemma disclose_outcomes_witness :
  run (disclose 7 738120 738140 9) sample_two_charges = Raise MultipleResultsFound.
Proof. exact (disclose_outcomes 7 738120 738140 9 sample_two_charges). Defined.
