(* ===== verification/Lots.v ===== *)
(** * Tax lots ([services/lots], [models/ledger/tax_lot.py])

    A lot per buy fill, lots consumed oldest first (or as designated) by a sell
    fill, and the reactive wash-sale adjustment.  A lot row is shared by every
    step of a transaction, so each step reads the row it changes. *)

From S2P Require Import Prelude PyDecimal MoneyTypes Calendar Store Schema Ledger CashPolicy Valuation Restatement.
From Stdlib Require Import String.
From stdpp Require Import strings.
Open Scope Z_scope.

(** ** The repositories *)

Definition lot_by_id (d : db) (id : uuid) : option TaxLot :=
  head (filter (λ l, lot_id l = id) (tax_lots d)).

(** The row behind a lot object, as the session has it now. *)
Definition current_lot (d : db) (l : TaxLot) : TaxLot := default l (lot_by_id d (lot_id l)).

(** Oldest acquisition first, then by id. *)
Definition lot_le (a b : TaxLot) : bool :=
  (lot_acquired_at a <? lot_acquired_at b) ||
  ((lot_acquired_at a =? lot_acquired_at b) && (lot_id a <=? lot_id b)).

Definition is_open_lot (customer security : uuid) (l : TaxLot) : Prop :=
  lot_customer_id l = customer ∧ lot_security_id l = security ∧ q_ltb zero (lot_quantity_remaining l) = true.

#[export] Instance is_open_lot_dec c s l : Decision (is_open_lot c s l).
Proof. unfold is_open_lot. apply _. Defined.

(** [lock_open_for_security] *)
Definition lock_open_for_security (d : db) (customer security : uuid) : list TaxLot :=
  filter (is_open_lot customer security) (tax_lots d).

(** [lock_open_fifo] *)
Definition lock_open_fifo (d : db) (customer security : uuid) : list TaxLot :=
  sort_by lot_le (lock_open_for_security d customer security).

(** [total_remaining] *)
Definition total_remaining (customer security : uuid) (d : db) : result Units :=
  q_sum (lot_quantity_remaining <$> lock_open_for_security d customer security).

(** [list_customers_holding] *)
Definition list_customers_holding (d : db) (security : uuid) : list uuid :=
  remove_dups (lot_customer_id <$> filter (λ l,
    lot_security_id l = security ∧ q_ltb zero (lot_quantity_remaining l) = true) (tax_lots d)).

(** [find_earliest_replacement_in_window] *)
Definition find_earliest_replacement_in_window (d : db) (customer security : uuid)
    (window_start window_end : date) (exclude_lot_id : uuid) : option TaxLot :=
  head (sort_by lot_le (filter (λ l,
    lot_customer_id l = customer ∧ lot_security_id l = security ∧ lot_id l ≠ exclude_lot_id ∧
    window_start <= lot_acquired_at l ∧ lot_acquired_at l <= window_end) (tax_lots d))).

(** [exists_for_consumption] *)
Definition exists_for_consumption (d : db) (consumption : uuid) : bool :=
  existsb (λ w, wash_original_lot_consumption_id w =? consumption) (wash_sale_adjustments d).

(** [find_unadjusted_losses_in_window] *)
Definition find_unadjusted_losses_in_window (d : db) (customer security : uuid)
    (window_start window_end : date) : list LotConsumption :=
  filter (λ k,
    (match lot_by_id d (consumption_tax_lot_id k) with
     | Some l => (lot_customer_id l =? customer) && (lot_security_id l =? security)
     | None => false
     end = true) ∧
    q_ltb (consumption_realized_gain_loss k) zero = true ∧
    window_start <= consumption_sale_date k ∧ consumption_sale_date k <= window_end ∧
    exists_for_consumption d (consumption_id k) = false) (lot_consumptions d).

(** ** Assignments to a lot or a consumption *)

Definition set_lot (l : TaxLot) (opened remaining : Units) (basis : Money) (designation : LotDesignation) : TaxLot :=
  {| lot_id := lot_id l; lot_customer_id := lot_customer_id l; lot_security_id := lot_security_id l;
     lot_opening_fill_execution_id := lot_opening_fill_execution_id l;
     lot_quantity_opened := opened; lot_quantity_remaining := remaining;
     lot_original_cost_basis := lot_original_cost_basis l; lot_adjusted_basis := basis;
     lot_acquired_at := lot_acquired_at l; lot_designation := designation;
     lot_designation_window_closes_at := lot_designation_window_closes_at l |}.

(** [lot.attribute = value], the object being the row of this id. *)
Definition assign_lot (id : uuid) (f : TaxLot → TaxLot) : prog () :=
  update TTaxLot (λ r, lot_id r =? id) f.

Definition set_realized (realized : Money) (k : LotConsumption) : LotConsumption :=
  {| consumption_id := consumption_id k; consumption_closing_fill_execution_id := consumption_closing_fill_execution_id k;
     consumption_tax_lot_id := consumption_tax_lot_id k; consumption_quantity_consumed := consumption_quantity_consumed k;
     consumption_realized_gain_loss := realized; consumption_is_provisional := consumption_is_provisional k;
     consumption_sale_date := consumption_sale_date k |}.

(** ** Wash sales ([WashSaleService]) *)

Definition WASH_SALE_WINDOW_DAYS : Z := 30.

(** [_window] *)
Definition wash_window (anchor : date) : result (date * date) :=
  first ← date_add anchor (- WASH_SALE_WINDOW_DAYS);
  last ← date_add anchor WASH_SALE_WINDOW_DAYS;
  Ok (first, last).

(** [min(abs(consumption.realized_gain_loss), replacement_lot.original_cost_basis)] *)
Definition disallowed_amount (realized original_cost_basis : Money) : result Money :=
  loss ← q_abs realized;
  Ok (q_min loss original_cost_basis).

(** [_apply_adjustment] *)
Definition apply_adjustment (consumption : LotConsumption) (replacement : TaxLot) : prog () :=
  adjusted ← gets (λ d, exists_for_consumption d (consumption_id consumption));
  if adjusted : bool then mret tt else
  disallowed ← lift (disallowed_amount (consumption_realized_gain_loss consumption)
                       (lot_original_cost_basis replacement));
  realized_gain_loss_account ← get_or_create_customer_account (lot_customer_id replacement) REALIZED_GAIN_LOSS None;
  position_cost_account ← get_or_create_customer_account (lot_customer_id replacement) POSITION_COST
                            (Some (lot_security_id replacement));
  event ← record_inbound_event ALPACA "wash_sale_adjustment"
    [("lot_consumption_id", JStr (uuid_str (consumption_id consumption)));
     ("replacement_tax_lot_id", JStr (uuid_str (lot_id replacement)));
     ("disallowed_amount", JStr (q_str disallowed))];
  negated ← lift (q_neg disallowed);
  entry ← post WASH_SALE_ADJUSTMENT (lot_acquired_at replacement) (event_id event)
    [money_leg (account_id realized_gain_loss_account) negated;
     money_leg (account_id position_cost_account) disallowed] (Some "wash sale adjustment (ADR 11)");
  id ← uuid4;
  add TWashSaleAdjustment
    {| wash_id := id; wash_original_lot_consumption_id := consumption_id consumption;
       wash_replacement_tax_lot_id := lot_id replacement; wash_disallowed_amount := disallowed;
       wash_journal_entry_id := entry_id entry |} ;;
  basis ← queries (λ d, q_add (lot_adjusted_basis (current_lot d replacement)) disallowed);
  assign_lot (lot_id replacement)
    (λ r, set_lot r (lot_quantity_opened r) (lot_quantity_remaining r) basis (lot_designation r)) ;;
  realized ← lift (q_add (consumption_realized_gain_loss consumption) disallowed);
  update TLotConsumption (λ k, consumption_id k =? consumption_id consumption) (set_realized realized) ;;
  restate (Some FeeRestatementDisclosureService) (lot_customer_id replacement) (lot_acquired_at replacement)
    WASH_SALE_TRIGGER (entry_source_event_id entry) ;;
  mret tt.

(** [on_loss_sale] *)
Definition on_loss_sale (consumption : LotConsumption) (customer security : uuid) : prog () :=
  if q_leb zero (consumption_realized_gain_loss consumption) then mret tt else
  adjusted ← gets (λ d, exists_for_consumption d (consumption_id consumption));
  if adjusted : bool then mret tt else
  window ← lift (wash_window (consumption_sale_date consumption));
  replacement ← gets (λ d, find_earliest_replacement_in_window d customer security window.1 window.2
                             (consumption_tax_lot_id consumption));
  match replacement with
  | None => mret tt
  | Some lot => apply_adjustment consumption lot
  end.

(** [on_buy_fill] *)
Definition on_buy_fill (new_lot : TaxLot) : prog () :=
  window ← lift (wash_window (lot_acquired_at new_lot));
  candidates ← gets (λ d, find_unadjusted_losses_in_window d (lot_customer_id new_lot)
                            (lot_security_id new_lot) window.1 window.2);
  for_each candidates (λ consumption,
    if consumption_tax_lot_id consumption =? lot_id new_lot then mret tt
    else apply_adjustment consumption new_lot).

(** ** Fills ([LotConsumptionService]) *)

Definition SETTLEMENT_TRADING_DAYS : Z := 1.

Section Fills.
Context `{TradingCalendar}.

(** The zone database: the New York offset at an instant, and the instant of a
    New York wall time. *)
Context (utc_offset : instant → Z) (market_instant : date * Z → instant).

Definition fill_payload (customer security : uuid) (execution_id : string) (quantity : Units) (price : Price)
    : list (string * json) :=
  [("customer_id", JStr (uuid_str customer)); ("security_id", JStr (uuid_str security));
   ("execution_id", JStr execution_id); ("quantity", JStr (q_str quantity)); ("price", JStr (q_str price))].

(** [record_buy_fill] *)
Definition record_buy_fill (customer security : uuid) (execution_id : string) (quantity : Units)
    (price : Price) (filled_at : instant) : prog TaxLot :=
  fill_date ← lift (market_date utc_offset (Aware filled_at));
  cost ← lift (price_times_units price quantity);
  units_account ← get_or_create_customer_account customer POSITION_UNITS (Some security);
  cost_account ← get_or_create_customer_account customer POSITION_COST (Some security);
  cash_account ← require_customer_account customer CASH;
  entry_event ← record_inbound_event ALPACA "trade_buy_fill"
                  (fill_payload customer security execution_id quantity price);
  outflow ← lift (q_neg cost);
  entry ← post TRADE_BUY fill_date (event_id entry_event)
    [units_leg (account_id units_account) quantity;
     money_leg (account_id cost_account) cost;
     money_leg (account_id cash_account) outflow] None;
  settlement_date ← lift (add_trading_days fill_date SETTLEMENT_TRADING_DAYS);
  obligation_event ← record_inbound_event ALPACA "trade_buy_settlement_expected"
    [("execution_id", JStr execution_id); ("amount", JStr (q_str cost))];
  add_obligation (entry_id entry) (account_id cash_account) outflow settlement_date (event_id obligation_event) ;;
  match session_close settlement_date with
  | None => throw RuntimeError
  | Some close =>
      id ← uuid4;
      let lot := {| lot_id := id; lot_customer_id := customer; lot_security_id := security;
                    lot_opening_fill_execution_id := execution_id; lot_quantity_opened := quantity;
                    lot_quantity_remaining := quantity; lot_original_cost_basis := cost;
                    lot_adjusted_basis := cost; lot_acquired_at := fill_date;
                    lot_designation := UNSPECIFIED;
                    lot_designation_window_closes_at := market_instant close |} in
      add TTaxLot lot ;;
      on_buy_fill lot ;;
      mret lot
  end.

(** The body of the loop of [_select_lots_to_consume]. *)
Definition designate_lot (customer security : uuid) (id : uuid) : prog TaxLot :=
  found ← gets (λ d, lot_by_id d id);
  match found with
  | None => throw UnknownTaxLotError
  | Some lot =>
      require ((lot_customer_id lot =? customer) && (lot_security_id lot =? security)) UnknownTaxLotError ;;
      assign_lot id (λ r, set_lot r (lot_quantity_opened r) (lot_quantity_remaining r)
                                  (lot_adjusted_basis r) SPECIFIC) ;;
      mret lot
  end.

(** [_select_lots_to_consume] *)
Definition select_lots_to_consume (customer security : uuid) (designated : option (list uuid)) : prog (list TaxLot) :=
  match designated with
  | None | Some [] => gets (λ d, lock_open_fifo d customer security)
  | Some ids => map_prog (designate_lot customer security) ids
  end.

(** The variables of the loop of [record_sell_fill]. *)
Record SellState := {
  remaining_to_sell : Units;
  consumed_basis_total : Money;
  realized_total : Money;
  consumptions : list LotConsumption;
}.

(** What one lot contributes. *)
Record Take := { take_quantity : Units; take_basis : Money; take_realized : Money;
                 take_remaining : Units; take_adjusted_basis : Money }.

Definition take_from (lot : TaxLot) (price : Price) (wanted : Units) : result (option Take) :=
  let take := q_min (lot_quantity_remaining lot) wanted in
  if q_leb take zero then Ok None else
  per_unit_basis ← money_div_units (lot_adjusted_basis lot) (lot_quantity_remaining lot);
  consumed_basis ← price_times_units per_unit_basis take;
  proceeds ← price_times_units price take;
  realized ← q_sub proceeds consumed_basis;
  remaining ← q_sub (lot_quantity_remaining lot) take;
  basis ← q_sub (lot_adjusted_basis lot) consumed_basis;
  Ok (Some {| take_quantity := take; take_basis := consumed_basis; take_realized := realized;
              take_remaining := remaining; take_adjusted_basis := basis |}).

(** One iteration of the loop. *)
Definition consume_lot (execution_id : string) (price : Price) (filled_at : instant) (fill_date : date)
    (st : SellState) (object : TaxLot) : prog SellState :=
  if q_leb (remaining_to_sell st) zero then mret st else
  lot ← gets (λ d, current_lot d object);
  taken ← lift (take_from lot price (remaining_to_sell st));
  match taken with
  | None => mret st
  | Some t =>
      id ← uuid4;
      let consumption := {| consumption_id := id; consumption_closing_fill_execution_id := execution_id;
                            consumption_tax_lot_id := lot_id lot;
                            consumption_quantity_consumed := take_quantity t;
                            consumption_realized_gain_loss := take_realized t;
                            consumption_is_provisional := filled_at <? lot_designation_window_closes_at lot;
                            consumption_sale_date := fill_date |} in
      add TLotConsumption consumption ;;
      assign_lot (lot_id lot) (λ r, set_lot r (lot_quantity_opened r) (take_remaining t)
                                            (take_adjusted_basis t) (lot_designation r)) ;;
      basis_total ← lift (q_add (consumed_basis_total st) (take_basis t));
      gain_total ← lift (q_add (realized_total st) (take_realized t));
      left ← lift (q_sub (remaining_to_sell st) (take_quantity t));
      mret {| remaining_to_sell := left; consumed_basis_total := basis_total;
              realized_total := gain_total; consumptions := consumptions st ++ [consumption] |}
  end.

(** The lots consumed by a sell fill, before anything is posted. *)
Definition consume_lots (execution_id : string) (price : Price) (filled_at : instant) (fill_date : date)
    (quantity : Units) (lots : list TaxLot) : prog SellState :=
  st ← fold_prog (consume_lot execution_id price filled_at fill_date) lots
         {| remaining_to_sell := quantity; consumed_basis_total := zero; realized_total := zero;
            consumptions := [] |};
  require (q_leb (remaining_to_sell st) zero) InsufficientLotsError ;;
  mret st.

(** The legs of a sale. *)
Definition sell_legs (units cost cash gain : uuid) (quantity : Units) (basis proceeds realized : Money)
    : result (list PostingLeg) :=
  sold ← q_neg quantity;
  relieved ← q_neg basis;
  income ← q_neg realized;
  Ok [units_leg units sold; money_leg cost relieved; money_leg cash proceeds; money_leg gain income].

(** [record_sell_fill] *)
Definition record_sell_fill (customer security : uuid) (execution_id : string) (quantity : Units)
    (price : Price) (filled_at : instant) (designated : option (list uuid)) : prog (list LotConsumption) :=
  fill_date ← lift (market_date utc_offset (Aware filled_at));
  lots ← select_lots_to_consume customer security designated;
  st ← consume_lots execution_id price filled_at fill_date quantity lots;
  units_account ← get_or_create_customer_account customer POSITION_UNITS (Some security);
  cost_account ← get_or_create_customer_account customer POSITION_COST (Some security);
  cash_account ← require_customer_account customer CASH;
  gain_account ← get_or_create_customer_account customer REALIZED_GAIN_LOSS None;
  proceeds_total ← lift (price_times_units price quantity);
  entry_event ← record_inbound_event ALPACA "trade_sell_fill"
                  (fill_payload customer security execution_id quantity price);
  legs ← lift (sell_legs (account_id units_account) (account_id cost_account) (account_id cash_account)
                 (account_id gain_account) quantity (consumed_basis_total st) proceeds_total (realized_total st));
  entry ← post TRADE_SELL fill_date (event_id entry_event) legs None;
  settlement_date ← lift (add_trading_days fill_date SETTLEMENT_TRADING_DAYS);
  obligation_event ← record_inbound_event ALPACA "trade_sell_settlement_expected"
    [("execution_id", JStr execution_id); ("amount", JStr (q_str proceeds_total))];
  add_obligation (entry_id entry) (account_id cash_account) proceeds_total settlement_date
    (event_id obligation_event) ;;
  for_each (consumptions st) (λ consumption,
    if q_ltb (consumption_realized_gain_loss consumption) zero
    then on_loss_sale consumption customer security else mret tt) ;;
  gets (λ d, omap (λ k, head (filter (λ r, consumption_id r = consumption_id k) (lot_consumptions d)))
                  (consumptions st)).
End Fills.

(** ** Lemmas: one lot *)

Lemma lot_key (a b : TaxLot) : lot_id a = lot_id b → conflicts (Schema := trueup) TTaxLot a b = true.
Proof. intros E. cbn. by rewrite E, Z.eqb_refl. Qed.

Lemma lot_by_id_In d l : integrity d → l ∈ tax_lots d → lot_by_id d (lot_id l) = Some l.
Proof.
  intros Hd Hl. unfold lot_by_id. pose proof (filter_unique TTaxLot lot_id d l lot_key Hd Hl) as E.
  exact (f_equal head E).
Qed.

Lemma lot_by_id_Some d id l : lot_by_id d id = Some l → l ∈ tax_lots d ∧ lot_id l = id.
Proof.
  unfold lot_by_id. intros Hl. apply head_Some_elem_of, list_elem_of_filter in Hl as [? ?]. done.
Qed.

Lemma lot_id_inj d l l' : integrity d → l ∈ tax_lots d → l' ∈ tax_lots d → lot_id l = lot_id l' → l = l'.
Proof.
  intros Hd Hl Hl' E. pose proof (lot_by_id_In _ _ Hd Hl) as H1. rewrite E, (lot_by_id_In _ _ Hd Hl') in H1.
  by injection H1.
Qed.

(** Assigning to a lot that is on file replaces its row and no other. *)
Lemma assign_lot_Ok id f d u d' l :
  integrity d → l ∈ tax_lots d → lot_id l = id → run (assign_lot id f) d = Ok (u, d') →
  integrity d' ∧ (∀ t, t ≠ TTaxLot → tables d' t = tables d t) ∧
  (∃ l1 l2, tax_lots d = l1 ++ l :: l2 ∧ tax_lots d' = l1 ++ f l :: l2) ∧
  ∀ x, x ∈ tax_lots d → lot_id x ≠ id → x ∈ tax_lots d'.
Proof.
  intros Hd Hl <- Hrun. pose proof (run_integrity _ _ _ _ Hd Hrun) as Hd'. unfold assign_lot in Hrun.
  apply run_update_Ok in Hrun as (_ & _ & _ & _ & ->).
  destruct (update_one (H := trueup) TTaxLot lot_id f d l lot_key Hd Hl) as (l1 & l2 & H1 & H2 & _).
  rewrite H2 in *.
  split_and!; [done| |exists l1, l2; split; [exact H1|exact (tables_set_same (H := trueup) TTaxLot _ d)]|].
  - intros t Ht. by rewrite tables_set_ne.
  - intros x Hx Hne. unfold tax_lots in *. rewrite tables_set_same. rewrite H1 in Hx.
    apply elem_of_app in Hx as [Hx|[->|Hx]%elem_of_cons]; [|done|]; apply elem_of_app; [by left|].
    right. apply elem_of_cons. by right.
Qed.

Definition remaining (l : TaxLot) : Z := quanta (lot_quantity_remaining l).
Definition basis (l : TaxLot) : Z := quanta (lot_adjusted_basis l).
Definition realized (k : LotConsumption) : Z := quanta (consumption_realized_gain_loss k).
Definition consumed (k : LotConsumption) : Z := quanta (consumption_quantity_consumed k).

(** Whose lot it is, and of what. *)
Definition lot_owner (l : TaxLot) : uuid * uuid := (lot_customer_id l, lot_security_id l).

(** A figure summed over the lots of some owners. *)
Definition sum_owned (P : uuid * uuid → bool) (f : TaxLot → Z) (d : db) : Z :=
  sum_by f (filter (λ l, P (lot_owner l) = true) (tax_lots d)).

(** Which lots there are. *)
Definition lot_owners (d : db) : list (uuid * (uuid * uuid)) := (λ l, (lot_id l, lot_owner l)) <$> tax_lots d.

Lemma lot_owners_In d d' l :
  lot_owners d' = lot_owners d → l ∈ tax_lots d' → ∃ l', l' ∈ tax_lots d ∧ lot_id l' = lot_id l ∧ lot_owner l' = lot_owner l.
Proof.
  intros E Hl. assert ((lot_id l, lot_owner l) ∈ lot_owners d) as Hin by (rewrite <- E; unfold lot_owners; apply list_elem_of_fmap; by exists l).
  apply list_elem_of_fmap in Hin as (l' & E' & ?). exists l'.
  split_and!; [done|exact (eq_sym (f_equal fst E'))|exact (eq_sym (f_equal snd E'))].
Qed.

(** Replacing one row moves a figure by the difference, for its owner only. *)
Lemma sum_owned_replace P f d d' l1 l l' l2 :
  tax_lots d = l1 ++ l :: l2 → tax_lots d' = l1 ++ l' :: l2 → lot_owner l' = lot_owner l →
  sum_owned P f d' = sum_owned P f d + (if P (lot_owner l) then f l' - f l else 0).
Proof.
  intros H1 H2 Ho. unfold sum_owned. rewrite H1, H2, !filter_app, !sum_by_app, !filter_cons, Ho.
  destruct (P (lot_owner l)); [rewrite !decide_True, !sum_by_cons by done|rewrite !decide_False by done]; lia.
Qed.

(** The proceeds of a quantity at a price, rounded to four decimals. *)
Definition proceeds_of (price : Price) (quantity : Z) : Z := rhe (quanta price * quantity) (10 ^ 8).

Lemma take_from_Ok lot price wanted taken :
  take_from lot price wanted = Ok taken →
  match taken with
  | None => Z.min (remaining lot) (quanta wanted) <= 0
  | Some t =>
      quanta (take_quantity t) = Z.min (remaining lot) (quanta wanted) ∧ 0 < quanta (take_quantity t) ∧
      quanta (take_remaining t) = remaining lot - quanta (take_quantity t) ∧
      quanta (take_adjusted_basis t) = basis lot - quanta (take_basis t) ∧
      quanta (take_realized t) + quanta (take_basis t) = proceeds_of price (quanta (take_quantity t))
  end.
Proof.
  unfold take_from. cbn zeta.
  assert (Hq : quanta (q_min (lot_quantity_remaining lot) wanted) = Z.min (remaining lot) (quanta wanted)).
  { unfold q_min, q_ltb, remaining. destruct (Z.ltb_spec (quanta wanted) (quanta (lot_quantity_remaining lot))); lia. }
  unfold q_leb. cbn [quanta zero]. destruct (Z.leb_spec (quanta (q_min (lot_quantity_remaining lot) wanted)) 0).
  - intros [= <-]. lia.
  - intros Ht. inv_result. cbn [take_quantity take_remaining take_adjusted_basis take_realized take_basis].
    repeat match goal with
    | E : price_times_units _ _ = Ok _ |- _ => apply price_times_units_Ok in E as [_ E]
    | E : q_sub _ _ = Ok _ |- _ => apply q_sub_Ok in E as [_ E]
    end.
    unfold proceeds_of, basis, remaining in *. lia.
Qed.

(** A sale of [take] units from the lots [ids], between two states of the loop
    of [record_sell_fill]: only lots and consumptions are written, other lots
    keep their rows, units and basis leave the lots as the totals say, and every
    new consumption splits its proceeds into basis and realized gain. *)
Record sold (ex : string) (price : Price) (ids : list uuid) (take : Z)
    (d : db) (st : SellState) (d' : db) (st' : SellState) : Prop := {
  sold_integrity : integrity d';
  sold_frame : ∀ t, t ≠ TTaxLot → t ≠ TLotConsumption → tables d' t = tables d t;
  sold_kept : ∀ x, x ∈ tax_lots d → lot_id x ∉ ids → x ∈ tax_lots d';
  sold_owners : lot_owners d' = lot_owners d;
  sold_figures : ∀ P b, (∀ l, l ∈ tax_lots d → lot_id l ∈ ids → P (lot_owner l) = b) →
    sum_owned P remaining d' = sum_owned P remaining d - (if b then take else 0) ∧
    sum_owned P basis d' = sum_owned P basis d -
      (if b then quanta (consumed_basis_total st') - quanta (consumed_basis_total st) else 0);
  sold_left : quanta (remaining_to_sell st') = quanta (remaining_to_sell st) - take;
  sold_rows : ∃ ks, consumptions st' = consumptions st ++ ks ∧ lot_consumptions d' = lot_consumptions d ++ ks ∧
    Forall (λ k, consumption_tax_lot_id k ∈ ids ∧ consumption_closing_fill_execution_id k = ex ∧ 0 < consumed k) ks ∧
    sum_by consumed ks = take ∧
    quanta (realized_total st') = quanta (realized_total st) + sum_by realized ks ∧
    quanta (consumed_basis_total st') - quanta (consumed_basis_total st) + sum_by realized ks =
      sum_by (λ k, proceeds_of price (consumed k)) ks;
}.

Lemma sold_nothing ex price ids d st : integrity d → sold ex price ids 0 d st d st.
Proof.
  intros Hd. constructor; try done; try lia; [intros P []; lia|]. exists []. rewrite !app_nil_r, !sum_by_nil. by split_and!; try lia.
Qed.

Lemma sold_trans ex price ids1 ids2 t1 t2 d1 st1 d2 st2 d3 st3 :
  sold ex price ids1 t1 d1 st1 d2 st2 → sold ex price ids2 t2 d2 st2 d3 st3 →
  sold ex price (ids1 ++ ids2) (t1 + t2) d1 st1 d3 st3.
Proof.
  intros [A1 A2 A3 A4 A5 A6 (k1 & A7 & A8 & A9 & A10 & A11 & A12)] [B1 B2 B3 B4 B5 B6 (k2 & B7 & B8 & B9 & B10 & B11 & B12)].
  constructor; try lia; [done| | |congruence| |].
  - intros t Ht1 Ht2. by rewrite B2, A2.
  - intros x Hx Hn. apply B3; [apply A3|]; set_solver.
  - intros P b Hb. destruct (A5 P b) as [F1 F2]; [intros l Hl Hi; apply Hb; set_solver|].
    destruct (B5 P b) as [-> ->]; [|rewrite F1, F2; destruct b; lia]. intros l Hl Hi.
    destruct (lot_owners_In d1 d2 l A4 Hl) as (l' & Hl' & E1 & <-). apply Hb; [done|]. rewrite E1. set_solver.
  - exists (k1 ++ k2). rewrite !sum_by_app, B7, B8, A7, A8, !app_assoc. split_and!; try lia; [done|done|].
    apply Forall_app. split; (eapply Forall_impl; [eassumption|]; intros k (? & ? & ?); split_and!; try done; set_solver).
Qed.

(** The units a lot gives up, and the lot it becomes. *)
Definition took (l : TaxLot) (take : Z) (d' : db) : Prop :=
  ∃ l', l' ∈ tax_lots d' ∧ lot_id l' = lot_id l ∧ lot_owner l' = lot_owner l ∧ remaining l' = remaining l - take.

(** One iteration of the consumption loop, [l] being the row of the object. *)
Lemma consume_lot_Ok ex price at_ day st object l d st' d' :
  integrity d → l ∈ tax_lots d → lot_id l = lot_id object → run (consume_lot ex price at_ day st object) d = Ok (st', d') →
  let take := Z.max 0 (Z.min (remaining l) (quanta (remaining_to_sell st))) in
  sold ex price [lot_id l] take d st d' st' ∧ took l take d'.
Proof.
  intros Hd Hl Hobj Hrun take. unfold consume_lot in Hrun.
  assert (Hsame : take = 0 → st' = st → d' = d → sold ex price [lot_id l] take d st d' st' ∧ took l take d').
  { intros Ht -> ->. rewrite Ht. split; [by apply sold_nothing|]. exists l. split_and!; [done|done|done|lia]. }
  destruct (q_leb (remaining_to_sell st) zero) eqn:E0.
  { apply run_ret_Ok in Hrun as [<- <-]. apply Hsame; [|done..]. unfold take, q_leb in *. cbn in E0. zbool. lia. }
  apply run_bind_Ok in Hrun as (lot & d1 & [<- <-]%run_gets_Ok & Hrun).
  unfold current_lot in Hrun. rewrite <- Hobj, (lot_by_id_In _ _ Hd Hl) in Hrun. cbn [default from_option id] in Hrun.
  apply run_bind_Ok in Hrun as (taken & d1 & [Htake <-]%run_lift_Ok & Hrun). apply take_from_Ok in Htake.
  destruct taken as [t|]; [|apply run_ret_Ok in Hrun as [<- <-]; apply Hsame; [unfold take; lia|done..]].
  clear Hsame. destruct Htake as (T1 & T2 & T3 & T4 & T5).
  apply run_bind_Ok in Hrun as (id & d1 & [-> ->]%run_uuid4_Ok & Hrun). cbn zeta in Hrun.
  match type of Hrun with run (add _ ?row ≫= _) _ = _ => set (k := row) in * end.
  apply run_bind_Ok in Hrun as (u & d1 & Hadd & Hrun).
  pose proof (run_integrity _ _ _ _ (Hd : integrity (Db (tables d) (next_uuid d + 1) (db_now d))) Hadd) as Hd1.
  apply run_add_Ok in Hadd as [_ ->].
  apply run_bind_Ok in Hrun as (u' & d2 & Hassign & Hrun).
  destruct (assign_lot_Ok _ _ _ _ _ l Hd1 Hl eq_refl Hassign) as (Hd2 & Hf & (l1 & l2 & Hl1 & Hl2) & Hkeep).
  apply run_bind_Ok in Hrun as (bt & d3 & [Hb <-]%run_lift_Ok & Hrun).
  apply run_bind_Ok in Hrun as (gt & d3 & [Hg <-]%run_lift_Ok & Hrun).
  apply run_bind_Ok in Hrun as (rem & d3 & [Hr <-]%run_lift_Ok & [<- <-]%run_ret_Ok).
  apply q_add_Ok in Hb as [_ Hb], Hg as [_ Hg]. apply q_sub_Ok in Hr as [_ Hr].
  assert (Htk : take = quanta (take_quantity t)) by (unfold take; lia).
  change (tax_lots (insert_row (H := trueup) TLotConsumption k _)) with (tax_lots d) in Hl1, Hkeep.
  split; [constructor|]; cbn [remaining_to_sell consumed_basis_total realized_total consumptions]; try lia; try done.
  - intros t' Ht1 Ht2. rewrite Hf by done. unfold insert_row. by rewrite tables_set_ne.
  - intros x Hx Hn. apply Hkeep; [done|]. set_solver.
  - unfold lot_owners. by rewrite Hl1, Hl2, !fmap_app.
  - intros P b0 HP. rewrite !(sum_owned_replace P _ _ _ _ _ _ _ Hl1 Hl2), (HP l Hl) by (done || set_solver).
    unfold remaining, basis in *. cbn. destruct b0; lia.
  - exists [k]. rewrite !sum_by_cons, !sum_by_nil.
    split_and!; [done| | |unfold consumed; cbn; lia|unfold realized; cbn; lia|unfold realized, consumed; cbn; lia].
    + unfold lot_consumptions. rewrite Hf by done. unfold insert_row. by rewrite tables_set_same.
    + repeat constructor. unfold consumed. cbn. lia.
  - eexists. rewrite Hl2. split; [apply elem_of_app; right; by left|]. split_and!; [done|done|]. unfold remaining in *. cbn. lia.
Qed.

(** ** Lemmas: the loop *)

(** What each lot gives up when lots are drained in order. *)
Fixpoint drain (wanted : Z) (held : list Z) : list Z :=
  match held with
  | [] => []
  | h :: held => let take := Z.max 0 (Z.min h wanted) in take :: drain (wanted - take) held
  end.

Lemma drain_sum wanted held :
  0 <= wanted → (∀ h, h ∈ held → 0 <= h) → sum_by id (drain wanted held) = Z.min wanted (sum_by id held).
Proof.
  revert wanted. induction held as [|h held IH]; intros wanted Hw Hh; cbn [drain].
  - rewrite sum_by_nil. lia.
  - rewrite !sum_by_cons. unfold id at 1 3. rewrite IH; [|lia|set_solver].
    assert (0 <= h) by (apply Hh; set_solver). assert (0 <= sum_by id held) by (apply sum_by_nonneg; set_solver). lia.
Qed.

(** A lot is touched only when every lot before it is empty. *)
Lemma drain_order wanted held i j h t :
  0 <= wanted → (i < j)%nat → held !! i = Some h → 0 <= h →
  drain wanted held !! j = Some t → t ≠ 0 → drain wanted held !! i = Some h.
Proof.
  revert wanted i j. induction held as [|x held IH]; intros wanted i j Hw Hij Hh Hpos Ht Hne; [done|].
  destruct j as [|j]; [lia|]. cbn in Ht. destruct i as [|i]; cbn in Hh |- *.
  - injection Hh as ->. f_equal. destruct (Z.le_gt_cases h wanted); [lia|]. exfalso.
    replace (Z.max 0 (Z.min h wanted)) with wanted in Ht by lia. rewrite Z.sub_diag in Ht.
    assert (Hz : ∀ l k x, drain 0 l !! k = Some x → x = 0).
    { clear. induction l as [|y l IH]; intros k x; [done|]. destruct k as [|k]; cbn.
      - intros [= <-]. lia.
      - replace (0 - Z.max 0 (Z.min y 0)) with 0 by lia. apply IH. }
    by apply Hne, (Hz _ _ _ Ht).
  - apply (IH _ i j); try done; lia.
Qed.

Lemma consume_fold_Ok ex price at_ day lots st d st' d' :
  integrity d → (∀ l, l ∈ lots → l ∈ tax_lots d) → NoDup (lot_id <$> lots) →
  run (fold_prog (consume_lot ex price at_ day) lots st) d = Ok (st', d') →
  let takes := drain (quanta (remaining_to_sell st)) (remaining <$> lots) in
  sold ex price (lot_id <$> lots) (sum_by id takes) d st d' st' ∧
  Forall2 (λ l t, took l t d') lots takes.
Proof.
  revert d st. induction lots as [|l lots IH]; intros d st Hd Hl Hnd; cbn [fold_prog].
  - intros [<- <-]%run_ret_Ok. cbn. rewrite sum_by_nil. split; [by apply sold_nothing|constructor].
  - intros (st1 & d1 & H1 & H2)%run_bind_Ok. rewrite !fmap_cons in *. apply NoDup_cons in Hnd as [Hn Hnd].
    destruct (consume_lot_Ok _ _ _ _ _ _ _ _ _ _ Hd (Hl l ltac:(by left)) eq_refl H1) as [Hs (l' & Hl' & Hid & Hown & Hrem)].
    assert (Hl1 : ∀ x, x ∈ lots → x ∈ tax_lots d1).
    { intros x Hx. apply (sold_kept _ _ _ _ _ _ _ _ Hs); [apply Hl; set_solver|].
      intros Hin%list_elem_of_singleton. apply Hn. rewrite <- Hin. by apply list_elem_of_fmap_2. }
    destruct (IH d1 st1 (sold_integrity _ _ _ _ _ _ _ _ Hs) Hl1 Hnd H2) as [Hs2 Hf].
    rewrite (sold_left _ _ _ _ _ _ _ _ Hs) in Hs2, Hf. cbn [drain]. rewrite sum_by_cons. split.
    + exact (sold_trans _ _ [lot_id l] _ _ _ _ _ _ _ _ _ Hs Hs2).
    + constructor; [|exact Hf]. exists l'. split; [|by split_and!].
      apply (sold_kept _ _ _ _ _ _ _ _ Hs2); [done|]. by rewrite Hid.
Qed.

(** Whatever lots are named, in whatever order and however often, the loop
    sells no more than is wanted. *)
Lemma consume_fold_sold ex price at_ day objects st d st' d' :
  integrity d → (∀ l, l ∈ objects → lot_id l ∈ (lot_id <$> tax_lots d)) → 0 <= quanta (remaining_to_sell st) →
  run (fold_prog (consume_lot ex price at_ day) objects st) d = Ok (st', d') →
  ∃ take, 0 <= take <= quanta (remaining_to_sell st) ∧ sold ex price (lot_id <$> objects) take d st d' st'.
Proof.
  revert d st. induction objects as [|l objects IH]; intros d st Hd Hl Hw; cbn [fold_prog].
  - intros [<- <-]%run_ret_Ok. exists 0. split; [lia|by apply sold_nothing].
  - intros (st1 & d1 & H1 & H2)%run_bind_Ok.
    destruct (proj1 (list_elem_of_fmap _ _ _) (Hl l ltac:(by left))) as (r & Hr & Hin).
    destruct (consume_lot_Ok _ _ _ _ _ _ r _ _ _ Hd Hin (eq_sym Hr) H1) as [Hs _].
    pose proof (sold_left _ _ _ _ _ _ _ _ Hs) as Hleft.
    destruct (IH d1 st1 (sold_integrity _ _ _ _ _ _ _ _ Hs)) as (take & Ht & Hs2); [|lia|done|].
    + intros x Hx. assert (E : (lot_id <$> tax_lots d1) = (lot_id <$> tax_lots d)).
      { pose proof (f_equal (fmap fst) (sold_owners _ _ _ _ _ _ _ _ Hs)) as E. unfold lot_owners in E.
        by rewrite <- !list_fmap_compose in E. }
      rewrite E. apply Hl. by right.
    + eexists. split; [|rewrite fmap_cons, Hr; exact (sold_trans _ _ [lot_id r] _ _ _ _ _ _ _ _ _ Hs Hs2)]. lia.
Qed.

Lemma consume_lots_sold ex price at_ day quantity objects d st d' :
  integrity d → (∀ l, l ∈ objects → lot_id l ∈ (lot_id <$> tax_lots d)) → 0 <= quanta quantity →
  run (consume_lots ex price at_ day quantity objects) d = Ok (st, d') →
  sold ex price (lot_id <$> objects) (quanta quantity) d
    {| remaining_to_sell := quantity; consumed_basis_total := zero; realized_total := zero; consumptions := [] |} d' st.
Proof.
  intros Hd Hl Hq Hrun. unfold consume_lots in Hrun.
  apply run_bind_Ok in Hrun as (st1 & d1 & Hfold & Hrun).
  apply run_bind_Ok in Hrun as (u & d2 & [Hreq <-]%run_require_Ok & [<- <-]%run_ret_Ok).
  apply consume_fold_sold in Hfold; [|done..]. destruct Hfold as (take & Ht & Hs).
  pose proof (sold_left _ _ _ _ _ _ _ _ Hs) as Hleft. unfold q_leb in Hreq. cbn in *. zbool.
  by replace (quanta quantity) with take by lia.
Qed.

Lemma consume_lots_Ok ex price at_ day quantity lots d st d' :
  integrity d → (∀ l, l ∈ lots → l ∈ tax_lots d ∧ 0 <= remaining l) → NoDup (lot_id <$> lots) → 0 <= quanta quantity →
  run (consume_lots ex price at_ day quantity lots) d = Ok (st, d') →
  quanta quantity <= sum_by remaining lots ∧
  sold ex price (lot_id <$> lots) (quanta quantity) d
    {| remaining_to_sell := quantity; consumed_basis_total := zero; realized_total := zero; consumptions := [] |} d' st ∧
  Forall2 (λ l t, took l t d') lots (drain (quanta quantity) (remaining <$> lots)).
Proof.
  intros Hd Hl Hnd Hq Hrun. unfold consume_lots in Hrun.
  apply run_bind_Ok in Hrun as (st1 & d1 & Hfold & Hrun).
  apply run_bind_Ok in Hrun as (u & d2 & [Hreq <-]%run_require_Ok & [<- <-]%run_ret_Ok).
  apply consume_fold_Ok in Hfold as [Hs Hf]; [|done|intros l Hx; by apply Hl|done].
  cbn [remaining_to_sell] in *. rewrite drain_sum in Hs; [|done|].
  2: { intros h (l & -> & Hin)%list_elem_of_fmap. by apply Hl. }
  rewrite sum_by_fmap in Hs. change (sum_by (λ x, id (remaining x)) lots) with (sum_by remaining lots) in Hs.
  pose proof (sold_left _ _ _ _ _ _ _ _ Hs) as Hleft. cbn in Hleft. unfold q_leb in Hreq. cbn in Hreq. zbool.
  rewrite Z.min_l in Hs by lia. split_and!; [lia|done|done].
Qed.

(** ** What the lot services write *)

Definition adjustment_tables : list tables_ :=
  [TAccount; TInboundEvent; TJournalEntry; TPosting; TWashSaleAdjustment; TTaxLot; TLotConsumption;
   TSubPeriodReturn; TRestatementEvent; TDisclosure].

Lemma writes_apply_adjustment k l : writes adjustment_tables (apply_adjustment k l).
Proof. unfold apply_adjustment, assign_lot, adjustment_tables. writes_auto. Qed.

(** Which lots there are and what each has left. *)
Definition lot_units (d : db) : list (uuid * (uuid * uuid) * Z) :=
  (λ l, (lot_id l, lot_owner l, remaining l)) <$> tax_lots d.

(** Which consumptions there are: of which lot, by which fill, of how much. *)
Definition consumption_units (d : db) : list (uuid * uuid * string * Z) :=
  (λ k, (consumption_id k, consumption_tax_lot_id k, consumption_closing_fill_execution_id k, consumed k))
    <$> lot_consumptions d.

Definition units_are (u : list (uuid * (uuid * uuid) * Z)) (v : list (uuid * uuid * string * Z)) (d : db) : Prop :=
  lot_units d = u ∧ consumption_units d = v.

Lemma units_frame {A} u v ts (m : prog A) :
  writes ts m → TTaxLot ∉ ts → TLotConsumption ∉ ts → preserves (units_are u v) m.
Proof.
  intros Hw Hl Hk. eapply preserves_frame; [|exact Hw]. intros d d' Hf [<- <-].
  unfold units_are, lot_units, consumption_units, tax_lots, lot_consumptions. by rewrite !Hf.
Qed.

Lemma update_fmap {A} t p f (g : row t → A) d :
  (∀ r, g (f r) = g r) →
  g <$> tables (set_table (H := trueup) t (update_table (H := trueup) t p f d) d) t = g <$> tables d t.
Proof.
  intros Hg. unfold update_table. rewrite tables_set_same, <- list_fmap_compose. apply list_fmap_ext.
  intros i r _. cbn. destruct (p r); [apply Hg|done].
Qed.

Lemma units_assign u v p f :
  (∀ l, lot_id (f l) = lot_id l ∧ lot_owner (f l) = lot_owner l ∧ remaining (f l) = remaining l) →
  preserves (units_are u v) (update TTaxLot p f).
Proof.
  intros Hk d x d' [<- <-] (_ & _ & _ & _ & ->)%run_update_Ok. split; [|done].
  apply (update_fmap TTaxLot). intros l. by destruct (Hk l) as (-> & -> & ->).
Qed.

Lemma units_set_realized u v p m : preserves (units_are u v) (update TLotConsumption p (set_realized m)).
Proof. intros d x d' [<- <-] (_ & _ & _ & _ & ->)%run_update_Ok. split; [done|]. by apply (update_fmap TLotConsumption). Qed.

#[export] Hint Resolve units_set_realized : preserves.
#[export] Hint Extern 1 (preserves (units_are _ _) (update TTaxLot _ _)) => apply units_assign; by intros : preserves.
#[export] Hint Extern 1 (preserves (units_are _ _) uuid4) =>
  apply (units_frame _ _ []); [apply writes_uuid4|set_solver..] : preserves.
#[export] Hint Extern 1 (preserves (units_are _ _) (add ?t _)) =>
  apply (units_frame _ _ [t]); [apply writes_add; set_solver|set_solver..] : preserves.
#[export] Hint Extern 3 (preserves (units_are _ _) _) =>
  eapply units_frame; [solve [eauto with writes|writes_auto]|set_solver..] : preserves.

Lemma units_apply_adjustment u v k l : preserves (units_are u v) (apply_adjustment k l).
Proof. unfold apply_adjustment, assign_lot. preserves_auto. Qed.
#[export] Hint Resolve units_apply_adjustment : preserves.

Lemma units_on_loss_sale u v k c s : preserves (units_are u v) (on_loss_sale k c s).
Proof. unfold on_loss_sale. preserves_auto. Qed.

Lemma units_on_buy_fill u v l : preserves (units_are u v) (on_buy_fill l).
Proof. unfold on_buy_fill. preserves_auto. Qed.
#[export] Hint Resolve units_on_loss_sale units_on_buy_fill : preserves.

Lemma units_kept {A} (m : prog A) d a d' :
  (∀ u v, preserves (units_are u v) m) → run m d = Ok (a, d') →
  lot_units d' = lot_units d ∧ consumption_units d' = consumption_units d.
Proof. intros Hm Hr. by apply (Hm _ _ d a d'). Qed.

(** ** Correctness *)

Lemma lots_NoDup d : integrity d → NoDup (lot_id <$> tax_lots d).
Proof.
  intros Hd. assert (Hall : ∀ l, l ∈ tax_lots d → filter (λ x, lot_id x = lot_id l) (tax_lots d) = [l]).
  { intros l. exact (filter_unique TTaxLot lot_id d l lot_key Hd). }
  revert Hall. generalize (tax_lots d) as l. clear. induction l as [|x l IH]; intros Hall; [constructor|].
  assert (Hx : filter (λ y, lot_id y = lot_id x) l = []).
  { pose proof (Hall x ltac:(set_solver)) as E. rewrite filter_cons_True in E by done. by injection E. }
  rewrite fmap_cons. constructor.
  - intros (y & Hy & Hin)%list_elem_of_fmap.
    assert (y ∈ filter (λ y, lot_id y = lot_id x) l) as He by (by apply list_elem_of_filter).
    rewrite Hx in He. by apply elem_of_nil in He.
  - apply IH. intros y Hy. pose proof (Hall y ltac:(set_solver)) as E. rewrite filter_cons in E.
    destruct (decide (lot_id x = lot_id y)) as [Exy|]; [|done]. exfalso.
    assert (y ∈ filter (λ y, lot_id y = lot_id x) l) as He by (by apply list_elem_of_filter).
    rewrite Hx in He. by apply elem_of_nil in He.
Qed.

Lemma lot_le_total a b : lot_le a b = true ∨ lot_le b a = true.
Proof. unfold lot_le. rewrite !orb_true_iff, !andb_true_iff, !Z.ltb_lt, !Z.eqb_eq, !Z.leb_le. lia. Qed.

Lemma lot_le_trans a b c : lot_le a b = true → lot_le b c = true → lot_le a c = true.
Proof. unfold lot_le. rewrite !orb_true_iff, !andb_true_iff, !Z.ltb_lt, !Z.eqb_eq, !Z.leb_le. lia. Qed.

Lemma open_fifo_In d c s l :
  l ∈ lock_open_fifo d c s ↔ l ∈ tax_lots d ∧ lot_owner l = (c, s) ∧ 0 < remaining l.
Proof.
  unfold lock_open_fifo. rewrite sort_by_perm. unfold lock_open_for_security. rewrite list_elem_of_filter.
  unfold is_open_lot, q_ltb, lot_owner, remaining. cbn [quanta zero]. rewrite Z.ltb_lt. naive_solver.
Qed.

Lemma open_fifo_NoDup d c s : integrity d → NoDup (lot_id <$> lock_open_fifo d c s).
Proof.
  intros Hd. unfold lock_open_fifo. rewrite sort_by_perm. unfold lock_open_for_security.
  assert (Hn := lots_NoDup d Hd). revert Hn. generalize (tax_lots d) as l. induction l as [|l ls IH]; [done|].
  rewrite fmap_cons, filter_cons. intros [Hn Hnd]%NoDup_cons. destruct (decide _); [|by apply IH].
  rewrite fmap_cons. constructor; [|by apply IH].
  intros (y & Hy & [_ Hin]%list_elem_of_filter)%list_elem_of_fmap. apply Hn. rewrite Hy. by apply list_elem_of_fmap_2.
Qed.

(** C18. A sell fill without a designation relieves the customer's open lots of
    the security oldest first: it needs the open units to cover the quantity;
    lots are ordered by acquisition; each gives up what [drain] says, summing to
    the quantity, and a lot is touched only when every lot before it is emptied;
    every other lot keeps its units; and exactly the quantity is recorded in new
    consumptions of this fill, wash-sale adjustments notwithstanding. *)
Theorem sell_fill_fifo `{TradingCalendar} utc_offset c s ex q price at_ d ks d' :
  integrity d → 0 <= quanta q →
  run (record_sell_fill utc_offset c s ex q price at_ None) d = Ok (ks, d') →
  let lots := lock_open_fifo d c s in
  let takes := drain (quanta q) (remaining <$> lots) in
  (StronglySorted (le_of lot_le) lots ∧ ∀ l, l ∈ lots ↔ l ∈ tax_lots d ∧ lot_owner l = (c, s) ∧ 0 < remaining l) ∧
  quanta q <= sum_by remaining lots ∧ sum_by id takes = quanta q ∧
  (∀ i j h t, (i < j)%nat → (remaining <$> lots) !! i = Some h → takes !! j = Some t → t ≠ 0 → takes !! i = Some h) ∧
  Forall2 (λ l t, (lot_id l, lot_owner l, remaining l - t) ∈ lot_units d') lots takes ∧
  (∀ l, l ∈ tax_lots d → l ∉ lots → (lot_id l, lot_owner l, remaining l) ∈ lot_units d') ∧
  ∃ ks', consumption_units d' = consumption_units d ++ ks' ∧ sum_by snd ks' = quanta q ∧
    Forall (λ k, k.1.2 = ex ∧ k.1.1.2 ∈ (lot_id <$> lots) ∧ 0 < k.2) ks'.
Proof.
  intros Hd Hq Hrun lots takes. unfold record_sell_fill in Hrun.
  apply run_bind_Ok in Hrun as (day & d1 & [_ <-]%run_lift_Ok & Hrun).
  apply run_bind_Ok in Hrun as (ls & d1 & [<- <-]%run_gets_Ok & Hrun).
  apply run_bind_Ok in Hrun as (st & d1 & Hc & Hrun). fold lots in Hc.
  assert (Hpos : ∀ l, l ∈ lots → l ∈ tax_lots d ∧ 0 <= remaining l).
  { intros l (? & _ & ?)%open_fifo_In. split; [done|lia]. }
  destruct (consume_lots_Ok _ _ _ _ _ _ _ _ _ Hd Hpos (open_fifo_NoDup d c s Hd) Hq Hc) as (Hle & Hs & Hf). clear Hc.
  apply units_kept in Hrun as [-> ->]; [|intros u v; preserves_auto]. fold takes in Hf.
  destruct (sold_rows _ _ _ _ _ _ _ _ Hs) as (rows & _ & Hrows & Hall & Hsum & _).
  assert (Htakes : sum_by id takes = quanta q).
  { unfold takes. rewrite drain_sum; [|done|].
    - rewrite sum_by_fmap. change (sum_by (λ x, id (remaining x)) lots) with (sum_by remaining lots). lia.
    - intros h (l & -> & Hl)%list_elem_of_fmap. by apply Hpos. }
  split_and!; [|intros l; apply open_fifo_In|lia|done| | | |].
  - unfold lots, lock_open_fifo. apply sort_by_sorted; [apply lot_le_total|apply lot_le_trans].
  - intros i j h t Hij Hh Ht Hne. refine (drain_order _ _ i j h t Hq Hij Hh _ Ht Hne).
    apply list_elem_of_lookup_2, list_elem_of_fmap in Hh as (l & -> & Hl). by apply Hpos.
  - eapply Forall2_impl; [exact Hf|]. intros l t (l' & Hl' & <- & <- & <-). apply list_elem_of_fmap. by exists l'.
  - intros l Hl Hn. apply list_elem_of_fmap. exists l. split; [done|].
    apply (sold_kept _ _ _ _ _ _ _ _ Hs); [done|]. intros (l2 & E & Hl2)%list_elem_of_fmap.
    apply Hpos in Hl2 as Hl3. apply Hn. rewrite (lot_id_inj d l l2 Hd Hl (proj1 Hl3) E). done.
  - exists ((λ k, (consumption_id k, consumption_tax_lot_id k, consumption_closing_fill_execution_id k, consumed k)) <$> rows).
    unfold consumption_units. rewrite Hrows, fmap_app, sum_by_fmap. split_and!; [done|exact Hsum|].
    apply Forall_fmap. eapply Forall_impl; [exact Hall|]. intros k (? & ? & ?). by split_and!.
Qed.

(** Two lots of security 9: 10 units at 10 bought on day 738154, 5 at 12 on
    738155, and the fill events they and the sale refer to. *)
Definition sample_fill (id : uuid) (ex : string) : OrderEvent :=
  {| order_event_id := id; order_event_order_id := 70; order_event_seq := id; order_event_type := EV_FILL;
     order_event_execution_id := Some ex; order_event_payload := []; order_event_recorded_at := 0 |}.

Definition sample_fills : db :=
  set_table (H := trueup) TOrderEvent [sample_fill 71 "buy1"; sample_fill 72 "buy2"; sample_fill 73 "sell1"] sample_posted.

(** An instant on the day of this ordinal, at noon UTC. *)
Definition noon (d : date) : instant := (d - EPOCH_ORDINAL) * US_PER_DAY + US_PER_DAY / 2.

Definition sample_buy (ex : string) (q p : Z) (d : date) : prog TaxLot :=
  record_buy_fill (H := sample_calendar) (λ _, 0) (λ t, noon t.1) 7 9 ex (QD (q * 10 ^ 6)) (QD (p * 10 ^ 6)) (noon d).

Definition sample_sell (q p : Z) (d : date) : prog (list LotConsumption) :=
  record_sell_fill (H := sample_calendar) (λ _, 0) 7 9 "sell1" (QD (q * 10 ^ 6)) (QD (p * 10 ^ 6)) (noon d) None.

Definition sample_buys : prog () := sample_buy "buy1" 10 10 738154 ;; sample_buy "buy2" 5 12 738155 ;; mret tt.

Definition sample_lots : db := (run_or sample_buys sample_fills tt).2.

Definition sample_sold : list LotConsumption * db := run_or (sample_sell 12 11 738160) sample_lots [].
Lemma sample_lots_integrity : integrity sample_lots.
Proof. apply integrity_check. intros []; vm_compute; reflexivity. Qed.

Lemma sample_sell_runs : run (sample_sell 12 11 738160) sample_lots = Ok (sample_sold.1, sample_sold.2).
Proof.
  rewrite <- (surjective_pairing sample_sold). apply run_or_Ok. vm_compute. reflexivity.
Qed.

Lemma sell_fill_fifo_witness :
  12 * 10 ^ 6 <= sum_by remaining (lock_open_fifo sample_lots 7 9) ∧
  drain (12 * 10 ^ 6) [10 * 10 ^ 6; 5 * 10 ^ 6] = [10 * 10 ^ 6; 2 * 10 ^ 6] ∧
  ∃ ks', consumption_units sample_sold.2 = consumption_units sample_lots ++ ks' ∧ sum_by snd ks' = 12 * 10 ^ 6.
Proof.
  destruct (sell_fill_fifo (H := sample_calendar) (λ _, 0) 7 9 "sell1" (QD (12 * 10 ^ 6)) (QD (11 * 10 ^ 6))
    (noon 738160) sample_lots _ _ sample_lots_integrity ltac:(by vm_compute) sample_sell_runs)
    as (_ & H1 & _ & _ & _ & _ & ks' & H2 & H3 & _).
  split; [exact H1|]. split; [reflexivity|]. exists ks'. exact (conj H2 H3).
Defined.

(** The loss of the second lot is disallowed against the first, which the same
    sale has just emptied: its basis grows although no units are left in it. *)
Lemma wash_sale_into_closed_lot :
  (λ l, (lot_id l, remaining l, basis l)) <$> tax_lots sample_sold.2 = [(114, 0, 20000); (124, 3000000, 360000)].
Proof. vm_compute. reflexivity. Qed.
