(* ===== verification/LotBooks.v ===== *)
(** * The lot books agree with the ledger

    For every customer and security, the units and the adjusted basis held in
    tax lots are the balances of the position-units and position-cost accounts.
    Every fill keeps this, with the wash-sale adjustments it triggers
    ([services/lots/lot_consumption_service.py], [wash_sale_service.py]). *)

From S2P Require Import Prelude PyDecimal MoneyTypes Calendar Store Schema Ledger CashPolicy Valuation Restatement Lots.
From Stdlib Require Import String.
From stdpp Require Import strings.
Open Scope Z_scope.

(** ** What is posted to a set of accounts *)

Definition posted (P : Account → bool) (f : Posting → Z) (d : db) : Z :=
  sum_by f (filter (λ p, from_option P false (account_by_id d (posting_account_id p)) = true) (postings d)).

Definition posting_units (p : Posting) : Z := from_option quanta 0 (posting_quantity_units p).
Definition leg_units (l : PostingLeg) : Z := from_option quanta 0 (leg_quantity_units l).

Definition legs_on (P : Account → bool) (f : PostingLeg → Z) (d : db) (legs : list PostingLeg) : Z :=
  sum_by f (filter (λ l, from_option P false (account_by_id d (leg_account_id l)) = true) legs).

(** The position account of this role of a customer in a security. *)
Definition position (role : AccountRole) (o : uuid * uuid) (a : Account) : bool :=
  bool_decide (account_role a = role) && bool_decide (account_customer_id a = Some o.1) &&
  bool_decide (account_security_id a = Some o.2).

(** What the lots hold beyond the accounts, in units and in basis. *)
Definition units_gap (o : uuid * uuid) (d : db) : Z :=
  sum_owned (λ o', bool_decide (o' = o)) remaining d - posted (position POSITION_UNITS o) posting_units d.

Definition cost_gap (o : uuid * uuid) (d : db) : Z :=
  sum_owned (λ o', bool_decide (o' = o)) basis d - posted (position POSITION_COST o) posting_money d.

Definition lots_reconcile (d : db) : Prop := ∀ o, units_gap o d = 0 ∧ cost_gap o d = 0.

(** ** Writes that leave the books *)

(** At most new accounts. *)
Definition same_books (d d' : db) : Prop :=
  accounts d `prefix_of` accounts d' ∧ postings d' = postings d ∧ tax_lots d' = tax_lots d.

Lemma books_frame {A} d0 ts (m : prog A) :
  writes ts m → forallb (λ t, bool_decide (t ∉ [TAccount; TPosting; TTaxLot])) ts = true → preserves (same_books d0) m.
Proof.
  intros Hw Hts. eapply (preserves_frame _ ts); [|done]. intros d d' Hf (H1 & H2 & H3).
  assert (Hn : ∀ t, t ∈ [TAccount; TPosting; TTaxLot] → tables d' t = tables d t).
  { intros t Ht. apply Hf. intros Hin. rewrite forallb_forall in Hts.
    apply list_elem_of_In in Hin. specialize (Hts t Hin). by apply bool_decide_eq_true in Hts. }
  unfold same_books, accounts, postings, tax_lots in *. by rewrite !Hn by set_solver.
Qed.

Lemma books_add_account d0 a : preserves (same_books d0) (add TAccount a).
Proof.
  intros d u d' (H1 & H2 & H3) [_ ->]%run_add_Ok. split_and!; [|done..].
  unfold accounts, insert_row. rewrite tables_set_same. etrans; [exact H1|]. by apply prefix_app_r.
Qed.

#[export] Hint Resolve books_add_account : preserves.
#[export] Hint Extern 1 (preserves (same_books _) uuid4) => apply (books_frame _ []); [apply writes_uuid4|done] : preserves.
#[export] Hint Extern 1 (preserves (same_books _) (add ?t _)) =>
  apply (books_frame _ [t]); [apply writes_add; set_solver|done] : preserves.
#[export] Hint Extern 1 (preserves (same_books _) (update ?t _ _)) =>
  apply (books_frame _ [t]); [apply writes_update; set_solver|done] : preserves.

Lemma books_account_create d0 role c s : preserves (same_books d0) (account_create role c s).
Proof. unfold account_create. preserves_auto. Qed.
#[export] Hint Resolve books_account_create : preserves.

Lemma books_get_or_create d0 c role s : preserves (same_books d0) (get_or_create_customer_account c role s).
Proof. unfold get_or_create_customer_account. preserves_auto. Qed.

Lemma books_require_account d0 c role : preserves (same_books d0) (require_customer_account c role).
Proof. unfold require_customer_account. preserves_auto. Qed.

Lemma books_inbound_event d0 s k p : preserves (same_books d0) (record_inbound_event s k p).
Proof. unfold record_inbound_event. preserves_auto. Qed.

Lemma books_obligation d0 e a m x s : preserves (same_books d0) (add_obligation e a m x s).
Proof. unfold add_obligation. preserves_auto. Qed.

Lemma books_restate d0 checker c on t id : preserves (same_books d0) (restate checker c on t id).
Proof. eapply books_frame; [apply writes_restate|done]. Qed.

#[export] Hint Resolve books_get_or_create books_require_account books_inbound_event books_obligation
  books_restate : preserves.

(** ** Steps *)

Definition state_ok (d : db) : Prop := integrity d ∧ ledger_ok d.

Lemma posted_same P f d d' :
  ledger_ok d → same_books d d' → posted P f d' = posted P f d.
Proof.
  intros (Hok & _) (Ha & Hp & _). unfold posted. rewrite Hp. f_equal. apply filter_iff. intros p Hin.
  rewrite Forall_forall in Hok. destruct (Hok p Hin) as [_ (a & Haa & Hid & _)].
  rewrite (account_by_id_prefix d d'); [done|done|by exists a].
Qed.

Lemma gaps_same d d' o :
  ledger_ok d → same_books d d' → units_gap o d' = units_gap o d ∧ cost_gap o d' = cost_gap o d.
Proof.
  intros Hok Hs. unfold units_gap, cost_gap, sum_owned. rewrite !(posted_same _ _ d d' Hok Hs).
  destruct Hs as (_ & _ & ->). done.
Qed.

Lemma books_step {A} (m : prog A) d a d' :
  preserves (same_books d) m → preserves ledger_ok m → state_ok d → run m d = Ok (a, d') →
  state_ok d' ∧ same_books d d' ∧ ∀ o, units_gap o d' = units_gap o d ∧ cost_gap o d' = cost_gap o d.
Proof.
  intros Hb Hl [Hd Hok] Hr. assert (Hs : same_books d d') by (by apply (Hb d a d')).
  split_and!; [split; [exact (run_integrity _ _ _ _ Hd Hr)|exact (Hl _ _ _ Hok Hr)]|done|].
  intros o. by apply gaps_same.
Qed.

Ltac books_step_at H pat :=
  match type of H with
  | run ?m ?d = Ok (?a, ?d') =>
      let Hb := fresh in let Hl := fresh in
      assert (preserves (same_books d) m) as Hb by (clear; preserves_auto);
      assert (preserves ledger_ok m) as Hl by (clear; preserves_auto);
      pose proof (books_step m d a d' Hb Hl ltac:(assumption) H) as pat; clear Hb Hl
  end.
Tactic Notation "books_step" hyp(H) "as" simple_intropattern(pat) := books_step_at H pat.

Lemma postings_on P (f : Posting → Z) (g : PostingLeg → Z) d e legs ps :
  (∀ leg p, posting_of d e leg p → f p = g leg) → Forall2 (posting_of d e) legs ps →
  sum_by f (filter (λ p, from_option P false (account_by_id d (posting_account_id p)) = true) ps) = legs_on P g d legs.
Proof.
  intros Hfg. unfold legs_on. induction 1 as [|leg p legs ps Hp _ IH]; [done|].
  pose proof Hp as (_ & Ha & _). rewrite !filter_cons, Ha.
  destruct (decide _); [|done]. by rewrite !sum_by_cons, IH, (Hfg _ _ Hp).
Qed.

Lemma posting_of_figures d e leg p :
  posting_of d e leg p → posting_units p = leg_units leg ∧ posting_money p = leg_money leg.
Proof. intros (_ & _ & Hm & Hu & _). unfold posting_units, leg_units, posting_money, leg_money. by rewrite Hm, Hu. Qed.

Lemma post_posted P f g type date source legs memo d entry d' :
  (∀ e leg p, posting_of d e leg p → f p = g leg) →
  run (post type date source legs memo) d = Ok (entry, d') →
  posted P f d' = posted P f d + legs_on P g d legs.
Proof.
  intros Hfg Hr. pose proof (write_Ok _ _ _ _ _ _ _ _ _ _ Hr) as [_ _ _ _ _ _ _ (ps & Hps & Hof) _ Hf].
  unfold posted. rewrite Hps, filter_app, sum_by_app, <- (postings_on P f g _ _ _ _ (Hfg _) Hof).
  unfold account_by_id, accounts. by rewrite Hf.
Qed.

(** Posting moves the accounts of its legs, and the gaps against them. *)
Lemma post_step type date source legs memo d entry d' :
  state_ok d → run (post type date source legs memo) d = Ok (entry, d') →
  state_ok d' ∧ accounts d' = accounts d ∧ tax_lots d' = tax_lots d ∧
  ∀ o, units_gap o d' = units_gap o d - legs_on (position POSITION_UNITS o) leg_units d legs ∧
       cost_gap o d' = cost_gap o d - legs_on (position POSITION_COST o) leg_money d legs.
Proof.
  intros [Hd Hok] Hr. pose proof (write_Ok _ _ _ _ _ _ _ _ _ _ Hr) as Hw.
  pose proof (written_ledger_ok _ _ _ _ _ _ _ _ Hok Hw) as Hok'. destruct Hw as [_ _ _ _ _ _ _ _ _ Hf].
  assert (Ha : accounts d' = accounts d) by (unfold accounts; by rewrite Hf).
  assert (Hl : tax_lots d' = tax_lots d) by (unfold tax_lots; by rewrite Hf).
  split_and!; [split; [exact (run_integrity _ _ _ _ Hd Hr)|done]|done|done|].
  intros o. unfold units_gap, cost_gap, sum_owned. rewrite Hl.
  rewrite (post_posted _ posting_units leg_units _ _ _ _ _ _ _ _ (λ e l p H, proj1 (posting_of_figures d e l p H)) Hr),
    (post_posted _ posting_money leg_money _ _ _ _ _ _ _ _ (λ e l p H, proj2 (posting_of_figures d e l p H)) Hr). lia.
Qed.

(** ** Legs of known accounts *)

Lemma legs_on_nil P f d : legs_on P f d [] = 0.
Proof. done. Qed.

Lemma legs_on_cons P f d a leg legs :
  integrity d → a ∈ accounts d → leg_account_id leg = account_id a →
  legs_on P f d (leg :: legs) = (if P a then f leg else 0) + legs_on P f d legs.
Proof.
  intros Hd Ha Hl. unfold legs_on. rewrite filter_cons, Hl, account_by_id_In by done. cbn [from_option].
  destruct (P a); [by rewrite decide_True, sum_by_cons|by rewrite decide_False by done].
Qed.

Lemma position_own role c s a o :
  account_role a = role → account_customer_id a = Some c → account_security_id a = Some s →
  position role o a = bool_decide ((c, s) = o).
Proof.
  intros Hr Hc Hs. destruct o as [c' s']. unfold position. rewrite Hr, Hc, Hs. cbn.
  rewrite bool_decide_eq_true_2 by done. do 2 case_bool_decide; case_bool_decide; naive_solver.
Qed.

Lemma position_other role a o : account_role a ≠ role → position role o a = false.
Proof. intros Hr. unfold position. by rewrite bool_decide_eq_false_2. Qed.

Lemma get_or_create_security c role s d a d' :
  run (get_or_create_customer_account c role (Some s)) d = Ok (a, d') → account_security_id a = Some s.
Proof.
  unfold get_or_create_customer_account. intros ([b|] & d1 & [Hs <-]%run_queries_Ok & H)%run_bind_Ok.
  - apply run_ret_Ok in H as [<- <-]. apply scalar_one_or_none_Some in Hs.
    assert (b ∈ select_accounts d (Some c) role (Some s)) as Hin by (rewrite Hs; set_solver).
    by apply list_elem_of_filter in Hin as [(_ & _ & [?|?]) _].
  - apply run_bind_Ok in H as (b & d2 & (_ & _ & Hb & _)%account_create_Ok & H).
    by apply run_bind_Ok in H as (u & d3 & _ & [<- _]%run_ret_Ok).
Qed.

(** A position account, as the services obtain it. *)
Lemma position_account c role s d a d' :
  state_ok d → run (get_or_create_customer_account c role (Some s)) d = Ok (a, d') →
  state_ok d' ∧ same_books d d' ∧ (∀ o, units_gap o d' = units_gap o d ∧ cost_gap o d' = cost_gap o d) ∧
  a ∈ accounts d' ∧ ∀ o role', position role' o a = bool_decide (role = role') && bool_decide ((c, s) = o).
Proof.
  intros Hok Hr. destruct (books_step _ d a d' (books_get_or_create _ _ _ _) (preserves_get_or_create _ _ _) Hok Hr)
    as (Hok' & Hs & Hg). pose proof (get_or_create_Ok _ _ _ _ _ _ Hr) as (Ha & Hc & Hro).
  pose proof (get_or_create_security _ _ _ _ _ _ Hr) as Hse. split_and!; try done. intros o role'.
  case_bool_decide as E; cbn [andb].
  - apply position_own; [by rewrite Hro|done|done].
  - apply position_other. by rewrite Hro.
Qed.

(** Any other account a service posts to. *)
Lemma plain_account c role d a d' :
  state_ok d → role ≠ POSITION_UNITS → role ≠ POSITION_COST →
  run (get_or_create_customer_account c role None) d = Ok (a, d') →
  state_ok d' ∧ same_books d d' ∧ (∀ o, units_gap o d' = units_gap o d ∧ cost_gap o d' = cost_gap o d) ∧
  a ∈ accounts d' ∧ ∀ o, position POSITION_UNITS o a = false ∧ position POSITION_COST o a = false.
Proof.
  intros Hok Hu Hc Hr. destruct (books_step _ d a d' (books_get_or_create _ _ _ _) (preserves_get_or_create _ _ _) Hok Hr)
    as (Hok' & Hs & Hg). pose proof (get_or_create_Ok _ _ _ _ _ _ Hr) as (Ha & _ & Hro).
  split_and!; try done. intros o. split; apply position_other; by rewrite Hro.
Qed.

Lemma books_accounts d d' a : same_books d d' → a ∈ accounts d → a ∈ accounts d'.
Proof. intros ([k ->] & _) Ha. apply elem_of_app. by left. Qed.

(** Settle which role an account has. *)
Ltac decide_roles :=
  repeat match goal with |- context [bool_decide (?x = ?y :> AccountRole)] =>
    let v := eval vm_compute in (bool_decide (x = y)) in change (bool_decide (x = y)) with v end.

(** ** The wash-sale adjustment *)

(** The row of a lot object is on file. *)
Definition on_file (d : db) (l : TaxLot) : Prop := (lot_id l, lot_owner l) ∈ lot_owners d.

Lemma assign_basis_gaps d l m u d' :
  state_ok d → on_file d l →
  run (assign_lot (lot_id l) (λ r, set_lot r (lot_quantity_opened r) (lot_quantity_remaining r) m (lot_designation r))) d
    = Ok (u, d') →
  state_ok d' ∧ ∀ o, units_gap o d' = units_gap o d ∧
    cost_gap o d' = cost_gap o d + (if bool_decide (lot_owner l = o) then quanta m - basis (current_lot d l) else 0).
Proof.
  intros [Hd Hok] (r & Ho & Hr)%list_elem_of_fmap Hrun.
  pose proof (f_equal fst Ho) as Hid. pose proof (f_equal snd Ho) as Hown. cbn [fst snd] in Hid, Hown.
  assert (Hl : preserves ledger_ok (assign_lot (lot_id l)
    (λ r, set_lot r (lot_quantity_opened r) (lot_quantity_remaining r) m (lot_designation r)))).
  { unfold assign_lot. preserves_auto. }
  pose proof (Hl _ _ _ Hok Hrun) as Hok'.
  destruct (assign_lot_Ok _ _ _ _ _ r Hd Hr (eq_sym Hid) Hrun) as (Hd' & Hf & (l1 & l2 & H1 & H2) & _).
  assert (Hp : ∀ P f, posted P f d' = posted P f d).
  { intros P f. unfold posted, postings, account_by_id, accounts. by rewrite !Hf. }
  split; [by split|]. intros o. unfold units_gap, cost_gap. rewrite !Hp.
  rewrite !(sum_owned_replace _ _ d d' _ _ _ _ H1 H2) by done.
  unfold current_lot. rewrite Hid, (lot_by_id_In _ _ Hd Hr), Hown. cbn [default from_option id].
  unfold remaining, basis. cbn. destruct (bool_decide _); split; lia.
Qed.

Lemma on_file_kept {A} (m : prog A) d a d' l :
  (∀ u v, preserves (units_are u v) m) → run m d = Ok (a, d') → on_file d l → on_file d' l.
Proof.
  intros Hm Hr. destruct (units_kept m d a d' Hm Hr) as [E _]. apply (f_equal (fmap fst)) in E.
  unfold lot_units in E. rewrite <- !list_fmap_compose in E. unfold on_file, lot_owners.
  by change ((λ l, (lot_id l, lot_owner l)) <$> tax_lots d') with (compose fst (λ l, (lot_id l, lot_owner l, remaining l)) <$> tax_lots d');
    rewrite E.
Qed.

Lemma books_on_file d d' l : same_books d d' → on_file d l → on_file d' l.
Proof. intros (_ & _ & E). unfold on_file, lot_owners. by rewrite E. Qed.

(** What the books are after a service that keeps them. *)
Definition books_kept (d d' : db) : Prop :=
  state_ok d' ∧ ∀ o, units_gap o d' = units_gap o d ∧ cost_gap o d' = cost_gap o d.

(** The adjustment posts to the cost account what it adds to the lot. *)
Lemma adjustment_gaps k l d u d' :
  state_ok d → on_file d l → run (apply_adjustment k l) d = Ok (u, d') → books_kept d d'.
Proof.
  intros Hok Hl Hrun. unfold apply_adjustment in Hrun.
  apply run_bind_Ok in Hrun as (b & d1 & [_ <-]%run_gets_Ok & Hrun). destruct b.
  { apply run_ret_Ok in Hrun as [_ <-]. by split. }
  apply run_bind_Ok in Hrun as (m & d1 & [_ <-]%run_lift_Ok & Hrun).
  apply run_bind_Ok in Hrun as (a & d1 & Ha & Hrun).
  destruct (plain_account _ REALIZED_GAIN_LOSS _ _ _ Hok ltac:(done) ltac:(done) Ha) as (Hok1 & Hs1 & Hg1 & Hin1 & Hp1). clear Ha.
  apply run_bind_Ok in Hrun as (c & d2 & Hc & Hrun).
  destruct (position_account _ _ _ _ _ _ Hok1 Hc) as (Hok2 & Hs2 & Hg2 & Hin2 & Hp2). clear Hc.
  apply run_bind_Ok in Hrun as (ev & d3 & Hev & Hrun).
  books_step Hev as (Hok3 & Hs3 & Hg3).
  apply run_bind_Ok in Hrun as (n & d4 & [Hn <-]%run_lift_Ok & Hrun).
  apply run_bind_Ok in Hrun as (entry & d4 & Hpost & Hrun).
  destruct (post_step _ _ _ _ _ _ _ _ Hok3 Hpost) as (Hok4 & Ha4 & Hl4 & Hg4). clear Hpost.
  assert (Hi1 : a ∈ accounts d3) by exact (books_accounts _ _ _ Hs3 (books_accounts _ _ _ Hs2 Hin1)).
  assert (Hi2 : c ∈ accounts d3) by exact (books_accounts _ _ _ Hs3 Hin2).
  assert (Hl4' : on_file d4 l).
  { unfold on_file, lot_owners. rewrite Hl4. exact (books_on_file _ _ _ Hs3 (books_on_file _ _ _ Hs2 (books_on_file _ _ _ Hs1 Hl))). }
  apply run_bind_Ok in Hrun as (id & d5 & [-> ->]%run_uuid4_Ok & Hrun).
  apply run_bind_Ok in Hrun as (w & d6 & Hadd & Hrun).
  change (state_ok (Db (tables d4) (next_uuid d4 + 1) (db_now d4))) in Hok4.
  books_step Hadd as (Hok6 & Hs6 & Hg6).
  apply run_bind_Ok in Hrun as (basis' & d7 & [Hb <-]%run_queries_Ok & Hrun).
  apply run_bind_Ok in Hrun as (w1 & d7 & Has & Hrun).
  destruct (assign_basis_gaps _ _ _ _ _ Hok6 (books_on_file _ _ _ Hs6 Hl4') Has) as (Hok7 & Hg7).
  apply q_add_Ok in Hb as [_ Hb].
  apply run_bind_Ok in Hrun as (r & d8 & [_ <-]%run_lift_Ok & Hrun).
  books_step Hrun as (Hok8 & _ & Hg8).
  split; [done|]. intros o. destruct (Hg8 o) as [-> ->], (Hg7 o) as [-> ->], (Hg6 o) as [-> ->].
  change (units_gap o (Db _ _ _)) with (units_gap o d4). change (cost_gap o (Db _ _ _)) with (cost_gap o d4).
  destruct (Hg4 o) as [-> ->], (Hg3 o) as [-> ->], (Hg2 o) as [-> ->], (Hg1 o) as [-> ->].
  destruct Hok3 as [Hd3 _].
  repeat first [rewrite (legs_on_cons _ _ d3 a) by done|rewrite (legs_on_cons _ _ d3 c) by done].
  rewrite !legs_on_nil, !Hp2.
  destruct (Hp1 o) as [-> ->]. unfold basis, lot_owner in *. cbn. rewrite Hb.
  decide_roles. cbn. destruct (bool_decide _); lia.
Qed.

Lemma books_kept_refl d : state_ok d → books_kept d d.
Proof. by split. Qed.

Lemma books_kept_trans d1 d2 d3 : books_kept d1 d2 → books_kept d2 d3 → books_kept d1 d3.
Proof.
  intros [_ H1] [H2 H3]. split; [done|]. intros o. by destruct (H3 o) as [-> ->], (H1 o) as [-> ->].
Qed.

Lemma on_loss_sale_gaps k c s d u d' :
  state_ok d → run (on_loss_sale k c s) d = Ok (u, d') → books_kept d d'.
Proof.
  intros Hok Hrun. unfold on_loss_sale in Hrun. destruct (q_leb _ _).
  { apply run_ret_Ok in Hrun as [_ <-]. by apply books_kept_refl. }
  apply run_bind_Ok in Hrun as (b & d1 & [_ <-]%run_gets_Ok & Hrun). destruct b.
  { apply run_ret_Ok in Hrun as [_ <-]. by apply books_kept_refl. }
  apply run_bind_Ok in Hrun as (w & d1 & [_ <-]%run_lift_Ok & Hrun).
  apply run_bind_Ok in Hrun as (r & d1 & [<- <-]%run_gets_Ok & Hrun).
  destruct (find_earliest_replacement_in_window _ _ _ _ _ _) as [l|] eqn:Hl.
  - eapply adjustment_gaps; [done| |exact Hrun]. unfold find_earliest_replacement_in_window in Hl.
    apply head_Some_elem_of in Hl. rewrite sort_by_perm in Hl. apply list_elem_of_filter in Hl as [_ Hl].
    apply list_elem_of_fmap. by exists l.
  - apply run_ret_Ok in Hrun as [_ <-]. by apply books_kept_refl.
Qed.

Lemma on_buy_fill_gaps l d u d' :
  state_ok d → on_file d l → run (on_buy_fill l) d = Ok (u, d') → books_kept d d'.
Proof.
  intros Hok Hl Hrun. unfold on_buy_fill in Hrun.
  apply run_bind_Ok in Hrun as (w & d1 & [_ <-]%run_lift_Ok & Hrun).
  apply run_bind_Ok in Hrun as (ks & d1 & [_ <-]%run_gets_Ok & Hrun).
  revert d Hok Hl Hrun. induction ks as [|k ks IH]; intros d Hok Hl; cbn [for_each].
  - intros [_ <-]%run_ret_Ok. by apply books_kept_refl.
  - intros (u1 & d1 & H1 & H2)%run_bind_Ok.
    assert (books_kept d d1 ∧ on_file d1 l) as [Hk Hl1].
    { destruct (_ =? _); [apply run_ret_Ok in H1 as [_ <-]; by split; [apply books_kept_refl|]|].
      split; [by eapply adjustment_gaps|]. eapply on_file_kept; [|exact H1|done].
      intros; apply units_apply_adjustment. }
    eapply books_kept_trans; [exact Hk|]. apply (IH d1); [by destruct Hk|done|done].
Qed.

(** Opening a lot adds its units and basis to its owner's figures. *)
Lemma add_lot_gaps l d u d' :
  state_ok d → run (add TTaxLot l) d = Ok (u, d') →
  state_ok d' ∧ on_file d' l ∧ ∀ o,
    units_gap o d' = units_gap o d + (if bool_decide (lot_owner l = o) then remaining l else 0) ∧
    cost_gap o d' = cost_gap o d + (if bool_decide (lot_owner l = o) then basis l else 0).
Proof.
  intros [Hd Hok] Hr. assert (Hl : preserves ledger_ok (add TTaxLot l)) by preserves_auto.
  assert (Hok' : state_ok d') by (split; [exact (run_integrity _ _ _ _ Hd Hr)|exact (Hl _ _ _ Hok Hr)]).
  apply run_add_Ok in Hr as [_ ->].
  assert (Ht : tax_lots (insert_row (H := trueup) TTaxLot l d) = tax_lots d ++ [l]).
  { unfold tax_lots, insert_row. by rewrite tables_set_same. }
  split_and!; [done| |].
  - unfold on_file, lot_owners. rewrite Ht, fmap_app. apply elem_of_app. right. by left.
  - intros o. unfold units_gap, cost_gap, sum_owned. rewrite Ht, !filter_app, !sum_by_app, !filter_cons, !filter_nil.
    unfold posted. change (postings (insert_row _ _ _)) with (postings d).
    change (account_by_id (insert_row _ _ _)) with (account_by_id d).
    destruct (bool_decide (lot_owner l = o));
      [rewrite !decide_True by done|rewrite !decide_False by done]; unfold sum_by; cbn; lia.
Qed.

Lemma cash_account c d a d' :
  run (require_customer_account c CASH) d = Ok (a, d') →
  d' = d ∧ a ∈ accounts d ∧ ∀ o, position POSITION_UNITS o a = false ∧ position POSITION_COST o a = false.
Proof.
  intros (-> & Ha & _ & Hr)%require_account_Ok. split_and!; try done.
  intros o. split; apply position_other; by rewrite Hr.
Qed.

(** ** Choosing and consuming lots *)

Lemma sum_owned_update P fig p f d :
  (∀ l, lot_owner (f l) = lot_owner l ∧ fig (f l) = fig l) →
  sum_owned P fig (set_table (H := trueup) TTaxLot (update_table (H := trueup) TTaxLot p f d) d) = sum_owned P fig d.
Proof.
  intros Hf. unfold sum_owned, tax_lots. rewrite tables_set_same. unfold update_table.
  induction (tables d TTaxLot) as [|l ls IH]; [done|]. rewrite fmap_cons, !filter_cons.
  destruct (Hf l) as [H1 H2]. destruct (p l); rewrite ?H1; destruct (decide _); rewrite ?sum_by_cons, ?IH, ?H2; lia.
Qed.

Lemma designate_gaps c s id d l d' :
  state_ok d → run (designate_lot c s id) d = Ok (l, d') →
  books_kept d d' ∧ lot_owners d' = lot_owners d ∧ on_file d l ∧ lot_owner l = (c, s).
Proof.
  intros Hok Hrun. unfold designate_lot in Hrun.
  apply run_bind_Ok in Hrun as (f & d1 & [<- <-]%run_gets_Ok & Hrun).
  destruct (lot_by_id d id) as [l0|] eqn:Hl; [|done]. apply lot_by_id_Some in Hl as [Hin <-].
  apply run_bind_Ok in Hrun as (u & d1 & [Hreq <-]%run_require_Ok & Hrun).
  apply run_bind_Ok in Hrun as (u1 & d1 & Has & [<- <-]%run_ret_Ok). zbool.
  assert (Hl : preserves ledger_ok (assign_lot (lot_id l0) (λ r, set_lot r (lot_quantity_opened r)
    (lot_quantity_remaining r) (lot_adjusted_basis r) SPECIFIC))) by (unfold assign_lot; preserves_auto).
  destruct Hok as [Hd Hok]. pose proof (run_integrity _ _ _ _ Hd Has) as Hd1. pose proof (Hl _ _ _ Hok Has) as Hok1.
  unfold assign_lot in Has. apply run_update_Ok in Has as (_ & _ & _ & _ & ->).
  split_and!; [split; [done|]|by apply (update_fmap TTaxLot)| |].
  - intros o. unfold units_gap, cost_gap. rewrite !sum_owned_update by done. done.
  - apply list_elem_of_fmap. by exists l0.
  - unfold lot_owner. congruence.
Qed.

Lemma select_gaps c s designated d ls d' :
  state_ok d → run (select_lots_to_consume c s designated) d = Ok (ls, d') →
  books_kept d d' ∧ ∀ l, l ∈ ls → on_file d' l ∧ lot_owner l = (c, s).
Proof.
  intros Hok Hrun. assert (Hfifo : ls = lock_open_fifo d c s → d' = d → books_kept d d' ∧
    ∀ l, l ∈ ls → on_file d' l ∧ lot_owner l = (c, s)).
  { intros -> ->. split; [by apply books_kept_refl|]. intros l (Hl & Ho & _)%open_fifo_In. split; [|done].
    apply list_elem_of_fmap. by exists l. }
  unfold select_lots_to_consume in Hrun. destruct designated as [[|id ids]|];
    [apply run_gets_Ok in Hrun as [<- <-]; by apply Hfifo| |apply run_gets_Ok in Hrun as [<- <-]; by apply Hfifo].
  clear Hfifo. revert Hrun. generalize (id :: ids) as l. clear id ids. intros l Hrun.
  assert (books_kept d d' ∧ lot_owners d' = lot_owners d ∧ ∀ l, l ∈ ls → on_file d l ∧ lot_owner l = (c, s))
    as (H1 & H2 & H3).
  { revert d ls Hok Hrun. induction l as [|id l IH]; intros d ls Hok; cbn [map_prog].
    - intros [<- <-]%run_ret_Ok. split_and!; [by apply books_kept_refl|done|set_solver].
    - intros (x & d1 & Hx & H)%run_bind_Ok. apply run_bind_Ok in H as (xs & d2 & Hxs & [<- <-]%run_ret_Ok).
      destruct (designate_gaps _ _ _ _ _ _ Hok Hx) as (Hk & Ho & Hf & Hown).
      destruct (IH d1 xs (proj1 Hk) Hxs) as (Hk2 & Ho2 & Hall).
      split_and!; [by eapply books_kept_trans|congruence|].
      intros y [->|Hy]%elem_of_cons; [done|]. unfold on_file. rewrite <- Ho. by apply Hall. }
  split; [done|]. unfold on_file. rewrite H2. exact H3.
Qed.

Lemma consume_gaps ex price at_ day q ls c s d st d' :
  state_ok d → 0 <= quanta q → (∀ l, l ∈ ls → on_file d l ∧ lot_owner l = (c, s)) →
  run (consume_lots ex price at_ day q ls) d = Ok (st, d') →
  state_ok d' ∧ accounts d' = accounts d ∧ ∀ o,
    units_gap o d' = units_gap o d - (if bool_decide ((c, s) = o) then quanta q else 0) ∧
    cost_gap o d' = cost_gap o d - (if bool_decide ((c, s) = o) then quanta (consumed_basis_total st) else 0).
Proof.
  intros [Hd Hok] Hq Hls Hrun. apply consume_lots_sold in Hrun; [|done| |done].
  2: { intros l Hl. destruct (Hls l Hl) as [(r & Hr & Hin)%list_elem_of_fmap _].
       apply list_elem_of_fmap. exists r. split; [exact (f_equal fst Hr)|done]. }
  destruct Hrun as [Hd' Hf _ _ Hfig _ _].
  assert (Hframe : ∀ t, t ∈ ledger_tables → tables d' t = tables d t).
  { intros t Ht. apply Hf; intros ->; unfold ledger_tables in Ht; set_solver. }
  split_and!; [split; [done|by apply (ledger_ok_frame d)]|exact (Hf TAccount ltac:(done) ltac:(done))|].
  assert (Hp : ∀ P f, posted P f d' = posted P f d).
  { intros P f. unfold posted, postings, account_by_id, accounts. by rewrite !Hf. }
  intros o. unfold units_gap, cost_gap. rewrite !Hp.
  destruct (Hfig (λ o', bool_decide (o' = o)) (bool_decide ((c, s) = o))) as [-> ->].
  - intros l Hl (l0 & Hid & Hl0)%list_elem_of_fmap. destruct (Hls l0 Hl0) as [(r & Hr & Hin)%list_elem_of_fmap Hown].
    rewrite (lot_id_inj d l r Hd Hl Hin) by (rewrite Hid; exact (f_equal fst Hr)).
    rewrite <- Hown. by rewrite (f_equal snd Hr : lot_owner l0 = lot_owner r).
  - cbn [consumed_basis_total]. destruct (bool_decide _); cbn [quanta zero]; lia.
Qed.

Lemma loss_sales_gaps ks c s d u d' :
  state_ok d →
  run (for_each ks (λ k, if q_ltb (consumption_realized_gain_loss k) zero then on_loss_sale k c s else mret tt)) d
    = Ok (u, d') → books_kept d d'.
Proof.
  revert d. induction ks as [|k ks IH]; intros d Hok; cbn [for_each].
  - intros [_ <-]%run_ret_Ok. by apply books_kept_refl.
  - intros (u1 & d1 & H1 & H2)%run_bind_Ok.
    assert (Hk : books_kept d d1).
    { destruct (q_ltb _ _); [by eapply on_loss_sale_gaps|]. apply run_ret_Ok in H1 as [_ <-]. by apply books_kept_refl. }
    eapply books_kept_trans; [exact Hk|]. apply (IH d1); [by destruct Hk|done].
Qed.

Section Fills.
Context `{TradingCalendar} (utc_offset : instant → Z) (market_instant : date * Z → instant).

Lemma buy_fill_gaps c s ex q price at_ d l d' :
  state_ok d → run (record_buy_fill utc_offset market_instant c s ex q price at_) d = Ok (l, d') → books_kept d d'.
Proof.
  intros Hok Hrun. unfold record_buy_fill in Hrun.
  apply run_bind_Ok in Hrun as (day & d1 & [_ <-]%run_lift_Ok & Hrun).
  apply run_bind_Ok in Hrun as (cost & d1 & [Hcost <-]%run_lift_Ok & Hrun).
  apply run_bind_Ok in Hrun as (a & d1 & Ha & Hrun).
  destruct (position_account _ _ _ _ _ _ Hok Ha) as (Hok1 & _ & Hg1 & Hin1 & Hp1). clear Ha.
  apply run_bind_Ok in Hrun as (b & d2 & Hb & Hrun).
  destruct (position_account _ _ _ _ _ _ Hok1 Hb) as (Hok2 & Hs2 & Hg2 & Hin2 & Hp2). clear Hb.
  apply run_bind_Ok in Hrun as (e & d3 & (-> & Hin3 & Hp3)%cash_account & Hrun).
  apply run_bind_Ok in Hrun as (ev & d4 & Hev & Hrun). books_step Hev as (Hok4 & Hs4 & Hg4).
  apply run_bind_Ok in Hrun as (n & d5 & [_ <-]%run_lift_Ok & Hrun).
  apply run_bind_Ok in Hrun as (entry & d5 & Hpost & Hrun).
  destruct (post_step _ _ _ _ _ _ _ _ Hok4 Hpost) as (Hok5 & _ & _ & Hg5). clear Hpost.
  apply run_bind_Ok in Hrun as (sd & d6 & [_ <-]%run_lift_Ok & Hrun).
  apply run_bind_Ok in Hrun as (ev2 & d6 & Hev2 & Hrun). books_step Hev2 as (Hok6 & _ & Hg6).
  apply run_bind_Ok in Hrun as (ob & d7 & Hob & Hrun). books_step Hob as (Hok7 & _ & Hg7).
  destruct (session_close sd) as [close|]; [|done].
  apply run_bind_Ok in Hrun as (id & d8 & [-> ->]%run_uuid4_Ok & Hrun). cbn zeta in Hrun.
  match type of Hrun with run (add _ ?row ≫= _) _ = _ => set (lot := row) in * end.
  apply run_bind_Ok in Hrun as (u & d8 & Hadd & Hrun).
  change (state_ok (Db (tables d7) (next_uuid d7 + 1) (db_now d7))) in Hok7.
  destruct (add_lot_gaps _ _ _ _ Hok7 Hadd) as (Hok8 & Hl & Hg8).
  apply run_bind_Ok in Hrun as (u2 & d9 & Hbuy & [_ <-]%run_ret_Ok).
  destruct (on_buy_fill_gaps _ _ _ _ Hok8 Hl Hbuy) as [Hok9 Hg9].
  split; [done|]. intros o. destruct (Hg9 o) as [-> ->], (Hg8 o) as [-> ->].
  change (units_gap o (Db _ _ _)) with (units_gap o d7). change (cost_gap o (Db _ _ _)) with (cost_gap o d7).
  destruct (Hg7 o) as [-> ->], (Hg6 o) as [-> ->], (Hg5 o) as [-> ->], (Hg4 o) as [-> ->], (Hg2 o) as [-> ->],
    (Hg1 o) as [-> ->].
  assert (Ha : a ∈ accounts d4) by exact (books_accounts _ _ _ Hs4 (books_accounts _ _ _ Hs2 Hin1)).
  assert (Hb : b ∈ accounts d4) by exact (books_accounts _ _ _ Hs4 Hin2).
  assert (He : e ∈ accounts d4) by exact (books_accounts _ _ _ Hs4 Hin3).
  destruct Hok4 as [Hd4 _].
  repeat first [rewrite (legs_on_cons _ _ d4 a) by done|rewrite (legs_on_cons _ _ d4 b) by done
               |rewrite (legs_on_cons _ _ d4 e) by done].
  rewrite !legs_on_nil, !Hp1, !Hp2. destruct (Hp3 o) as [-> ->].
  decide_roles.
  unfold lot, lot_owner, remaining, basis. cbn. destruct (bool_decide _); lia.
Qed.

Lemma sell_fill_gaps c s ex q price at_ designated d ks d' :
  state_ok d → 0 <= quanta q →
  run (record_sell_fill utc_offset c s ex q price at_ designated) d = Ok (ks, d') → books_kept d d'.
Proof.
  intros Hok Hq Hrun. unfold record_sell_fill in Hrun.
  apply run_bind_Ok in Hrun as (day & d0 & [_ <-]%run_lift_Ok & Hrun).
  apply run_bind_Ok in Hrun as (ls & d0 & Hsel & Hrun).
  destruct (select_gaps _ _ _ _ _ _ Hok Hsel) as [[Hok0 Hg0] Hls]. clear Hsel.
  apply run_bind_Ok in Hrun as (st & dc & Hcons & Hrun).
  destruct (consume_gaps _ _ _ _ _ _ c s _ _ _ Hok0 Hq Hls Hcons) as (Hokc & _ & Hgc). clear Hcons.
  apply run_bind_Ok in Hrun as (a & d1 & Ha & Hrun).
  destruct (position_account _ _ _ _ _ _ Hokc Ha) as (Hok1 & _ & Hg1 & Hin1 & Hp1). clear Ha.
  apply run_bind_Ok in Hrun as (b & d2 & Hb & Hrun).
  destruct (position_account _ _ _ _ _ _ Hok1 Hb) as (Hok2 & Hs2 & Hg2 & Hin2 & Hp2). clear Hb.
  apply run_bind_Ok in Hrun as (e & d3 & (-> & Hin3 & Hp3)%cash_account & Hrun).
  apply run_bind_Ok in Hrun as (g & d3 & Hgain & Hrun).
  destruct (plain_account _ REALIZED_GAIN_LOSS _ _ _ Hok2 ltac:(done) ltac:(done) Hgain) as (Hok3 & Hs3 & Hg3 & Hin4 & Hp4).
  apply run_bind_Ok in Hrun as (pr & d4 & [_ <-]%run_lift_Ok & Hrun).
  apply run_bind_Ok in Hrun as (ev & d4 & Hev & Hrun). books_step Hev as (Hok4 & Hs4 & Hg4).
  apply run_bind_Ok in Hrun as (legs & d5 & [Hlegs <-]%run_lift_Ok & Hrun).
  apply run_bind_Ok in Hrun as (entry & d5 & Hpost & Hrun).
  destruct (post_step _ _ _ _ _ _ _ _ Hok4 Hpost) as (Hok5 & _ & _ & Hg5). clear Hpost.
  apply run_bind_Ok in Hrun as (sd & d6 & [_ <-]%run_lift_Ok & Hrun).
  apply run_bind_Ok in Hrun as (ev2 & d6 & Hev2 & Hrun). books_step Hev2 as (Hok6 & _ & Hg6).
  apply run_bind_Ok in Hrun as (ob & d7 & Hob & Hrun). books_step Hob as (Hok7 & _ & Hg7).
  apply run_bind_Ok in Hrun as (u & d8 & Hloss & [_ <-]%run_gets_Ok).
  destruct (loss_sales_gaps _ _ _ _ _ _ Hok7 Hloss) as [Hok8 Hg8].
  split; [done|]. intros o. destruct (Hg8 o) as [-> ->], (Hg7 o) as [-> ->], (Hg6 o) as [-> ->], (Hg5 o) as [-> ->],
    (Hg4 o) as [-> ->], (Hg3 o) as [-> ->], (Hg2 o) as [-> ->], (Hg1 o) as [-> ->], (Hgc o) as [-> ->], (Hg0 o) as [-> ->].
  assert (Ha : a ∈ accounts d4)
    by exact (books_accounts _ _ _ Hs4 (books_accounts _ _ _ Hs3 (books_accounts _ _ _ Hs2 Hin1))).
  assert (Hb : b ∈ accounts d4) by exact (books_accounts _ _ _ Hs4 (books_accounts _ _ _ Hs3 Hin2)).
  assert (He : e ∈ accounts d4) by exact (books_accounts _ _ _ Hs4 (books_accounts _ _ _ Hs3 Hin3)).
  assert (Hgn : g ∈ accounts d4) by exact (books_accounts _ _ _ Hs4 Hin4).
  destruct Hok4 as [Hd4 _]. unfold sell_legs in Hlegs.
  apply bind_Ok in Hlegs as (n1 & [_ E1]%q_neg_Ok & Hlegs). apply bind_Ok in Hlegs as (n2 & [_ E2]%q_neg_Ok & Hlegs).
  apply bind_Ok in Hlegs as (n3 & _ & [= <-]).
  repeat first [rewrite (legs_on_cons _ _ d4 a) by done|rewrite (legs_on_cons _ _ d4 b) by done
               |rewrite (legs_on_cons _ _ d4 e) by done|rewrite (legs_on_cons _ _ d4 g) by done].
  rewrite !legs_on_nil, !Hp1, !Hp2. destruct (Hp3 o) as [-> ->], (Hp4 o) as [-> ->]. decide_roles.
  cbn. rewrite E1, E2. destruct (bool_decide _); lia.
Qed.
End Fills.

(** ** Correctness *)

(** A fill is recorded. *)
Inductive fill_step `{TradingCalendar} (utc_offset : instant → Z) (market_instant : date * Z → instant) : db → db → Prop :=
  | step_buy c s ex q price at_ d l d' :
      run (record_buy_fill utc_offset market_instant c s ex q price at_) d = Ok (l, d') →
      fill_step utc_offset market_instant d d'
  | step_sell c s ex q price at_ designated d ks d' :
      0 <= quanta q → run (record_sell_fill utc_offset c s ex q price at_ designated) d = Ok (ks, d') →
      fill_step utc_offset market_instant d d'.

(** C2. The lot books and the ledger never drift: along any sequence of buy and
    sell fills, FIFO or designated, with every wash-sale adjustment and
    restatement they trigger, each customer's lots of each security hold exactly
    the units of the position-units account and the basis of the position-cost
    account, and the ledger invariant holds. *)
Theorem fills_reconcile `{TradingCalendar} utc_offset market_instant d d' :
  integrity d → ledger_ok d → lots_reconcile d →
  rtc (fill_step utc_offset market_instant) d d' → lots_reconcile d' ∧ ledger_ok d'.
Proof.
  intros Hd Hok Hrec Hsteps. assert (Hs : state_ok d) by done. clear Hd Hok.
  induction Hsteps as [|d d1 d' Hstep _ IH]; [by destruct Hs|].
  assert (Hk : books_kept d d1) by (destruct Hstep; [by eapply buy_fill_gaps|by eapply sell_fill_gaps]).
  destruct Hk as [Hs1 Hg]. apply IH; [|done]. intros o. destruct (Hg o) as [-> ->]. apply Hrec.
Qed.

Definition sample_step : db → db → Prop := fill_step (H := sample_calendar) (λ _, 0) (λ t, noon t.1).

Lemma sample_fills_integrity : integrity sample_fills.
Proof. apply integrity_check. intros []; vm_compute; reflexivity. Qed.

Lemma sample_fills_ok : ledger_ok sample_fills.
Proof.
  eapply (ledger_ok_frame sample_posted); [|exact (preserves_post _ _ _ _ _ _ _ _ sample_ledger_ok sample_deposit_runs)].
  intros t Ht. unfold sample_fills. rewrite tables_set_ne; [done|]. unfold ledger_tables in Ht. set_solver.
Qed.

Lemma run_or_unit (m : prog ()) d : is_ok (run m d) = true → run m d = Ok (tt, (run_or m d tt).2).
Proof. intros E. rewrite (run_or_Ok m d tt E). by destruct (run_or m d tt) as [[] ?]. Qed.

Lemma sample_buy_steps : ∃ l1 l2 d1,
  run (sample_buy "buy1" 10 10 738154) sample_fills = Ok (l1, d1) ∧
  run (sample_buy "buy2" 5 12 738155) d1 = Ok (l2, sample_lots).
Proof.
  assert (Hr : run sample_buys sample_fills = Ok (tt, sample_lots)) by (apply run_or_unit; vm_compute; reflexivity).
  apply run_bind_Ok in Hr as (l1 & d1 & H1 & Hr). apply run_bind_Ok in Hr as (l2 & d2 & H2 & [_ E]%run_ret_Ok). subst d2.
  exists l1, l2, d1. exact (conj H1 H2).
Qed.

Lemma sample_lots_ok : ledger_ok sample_lots.
Proof.
  destruct sample_buy_steps as (l1 & l2 & d1 & H1 & H2).
  assert (Hs : state_ok sample_fills) by exact (conj sample_fills_integrity sample_fills_ok).
  pose proof (buy_fill_gaps (H := sample_calendar) _ _ _ _ _ _ _ _ sample_fills l1 d1 Hs H1) as [Hs1 _].
  pose proof (buy_fill_gaps (H := sample_calendar) _ _ _ _ _ _ _ _ d1 l2 sample_lots Hs1 H2) as [Hs2 _].
  exact (proj2 Hs2).
Qed.

Lemma sample_fill_steps : rtc sample_step sample_fills sample_sold.2.
Proof.
  destruct sample_buy_steps as (l1 & l2 & d1 & H1 & H2).
  eapply rtc_l; [exact (step_buy (H := sample_calendar) _ _ _ _ _ _ _ _ _ _ _ H1)|].
  eapply rtc_l; [exact (step_buy (H := sample_calendar) _ _ _ _ _ _ _ _ _ _ _ H2)|].
  apply rtc_once. refine (step_sell (H := sample_calendar) _ _ _ _ _ _ _ _ _ _ _ _ _ sample_sell_runs). by vm_compute.
Qed.

Lemma fills_reconcile_witness :
  sum_owned (λ o, bool_decide (o = (7, 9))) remaining sample_sold.2 = 3000000 ∧ lots_reconcile sample_sold.2.
Proof.
  split; [vm_compute; reflexivity|].
  exact (proj1 (fills_reconcile (H := sample_calendar) _ _ sample_fills sample_sold.2
    sample_fills_integrity sample_fills_ok (λ o, conj eq_refl eq_refl) sample_fill_steps)).
Defined.

Lemma units_select u v c s designated : preserves (units_are u v) (select_lots_to_consume c s designated).
Proof. unfold select_lots_to_consume, designate_lot, assign_lot. preserves_auto. Qed.

(** A recorded sale pays the lots exactly: the proceeds posted to cash, the
    price times the whole quantity rounded once, are the sum of the proceeds
    rounded lot by lot, which the lots' consumptions split into basis and gain.
    A sale whose roundings disagree is refused, so it records nothing. *)
Theorem sell_fill_money `{TradingCalendar} utc_offset c s ex q price at_ designated d ks d' :
  integrity d → ledger_ok d → 0 <= quanta q →
  run (record_sell_fill utc_offset c s ex q price at_ designated) d = Ok (ks, d') →
  ∃ ks', consumption_units d' = consumption_units d ++ ks' ∧ sum_by snd ks' = quanta q ∧
    sum_by (λ k, proceeds_of price k.2) ks' = proceeds_of price (quanta q) ∧
    ∃ e, e ∈ journal_entries d' ∧ entry_type e = TRADE_SELL.
Proof.
  intros Hd Hok Hq Hrun. unfold record_sell_fill in Hrun.
  apply run_bind_Ok in Hrun as (day & d0 & [_ <-]%run_lift_Ok & Hrun).
  apply run_bind_Ok in Hrun as (ls & d0 & Hsel & Hrun).
  destruct (select_gaps _ _ _ _ _ _ (conj Hd Hok) Hsel) as [[[Hd0 _] _] Hls].
  apply units_kept in Hsel as [_ Hu0]; [|intros; apply units_select].
  apply run_bind_Ok in Hrun as (st & dc & Hcons & Hrun). apply consume_lots_sold in Hcons; [|done| |done].
  2: { intros l Hl. destruct (Hls l Hl) as [(r & Hr & Hin)%list_elem_of_fmap _].
       apply list_elem_of_fmap. exists r. split; [exact (f_equal fst Hr)|done]. }
  destruct (sold_rows _ _ _ _ _ _ _ _ Hcons) as (rows & _ & Hrows & _ & Hsum & Hgain & Hsplit). clear Hcons.
  cbn [realized_total consumed_basis_total quanta zero] in Hgain, Hsplit.
  pose proof Hrun as Hu. apply units_kept in Hu as [_ Hu]; [|intros u v; clear; preserves_auto].
  apply run_bind_Ok in Hrun as (a & d1 & _ & Hrun). apply run_bind_Ok in Hrun as (b & d2 & _ & Hrun).
  apply run_bind_Ok in Hrun as (e & d3 & _ & Hrun). apply run_bind_Ok in Hrun as (g & d4 & _ & Hrun).
  apply run_bind_Ok in Hrun as (pr & d5 & [[_ Hpr]%price_times_units_Ok <-]%run_lift_Ok & Hrun).
  apply run_bind_Ok in Hrun as (ev & d5 & _ & Hrun). apply run_bind_Ok in Hrun as (legs & d6 & [Hlegs <-]%run_lift_Ok & Hrun).
  apply run_bind_Ok in Hrun as (entry & d6 & Hpost & Hrun). pose proof (write_Ok _ _ _ _ _ _ _ _ _ _ Hpost) as [He _ Hty _ _ _ _ _ [_ Hbal] _].
  pose proof (run_extends _ _ _ _ Hrun) as (_ & _ & Hext). specialize (Hext TJournalEntry eq_refl).
  unfold sell_legs in Hlegs. apply bind_Ok in Hlegs as (n1 & _ & Hlegs).
  apply bind_Ok in Hlegs as (n2 & [_ E2]%q_neg_Ok & Hlegs). apply bind_Ok in Hlegs as (n3 & [_ E3]%q_neg_Ok & [= <-]).
  rewrite !sum_by_cons, sum_by_nil in Hbal. unfold leg_money in Hbal. cbn in Hbal.
  exists ((λ k, (consumption_id k, consumption_tax_lot_id k, consumption_closing_fill_execution_id k, consumed k)) <$> rows).
  rewrite !sum_by_fmap, Hu, <- Hu0. unfold consumption_units. rewrite Hrows, fmap_app.
  split_and!; [done|exact Hsum| |].
  - cbn [snd]. unfold proceeds_of at 2. lia.
  - exists entry. split; [|done]. destruct Hext as [k Hk]. unfold journal_entries in *. rewrite Hk, He. set_solver.
Qed.

Lemma sell_fill_money_witness :
  proceeds_of (QD 11000000) 10000000 + proceeds_of (QD 11000000) 2000000 = proceeds_of (QD 11000000) 12000000 ∧
  ∃ ks', consumption_units sample_sold.2 = consumption_units sample_lots ++ ks' ∧ sum_by snd ks' = 12000000.
Proof.
  split; [vm_compute; reflexivity|].
  destruct (sell_fill_money (H := sample_calendar) (λ _, 0) 7 9 "sell1" (QD (12 * 10 ^ 6)) (QD (11 * 10 ^ 6))
    (noon 738160) None sample_lots _ _ sample_lots_integrity sample_lots_ok ltac:(by vm_compute) sample_sell_runs)
    as (ks' & H1 & H2 & _).
  exists ks'. exact (conj H1 H2).
Defined.

(** Two half units bought at 10 and sold together at 11.0001: half a unit earns
    5.50005, rounded to 5.5000 twice, the unit earns 11.0001. *)
Definition sample_half (ex : string) (d : date) : prog TaxLot :=
  record_buy_fill (H := sample_calendar) (λ _, 0) (λ t, noon t.1) 7 9 ex (QD 500000) (QD 10000000) (noon d).

Definition sample_halves : db :=
  (run_or (sample_half "buy1" 738154 ;; sample_half "buy2" 738155 ;; mret tt) sample_fills tt).2.

Lemma sell_fill_unbalanced :
  run (record_sell_fill (H := sample_calendar) (λ _, 0) 7 9 "sell1" (QD 1000000) (QD 11000100) (noon 738160) None)
    sample_halves = Raise UnbalancedEntryError ∧
  lot_units sample_halves = [(114, (7, 9), 500000); (124, (7, 9), 500000)].
Proof. split; vm_eq. Qed.

(** The rows an adjustment is about. *)
Definition lot_rows (d : db) : list TaxLot * list LotConsumption * list WashSaleAdjustment :=
  (tax_lots d, lot_consumptions d, wash_sale_adjustments d).

Lemma rows_frame {A} ts (m : prog A) d a d' :
  writes ts m → forallb (λ t, bool_decide (t ∉ [TTaxLot; TLotConsumption; TWashSaleAdjustment])) ts = true →
  run m d = Ok (a, d') → lot_rows d' = lot_rows d.
Proof.
  intros Hw Hts Hr. assert (Hn : ∀ t, t ∈ [TTaxLot; TLotConsumption; TWashSaleAdjustment] → tables d' t = tables d t).
  { intros t Ht. refine (Hw _ _ _ Hr t _). intros Hin. rewrite forallb_forall in Hts.
    apply list_elem_of_In in Hin. specialize (Hts t Hin). by apply bool_decide_eq_true in Hts. }
  unfold lot_rows, tax_lots, lot_consumptions, wash_sale_adjustments. by rewrite !Hn by set_solver.
Qed.

Lemma consumption_key (a b : LotConsumption) :
  consumption_id a = consumption_id b → conflicts (Schema := trueup) TLotConsumption a b = true.
Proof. intros E. cbn. by rewrite E, Z.eqb_refl. Qed.

(** A disallowed loss is carried once and in full: the adjustment moves the
    smaller of the loss and the replacement's original cost from the realized
    loss, which it never turns into a gain, to the replacement lot's basis, and
    records it; after it a second adjustment of the same loss, against whatever
    lot, changes nothing. *)
Theorem wash_sale_once k l d u d' :
  integrity d → k ∈ lot_consumptions d → l ∈ tax_lots d →
  exists_for_consumption d (consumption_id k) = false → realized k < 0 → 0 <= quanta (lot_original_cost_basis l) →
  run (apply_adjustment k l) d = Ok (u, d') →
  let m := Z.min (- realized k) (quanta (lot_original_cost_basis l)) in
  (∃ k', k' ∈ lot_consumptions d' ∧ consumption_id k' = consumption_id k ∧ realized k' = realized k + m ∧ realized k' <= 0) ∧
  (∃ l', l' ∈ tax_lots d' ∧ lot_id l' = lot_id l ∧ basis l' = basis l + m ∧ remaining l' = remaining l) ∧
  (∃ w, wash_sale_adjustments d' = wash_sale_adjustments d ++ [w] ∧ quanta (wash_disallowed_amount w) = m ∧
        wash_original_lot_consumption_id w = consumption_id k ∧ wash_replacement_tax_lot_id w = lot_id l) ∧
  ∀ l2, run (apply_adjustment k l2) d' = Ok (tt, d').
Proof.
  intros Hd Hk Hl Hno Hloss Hcost Hrun m. unfold apply_adjustment in Hrun.
  apply run_bind_Ok in Hrun as (b & d1 & [<- <-]%run_gets_Ok & Hrun). rewrite Hno in Hrun.
  apply run_bind_Ok in Hrun as (dis & d1 & [Hdis <-]%run_lift_Ok & Hrun).
  apply run_bind_Ok in Hrun as (a & d1 & Ha & Hrun). pose proof (run_integrity _ _ _ _ Hd Ha) as Hd1.
  apply (rows_frame _ _ _ _ _ (writes_get_or_create _ _ _) eq_refl) in Ha as R1.
  apply run_bind_Ok in Hrun as (c & d2 & Hc & Hrun). pose proof (run_integrity _ _ _ _ Hd1 Hc) as Hd2.
  apply (rows_frame _ _ _ _ _ (writes_get_or_create _ _ _) eq_refl) in Hc as R2.
  apply run_bind_Ok in Hrun as (ev & d3 & Hev & Hrun). pose proof (run_integrity _ _ _ _ Hd2 Hev) as Hd3.
  apply (rows_frame _ _ _ _ _ (writes_inbound_event _ _ _) eq_refl) in Hev as R3.
  apply run_bind_Ok in Hrun as (n & d4 & [_ <-]%run_lift_Ok & Hrun).
  apply run_bind_Ok in Hrun as (entry & d4 & Hpost & Hrun). pose proof (run_integrity _ _ _ _ Hd3 Hpost) as Hd4.
  pose proof (rows_frame _ _ _ _ _ (writes_post _ _ _ _ _) eq_refl Hpost) as R4. clear Hpost Ha Hc Hev.
  rewrite R3, R2, R1 in R4. clear R1 R2 R3. injection R4 as Hlots Hcons Hwash.
  apply run_bind_Ok in Hrun as (id & d5 & [-> ->]%run_uuid4_Ok & Hrun).
  apply run_bind_Ok in Hrun as (u1 & d5 & Hadd & Hrun).
  change (integrity (Db (tables d4) (next_uuid d4 + 1) (db_now d4))) in Hd4. pose proof (run_integrity _ _ _ _ Hd4 Hadd) as Hd5.
  apply run_add_Ok in Hadd as [_ ->].
  match type of Hd5 with integrity (insert_row _ ?row _) => set (w := row) in * end. set (d5 := insert_row _ _ _) in *.
  assert (Hw5 : wash_sale_adjustments d5 = wash_sale_adjustments d ++ [w]).
  { rewrite <- Hwash. unfold d5, wash_sale_adjustments, insert_row. by rewrite tables_set_same. }
  change (tax_lots d5 = tax_lots d) in Hlots. change (lot_consumptions d5 = lot_consumptions d) in Hcons.
  apply run_bind_Ok in Hrun as (bs & d6 & [Hb <-]%run_queries_Ok & Hrun). apply q_add_Ok in Hb as [_ Hb].
  apply run_bind_Ok in Hrun as (u2 & d6 & Has & Hrun). rewrite <- Hlots in Hl.
  pose proof (assign_lot_Ok _ _ _ _ _ l Hd5 Hl eq_refl Has) as (Hd6 & Hf6 & (l1 & l2 & _ & Hl6) & _).
  unfold current_lot in Hb. rewrite (lot_by_id_In _ _ Hd5 Hl) in Hb. cbn [default from_option id] in Hb.
  apply run_bind_Ok in Hrun as (rg & d7 & [[_ Hrg]%q_add_Ok <-]%run_lift_Ok & Hrun).
  apply run_bind_Ok in Hrun as (u3 & d7 & Hup & Hrun). apply run_update_Ok in Hup as (_ & _ & _ & _ & ->).
  assert (Hk6 : k ∈ tables d6 TLotConsumption) by (rewrite (Hf6 TLotConsumption) by done; change (k ∈ lot_consumptions d5); by rewrite Hcons).
  destruct (update_one (H := trueup) TLotConsumption consumption_id (set_realized rg) d6 k consumption_key Hd6 Hk6)
    as (k1 & k2 & _ & Hk7 & _). rewrite Hk7 in Hrun.
  apply run_bind_Ok in Hrun as (rs & d8 & Hrest & [_ <-]%run_ret_Ok).
  pose proof (rows_frame _ _ _ _ _ (writes_restate _ _ _ _ _) eq_refl Hrest) as R8. clear Hrest.
  injection R8 as Hl8 Hc8 Hw8.
  assert (Hm : quanta dis = m).
  { unfold disallowed_amount in Hdis. apply bind_Ok in Hdis as (x & [_ Hx]%q_abs_Ok & [= <-]).
    unfold m, realized, q_min, q_ltb in *. rewrite Hx. destruct (Z.ltb_spec (quanta (lot_original_cost_basis l))
      (Z.abs (quanta (consumption_realized_gain_loss k)))); lia. }
  assert (Hw6 : wash_sale_adjustments d8 = wash_sale_adjustments d ++ [w]).
  { rewrite <- Hw5. exact (eq_trans Hw8 (Hf6 TWashSaleAdjustment ltac:(done))). }
  split_and!.
  - exists (set_realized rg k). assert (Hc9 : lot_consumptions d8 = k1 ++ set_realized rg k :: k2)
      by (rewrite Hc8; exact (tables_set_same (H := trueup) TLotConsumption _ d6)). rewrite Hc9.
    split_and!; [apply elem_of_app; right; by left|done|unfold realized in *; cbn; lia|unfold realized in *; cbn; lia].
  - eexists. rewrite (eq_trans Hl8 Hl6). split; [apply elem_of_app; right; by left|]. unfold basis in *. cbn. split_and!; [done|lia|done].
  - exists w. split_and!; done.
  - intros l'. unfold apply_adjustment. apply run_bind_Ok. exists true, d8. split; [|by apply run_ret_Ok].
    apply run_gets_Ok. split; [|done]. unfold exists_for_consumption. rewrite Hw6, existsb_app. cbn.
    by rewrite Z.eqb_refl, !orb_true_r.
Qed.

(** The sample with 2 units of the second lot sold at a loss and no adjustment yet. *)
Definition sample_loss : LotConsumption :=
  {| consumption_id := 200; consumption_closing_fill_execution_id := "sell1"; consumption_tax_lot_id := 124;
     consumption_quantity_consumed := QD 2000000; consumption_realized_gain_loss := QD (-20000);
     consumption_is_provisional := true; consumption_sale_date := 738160 |}.

Definition sample_loss_db : db := set_table (H := trueup) TLotConsumption [sample_loss] sample_lots.

Definition sample_replacement : TaxLot :=
  {| lot_id := 114; lot_customer_id := 7; lot_security_id := 9; lot_opening_fill_execution_id := "buy1";
     lot_quantity_opened := QD 10000000; lot_quantity_remaining := QD 10000000;
     lot_original_cost_basis := QD 1000000; lot_adjusted_basis := QD 1000000; lot_acquired_at := 738154;
     lot_designation := UNSPECIFIED; lot_designation_window_closes_at := noon 738155 |}.

Definition sample_adjust : prog () := apply_adjustment sample_loss sample_replacement.

Lemma sample_adjust_runs : run sample_adjust sample_loss_db = Ok (tt, (run_or sample_adjust sample_loss_db tt).2).
Proof. apply run_or_unit. vm_compute. reflexivity. Qed.

Lemma wash_sale_once_witness :
  run sample_adjust (run_or sample_adjust sample_loss_db tt).2 = Ok (tt, (run_or sample_adjust sample_loss_db tt).2).
Proof.
  assert (Hi : integrity sample_loss_db) by (apply integrity_check; intros []; vm_compute; reflexivity).
  assert (Hl : tax_lots sample_loss_db !! 0%nat = Some sample_replacement) by (vm_compute; reflexivity).
  exact (proj2 (proj2 (proj2 (wash_sale_once sample_loss sample_replacement sample_loss_db tt _ Hi
    (list_elem_of_here _ _) (list_elem_of_lookup_2 _ 0%nat _ Hl) eq_refl eq_refl ltac:(by vm_compute)
    sample_adjust_runs))) sample_replacement).
Defined.
