(* ===== verification/CorporateActions.v ===== *)
(** * Corporate actions ([services/lots/corporate_action_service.py])

    The two steps of a dividend, entitlement on the ex-date and cash on the pay
    date, and the split, which multiplies the units of every open lot and posts
    the added units with no money. *)

From S2P Require Import Prelude PyDecimal MoneyTypes Dates Calendar Store Schema Ledger CashPolicy Funding Valuation Restatement Lots LotBooks.
From Stdlib Require Import String.
From stdpp Require Import strings.
Open Scope Z_scope.

(** ** Dividends *)

(** One holder of [declare_dividend_ex_date]; the result is the entry, if any. *)
Definition dividend_holder (security : uuid) (per_share_amount : Price) (ex_date : date) (income : uuid)
    (customer : uuid) : prog (option JournalEntry) :=
  quantity_held ← queries (total_remaining customer security);
  if q_leb quantity_held zero then mret None else
  amount ← lift (price_times_units per_share_amount quantity_held);
  receivable ← get_or_create_customer_account customer DIVIDEND_RECEIVABLE None;
  event ← record_inbound_event MARKETDATA "dividend_ex_date"
    [("customer_id", JStr (uuid_str customer)); ("security_id", JStr (uuid_str security));
     ("quantity_held", JStr (q_str quantity_held)); ("per_share_amount", JStr (q_str per_share_amount))];
  negated ← lift (q_neg amount);
  entry ← post DIVIDEND ex_date (event_id event)
    [money_leg (account_id receivable) amount; money_leg income negated] (Some ("dividend entitlement, ex-date " +:+ date_str ex_date +:+ " (S5 §6.1)")%string);
  restate (Some FeeRestatementDisclosureService) customer ex_date LATE_DIVIDEND (entry_source_event_id entry) ;;
  mret (Some entry).

(** [declare_dividend_ex_date] *)
Definition declare_dividend_ex_date (security : uuid) (per_share_amount : Price) (ex_date : date)
    : prog (list JournalEntry) :=
  income ← get_or_create_house_account DIVIDEND_INCOME;
  holders ← gets (λ d, list_customers_holding d security);
  entries ← map_prog (dividend_holder security per_share_amount ex_date (account_id income)) holders;
  mret (omap (M := list) id entries).

(** [pay_dividend] *)
Definition pay_dividend (customer : uuid) (amount : Money) (pay_date : date) : prog JournalEntry :=
  cash ← require_customer_account customer CASH;
  receivable ← get_or_create_customer_account customer DIVIDEND_RECEIVABLE None;
  let payload := [("customer_id", JStr (uuid_str customer)); ("amount", JStr (q_str amount))] in
  event ← record_inbound_event MARKETDATA "dividend_pay_date" payload;
  negated ← lift (q_neg amount);
  entry ← post DIVIDEND pay_date (event_id event)
    [money_leg (account_id cash) amount; money_leg (account_id receivable) negated]
    (Some ("dividend pay-date " +:+ date_str pay_date +:+ " (S5 §6.1)")%string);
  obligation_event ← record_inbound_event MARKETDATA "dividend_pay_date_settlement_expected" payload;
  add_obligation (entry_id entry) (account_id cash) amount pay_date (event_id obligation_event) ;;
  restate None customer pay_date LATE_DIVIDEND (entry_source_event_id entry) ;;
  mret entry.

(** ** Splits *)

(** [int | Decimal] *)
Inductive SplitRatio := RatioInt (n : Z) | RatioDecimal (x : dec).

Definition ratio_value (r : SplitRatio) : dec :=
  match r with RatioInt n => dec_of_Z n | RatioDecimal x => x end.

(** [ratio - 1] *)
Definition ratio_less_one (r : SplitRatio) : dec :=
  match r with RatioInt n => dec_of_Z (n - 1) | RatioDecimal x => dec_sub x (dec_of_Z 1) end.

(** [str(ratio)] *)
Definition ratio_str (r : SplitRatio) : string :=
  match r with
  | RatioInt n => ((if (n <? 0)%Z then "-" else "") +:+ str_nat (Z.abs n))%string
  | RatioDecimal x => dec_str x
  end.

(** [lot.quantity_opened = lot.quantity_opened * ratio] and the same for what remains. *)
Definition split_lot (ratio : SplitRatio) (lot : TaxLot) : prog () :=
  opened ← lift (scale_by (lot_quantity_opened lot) (ratio_value ratio));
  remains ← lift (scale_by (lot_quantity_remaining lot) (ratio_value ratio));
  assign_lot (lot_id lot) (λ r, set_lot r opened remains (lot_adjusted_basis r) (lot_designation r)).

(** One holder of [apply_split]; the result is the entry, if any. *)
Definition split_holder (security : uuid) (ratio : SplitRatio) (effective_date : date) (customer : uuid)
    : prog (option JournalEntry) :=
  lots ← gets (λ d, lock_open_for_security d customer security);
  if bool_decide (lots = []) then mret None else
  prior_total ← lift (q_sum (lot_quantity_remaining <$> lots));
  for_each lots (split_lot ratio) ;;
  added_units ← lift (scale_by prior_total (ratio_less_one ratio));
  units_account ← get_or_create_customer_account customer POSITION_UNITS (Some security);
  event ← record_inbound_event MARKETDATA "split"
    [("customer_id", JStr (uuid_str customer)); ("security_id", JStr (uuid_str security));
     ("ratio", JStr (ratio_str ratio))];
  entry ← post SPLIT effective_date (event_id event) [units_leg (account_id units_account) added_units]
    (Some (ratio_str ratio +:+ "-for-1 split, effective " +:+ date_str effective_date +:+ " (S5 §6.2)")%string);
  restate (Some FeeRestatementDisclosureService) customer effective_date SPLIT_TRIGGER (entry_source_event_id entry) ;;
  mret (Some entry).

(** [apply_split] *)
Definition apply_split (security : uuid) (ratio : SplitRatio) (effective_date : date) : prog (list JournalEntry) :=
  require (negb (dec_leb (ratio_value ratio) (dec_of_Z 1))) ValueError ;;
  holders ← gets (λ d, list_customers_holding d security);
  entries ← map_prog (split_holder security ratio effective_date) holders;
  mret (omap (M := list) id entries).

(** ** Lemmas: scaling by a whole ratio *)

Lemma scale_by_int {d} (q r : qd d) n : scale_by q (dec_of_Z n) = Ok r → r = QD (n * quanta q).
Proof.
  unfold scale_by, dec_mul, value, dec_of_Z. cbn [coef dexp]. rewrite Z.add_0_r.
  intros [_ ->]%of_dec_fix_Ok. f_equal. lia.
Qed.

Lemma dec_leb_int a b : dec_leb (dec_of_Z a) (dec_of_Z b) = (a <=? b).
Proof.
  unfold dec_leb, dec_compare, dec_of_Z, coef_at. cbn [coef dexp]. rewrite Z.min_id, Z.sub_diag, !Z.mul_1_r.
  unfold Z.leb. by destruct (a ?= b).
Qed.

(** The row of a lot after a whole-number split. *)
Definition split_row (n : Z) (l : TaxLot) : TaxLot :=
  set_lot l (QD (n * quanta (lot_quantity_opened l))) (QD (n * quanta (lot_quantity_remaining l)))
    (lot_adjusted_basis l) (lot_designation l).

Lemma split_lot_Ok n l d u d' :
  integrity d → l ∈ tax_lots d → run (split_lot (RatioInt n) l) d = Ok (u, d') →
  integrity d' ∧ (∀ t, t ≠ TTaxLot → tables d' t = tables d t) ∧
  tax_lots d' = (λ r, if lot_id r =? lot_id l then split_row n r else r) <$> tax_lots d.
Proof.
  intros Hd Hl Hrun. pose proof (run_integrity _ _ _ _ Hd Hrun) as Hd'. unfold split_lot in Hrun.
  apply run_bind_Ok in Hrun as (a & d1 & [->%scale_by_int <-]%run_lift_Ok & Hrun).
  apply run_bind_Ok in Hrun as (b & d1 & [->%scale_by_int <-]%run_lift_Ok & Hrun).
  unfold assign_lot in Hrun. apply run_update_Ok in Hrun as (_ & _ & _ & _ & ->). split_and!; [done| |].
  - intros t Ht. by rewrite tables_set_ne.
  - unfold tax_lots. rewrite tables_set_same. unfold update_table. apply list_fmap_ext. intros i r Hi%list_elem_of_lookup_2.
    destruct (Z.eqb_spec (lot_id r) (lot_id l)) as [E|]; [|done]. by rewrite (lot_id_inj d r l Hd Hi Hl E).
Qed.

Lemma split_lots_Ok n lots d u d' :
  integrity d → NoDup (lot_id <$> lots) → (∀ l, l ∈ lots → l ∈ tax_lots d) →
  run (for_each lots (split_lot (RatioInt n))) d = Ok (u, d') →
  integrity d' ∧ (∀ t, t ≠ TTaxLot → tables d' t = tables d t) ∧
  tax_lots d' = (λ r, if bool_decide (lot_id r ∈ (lot_id <$> lots)) then split_row n r else r) <$> tax_lots d.
Proof.
  revert d. induction lots as [|l lots IH]; intros d Hd Hnd Hin; cbn [for_each].
  - intros [_ <-]%run_ret_Ok. split_and!; [done|done|]. cbn. by rewrite list_fmap_id.
  - intros (u1 & d1 & H1 & H2)%run_bind_Ok. rewrite fmap_cons in Hnd. apply NoDup_cons in Hnd as [Hn Hnd].
    destruct (split_lot_Ok _ _ _ _ _ Hd (Hin l ltac:(by left)) H1) as (Hd1 & Hf1 & Ht1).
    destruct (IH d1 Hd1 Hnd) as (Hd' & Hf & Ht); [|exact H2|].
    { intros x Hx. rewrite Ht1. apply list_elem_of_fmap. exists x. split; [|apply Hin; by right].
      destruct (Z.eqb_spec (lot_id x) (lot_id l)) as [E|]; [|done]. exfalso. apply Hn. rewrite <- E.
      by apply list_elem_of_fmap_2. }
    split_and!; [done|intros t Hne; by rewrite Hf, Hf1|]. rewrite Ht, Ht1, <- list_fmap_compose.
    apply list_fmap_ext. intros i r _. cbn [compose]. unfold compose.
    destruct (Z.eqb_spec (lot_id r) (lot_id l)) as [E|Hne].
    + cbn [lot_id split_row set_lot]. rewrite bool_decide_eq_false_2 by (by rewrite E).
      by rewrite bool_decide_eq_true_2 by (rewrite fmap_cons, E; by left).
    + case_bool_decide as Hr; case_bool_decide as Hr'; try done; exfalso.
      * apply Hr'. rewrite fmap_cons. by right.
      * rewrite fmap_cons in Hr'. apply elem_of_cons in Hr' as [|]; done.
Qed.

(** What the split does to the lots: every open lot of the security held by one of these customers. *)
Definition split_rows (n : Z) (security : uuid) (customers : list uuid) (l : TaxLot) : TaxLot :=
  if bool_decide (lot_customer_id l ∈ customers ∧ lot_security_id l = security ∧ 0 < remaining l)
  then split_row n l else l.

Lemma is_open_lot_iff c s l : is_open_lot c s l ↔ lot_owner l = (c, s) ∧ 0 < remaining l.
Proof. unfold is_open_lot, lot_owner, remaining, q_ltb. cbn [quanta zero]. rewrite Z.ltb_lt. naive_solver. Qed.

Lemma split_rows_owner n s cs l : lot_owner (split_rows n s cs l) = lot_owner l.
Proof. unfold split_rows. by destruct (bool_decide _). Qed.

Lemma sum_split_rows n s c o ls :
  sum_by remaining (filter (λ l, bool_decide (lot_owner l = o) = true) (split_rows n s [c] <$> ls)) =
  sum_by remaining (filter (λ l, bool_decide (lot_owner l = o) = true) ls) +
  (if bool_decide ((c, s) = o) then (n - 1) * sum_by remaining (filter (is_open_lot c s) ls) else 0).
Proof.
  induction ls as [|l ls IH]; [by case_bool_decide; cbn; rewrite ?sum_by_nil; lia|].
  rewrite fmap_cons, !filter_cons, split_rows_owner.
  assert (Hr : remaining (split_rows n s [c] l) =
    if bool_decide (is_open_lot c s l) then n * remaining l else remaining l).
  { clear IH. unfold split_rows. case_bool_decide as H1; case_bool_decide as H2; try done; exfalso.
    - apply H2, is_open_lot_iff. destruct H1 as (E%list_elem_of_singleton & Hs & ?). unfold lot_owner. by rewrite E, Hs.
    - apply is_open_lot_iff in H2 as [[= <- <-] ?]. apply H1. split_and!; [by left|done|done]. }
  destruct (decide (bool_decide (lot_owner l = o) = true)) as [Ho|Ho]; rewrite ?sum_by_cons, ?Hr, IH.
  - apply bool_decide_eq_true in Ho as <-. case_bool_decide as Hb.
    + pose proof (proj1 (is_open_lot_iff c s l) Hb) as [E _]. rewrite E, bool_decide_eq_true_2 by done.
      rewrite decide_True, sum_by_cons by done. lia.
    + rewrite decide_False by done. destruct (bool_decide _); lia.
  - rewrite bool_decide_eq_true in Ho. destruct (bool_decide_reflect ((c, s) = o)) as [E|]; [|lia].
    rewrite (decide_False (P := is_open_lot c s l)); [lia|]. intros [E' _]%is_open_lot_iff. congruence.
Qed.

Lemma basis_split_rows n s cs o ls :
  sum_by basis (filter (λ l, bool_decide (lot_owner l = o) = true) (split_rows n s cs <$> ls)) =
  sum_by basis (filter (λ l, bool_decide (lot_owner l = o) = true) ls).
Proof.
  induction ls as [|l ls IH]; [done|]. rewrite fmap_cons, !filter_cons, split_rows_owner.
  assert (Hb : basis (split_rows n s cs l) = basis l) by (unfold split_rows; by case_bool_decide).
  destruct (decide _); [|exact IH]. by rewrite !sum_by_cons, IH, Hb.
Qed.

(** The rows the loop changes are those of [split_rows]. *)
Lemma split_rows_open n s c d : integrity d →
  (λ r, if bool_decide (lot_id r ∈ (lot_id <$> lock_open_for_security d c s)) then split_row n r else r) <$> tax_lots d =
  split_rows n s [c] <$> tax_lots d.
Proof.
  intros Hd. assert (Hopen : ∀ l, l ∈ lock_open_for_security d c s ↔ is_open_lot c s l ∧ l ∈ tax_lots d).
  { intros l. apply list_elem_of_filter. }
  apply list_fmap_ext. intros i l Hi%list_elem_of_lookup_2. unfold split_rows.
  case_bool_decide as H1; case_bool_decide as H2; try done; exfalso.
  - apply list_elem_of_fmap in H1 as (l' & E & Hl'). apply Hopen in Hl' as [Ho Hl'].
    rewrite (lot_id_inj d l l' Hd Hi Hl' E) in H2. apply is_open_lot_iff in Ho as [[= <- <-] ?].
    apply H2. split_and!; [by left|done|done].
  - apply H1. apply list_elem_of_fmap_2. apply Hopen. split; [|done]. apply is_open_lot_iff.
    destruct H2 as (E%list_elem_of_singleton & Hs & Hp). unfold lot_owner. by rewrite E, Hs.
Qed.

Lemma split_holder_Ok n s on c d r d' :
  state_ok d → run (split_holder s (RatioInt n) on c) d = Ok (r, d') →
  tax_lots d' = split_rows n s [c] <$> tax_lots d ∧ books_kept d d' ∧
  ∀ P, posted P posting_money d' = posted P posting_money d.
Proof.
  intros [Hd Hok] Hrun. unfold split_holder in Hrun.
  apply run_bind_Ok in Hrun as (lots & d1 & [<- <-]%run_gets_Ok & Hrun).
  pose proof (split_rows_open n s c d Hd) as Hsplit.
  set (lots := lock_open_for_security d c s) in *. case_bool_decide as Hnil.
  { apply run_ret_Ok in Hrun as [_ <-]. split_and!; [|by apply books_kept_refl|done].
    rewrite <- Hsplit, Hnil. symmetry. apply list_fmap_id. }
  apply run_bind_Ok in Hrun as (prior & d1 & [Hprior%q_sum_Ok <-]%run_lift_Ok & Hrun).
  apply run_bind_Ok in Hrun as (u & d1 & Hloop & Hrun).
  assert (Hnd : NoDup (lot_id <$> lots)).
  { pose proof (open_fifo_NoDup d c s Hd) as H1. unfold lock_open_fifo in H1. by rewrite sort_by_perm in H1. }
  destruct (split_lots_Ok _ _ _ _ _ Hd Hnd (λ l Hl, proj2 (proj1 (list_elem_of_filter _ _ l) Hl)) Hloop) as (Hd1 & Hf1 & Ht1).
  assert (Hrows : tax_lots d1 = split_rows n s [c] <$> tax_lots d) by (rewrite Ht1; exact Hsplit).
  assert (Hok1 : state_ok d1).
  { split; [done|]. apply (ledger_ok_frame d); [|done]. intros t Ht. apply Hf1. intros ->.
    unfold ledger_tables in Ht. set_solver. }
  assert (Hp1 : ∀ P f, posted P f d1 = posted P f d).
  { intros P f. unfold posted, postings, account_by_id, accounts. by rewrite !Hf1. }
  apply run_bind_Ok in Hrun as (added & d2 & [Hadded%scale_by_int <-]%run_lift_Ok & Hrun).
  apply run_bind_Ok in Hrun as (a & d2 & Ha & Hrun).
  destruct (position_account _ _ _ _ _ _ Hok1 Ha) as (Hok2 & Hs2 & Hg2 & Hin2 & Hpos2). clear Ha.
  apply run_bind_Ok in Hrun as (ev & d3 & Hev & Hrun). books_step Hev as (Hok3 & Hs3 & Hg3).
  apply run_bind_Ok in Hrun as (entry & d4 & Hpost & Hrun).
  pose proof (λ P, post_posted P posting_money leg_money _ _ _ _ _ _ _ _
    (λ e l p H, proj2 (posting_of_figures d3 e l p H)) Hpost) as Hm.
  destruct (post_step _ _ _ _ _ _ _ _ Hok3 Hpost) as (Hok4 & Ha4 & Hl4 & Hg4). clear Hpost.
  apply run_bind_Ok in Hrun as (rs & d5 & Hrest & [_ <-]%run_ret_Ok). books_step Hrest as (Hok5 & Hs5 & Hg5).
  split_and!.
  - destruct Hs5 as (_ & _ & ->). rewrite Hl4. destruct Hs3 as (_ & _ & ->), Hs2 as (_ & _ & ->). exact Hrows.
  - split; [done|]. intros o. destruct (Hg5 o) as [-> ->], (Hg4 o) as [-> ->], (Hg3 o) as [-> ->], (Hg2 o) as [-> ->].
    assert (Hin3 : a ∈ accounts d3) by exact (books_accounts _ _ _ Hs3 Hin2). destruct Hok3 as [Hd3 _].
    rewrite !(legs_on_cons _ _ d3 a), !legs_on_nil, !Hpos2 by done. decide_roles. cbn.
    unfold units_gap, cost_gap, sum_owned. rewrite !Hp1, Hrows, sum_split_rows, basis_split_rows.
    rewrite Hadded. cbn [quanta]. rewrite Hprior, sum_by_fmap. change (sum_by (λ x, quanta (lot_quantity_remaining x)) lots) with (sum_by remaining (filter (is_open_lot c s) (tax_lots d))).
    destruct (bool_decide _); lia.
  - intros P. rewrite (posted_same _ _ d4 d5) by (exact Hs5 || exact (proj2 Hok4)). rewrite Hm.
    rewrite (posted_same _ _ d2 d3) by (exact Hs3 || exact (proj2 Hok2)).
    rewrite (posted_same _ _ d1 d2) by (exact Hs2 || exact (proj2 Hok1)). rewrite Hp1.
    unfold legs_on. rewrite filter_cons, filter_nil. destruct (decide _); [rewrite sum_by_cons|]; rewrite sum_by_nil;
      unfold leg_money; cbn; lia.
Qed.

Lemma split_rows_app n s c cs l :
  1 < n → c ∉ cs → split_rows n s cs (split_rows n s [c] l) = split_rows n s (c :: cs) l.
Proof.
  intros Hn Hc. unfold split_rows at 2. destruct (bool_decide_reflect (lot_customer_id l ∈ [c] ∧ lot_security_id l = s ∧ 0 < remaining l)) as [H|H].
  - destruct H as (E%list_elem_of_singleton & Hs & Hp). unfold split_rows.
    rewrite bool_decide_eq_false_2 by (cbn; rewrite E; naive_solver).
    rewrite bool_decide_eq_true_2; [done|]. split_and!; [rewrite E; by left|done|done].
  - unfold split_rows. apply (f_equal (λ b : bool, if b then _ else _)), bool_decide_ext.
    rewrite elem_of_cons. rewrite list_elem_of_singleton in H. naive_solver.
Qed.

Lemma split_holders_Ok n s on cs d rs d' :
  1 < n → state_ok d → NoDup cs → run (map_prog (split_holder s (RatioInt n) on) cs) d = Ok (rs, d') →
  tax_lots d' = split_rows n s cs <$> tax_lots d ∧ books_kept d d' ∧
  ∀ P, posted P posting_money d' = posted P posting_money d.
Proof.
  intros Hn. revert d rs. induction cs as [|c cs IH]; intros d rs Hok Hnd; cbn [map_prog].
  - intros [_ <-]%run_ret_Ok. split_and!; [|by apply books_kept_refl|done].
    rewrite <- (list_fmap_id (tax_lots d)) at 1. apply list_fmap_ext. intros i l _. unfold split_rows.
    rewrite bool_decide_eq_false_2; [done|]. intros (H%elem_of_nil & _). done.
  - intros (r & d1 & H1 & H)%run_bind_Ok. apply run_bind_Ok in H as (xs & d2 & H2 & [_ <-]%run_ret_Ok).
    apply NoDup_cons in Hnd as [Hc Hnd].
    destruct (split_holder_Ok _ _ _ _ _ _ _ Hok H1) as (Ht1 & Hk1 & Hp1).
    destruct (IH d1 xs (proj1 Hk1) Hnd H2) as (Ht2 & Hk2 & Hp2).
    split_and!; [|by eapply books_kept_trans|intros P; by rewrite Hp2].
    rewrite Ht2, Ht1, <- list_fmap_compose. apply list_fmap_ext. intros i l _. by apply split_rows_app.
Qed.

(** C19. A whole-number split multiplies the units of every open lot of the
    security, and nothing else of any lot; it moves no money on any account, and
    the lot books still agree with the ledger, unit for unit, for every holder. *)
Theorem split_exact n s on d es d' :
  integrity d → ledger_ok d → lots_reconcile d →
  run (apply_split s (RatioInt n) on) d = Ok (es, d') →
  1 < n ∧
  tax_lots d' = (λ l, if bool_decide (lot_security_id l = s ∧ 0 < remaining l) then split_row n l else l) <$> tax_lots d ∧
  (∀ P, posted P posting_money d' = posted P posting_money d) ∧ lots_reconcile d' ∧ ledger_ok d'.
Proof.
  intros Hd Hok Hrec Hrun. unfold apply_split in Hrun.
  apply run_bind_Ok in Hrun as (u & d1 & [Hn <-]%run_require_Ok & Hrun).
  assert (H1n : 1 < n).
  { cbn [ratio_value] in Hn. rewrite dec_leb_int in Hn. apply negb_true_iff, Z.leb_gt in Hn. done. }
  apply run_bind_Ok in Hrun as (cs & d1 & [<- <-]%run_gets_Ok & Hrun).
  apply run_bind_Ok in Hrun as (rs & d1 & Hmap & [_ <-]%run_ret_Ok).
  destruct (split_holders_Ok _ _ _ _ _ _ _ H1n (conj Hd Hok) (NoDup_remove_dups _) Hmap) as (Ht & [[_ Hok'] Hg] & Hp).
  split_and!; [done| |done| |done].
  - rewrite Ht. apply list_fmap_ext. intros i l Hl%list_elem_of_lookup_2. unfold split_rows.
    apply (f_equal (λ b : bool, if b then _ else _)), bool_decide_ext. unfold list_customers_holding.
    rewrite elem_of_remove_dups. split; [naive_solver|]. intros [Hs Hr]. split_and!; [|done|done].
    apply list_elem_of_fmap. exists l. split; [done|]. apply list_elem_of_filter. split; [|done].
    split; [done|]. unfold q_ltb, remaining in *. cbn. by apply Z.ltb_lt.
  - intros o. destruct (Hg o) as [-> ->]. apply Hrec.
Qed.

Definition sample_split : prog (list JournalEntry) := apply_split 9 (RatioInt 2) 738165.

Definition sample_after_split : list JournalEntry * db := run_or sample_split sample_lots [].

Lemma sample_split_runs : run sample_split sample_lots = Ok (sample_after_split.1, sample_after_split.2).
Proof.
  rewrite <- (surjective_pairing sample_after_split). apply run_or_Ok. vm_compute. reflexivity.
Qed.

Lemma sample_lots_reconcile : lots_reconcile sample_lots.
Proof.
  destruct sample_buy_steps as (l1 & l2 & d1 & H1 & H2).
  assert (Hs : state_ok sample_fills) by exact (conj sample_fills_integrity sample_fills_ok).
  pose proof (buy_fill_gaps (H := sample_calendar) _ _ _ _ _ _ _ _ sample_fills l1 d1 Hs H1) as K1.
  pose proof (buy_fill_gaps (H := sample_calendar) _ _ _ _ _ _ _ _ d1 l2 sample_lots (proj1 K1) H2) as K2.
  destruct (books_kept_trans _ _ _ K1 K2) as [_ Hg]. intros o. destruct (Hg o) as [-> ->]. exact (conj eq_refl eq_refl).
Qed.

Lemma split_exact_witness :
  remaining <$> tax_lots sample_after_split.2 = [20 * 10 ^ 6; 10 * 10 ^ 6] ∧ lots_reconcile sample_after_split.2.
Proof.
  destruct (split_exact 2 9 738165 sample_lots _ _ sample_lots_integrity sample_lots_ok sample_lots_reconcile
    sample_split_runs) as (_ & H1 & _ & H2 & _).
  split; [|exact H2]. rewrite H1. vm_compute. reflexivity.
Defined.

(** A three-for-two split of two lots of 0.333333 units: each lot is rounded to
    0.500000, the account is given 0.333333 more, and ends at 0.999999. *)
Definition sample_third (ex : string) : prog TaxLot :=
  record_buy_fill (H := sample_calendar) (λ _, 0) (λ t, noon t.1) 7 9 ex (QD 333333) (QD 10000000) (noon 738154).

Definition sample_thirds : db :=
  (run_or (sample_third "buy1" ;; sample_third "buy2" ;; apply_split 9 (RatioDecimal (Dec 15 (-1))) 738165 ;; mret tt)
     sample_fills tt).2.

Lemma split_decimal_drifts :
  remaining <$> tax_lots sample_thirds = [500000; 500000] ∧ units_gap (7, 9) sample_thirds = 1.
Proof. split; vm_compute; reflexivity. Qed.

(** ** Dividends: lemmas *)

(** The accounts of this role of a customer. *)
Definition own (role : AccountRole) (c : uuid) (a : Account) : bool :=
  bool_decide (account_role a = role) && bool_decide (account_customer_id a = Some c).

(** What is posted, in money, to the customer's accounts of a role. *)
Definition balance (role : AccountRole) (c : uuid) (d : db) : Z := posted (own role c) posting_money d.

(** The open units of a holder. *)
Definition units_held (c s : uuid) (d : db) : Z := sum_by remaining (lock_open_for_security d c s).

Lemma house_account_Ok role d a d' :
  run (get_or_create_house_account role) d = Ok (a, d') → a ∈ accounts d' ∧ account_customer_id a = None.
Proof.
  unfold get_or_create_house_account. intros ([b|] & d1 & [Hs <-]%run_queries_Ok & H)%run_bind_Ok.
  - apply run_ret_Ok in H as [<- <-]. apply scalar_one_or_none_Some in Hs.
    assert (b ∈ select_accounts d None role None) as Hin by (rewrite Hs; set_solver).
    apply list_elem_of_filter in Hin as [(? & _ & _) ?]. done.
  - apply run_bind_Ok in H as (b & d2 & (Hc & _)%account_create_Ok & H).
    apply run_bind_Ok in H as (u & d3 & [_ ->]%run_add_Ok & [<- <-]%run_ret_Ok).
    split; [|done]. unfold accounts, insert_row. rewrite tables_set_same. set_solver.
Qed.

Lemma own_account c role a role' c' :
  account_customer_id a = Some c → account_role a = role →
  own role' c' a = bool_decide (role = role') && bool_decide (c = c').
Proof.
  intros Hc Hr. unfold own. rewrite Hc, Hr. f_equal. apply bool_decide_ext. split; [by intros [=]|by intros ->].
Qed.

Lemma own_house a role c : account_customer_id a = None → own role c a = false.
Proof. intros Hc. unfold own. rewrite Hc. by rewrite andb_false_r. Qed.

Lemma post_balance role c type date source legs memo d entry d' :
  run (post type date source legs memo) d = Ok (entry, d') →
  balance role c d' = balance role c d + legs_on (own role c) leg_money d legs.
Proof. intros Hr. exact (post_posted _ _ _ _ _ _ _ _ _ _ _ (λ e l p H, proj2 (posting_of_figures d e l p H)) Hr). Qed.

Lemma balance_same role c d d' : ledger_ok d → same_books d d' → balance role c d' = balance role c d.
Proof. apply posted_same. Qed.

(** A step that changes neither lots nor postings. *)
Definition quiet (d d' : db) : Prop := state_ok d' ∧ same_books d d' ∧ ∀ role c, balance role c d' = balance role c d.

Lemma quiet_step {A} (m : prog A) d a d' :
  preserves (same_books d) m → preserves ledger_ok m → state_ok d → run m d = Ok (a, d') → quiet d d'.
Proof.
  intros Hb Hl [Hd Hok] Hr. assert (Hs : same_books d d') by (by apply (Hb d a d')).
  split_and!; [split; [exact (run_integrity _ _ _ _ Hd Hr)|exact (Hl _ _ _ Hok Hr)]|done|].
  intros role c. by apply balance_same.
Qed.

Lemma quiet_refl d : state_ok d → quiet d d.
Proof. intros Hs. split_and!; [done|by split_and!|done]. Qed.

(** One holder: the receivable grows by the rounded entitlement, and no other customer balance moves. *)
Lemma dividend_holder_Ok s p on income c d r d' :
  state_ok d → (∃ a, a ∈ accounts d ∧ account_id a = income ∧ account_customer_id a = None) →
  run (dividend_holder s p on income c) d = Ok (r, d') →
  state_ok d' ∧ accounts d `prefix_of` accounts d' ∧ tax_lots d' = tax_lots d ∧
  ∀ role c', balance role c' d' = balance role c' d +
    (if bool_decide (role = DIVIDEND_RECEIVABLE ∧ c' = c ∧ 0 < units_held c s d)
     then rhe (quanta p * units_held c s d) (10 ^ 8) else 0).
Proof.
  intros Hok (h & Hh & Hid & Hhc) Hrun. unfold dividend_holder in Hrun.
  apply run_bind_Ok in Hrun as (q & d1 & [Hq <-]%run_queries_Ok & Hrun).
  assert (Hheld : quanta q = units_held c s d).
  { unfold total_remaining in Hq. apply q_sum_Ok in Hq. by rewrite Hq, sum_by_fmap. }
  unfold q_leb in Hrun. cbn [quanta zero] in Hrun. destruct (Z.leb_spec (quanta q) 0).
  { apply run_ret_Ok in Hrun as [_ <-]. split_and!; try done. intros role c'.
    rewrite bool_decide_eq_false_2; [lia|]. intros (_ & _ & ?). lia. }
  apply run_bind_Ok in Hrun as (m & d1 & [[_ Hm]%price_times_units_Ok <-]%run_lift_Ok & Hrun).
  apply run_bind_Ok in Hrun as (a & d1 & Ha & Hrun). pose proof (get_or_create_Ok _ _ _ _ _ _ Ha) as (Hin1 & Hc1 & Hr1).
  destruct (quiet_step _ _ _ _ (books_get_or_create _ _ _ _) (preserves_get_or_create _ _ _) Hok Ha) as (Hok1 & Hs1 & Hb1).
  apply run_bind_Ok in Hrun as (ev & d2 & Hev & Hrun).
  destruct (quiet_step _ _ _ _ (books_inbound_event _ _ _ _) (preserves_inbound_event _ _ _) Hok1 Hev) as (Hok2 & Hs2 & Hb2).
  apply run_bind_Ok in Hrun as (n & d3 & [[_ Hn]%q_neg_Ok <-]%run_lift_Ok & Hrun).
  apply run_bind_Ok in Hrun as (entry & d3 & Hpost & Hrun).
  destruct (post_step _ _ _ _ _ _ _ _ Hok2 Hpost) as (Hok3 & Ha3 & Hl3 & _).
  pose proof (λ role c', post_balance role c' _ _ _ _ _ _ _ _ Hpost) as Hb3. clear Hpost.
  apply run_bind_Ok in Hrun as (rs & d4 & Hrest & [_ <-]%run_ret_Ok).
  destruct (quiet_step _ _ _ _ (books_restate _ _ _ _ _ _) (preserves_restate _ _ _ _ _) Hok3 Hrest) as (Hok4 & Hs4 & Hb4).
  split_and!; [done| | |].
  - etrans; [exact (proj1 Hs1)|]. etrans; [exact (proj1 Hs2)|]. rewrite <- Ha3. exact (proj1 Hs4).
  - destruct Hs4 as (_ & _ & ->). rewrite Hl3. destruct Hs2 as (_ & _ & ->), Hs1 as (_ & _ & ->). done.
  - intros role c'. rewrite Hb4, Hb3, Hb2, Hb1.
    assert (Hi : a ∈ accounts d2) by exact (books_accounts _ _ _ Hs2 Hin1).
    assert (Hj : h ∈ accounts d2) by exact (books_accounts _ _ _ Hs2 (books_accounts _ _ _ Hs1 Hh)).
    destruct Hok2 as [Hd2 _].
    rewrite (legs_on_cons _ _ d2 a), (legs_on_cons _ _ d2 h), legs_on_nil by done.
    rewrite (own_house h) by done. rewrite (own_account c DIVIDEND_RECEIVABLE a) by done.
    unfold leg_money at 1. cbn. rewrite <- Hheld, Hm.
    destruct (bool_decide_reflect (role = DIVIDEND_RECEIVABLE ∧ c' = c ∧ 0 < quanta q)) as [(-> & -> & _)|Hne].
    + rewrite !bool_decide_eq_true_2 by done. cbn. lia.
    + destruct (bool_decide_reflect (DIVIDEND_RECEIVABLE = role)) as [<-|]; [|cbn; lia].
      rewrite bool_decide_eq_false_2; [cbn; lia|]. intros <-. apply Hne. split_and!; [done|done|lia].
Qed.

Lemma dividend_holders_Ok s p on income cs d rs d' :
  state_ok d → NoDup cs → (∃ a, a ∈ accounts d ∧ account_id a = income ∧ account_customer_id a = None) →
  run (map_prog (dividend_holder s p on income) cs) d = Ok (rs, d') →
  state_ok d' ∧ tax_lots d' = tax_lots d ∧
  ∀ role c, balance role c d' = balance role c d +
    (if bool_decide (role = DIVIDEND_RECEIVABLE ∧ c ∈ cs ∧ 0 < units_held c s d)
     then rhe (quanta p * units_held c s d) (10 ^ 8) else 0).
Proof.
  revert d rs. induction cs as [|x cs IH]; intros d rs Hok Hnd Hh; cbn [map_prog].
  - intros [_ <-]%run_ret_Ok. split_and!; try done. intros role c. rewrite bool_decide_eq_false_2; [lia|].
    intros (_ & H%elem_of_nil & _). done.
  - intros (r & d1 & H1 & H)%run_bind_Ok. apply run_bind_Ok in H as (xs & d2 & H2 & [_ <-]%run_ret_Ok).
    apply NoDup_cons in Hnd as [Hx Hnd]. destruct (dividend_holder_Ok _ _ _ _ _ _ _ _ Hok Hh H1) as (Hok1 & [k Hk] & Ht1 & Hb1).
    destruct Hh as (h & Hin & Hid & Hc).
    destruct (IH d1 xs Hok1 Hnd) as (Hok2 & Ht2 & Hb2); [|exact H2|].
    { exists h. rewrite Hk. split_and!; [apply elem_of_app; by left|done|done]. }
    split_and!; [done|congruence|]. intros role c. rewrite Hb2, Hb1.
    assert (Hu : ∀ c, units_held c s d1 = units_held c s d)
      by (intros c'; unfold units_held, lock_open_for_security; by rewrite Ht1).
    rewrite !Hu. destruct (bool_decide_reflect (role = DIVIDEND_RECEIVABLE ∧ c ∈ x :: cs ∧ 0 < units_held c s d)) as [(-> & Hm & Hp)|Hn].
    + apply elem_of_cons in Hm as [->|Hm].
      * rewrite bool_decide_eq_true_2 by done. rewrite bool_decide_eq_false_2 by naive_solver. lia.
      * rewrite (bool_decide_eq_false_2 (_ = _ ∧ c = x ∧ _)) by naive_solver. rewrite bool_decide_eq_true_2 by done. lia.
    + rewrite !bool_decide_eq_false_2; [lia| |]; intros (? & ? & ?); apply Hn; split_and!; try done; set_solver.
Qed.

Lemma same_restate d0 checker c on t id : preserves (same_ledger d0) (restate checker c on t id).
Proof. eapply same_other; [apply writes_restate|done]. Qed.

Lemma books_house_account d0 role : preserves (same_books d0) (get_or_create_house_account role).
Proof. unfold get_or_create_house_account. preserves_auto. Qed.

(** The ex-date step over all holders. *)
Lemma ex_date_Ok s p on d es d' :
  integrity d → ledger_ok d → run (declare_dividend_ex_date s p on) d = Ok (es, d') →
  tax_lots d' = tax_lots d ∧ ledger_ok d' ∧
  ∀ role c, balance role c d' = balance role c d +
    (if bool_decide (role = DIVIDEND_RECEIVABLE ∧ 0 < units_held c s d)
     then rhe (quanta p * units_held c s d) (10 ^ 8) else 0).
Proof.
  intros Hd Hok Hrun. unfold declare_dividend_ex_date in Hrun.
  apply run_bind_Ok in Hrun as (h & d1 & Hh & Hrun). pose proof (house_account_Ok _ _ _ _ Hh) as [Hin Hc].
  apply run_bind_Ok in Hrun as (cs & d2 & [<- <-]%run_gets_Ok & Hrun).
  apply run_bind_Ok in Hrun as (rs & d2 & Hmap & [_ <-]%run_ret_Ok).
  destruct (quiet_step _ d h d1 (books_house_account _ _)
  (preserves_house_account _) (conj Hd Hok) Hh) as (Hok1 & Hs1 & Hb1).
  destruct (dividend_holders_Ok _ _ _ _ _ _ _ _ Hok1 (NoDup_remove_dups _) ltac:(by exists h) Hmap) as (Hok2 & Ht & Hb).
  assert (Ht1 : tax_lots d1 = tax_lots d) by (by destruct Hs1 as (_ & _ & ->)).
  split_and!; [congruence|by destruct Hok2|]. intros role x. rewrite Hb, Hb1.
  assert (Hu : units_held x s d1 = units_held x s d) by (unfold units_held, lock_open_for_security; by rewrite Ht1).
  rewrite Hu. f_equal. apply (f_equal (λ b : bool, if b then _ else _)), bool_decide_ext.
  split; [naive_solver|]. intros [-> Hp]. split_and!; [done| |done].
  unfold list_customers_holding. rewrite elem_of_remove_dups, Ht1. unfold units_held, lock_open_for_security in Hp.
  destruct (filter (is_open_lot x s) (tax_lots d)) as [|l ls] eqn:E; [by rewrite sum_by_nil in Hp|].
  assert (Hl : l ∈ filter (is_open_lot x s) (tax_lots d)) by (rewrite E; by left).
  apply list_elem_of_filter in Hl as [(Hx & Hs & Hp') Hl]. apply list_elem_of_fmap. exists l.
  split; [done|]. by apply list_elem_of_filter.
Qed.

(** The pay-date step: cash arrives withheld. *)
Lemma pay_date_Ok c m on d e d' :
  integrity d → ledger_ok d → 0 <= quanta m → run (pay_dividend c m on) d = Ok (e, d') →
  ledger_ok d' ∧ balance DIVIDEND_RECEIVABLE c d' = balance DIVIDEND_RECEIVABLE c d - quanta m ∧
  (∀ x, cash_balance x d' = cash_balance x d + (if bool_decide (c = x) then quanta m else 0)) ∧
  (∀ x, settled_quanta x d' = settled_quanta x d) ∧
  ∃ o, settlement_obligations d' = settlement_obligations d ++ [o] ∧ obligation_status o = OBLIGATION_PENDING ∧
       obligation_amount_money o = m ∧ obligation_journal_entry_id o = entry_id e.
Proof.
  intros Hd Hok Hm Hrun. unfold pay_dividend in Hrun.
  apply run_bind_Ok in Hrun as (a & d0 & (-> & Ha & Hac & Har)%require_account_Ok & Hrun).
  apply run_bind_Ok in Hrun as (b & d1 & Hb & Hrun). pose proof (get_or_create_Ok _ _ _ _ _ _ Hb) as (Hbin & Hbc & Hbr).
  destruct (quiet_step _ _ _ _ (books_get_or_create _ _ _ _) (preserves_get_or_create _ _ _) (conj Hd Hok) Hb)
    as ([Hd1 Hok1] & Hs1 & Hq1).
  pose proof (same_get_or_create d _ _ _ _ _ _ (reflexivity d) Hb) as L1.
  apply run_bind_Ok in Hrun as (ev & d2 & Hev & Hrun).
  destruct (quiet_step _ _ _ _ (books_inbound_event _ _ _ _) (preserves_inbound_event _ _ _) (conj Hd1 Hok1) Hev)
    as ([Hd2 Hok2] & Hs2 & Hq2).
  pose proof (same_inbound_event d _ _ _ _ _ _ L1 Hev) as L2.
  apply run_bind_Ok in Hrun as (n & d3 & [[_ Hn]%q_neg_Ok <-]%run_lift_Ok & Hrun).
  apply run_bind_Ok in Hrun as (entry & d3 & Hpost & Hrun).
  assert (Ha2 : a ∈ accounts d2) by exact (same_accounts _ _ _ L2 Ha).
  assert (Hb2 : b ∈ accounts d2) by exact (books_accounts _ _ _ Hs2 Hbin).
  pose proof (post_balance DIVIDEND_RECEIVABLE c _ _ _ _ _ _ _ _ Hpost) as Hq3.
  destruct (post_payment _ _ _ _ c a b m n d2 entry d3 Hok2 Hd2 Ha2 Hac Har Hb2 ltac:(by rewrite Hbr) Hpost)
    as (Hok3 & Hd3 & _ & Hno & _ & _ & _ & Hob3 & Hfig).
  apply run_bind_Ok in Hrun as (ev2 & d4 & Hev2 & Hrun).
  destruct (quiet_step _ _ _ _ (books_inbound_event _ _ _ _) (preserves_inbound_event _ _ _) (conj Hd3 Hok3) Hev2)
    as ([Hd4 Hok4] & Hs4 & Hq4).
  pose proof (same_inbound_event d3 _ _ _ _ _ _ (reflexivity d3) Hev2) as L4.
  apply run_bind_Ok in Hrun as (o & d5 & Hob & Hrun).
  destruct (quiet_step _ _ _ _ (books_obligation _ _ _ _ _ _) (preserves_add_obligation _ _ _ _ _) (conj Hd4 Hok4) Hob)
    as ([Hd5 Hok5] & Hs5 & Hq5).
  apply run_bind_Ok in Hrun as (rs & d6 & Hrest & [<- <-]%run_ret_Ok).
  destruct (quiet_step _ _ _ _ (books_restate _ _ _ _ _ _) (preserves_restate _ _ _ _ _) (conj Hd5 Hok5) Hrest)
    as ([Hd6 Hok6] & Hs6 & Hq6).
  pose proof (same_restate d5 _ _ _ _ _ _ _ _ (reflexivity d5) Hrest) as L6. split_and!; [done| | | |].
  - rewrite Hq6, Hq5, Hq4, Hq3, Hq2, Hq1, (legs_on_cons _ _ d2 a), (legs_on_cons _ _ d2 b), legs_on_nil by done.
    rewrite (own_account c CASH a), (own_account c DIVIDEND_RECEIVABLE b) by done. decide_roles.
    rewrite bool_decide_eq_true_2 by done. unfold leg_money. cbn. lia.
  - intros x. destruct (figures_same d5 d6 x Hok5 L6) as (_ & -> & _).
    destruct (figures_new_obligation _ _ _ _ _ _ _ _ x Hob) as (_ & _ & _ & _ & _ & _ & _ & _ & -> & _).
    destruct (figures_same d3 d4 x Hok3 L4) as (_ & -> & _), (Hfig x) as (_ & -> & _).
    by destruct (figures_same d d2 x Hok L2) as (_ & -> & _).
  - intros x. destruct (figures_same d5 d6 x Hok5 L6) as (-> & _).
    destruct (figures_new_obligation _ _ _ _ _ _ _ _ x Hob) as (_ & _ & _ & _ & _ & _ & _ & -> & _).
    2: { unfold has_obligation in *. by rewrite (proj2 (proj2 (proj2 L4))). }
    destruct (figures_same d3 d4 x Hok3 L4) as (-> & _ & _ & ->), (Hfig x) as (-> & _ & _ & ->).
    destruct (figures_same d d2 x Hok L2) as (-> & _). case_bool_decide; lia.
  - destruct (figures_new_obligation _ _ _ _ _ _ _ _ c Hob) as (H1 & H2 & _ & H3 & _ & H4 & _).
    exists o. split_and!; [|done|done|done]. rewrite (proj2 (proj2 (proj2 L6))), H4, (proj2 (proj2 (proj2 L4))), Hob3.
    by rewrite (proj2 (proj2 (proj2 L2))).
Qed.

(** A dividend is recognised on the ex-date and paid later: the ex-date step
    credits every holder's receivable with the per-share amount times the units
    in the open lots, rounded once, and moves no cash; the pay-date step moves
    the amount from the receivable to cash, and the cash stays out of settled
    cash until its obligation confirms. *)
Theorem dividend_two_step s p on c m on' d :
  integrity d → ledger_ok d →
  (∀ es d', run (declare_dividend_ex_date s p on) d = Ok (es, d') →
     tax_lots d' = tax_lots d ∧ ledger_ok d' ∧
     ∀ role c, balance role c d' = balance role c d +
       (if bool_decide (role = DIVIDEND_RECEIVABLE ∧ 0 < units_held c s d)
        then rhe (quanta p * units_held c s d) (10 ^ 8) else 0)) ∧
  (∀ e d', 0 <= quanta m → run (pay_dividend c m on') d = Ok (e, d') →
     ledger_ok d' ∧ balance DIVIDEND_RECEIVABLE c d' = balance DIVIDEND_RECEIVABLE c d - quanta m ∧
     (∀ x, cash_balance x d' = cash_balance x d + (if bool_decide (c = x) then quanta m else 0)) ∧
     (∀ x, settled_quanta x d' = settled_quanta x d) ∧
     ∃ o, settlement_obligations d' = settlement_obligations d ++ [o] ∧ obligation_status o = OBLIGATION_PENDING ∧
          obligation_amount_money o = m ∧ obligation_journal_entry_id o = entry_id e).
Proof.
  intros Hd Hok. split; [intros es d' Hrun; by eapply ex_date_Ok|intros e d' Hm Hrun; by eapply pay_date_Ok].
Qed.

Definition sample_dividend : list JournalEntry * db :=
  run_or (declare_dividend_ex_date 9 (QD 500000) 738164) sample_lots [].

Lemma sample_dividend_runs :
  run (declare_dividend_ex_date 9 (QD 500000) 738164) sample_lots = Ok (sample_dividend.1, sample_dividend.2).
Proof.
  rewrite <- (surjective_pairing sample_dividend). apply run_or_Ok. vm_compute. reflexivity.
Qed.

Lemma dividend_two_step_witness :
  units_held 7 9 sample_lots = 15 * 10 ^ 6 ∧ balance DIVIDEND_RECEIVABLE 7 sample_dividend.2 = 75000 ∧
  balance CASH 7 sample_dividend.2 = balance CASH 7 sample_lots.
Proof.
  destruct (proj1 (dividend_two_step 9 (QD 500000) 738164 7 (QD 75000) 738170 sample_lots
    sample_lots_integrity sample_lots_ok) _ _ sample_dividend_runs) as (_ & _ & H).
  split; [vm_compute; reflexivity|]. rewrite !H. split; vm_compute; reflexivity.
Defined.
