(* ===== verification/Operations.v ===== *)
(** * Operations: the outbox, event intake, idempotency keys and agent requests

    [app/models/ops], [app/workers/outbox.py], [app/services/intake],
    [app/core/idempotency.py] and [app/core/pagination.py].  The outbox worker
    is a loop over transactions: it claims a row, runs a handler outside any
    transaction, then records the outcome.  Its handler, its clock and the rows
    other transactions have locked are parameters. *)

From S2P Require Import Prelude PyDecimal MoneyTypes Calendar Store Schema Ledger.
From Stdlib Require Import String.
From stdpp Require Import strings.
Open Scope Z_scope.

(** ** [JobOutboxRepository] *)

Definition claimed (worker : string) (r : JobOutbox) : JobOutbox :=
  {| outbox_id := outbox_id r; outbox_task := outbox_task r; outbox_payload := outbox_payload r;
     outbox_attempts := outbox_attempts r + 1; outbox_next_attempt_at := outbox_next_attempt_at r;
     outbox_status := OUTBOX_PROCESSING; outbox_locked_by := Some worker;
     outbox_created_at := outbox_created_at r |}.

(** The row with its lock released, in the given status. *)
Definition released (s : JobOutboxStatus) (next_attempt_at : instant) (r : JobOutbox) : JobOutbox :=
  {| outbox_id := outbox_id r; outbox_task := outbox_task r; outbox_payload := outbox_payload r;
     outbox_attempts := outbox_attempts r; outbox_next_attempt_at := next_attempt_at;
     outbox_status := s; outbox_locked_by := None; outbox_created_at := outbox_created_at r |}.

(** A row as [JobOutbox(task=..., payload=...)] and its column defaults make it. *)
Definition new_job (id : uuid) (now : instant) (task : string) (payload : list (string * string)) : JobOutbox :=
  {| outbox_id := id; outbox_task := task; outbox_payload := payload; outbox_attempts := 0;
     outbox_next_attempt_at := now; outbox_status := OUTBOX_PENDING;
     outbox_locked_by := None; outbox_created_at := now |}.

Definition enqueue (task : string) (payload : list (string * string)) : prog JobOutbox :=
  id ← uuid4;
  now ← gets db_now;
  add TJobOutbox (new_job id now task payload) ;;
  mret (new_job id now task payload).

(** The rows [claim_next] may take: pending, due, and not locked by another
    transaction ([FOR UPDATE SKIP LOCKED]). *)
Definition claimable (locked : uuid → bool) (now : instant) (r : JobOutbox) : bool :=
  bool_decide (outbox_status r = OUTBOX_PENDING) && (outbox_next_attempt_at r <=? now) &&
  negb (locked (outbox_id r)).

Definition next_claim (locked : uuid → bool) (now : instant) (l : list JobOutbox) : option JobOutbox :=
  head (sort_by (λ a b, outbox_created_at a <=? outbox_created_at b)
                (filter (λ r, claimable locked now r = true) l)).

Definition update_outbox (r : JobOutbox) (f : JobOutbox → JobOutbox) : prog () :=
  update TJobOutbox (λ x : JobOutbox, outbox_id x =? outbox_id r) f.

Definition claim_next (locked : uuid → bool) (worker : string) (now : instant) : prog (option JobOutbox) :=
  row ← gets (λ d, next_claim locked now (outbox d));
  match row with
  | None => mret None
  | Some r => update_outbox r (claimed worker) ;; mret (Some (claimed worker r))
  end.

Definition held_by (worker : string) (id : uuid) (r : JobOutbox) : Prop :=
  outbox_id r = id ∧ outbox_status r = OUTBOX_PROCESSING ∧ outbox_locked_by r = Some worker.

Definition locked_by_worker (id : uuid) (worker : string) : prog JobOutbox :=
  row ← queries (λ d, scalar_one_or_none (filter (held_by worker id) (outbox d)));
  match row with
  | None => throw RuntimeError
  | Some r => mret r
  end.

Definition complete (id : uuid) (worker : string) : prog () :=
  r ← locked_by_worker id worker;
  update_outbox r (λ x, released OUTBOX_COMPLETED (outbox_next_attempt_at x) x).

Definition retry_or_dead_letter (id : uuid) (worker : string) (next_attempt_at : instant) (max_attempts : Z)
    : prog JobOutboxStatus :=
  r ← locked_by_worker id worker;
  if max_attempts <=? outbox_attempts r
  then update_outbox r (λ x, released OUTBOX_DEAD_LETTER (outbox_next_attempt_at x) x) ;; mret OUTBOX_DEAD_LETTER
  else update_outbox r (released OUTBOX_PENDING next_attempt_at) ;; mret OUTBOX_PENDING.

(** ** [OutboxWorker] *)

(** [datetime.max] as a microsecond count. *)
Definition MAX_INSTANT : instant := (MAX_ORDINAL - EPOCH_ORDINAL + 1) * US_PER_DAY - 1.

(** [clock() + timedelta(seconds=2 ** (attempts - 1))] *)
Definition retry_at (attempts : Z) (now : instant) : result instant :=
  let at_ := now + 2 ^ (attempts - 1) * 1000000 in
  ensure (at_ <=? MAX_INSTANT) OverflowError ;;
  Ok at_.

(** No outbox transaction touches a row a deferred constraint trigger watches. *)
Definition no_deferred (_ : db) : bool := true.

(** What one pass of the loop reads from outside: the clock when it claims, the
    clock when it records a failure, and the rows locked by others. *)
Record tick := Tick { claim_at : instant; outcome_at : instant; locked_rows : uuid → bool }.

Section Worker.
(** [OutboxTaskHandler.handle]: it runs its own transactions. *)
Context (handle : string → list (string * string) → db → result () * db).
Context (worker_id : string) (max_attempts : Z).

(** The transaction after the handler returned or raised. *)
Definition record_outcome (verdict : result ()) (row : JobOutbox) (now : instant) : prog () :=
  match verdict with
  | Ok _ => complete (outbox_id row) worker_id
  | Raise _ =>
      next_attempt_at ← lift (retry_at (outbox_attempts row) now);
      retry_or_dead_letter (outbox_id row) worker_id next_attempt_at max_attempts ;;
      mret tt
  end.

Definition drain_once (t : tick) (d : db) : result bool * db :=
  match transact no_deferred (claim_next (locked_rows t) worker_id (claim_at t)) d with
  | (Raise e, d1) => (Raise e, d1)
  | (Ok None, d1) => (Ok false, d1)
  | (Ok (Some row), d1) =>
      let (verdict, d2) := handle (outbox_task row) (outbox_payload row) d1 in
      match transact no_deferred (record_outcome verdict row (outcome_at t)) d2 with
      | (Ok _, d3) => (Ok true, d3)
      | (Raise e, d3) => (Raise e, d3)
      end
  end.

(** [drain_ready]: [while self.drain_once(): count += 1].  The [i]-th pass reads
    [ticks i]; no result when the fuel runs out. *)
Fixpoint drain_ready (fuel : nat) (ticks : nat → tick) (count : nat) (d : db) : option (result nat * db) :=
  match fuel with
  | O => None
  | S fuel =>
      match drain_once (ticks count) d with
      | (Ok true, d') => drain_ready fuel ticks (S count) d'
      | (Ok false, d') => Some (Ok count, d')
      | (Raise e, d') => Some (Raise e, d')
      end
  end.
End Worker.

(** *** What a pass does to the queue *)

Lemma conflict_free_ids (l : list JobOutbox) :
  conflict_free TJobOutbox l = true ↔ NoDup (outbox_id <$> l).
Proof. by refine (conflict_free_key (H := trueup) TJobOutbox outbox_id l _). Qed.

Lemma outbox_set l d : outbox (set_table TJobOutbox l d) = l.
Proof. exact (tables_set_same (H := trueup) TJobOutbox l d). Qed.

(** Updating a queued row succeeds and touches no other row. *)
Lemma update_outbox_run r f l1 l2 d :
  integrity d → outbox d = l1 ++ r :: l2 → outbox_id (f r) = outbox_id r →
  run (update_outbox r f) d = Ok (tt, set_table TJobOutbox (l1 ++ f r :: l2) d).
Proof.
  intros Hd Hl Hf. assert (Hr : r ∈ tables d TJobOutbox) by (unfold outbox in Hl; rewrite Hl; set_solver).
  assert (Hu : update_table TJobOutbox (λ x : JobOutbox, outbox_id x =? outbox_id r) f d = l1 ++ f r :: l2).
  { destruct (Hd TJobOutbox) as [_ Hc]. unfold outbox in Hl. unfold update_table. rewrite Hl in *.
    apply (conflict_free_split (H := trueup) TJobOutbox l1 r l2) in Hc as [H1 H2]. rewrite fmap_app, fmap_cons, Z.eqb_refl.
    assert (Hid : ∀ l : list JobOutbox, (∀ x, x ∈ l → outbox_id x ≠ outbox_id r) →
      fmap (M := list) (λ x, if outbox_id x =? outbox_id r then f x else x) l = l).
    { intros l Hne. rewrite <- (list_fmap_id l) at 2. apply list_fmap_ext. intros i x Hi.
      apply list_elem_of_lookup_2, Hne, Z.eqb_neq in Hi. by rewrite Hi. }
    rewrite !Hid; [done| |].
    - intros x Hx. specialize (H2 x Hx). cbn in H2. apply Z.eqb_neq in H2. lia.
    - intros x Hx. specialize (H1 x Hx). cbn in H1. by apply Z.eqb_neq in H1. }
  unfold update_outbox. apply run_update_Ok. rewrite Hu. split_and!; [done| | | |done].
  - apply forallb_forall. intros x _. apply orb_true_r.
  - by apply forallb_forall.
  - apply conflict_free_ids. destruct (Hd TJobOutbox) as [_ Hc%conflict_free_ids].
    unfold outbox in Hl. rewrite Hl in Hc. rewrite fmap_app, fmap_cons in Hc |- *. by rewrite Hf.
Qed.

Lemma integrity_outbox r f l1 l2 d :
  integrity d → outbox d = l1 ++ r :: l2 → outbox_id (f r) = outbox_id r →
  integrity (set_table TJobOutbox (l1 ++ f r :: l2) d).
Proof. intros Hd Hl Hf. eapply run_integrity; [exact Hd|by apply (update_outbox_run r f l1 l2)]. Qed.

(** The worker finds the row it claimed. *)
Lemma locked_by_worker_run worker r l1 l2 d :
  integrity d → outbox d = l1 ++ claimed worker r :: l2 →
  run (locked_by_worker (outbox_id r) worker) d = Ok (claimed worker r, d).
Proof.
  intros Hd Hl. unfold locked_by_worker. rewrite run_bind. unfold queries. cbn [run].
  assert (filter (held_by worker (outbox_id r)) (outbox d) = [claimed worker r]) as ->; [|done].
  destruct (Hd TJobOutbox) as [_ Hc]. unfold outbox in *. rewrite Hl in *.
  apply (conflict_free_split (H := trueup) TJobOutbox l1 (claimed worker r) l2) in Hc as [H1 H2].
  rewrite filter_app, filter_cons_True by done.
  rewrite (filter_none _ l1), (filter_none _ l2); [done| |].
  - intros x Hx [He _]. specialize (H2 x Hx). cbn in H2. apply Z.eqb_neq in H2. congruence.
  - intros x Hx [He _]. specialize (H1 x Hx). cbn in H1. apply Z.eqb_neq in H1. congruence.
Qed.

Lemma next_claim_Some locked now l r :
  next_claim locked now l = Some r →
  r ∈ l ∧ claimable locked now r = true ∧
  ∀ x, x ∈ l → claimable locked now x = true → outbox_created_at r <= outbox_created_at x.
Proof.
  unfold next_claim. set (k := filter _ l). intros H.
  set (le := λ a b : JobOutbox, outbox_created_at a <=? outbox_created_at b) in *.
  pose proof (sort_by_perm le k) as Hp.
  assert (Hs : StronglySorted (le_of le) (sort_by le k)).
  { apply sort_by_sorted; intros; unfold le in *; rewrite ?Z.leb_le in *; lia. }
  destruct (sort_by le k) as [|y ys]; [done|]. injection H as ->.
  assert (Hr : r ∈ k) by (rewrite <- Hp; set_solver).
  unfold k in Hr. apply list_elem_of_filter in Hr as [Hc Hin]. split_and!; [done|done|].
  intros x Hx Hcx. assert (Hxk : x ∈ r :: ys) by (rewrite Hp; apply list_elem_of_filter; done).
  apply elem_of_cons in Hxk as [->|Hxk]; [lia|].
  apply StronglySorted_inv in Hs as [_ Hf]. rewrite Forall_forall in Hf. specialize (Hf x Hxk).
  unfold le_of, le in Hf. lia.
Qed.

(** *** The abstract queue *)

(** A job as its producer sees it. *)
Inductive JobState := Waiting (attempts : Z) | Running (attempts : Z) | Finished | Buried.

Definition job_of (r : JobOutbox) : JobState :=
  match outbox_status r with
  | OUTBOX_PENDING => Waiting (outbox_attempts r)
  | OUTBOX_PROCESSING => Running (outbox_attempts r)
  | OUTBOX_COMPLETED => Finished
  | OUTBOX_DEAD_LETTER => Buried
  end.

(** One delivery of a job with [max] attempts, labelled with the handler's verdict. *)
Inductive job_step (max : Z) : bool → JobState → JobState → Prop :=
  | job_done n : job_step max true (Waiting n) Finished
  | job_retry n : n + 1 < max → job_step max false (Waiting n) (Waiting (n + 1))
  | job_bury n : max <= n + 1 → job_step max false (Waiting n) Buried.

(** The handler keeps its hands off the queue. *)
Definition quiet (handle : string → list (string * string) → db → result () * db) : Prop :=
  ∀ task payload d, integrity d →
    integrity (handle task payload d).2 ∧ outbox (handle task payload d).2 = outbox d.

(** Every waiting job's next retry is a representable time. *)
Definition room (t : tick) (d : db) : Prop :=
  ∀ r, r ∈ outbox d → outbox_status r = OUTBOX_PENDING →
       outcome_at t + 2 ^ outbox_attempts r * 1000000 <= MAX_INSTANT.

(** The same job: identity, task and payload. *)
Definition same_job (r r' : JobOutbox) : Prop :=
  outbox_id r' = outbox_id r ∧ outbox_task r' = outbox_task r ∧ outbox_payload r' = outbox_payload r ∧
  outbox_created_at r' = outbox_created_at r.

Section Passes.
Context (handle : string → list (string * string) → db → result () * db).
Context (worker : string) (max_attempts : Z) (Hquiet : quiet handle).

(** The row after its delivery. *)
Definition delivered (verdict : result ()) (now : instant) (r : JobOutbox) : JobOutbox :=
  match verdict with
  | Ok _ => released OUTBOX_COMPLETED (outbox_next_attempt_at r) (claimed worker r)
  | Raise _ =>
      if max_attempts <=? outbox_attempts r + 1
      then released OUTBOX_DEAD_LETTER (outbox_next_attempt_at r) (claimed worker r)
      else released OUTBOX_PENDING (now + 2 ^ outbox_attempts r * 1000000) (claimed worker r)
  end.

Lemma delivered_id verdict now r : outbox_id (delivered verdict now r) = outbox_id r.
Proof. unfold delivered. by destruct verdict; [|destruct (_ <=? _)]. Qed.

Lemma claim_next_run locked now r d :
  integrity d → next_claim locked now (outbox d) = Some r →
  ∃ l1 l2, outbox d = l1 ++ r :: l2 ∧
    run (claim_next locked worker now) d =
      Ok (Some (claimed worker r), set_table TJobOutbox (l1 ++ claimed worker r :: l2) d).
Proof.
  intros Hd Hn. destruct (next_claim_Some _ _ _ _ Hn) as ((l1 & l2 & Hl)%list_elem_of_split & _ & _).
  exists l1, l2. split; [done|]. unfold claim_next. rewrite run_bind. unfold gets. cbn [run]. rewrite Hn.
  by rewrite run_bind, (update_outbox_run r (claimed worker) l1 l2) by done.
Qed.

Lemma record_outcome_run verdict now r l1 l2 d :
  integrity d → outbox d = l1 ++ claimed worker r :: l2 →
  (is_ok verdict = true ∨ now + 2 ^ outbox_attempts r * 1000000 <= MAX_INSTANT) →
  run (record_outcome worker max_attempts verdict (claimed worker r) now) d =
    Ok (tt, set_table TJobOutbox (l1 ++ delivered verdict now r :: l2) d).
Proof.
  intros Hd Hl Hroom. pose proof (locked_by_worker_run worker r l1 l2 d Hd Hl) as Hlock.
  unfold record_outcome, complete, retry_or_dead_letter, delivered. cbn [outbox_id claimed].
  destruct verdict as [[]|e].
  - rewrite run_bind, Hlock.
    exact (update_outbox_run (claimed worker r) (λ x, released OUTBOX_COMPLETED (outbox_next_attempt_at x) x)
             l1 l2 d Hd Hl eq_refl).
  - destruct Hroom as [?|Hroom]; [done|]. unfold retry_at. cbn [outbox_attempts claimed].
    replace (outbox_attempts r + 1 - 1) with (outbox_attempts r) by lia.
    apply Z.leb_le in Hroom. rewrite Hroom. cbn [ensure mbind result_bind lift prog_bind].
    rewrite run_bind, run_bind, Hlock. cbn [outbox_attempts claimed].
    destruct (max_attempts <=? _).
    + by rewrite run_bind, (update_outbox_run (claimed worker r)
        (λ x, released OUTBOX_DEAD_LETTER (outbox_next_attempt_at x) x) l1 l2) by done.
    + by rewrite run_bind, (update_outbox_run (claimed worker r)
        (released OUTBOX_PENDING (now + 2 ^ outbox_attempts r * 1000000)) l1 l2) by done.
Qed.

Lemma drain_once_None t d :
  next_claim (locked_rows t) (claim_at t) (outbox d) = None →
  drain_once handle worker max_attempts t d = (Ok false, d).
Proof.
  intros Hn. unfold drain_once, transact, claim_next. rewrite run_bind. unfold gets. cbn [run].
  by rewrite Hn.
Qed.

(** The stores of a pass: the claim, then the handler, then the verdict. *)
Lemma drain_once_trace t r d :
  integrity d → room t d → next_claim (locked_rows t) (claim_at t) (outbox d) = Some r →
  ∃ l1 l2 d1, let (verdict, d2) := handle (outbox_task r) (outbox_payload r) d1 in
    outbox d = l1 ++ r :: l2 ∧ d1 = set_table TJobOutbox (l1 ++ claimed worker r :: l2) d ∧
    integrity d1 ∧ integrity d2 ∧
    drain_once handle worker max_attempts t d =
      (Ok true, set_table TJobOutbox (l1 ++ delivered verdict (outcome_at t) r :: l2) d2) ∧
    integrity (set_table TJobOutbox (l1 ++ delivered verdict (outcome_at t) r :: l2) d2).
Proof using Hquiet handle max_attempts worker.
  intros Hd Hroom Hn. destruct (claim_next_run _ _ _ _ Hd Hn) as (l1 & l2 & Hl & Hc).
  exists l1, l2, (set_table (H := trueup) TJobOutbox (l1 ++ claimed worker r :: l2) d).
  set (d1 := set_table (H := trueup) TJobOutbox (l1 ++ claimed worker r :: l2) d) in *.
  assert (Hd1 : integrity d1) by (by eapply run_integrity; [exact Hd|exact Hc]).
  destruct (handle (outbox_task r) (outbox_payload r) d1) as [v d2] eqn:Hh.
  destruct (Hquiet (outbox_task r) (outbox_payload r) d1 Hd1) as [Hd2 Ho2]. rewrite Hh in Hd2, Ho2.
  cbn [snd] in Hd2, Ho2.
  assert (Ho1 : outbox d1 = l1 ++ claimed worker r :: l2) by apply outbox_set.
  rewrite Ho1 in Ho2.
  assert (Hrun := record_outcome_run v (outcome_at t) r l1 l2 d2 Hd2 Ho2).
  destruct (next_claim_Some _ _ _ _ Hn) as (Hin & Hcl & _).
  unfold claimable in Hcl. zbool. apply bool_decide_eq_true in H.
  specialize (Hrun (or_intror (Hroom r Hin H))).
  split_and!; [done|done|done|done| |].
  - unfold drain_once, transact. rewrite Hc. cbn [no_deferred]. cbn [outbox_task outbox_payload claimed].
    rewrite Hh, Hrun. reflexivity.
  - eapply run_integrity; [exact Hd2|exact Hrun].
Qed.

Lemma drain_once_Some t r d :
  integrity d → room t d → next_claim (locked_rows t) (claim_at t) (outbox d) = Some r →
  ∃ l1 l2 verdict d1 d', outbox d = l1 ++ r :: l2 ∧ outbox d1 = l1 ++ claimed worker r :: l2 ∧
    verdict = (handle (outbox_task r) (outbox_payload r) d1).1 ∧
    drain_once handle worker max_attempts t d = (Ok true, d') ∧
    outbox d' = l1 ++ delivered verdict (outcome_at t) r :: l2 ∧ integrity d'.
Proof using Hquiet handle max_attempts worker.
  intros Hd Hroom Hn. destruct (drain_once_trace t r d Hd Hroom Hn) as (l1 & l2 & d1 & H).
  destruct (handle (outbox_task r) (outbox_payload r) d1) as [v d2] eqn:Hh.
  destruct H as (Hl & -> & _ & _ & Hrun & Hd'). eexists l1, l2, v, _, _.
  split_and!; [done|apply outbox_set|by rewrite Hh|exact Hrun|apply outbox_set|done].
Qed.

(** C10. One pass of the worker implements the abstract queue.  When no job is
    due it changes nothing and reports so.  Otherwise it claims the oldest due
    job and calls the handler once, with the job's task and payload, on the store
    of before with that job claimed; what the handler leaves is the store of
    after but for the job's own row, which is free again and has moved: to
    finished if the handler returned, back to waiting with one more attempt
    counted, until the clock of the failure plus the doubled delay, if it raised
    and attempts are left, to the dead letters if not.  The pass never raises. *)
Theorem drain_once_refines t d :
  integrity d → room t d →
  match next_claim (locked_rows t) (claim_at t) (outbox d) with
  | None => drain_once handle worker max_attempts t d = (Ok false, d)
  | Some r =>
      ∃ l1 r' l2, outbox d = l1 ++ r :: l2 ∧ same_job r r' ∧ outbox_locked_by r' = None ∧
        (∀ x, x ∈ outbox d → claimable (locked_rows t) (claim_at t) x = true →
              outbox_created_at r <= outbox_created_at x) ∧
        let (verdict, d2) := handle (outbox_task r) (outbox_payload r)
                               (set_table TJobOutbox (l1 ++ claimed worker r :: l2) d) in
        drain_once handle worker max_attempts t d = (Ok true, set_table TJobOutbox (l1 ++ r' :: l2) d2) ∧
        integrity (set_table TJobOutbox (l1 ++ r' :: l2) d2) ∧
        job_step max_attempts (is_ok verdict) (job_of r) (job_of r') ∧
        (outbox_status r' = OUTBOX_PENDING →
         outbox_next_attempt_at r' = outcome_at t + 2 ^ outbox_attempts r * 1000000)
  end.
Proof using Hquiet handle max_attempts worker.
  intros Hd Hroom. destruct (next_claim _ _ _) as [r|] eqn:Hn; [|by apply drain_once_None].
  destruct (drain_once_trace t r d Hd Hroom Hn) as (l1 & l2 & d1 & H).
  destruct (next_claim_Some _ _ _ _ Hn) as (_ & Hc & Hold). exists l1.
  destruct (handle (outbox_task r) (outbox_payload r) d1) as [v d2] eqn:Hh.
  destruct H as (Hl & -> & _ & _ & Hrun & Hd'). exists (delivered v (outcome_at t) r), l2. rewrite Hh.
  split_and!; [done| | |done|done|done| |].
  - unfold delivered, same_job. by destruct v; [|destruct (_ <=? _)].
  - unfold delivered. by destruct v; [|destruct (_ <=? _)].
  - unfold claimable in Hc. zbool. apply bool_decide_eq_true in H. unfold job_of at 1. rewrite H.
    unfold delivered. destruct v as [[]|e]; cbn [is_ok]; [constructor|].
    destruct (max_attempts <=? _) eqn:E; zbool; cbn; by constructor.
  - unfold delivered. destruct v as [[]|e]; [done|]. by destruct (max_attempts <=? _).
Qed.

(** How often a job may still be delivered: at least once if it waits. *)
Definition tries (r : JobOutbox) : Z :=
  if bool_decide (outbox_status r = OUTBOX_PENDING) then Z.max 1 (max_attempts - outbox_attempts r) else 0.

Definition deliveries_left (d : db) : Z := sum_by tries (outbox d).

Definition attempts_within (B : Z) (d : db) : Prop :=
  ∀ r, r ∈ outbox d → outbox_status r = OUTBOX_PENDING → outbox_attempts r <= B.

Lemma delivered_tries verdict now r :
  outbox_status r = OUTBOX_PENDING → tries (delivered verdict now r) <= tries r - 1.
Proof.
  intros Hr. unfold delivered, tries. rewrite Hr.
  destruct verdict; [|destruct (max_attempts <=? _) eqn:E; zbool]; cbn; repeat case_bool_decide; done || lia.
Qed.

Lemma delivered_attempts B verdict now r :
  max_attempts <= B → outbox_status (delivered verdict now r) = OUTBOX_PENDING →
  outbox_attempts (delivered verdict now r) <= B.
Proof.
  intros HB. unfold delivered. destruct verdict; [done|].
  destruct (max_attempts <=? _) eqn:E; zbool; cbn; [done|lia].
Qed.

Lemma drain_once_measure B t r d :
  integrity d → max_attempts <= B → attempts_within B d → outcome_at t + 2 ^ B * 1000000 <= MAX_INSTANT →
  next_claim (locked_rows t) (claim_at t) (outbox d) = Some r →
  ∃ d', drain_once handle worker max_attempts t d = (Ok true, d') ∧ integrity d' ∧
        attempts_within B d' ∧ deliveries_left d' <= deliveries_left d - 1.
Proof using Hquiet handle max_attempts worker.
  intros Hd HB Hw Hclock Hn.
  assert (Hroom : room t d).
  { intros x Hx Hp. specialize (Hw x Hx Hp). pose proof (Z.pow_le_mono_r 2 _ _ eq_refl Hw). lia. }
  destruct (drain_once_Some t r d Hd Hroom Hn) as (l1 & l2 & v & d1 & d' & Hl & _ & _ & Hrun & Hl' & Hd').
  exists d'. split_and!; [done|done| |].
  - intros x Hx. rewrite Hl' in Hx. apply elem_of_app in Hx as [Hx|[->|Hx]%elem_of_cons].
    + apply Hw. rewrite Hl. set_solver.
    + by apply delivered_attempts.
    + apply Hw. rewrite Hl. set_solver.
  - destruct (next_claim_Some _ _ _ _ Hn) as (_ & Hc & _). unfold claimable in Hc. zbool.
    apply bool_decide_eq_true in H. pose proof (delivered_tries v (outcome_at t) r H).
    unfold deliveries_left. rewrite Hl, Hl', !sum_by_app, !sum_by_cons. lia.
Qed.

(** C28. [drain_ready] terminates, whatever the clock reads, whatever other
    workers have locked and however often the handler fails: a waiting job is
    delivered at most [max_attempts] times (once if its attempts are already
    spent), so the loop stops after at most [deliveries_left] passes, without an
    exception, at a queue that held nothing due at its last look. *)
Theorem drain_ready_terminates B ticks d fuel :
  integrity d → max_attempts <= B → attempts_within B d →
  (∀ i, outcome_at (ticks i) + 2 ^ B * 1000000 <= MAX_INSTANT) →
  deliveries_left d < Z.of_nat fuel →
  ∃ n d', drain_ready handle worker max_attempts fuel ticks 0 d = Some (Ok n, d') ∧
    Z.of_nat n + deliveries_left d' <= deliveries_left d ∧
    next_claim (locked_rows (ticks n)) (claim_at (ticks n)) (outbox d') = None.
Proof using Hquiet handle max_attempts worker.
  intros Hd HB Hw Hclock Hfuel.
  assert (Hgen : ∀ k d, integrity d → attempts_within B d → deliveries_left d < Z.of_nat fuel →
    ∃ n d', drain_ready handle worker max_attempts fuel ticks k d = Some (Ok n, d') ∧
      Z.of_nat n - Z.of_nat k + deliveries_left d' <= deliveries_left d ∧
      next_claim (locked_rows (ticks n)) (claim_at (ticks n)) (outbox d') = None).
  { clear d Hd Hw Hfuel. induction fuel as [|fuel IH]; intros k d Hd Hw Hlt.
    - pose proof (sum_by_nonneg tries (outbox d)) as Hnn. unfold deliveries_left in Hlt.
      assert (0 <= sum_by tries (outbox d)); [|lia]. apply Hnn. intros x _.
      unfold tries. destruct (bool_decide _); lia.
    - cbn [drain_ready]. destruct (next_claim (locked_rows (ticks k)) (claim_at (ticks k)) (outbox d)) as [r|] eqn:Hn.
      + destruct (drain_once_measure B (ticks k) r d Hd HB Hw (Hclock k) Hn) as (d' & -> & Hd' & Hw' & Hm).
        destruct (IH (S k) d' Hd' Hw') as (n & d'' & Hrun & Hle & Hend); [lia|].
        exists n, d''. split_and!; [exact Hrun|lia|done].
      + rewrite (drain_once_None _ _ Hn). exists k, d. split_and!; [done|lia|done]. }
  destruct (Hgen 0%nat d Hd Hw Hfuel) as (n & d' & Hrun & Hle & Hend).
  exists n, d'. split_and!; [done|lia|done].
Qed.
End Passes.

(** A handler that always fails, on two jobs and two attempts each. *)
Definition failing (_ : string) (_ : list (string * string)) (d : db) : result () * db := (Raise RuntimeError, d).

Lemma failing_quiet : quiet failing.
Proof. by intros task payload d Hd. Qed.

Definition sample_job (id at_ : Z) : JobOutbox :=
  {| outbox_id := id; outbox_task := "charge_fee"; outbox_payload := []; outbox_attempts := 0;
     outbox_next_attempt_at := 0; outbox_status := OUTBOX_PENDING; outbox_locked_by := None;
     outbox_created_at := at_ |}.

Definition sample_queue : db := set_table TJobOutbox [sample_job 1 20; sample_job 2 10] (empty_db 0).

Lemma sample_queue_integrity : integrity sample_queue.
Proof. apply integrity_check. intros []; vm_compute; reflexivity. Qed.

(** A handler that takes a number from the store, and fails. *)
Definition counting (_ : string) (_ : list (string * string)) (d : db) : result () * db :=
  (Raise RuntimeError, Db (tables d) (next_uuid d + 1) (db_now d)).

Lemma counting_quiet : quiet counting.
Proof. by intros task payload d Hd. Qed.

(** The second job is older and goes first, once. *)
Lemma drain_once_refines_witness :
  ∃ l1 r' l2 d', outbox sample_queue = l1 ++ sample_job 2 10 :: l2 ∧ same_job (sample_job 2 10) r' ∧
    drain_once counting "w" 2 (Tick 0 0 (λ _, false)) sample_queue = (Ok true, d') ∧
    outbox d' = l1 ++ r' :: l2 ∧ next_uuid d' = next_uuid sample_queue + 1 ∧
    job_step 2 false (job_of (sample_job 2 10)) (job_of r').
Proof.
  destruct (drain_once_refines counting "w" 2 counting_quiet (Tick 0 0 (λ _, false)) sample_queue
             sample_queue_integrity) as (l1 & r' & l2 & Hl & Hsame & _ & _ & Hrun & _ & Hstep & _).
  { intros r Hr _. assert (outbox_attempts r = 0) as ->; [|vm_compute; discriminate].
    apply elem_of_cons in Hr as [->|[->|Hr]%elem_of_cons]; [done|done|by apply elem_of_nil in Hr]. }
  eexists l1, r', l2, _. split_and!; [done|done|exact Hrun|apply outbox_set|done|done].
Defined.

Lemma drain_ready_terminates_witness :
  ∃ n d', drain_ready failing "w" 2 5 (λ i, Tick (Z.of_nat i * 1000000) (Z.of_nat (i mod 4) * 1000000) (λ _, false)) 0 sample_queue
            = Some (Ok n, d') ∧ Z.of_nat n + deliveries_left 2 d' <= deliveries_left 2 sample_queue ∧
    next_claim (λ _, false) (Z.of_nat n * 1000000) (outbox d') = None.
Proof.
  apply (drain_ready_terminates failing "w" 2 failing_quiet 2
           (λ i, Tick (Z.of_nat i * 1000000) (Z.of_nat (i mod 4) * 1000000) (λ _, false))
           sample_queue 5 sample_queue_integrity).
  - done.
  - intros r Hr _. apply elem_of_cons in Hr as [->|[->|Hr]%elem_of_cons]; [done|done|by apply elem_of_nil in Hr].
  - intros i. cbn [outcome_at]. assert (i mod 4 < 4)%nat by (apply Nat.mod_upper_bound; lia).
    change (2 ^ 2) with 4. change MAX_INSTANT with 253402300799999999. lia.
  - vm_compute. reflexivity.
Defined.
