(* ===== verification/DailyValuation.v ===== *)
(** * The daily valuation job and the calendar it caches
    ([jobs/daily_valuation.py], [models/marketdata/])

    The job asks the two ports for the day's calendar entry and for a close of
    every security somebody holds, and records how complete the day is.  The
    same file has the market clock over the cached calendar, which raises for a
    date nobody fetched, and its relation to the clock of [Calendar.v]. *)

From S2P Require Import Prelude PyDecimal MoneyTypes Dates Calendar Store Schema Ledger CashPolicy Valuation Restatement Operations.
From stdpp Require Import list strings.
Open Scope Z_scope.

(** ** The cached calendar *)

(** [MarketCalendarCacheRepository.get] *)
Definition cached_day (d : db) (on : date) : option MarketCalendarCache :=
  head (filter (λ r, cache_market_date r = on) (calendar_cache d)).

(** [MarketCalendarCacheRepository.upsert] *)
Definition upsert_calendar (r : MarketCalendarCache) : prog () :=
  existing ← gets (λ d, cached_day d (cache_market_date r));
  match existing with
  | None => add TCalendarCache r
  | Some _ => update TCalendarCache (λ x : MarketCalendarCache, cache_market_date x =? cache_market_date r) (λ _, r)
  end.

(** [CachedTradingCalendar.is_trading_day] *)
Definition cached_is_trading_day (d : db) (on : date) : result bool :=
  match cached_day d on with
  | None => Raise MarketCalendarCacheMissError
  | Some r => Ok (cache_is_trading_day r)
  end.

(** [CachedTradingCalendar.session_close] *)
Definition cached_session_close (d : db) (on : date) : result (option instant) :=
  match cached_day d on with
  | None => Raise MarketCalendarCacheMissError
  | Some r => Ok (cache_session_close_at r)
  end.

(** ** [MarketClock] over a calendar that may raise *)

Section CheckedClock.
Context (trading : date → result bool).

Fixpoint checked_search (fuel : nat) (delta : Z) (candidate : date) : result date :=
  match fuel with
  | O => Raise CalendarExhaustedError
  | S fuel =>
      candidate ← date_add candidate delta;
      open ← trading candidate;
      if (open : bool) then Ok candidate else checked_search fuel delta candidate
  end.

Definition checked_next_trading_day (d : date) : result date := checked_search MAX_CALENDAR_SEARCH_DAYS 1 d.
Definition checked_previous_trading_day (d : date) : result date := checked_search MAX_CALENDAR_SEARCH_DAYS (-1) d.

Definition checked_add_trading_days (d : date) (n : Z) : result date :=
  repeat_step (Z.to_nat (Z.abs n)) (if 0 <=? n then checked_next_trading_day else checked_previous_trading_day) d.
End CheckedClock.

(** The calendar of [Calendar.v] that a cache describes. *)
Definition cache_calendar (d : db) (close : date → option (date * Z)) : TradingCalendar :=
  {| is_trading_day := λ on, from_option cache_is_trading_day false (cached_day d on); session_close := close |}.

(** ** The job *)

(** [CalendarPort.get_trading_day] and [MarketDataPort.get_close]. *)
Record TradingDay := { day_is_trading : bool; day_open_at : option instant; day_close_at : option instant }.
Class MarketPorts := {
  get_trading_day : date → result TradingDay;
  get_close : string → date → result (option Price);
}.

(** The unit postings of everybody, up to a date. *)
Definition all_unit_postings (on : date) (d : db) : list Posting :=
  filter (λ p, posting_role d p = Some POSITION_UNITS ∧ effective_by d on p = true) (postings d).

(** [_securities_with_positions]: GROUP BY the account's security. *)
Definition securities_with_positions (on : date) (d : db) : result (list uuid) :=
  let ps := all_unit_postings on d in
  rows ← map_result (λ security,
           units ← sql_sum (omap posting_quantity_units (filter (λ p, posting_security d p = Some security) ps));
           Ok (security, units)) (remove_dups (omap (posting_security d) ps));
  Ok ((filter (λ r : uuid * Units, q_eqb r.2 zero = false) rows).*1).

(** [ValuationRunRepository.upsert] *)
Definition run_of (d : db) (on : date) : option ValuationRun :=
  head (filter (λ r, valuation_market_date r = on) (valuation_runs d)).
Definition upsert_run (r : ValuationRun) : prog () :=
  existing ← gets (λ d, run_of d (valuation_market_date r));
  match existing with
  | None => add TValuationRun r
  | Some _ => update TValuationRun (λ x : ValuationRun, valuation_market_date x =? valuation_market_date r) (λ _, r)
  end.

Section Job.
Context `{MarketPorts}.

(** One turn of the loop; [confirmed] counts the closes written. *)
Definition fetch_close (now : instant) (on : date) (confirmed : Z) (security : uuid) : prog Z :=
  row ← gets (λ d, security_by_id d security);
  match row with
  | None => mret confirmed
  | Some s =>
      quote ← lift (get_close (security_symbol s) on);
      match quote with
      | None => mret confirmed
      | Some price =>
          id ← uuid4;
          add TDailyClose {| close_id := id; close_security_id := security; close_market_date := on; close_price := price;
                             close_source := LIVE; close_status := CONFIRMED; close_recorded_at := now |} ;;
          mret (confirmed + 1)
      end
  end.

(** [perform], in its own unit of work. *)
Definition daily_valuation (now : instant) (on : date) : prog () :=
  day ← lift (get_trading_day on);
  upsert_calendar {| cache_market_date := on; cache_is_trading_day := day_is_trading day;
                     cache_session_open_at := day_open_at day; cache_session_close_at := day_close_at day;
                     cache_source := LIVE; cache_recorded_at := now |} ;;
  if negb (day_is_trading day) then mret tt
  else
    security_ids ← queries (securities_with_positions on);
    confirmed ← fold_prog (fetch_close now on) security_ids 0;
    upsert_run {| valuation_market_date := on; securities_expected := Z.of_nat (length security_ids);
                  securities_confirmed := confirmed;
                  valuation_status := if confirmed =? Z.of_nat (length security_ids) then RUN_COMPLETE else RUN_PARTIAL;
                  valuation_recorded_at := now |}.
End Job.

(** ** Lemmas: the upserts *)

Lemma upsert_head {A} (key : A → Z) (r : A) (l : list A) :
  head (filter (λ x, key x = key r) l) ≠ None →
  head (filter (λ x, key x = key r) ((λ x, if key x =? key r then r else x) <$> l)) = Some r.
Proof.
  induction l as [|x l IH]; [done|]. rewrite fmap_cons, !filter_cons.
  destruct (decide (key x = key r)) as [E|E].
  - intros _. rewrite (proj2 (Z.eqb_eq _ _) E). by rewrite decide_True.
  - rewrite (proj2 (Z.eqb_neq _ _) E), decide_False by done. exact IH.
Qed.

Lemma head_filter_append {A} (key : A → Z) (r : A) (l : list A) :
  head (filter (λ x, key x = key r) l) = None → head (filter (λ x, key x = key r) (l ++ [r])) = Some r.
Proof.
  intros Hn. rewrite filter_app, filter_cons_True by done. destruct (filter _ l); [done|discriminate Hn].
Qed.

(** Other days keep their rows. *)
Lemma head_filter_other {A} (key : A → Z) (r : A) (l : list A) k :
  k ≠ key r →
  head (filter (λ x, key x = k) ((λ x, if key x =? key r then r else x) <$> l)) = head (filter (λ x, key x = k) l) ∧
  head (filter (λ x, key x = k) (l ++ [r])) = head (filter (λ x, key x = k) l).
Proof.
  intros Hk. split.
  - induction l as [|x l IH]; [done|]. rewrite fmap_cons, !filter_cons.
    destruct (Z.eqb_spec (key x) (key r)) as [E|E].
    + rewrite !decide_False by congruence. exact IH.
    + destruct (decide (key x = k)); [done|exact IH].
  - rewrite filter_app, filter_cons_False by congruence. by rewrite app_nil_r.
Qed.

Lemma upsert_calendar_Ok r d u d' :
  run (upsert_calendar r) d = Ok (u, d') →
  (∀ t, t ≠ TCalendarCache → tables d' t = tables d t) ∧
  cached_day d' (cache_market_date r) = Some r ∧ ∀ k, k ≠ cache_market_date r → cached_day d' k = cached_day d k.
Proof.
  unfold upsert_calendar. intros (e & d1 & [<- <-]%run_gets_Ok & Hr)%run_bind_Ok.
  destruct (cached_day d (cache_market_date r)) as [e|] eqn:He.
  - apply run_update_Ok in Hr as (_ & _ & _ & _ & ->). split_and!.
    + intros t Ht. by apply (tables_set_ne (H := trueup)).
    + unfold cached_day, calendar_cache. rewrite (tables_set_same (H := trueup)). unfold update_table. 
      apply (upsert_head cache_market_date r). unfold cached_day in He. change (head (filter (λ x, cache_market_date x = cache_market_date r) (calendar_cache d)) ≠ None). by rewrite He.
    + intros k Hk. unfold cached_day, calendar_cache. rewrite (tables_set_same (H := trueup)).
      by apply (head_filter_other cache_market_date r).
  - apply run_add_Ok in Hr as [_ ->]. split_and!.
    + intros t Ht. by apply (tables_set_ne (H := trueup)).
    + unfold cached_day, calendar_cache. etrans; [|by apply (head_filter_append cache_market_date r)].
      exact (f_equal (λ l, head (filter (λ x, cache_market_date x = cache_market_date r) l)) (tables_set_same (H := trueup) TCalendarCache _ d)).
    + intros k Hk. unfold cached_day, calendar_cache. etrans; [|by apply (head_filter_other cache_market_date r)].
      exact (f_equal (λ l, head (filter (λ x, cache_market_date x = k) l)) (tables_set_same (H := trueup) TCalendarCache _ d)).
Qed.

Lemma upsert_run_Ok r d u d' :
  run (upsert_run r) d = Ok (u, d') →
  (∀ t, t ≠ TValuationRun → tables d' t = tables d t) ∧ run_of d' (valuation_market_date r) = Some r.
Proof.
  unfold upsert_run. intros (e & d1 & [<- <-]%run_gets_Ok & Hr)%run_bind_Ok.
  destruct (run_of d (valuation_market_date r)) as [e|] eqn:He.
  - apply run_update_Ok in Hr as (_ & _ & _ & _ & ->). split.
    + intros t Ht. by apply (tables_set_ne (H := trueup)).
    + unfold run_of, valuation_runs. rewrite (tables_set_same (H := trueup)).
      apply (upsert_head valuation_market_date r). unfold run_of in He.
      change (head (filter (λ x, valuation_market_date x = valuation_market_date r) (valuation_runs d)) ≠ None). by rewrite He.
  - apply run_add_Ok in Hr as [_ ->]. split.
    + intros t Ht. by apply (tables_set_ne (H := trueup)).
    + unfold run_of, valuation_runs. etrans; [|by apply (head_filter_append valuation_market_date r)].
      exact (f_equal (λ l, head (filter (λ x, valuation_market_date x = valuation_market_date r) l)) (tables_set_same (H := trueup) TValuationRun _ d)).
Qed.

(** ** Lemmas: the loop over the securities *)

Section JobLemmas.
Context `{MarketPorts}.

(** What the market answers for a security, when it has a row and a close. *)
Definition quote (d : db) (on : date) (security : uuid) : option (uuid * Price) :=
  s ← security_by_id d security;
  match get_close (security_symbol s) on with Ok (Some price) => Some (security, price) | _ => None end.

(** A close the job writes. *)
Definition written (now : instant) (on : date) (c : DailyClose) : Prop :=
  close_market_date c = on ∧ close_status c = CONFIRMED ∧ close_source c = LIVE ∧ close_recorded_at c = now.

Lemma fetch_close_Ok now on n s d n' d' :
  run (fetch_close now on n s) d = Ok (n', d') →
  (∀ t, t ≠ TDailyClose → tables d' t = tables d t) ∧
  ∃ ks, daily_closes d' = daily_closes d ++ ks ∧ Forall (written now on) ks ∧
    (λ k, (close_security_id k, close_price k)) <$> ks = option_list (quote d on s) ∧ n' = n + Z.of_nat (length ks).
Proof.
  unfold fetch_close, quote. intros (row & d1 & [<- <-]%run_gets_Ok & Hr)%run_bind_Ok.
  destruct (security_by_id d s) as [sec|].
  2: { apply run_ret_Ok in Hr as [<- <-]. split; [done|]. exists []. rewrite app_nil_r. split_and!; [done..|cbn; lia]. }
  apply run_bind_Ok in Hr as (q & d2 & [Hq <-]%run_lift_Ok & Hr). cbn [mbind option_bind]. rewrite Hq.
  destruct q as [price|].
  2: { apply run_ret_Ok in Hr as [<- <-]. split; [done|]. exists []. rewrite app_nil_r. split_and!; [done..|cbn; lia]. }
  apply run_bind_Ok in Hr as (id & d3 & [-> ->]%run_uuid4_Ok & Hr).
  apply run_bind_Ok in Hr as ([] & d4 & [_ ->]%run_add_Ok & [<- <-]%run_ret_Ok).
  split; [intros t Ht; exact (tables_set_ne (H := trueup) TDailyClose t _ _ (not_eq_sym Ht))|].
  eexists [_]. split_and!; [exact (tables_set_same (H := trueup) TDailyClose _ _)| |done|cbn; lia].
  constructor; [done|constructor].
Qed.

Lemma fetch_closes_Ok now on ids n d n' d' :
  run (fold_prog (fetch_close now on) ids n) d = Ok (n', d') →
  (∀ t, t ≠ TDailyClose → tables d' t = tables d t) ∧
  ∃ ks, daily_closes d' = daily_closes d ++ ks ∧ Forall (written now on) ks ∧
    (λ k, (close_security_id k, close_price k)) <$> ks = omap (quote d on) ids ∧ n' = n + Z.of_nat (length ks).
Proof.
  revert n d. induction ids as [|s ids IH]; intros n d.
  - intros [<- <-]%run_ret_Ok. split; [done|]. exists []. rewrite app_nil_r. split_and!; [done..|cbn; lia].
  - cbn [fold_prog]. intros (n1 & d1 & (Ht1 & ks1 & Hc1 & Hw1 & Hq1 & Hn1)%fetch_close_Ok & Hr)%run_bind_Ok.
    apply IH in Hr as (Ht2 & ks2 & Hc2 & Hw2 & Hq2 & Hn2).
    split; [intros t Ht; by rewrite Ht2, Ht1|]. exists (ks1 ++ ks2). split_and!.
    + by rewrite Hc2, Hc1, app_assoc.
    + by apply Forall_app.
    + rewrite fmap_app, Hq1, Hq2. 
      assert (Hsame : omap (quote d1 on) ids = omap (quote d on) ids).
      { unfold quote, security_by_id, securities. by rewrite (Ht1 TSecurity). }
      rewrite Hsame. cbn. by destruct (quote d on s).
    + rewrite length_app. lia.
Qed.
End JobLemmas.

(** ** Lemmas: groups of a sum *)

Lemma sum_by_split {A} (f : A → Z) (P : A → Prop) `{∀ x, Decision (P x)} l :
  sum_by f l = sum_by f (filter P l) + sum_by f (filter (λ x, ¬ P x) l).
Proof.
  induction l as [|x l IH]; [done|]. rewrite !filter_cons, sum_by_cons, IH.
  destruct (decide (P x)); [rewrite decide_False by tauto|rewrite decide_True by tauto]; rewrite sum_by_cons; lia.
Qed.

(** When every group is at least zero, so is the sum, and no group exceeds it. *)
Lemma sum_by_groups_nonneg {A K} `{EqDecision K} (g : A → K) (f : A → Z) l :
  (∀ k, 0 <= sum_by f (filter (λ x, g x = k) l)) → 0 <= sum_by f l.
Proof.
  induction l as [l IH] using (well_founded_induction (well_founded_ltof _ length)). unfold ltof in IH.
  destruct l as [|x l]; [done|]. intros Hg. rewrite (sum_by_split f (λ y, g y = g x)).
  pose proof (Hg (g x)) as Hx. enough (0 <= sum_by f (filter (λ y, ¬ g y = g x) (x :: l))) by lia.
  rewrite filter_cons_False by tauto. apply IH.
  - cbn. pose proof (length_filter (λ y, ¬ g y = g x) l). lia.
  - intros k. rewrite list_filter_filter. destruct (decide (k = g x)) as [->|Hk].
    + rewrite filter_none by tauto. done.
    + specialize (Hg k). rewrite filter_cons_False in Hg by congruence.
      rewrite (list_filter_iff _ (λ y, g y = k)); [done|]. intros y. split; [tauto|]. intros <-. split; [done|congruence].
Qed.

Lemma sum_by_group_le {A K} `{EqDecision K} (g : A → K) (f : A → Z) l k :
  (∀ k, 0 <= sum_by f (filter (λ x, g x = k) l)) → sum_by f (filter (λ x, g x = k) l) <= sum_by f l.
Proof.
  intros Hg. rewrite (sum_by_split f (λ x, g x = k) l). enough (0 <= sum_by f (filter (λ x, ¬ g x = k) l)) by lia.
  apply (sum_by_groups_nonneg g). intros k'. rewrite list_filter_filter. destruct (decide (k' = k)) as [->|Hk].
  - rewrite filter_none by tauto. done.
  - specialize (Hg k'). rewrite (list_filter_iff _ (λ y, g y = k')); [done|]. intros y. split; [tauto|]. intros <-. split; [done|congruence].
Qed.

(** ** Properties *)

Section JobProperties.
Context `{MarketPorts}.

(** Nobody is short of a security on the date. *)
Definition long_only (on : date) (d : db) : Prop :=
  ∀ customer security, 0 <= sum_by posting_units (filter (λ p, posting_customer_id p = customer)
                              (filter (λ p, posting_security d p = Some security) (all_unit_postings on d))).

(** A security a customer holds is in the job's list. *)
Lemma held_is_listed on d ids : securities_with_positions on d = Ok ids → long_only on d →
  ∀ customer s, units_held customer s on d ≠ 0 → s ∈ ids.
Proof.
  unfold securities_with_positions. intros (rows & Hr%map_result_Forall2 & [= <-])%bind_Ok Hlong customer s Hheld.
  set (held := filter (λ p, posting_security d p = Some s) (all_unit_postings on d)).
  assert (Eh : units_held customer s on d = sum_by posting_units (filter (λ p, posting_customer_id p = Some customer) held)).
  { unfold units_held, held, unit_postings, all_unit_postings. f_equal. rewrite !list_filter_filter.
    apply list_filter_iff. intros p. tauto. }
  pose proof (sum_by_group_le posting_customer_id posting_units held (Some customer) (λ k, Hlong k s)) as Hle.
  pose proof (Hlong (Some customer) s) as Hpos. fold held in Hpos. rewrite <- Eh in Hle, Hpos.
  assert (Hin : s ∈ remove_dups (omap (posting_security d) (all_unit_postings on d))).
  { apply elem_of_remove_dups, list_elem_of_omap.
    destruct held as [|p ps] eqn:E; [rewrite Eh in Hheld; done|].
    assert (Hp : p ∈ filter (λ p, posting_security d p = Some s) (all_unit_postings on d)) by (fold held; rewrite E; set_solver).
    apply list_elem_of_filter in Hp as [Hp1 Hp2]. by exists p. }
  apply list_elem_of_lookup in Hin as [i Hi]. destruct (Forall2_lookup_l _ _ _ _ _ Hr Hi) as (row & Hrow & Hu).
  apply bind_Ok in Hu as (units & [_ Hsum]%sql_sum_Ok & [= <-]). rewrite sum_omap_units in Hsum. fold held in Hsum.
  apply list_elem_of_fmap. exists (s, units). split; [done|]. apply list_elem_of_filter.
  split; [|by apply list_elem_of_lookup_2 in Hrow]. cbn. unfold q_eqb. cbn. apply Z.eqb_neq. lia.
Qed.

Lemma daily_valuation_Ok now on d u d' :
  run (daily_valuation now on) d = Ok (u, d') →
  ∃ day, get_trading_day on = Ok day ∧
    (∃ r, cached_day d' on = Some r ∧ cache_is_trading_day r = day_is_trading day) ∧
    (∀ k, k ≠ on → cached_day d' k = cached_day d k) ∧
    (∀ t, t ∉ [TCalendarCache; TDailyClose; TValuationRun] → tables d' t = tables d t) ∧
    if day_is_trading day then
      ∃ ids ks r, securities_with_positions on d = Ok ids ∧
        daily_closes d' = daily_closes d ++ ks ∧ Forall (written now on) ks ∧
        (λ k, (close_security_id k, close_price k)) <$> ks = omap (quote d on) ids ∧
        run_of d' on = Some r ∧ securities_expected r = Z.of_nat (length ids) ∧ securities_confirmed r = Z.of_nat (length ks) ∧
        valuation_status r = (if Z.of_nat (length ks) =? Z.of_nat (length ids) then RUN_COMPLETE else RUN_PARTIAL)
    else daily_closes d' = daily_closes d ∧ valuation_runs d' = valuation_runs d.
Proof.
  unfold daily_valuation. intros (day & d0 & [Hday <-]%run_lift_Ok & Hr)%run_bind_Ok. exists day. split; [done|].
  apply run_bind_Ok in Hr as ([] & d1 & (Ht1 & Hc1 & Ho1)%upsert_calendar_Ok & Hr). cbn [cache_market_date] in *.
  destruct (day_is_trading day) eqn:Etr; cbn [negb] in Hr.
  2: { apply run_ret_Ok in Hr as [_ <-]. split_and!; [by eexists|done| |by apply (Ht1 TDailyClose)|by apply (Ht1 TValuationRun)]. intros t Ht. apply Ht1. set_solver. }
  apply run_bind_Ok in Hr as (ids & d2 & [Hids <-]%run_queries_Ok & Hr).
  apply run_bind_Ok in Hr as (n & d3 & (Ht3 & ks & Hk & Hw & Hq & Hn)%fetch_closes_Ok & Hr).
  apply upsert_run_Ok in Hr as [Ht4 Hr4]. cbn [valuation_market_date] in *.
  assert (Hids' : securities_with_positions on d = Ok ids).
  { rewrite <- Hids. unfold securities_with_positions, all_unit_postings, posting_role, posting_security, effective_by, posting_entry, account_by_id,
      accounts, postings, journal_entries. by rewrite !Ht1. }
  assert (Hquote : omap (quote d1 on) ids = omap (quote d on) ids).
  { unfold quote, security_by_id, securities. by rewrite (Ht1 TSecurity). }
  split_and!.
  - exists {| cache_market_date := on; cache_is_trading_day := true; cache_session_open_at := day_open_at day;
              cache_session_close_at := day_close_at day; cache_source := LIVE; cache_recorded_at := now |}.
    split; [|done]. rewrite <- Hc1. unfold cached_day, calendar_cache. by rewrite Ht4, Ht3.
  - intros k Hk'. rewrite <- Ho1 by done. unfold cached_day, calendar_cache. by rewrite Ht4, Ht3.
  - intros t Ht. rewrite Ht4, Ht3, Ht1; [done|set_solver..].
  - eexists ids, ks, _. split_and!; [done| |done|by rewrite Hq|exact Hr4|done|cbn; lia|cbn; by rewrite Hn].
    assert (Hcl : daily_closes d1 = daily_closes d) by (by apply (Ht1 TDailyClose)). rewrite <- Hcl, <- Hk. by apply (Ht4 TDailyClose).
Qed.

(** Every quote is there exactly when as many came as were asked for. *)
Lemma all_quoted d on ids : length (omap (quote d on) ids) = length ids → ∀ s, s ∈ ids → quote d on s ≠ None.
Proof.
  assert (Hle : ∀ l, (length (omap (quote d on) l) <= length l)%nat).
  { induction l as [|s l IH]; [done|]. cbn. destruct (quote d on s); cbn; lia. }
  induction ids as [|s ids IH]; [set_solver|]. cbn. specialize (Hle ids).
  destruct (quote d on s) eqn:E; cbn; [|lia]. intros [= Hl]. intros x [->|Hx]%elem_of_cons; [by rewrite E|by apply IH].
Qed.

(** C31. What a day's run means: the calendar entry of the port is cached; on a
    trading day exactly the closes the market gave for the securities somebody
    holds are appended, confirmed, and the run's row counts them; nothing but
    the cache, the closes and the run is written.  And when the run is recorded
    complete and nobody is short, the book of every customer values completely
    on that date. *)
Theorem daily_valuation_complete now on d u d' :
  run (daily_valuation now on) d = Ok (u, d') → long_only on d →
  (∀ t, t ∉ [TCalendarCache; TDailyClose; TValuationRun] → tables d' t = tables d t) ∧
  ∃ day, get_trading_day on = Ok day ∧ cached_is_trading_day d' on = Ok (day_is_trading day) ∧
    (day_is_trading day = true →
     ∃ ids ks r, securities_with_positions on d = Ok ids ∧
       daily_closes d' = daily_closes d ++ ks ∧ Forall (written now on) ks ∧
       (λ k, (close_security_id k, close_price k)) <$> ks = omap (quote d on) ids ∧
       run_of d' on = Some r ∧ securities_expected r = Z.of_nat (length ids) ∧ securities_confirmed r = Z.of_nat (length ks) ∧
       (valuation_status r = RUN_COMPLETE →
        ∀ customer book, value_book customer on d' = Ok book → completeness book = Complete)).
Proof.
  intros Hr Hlong. apply daily_valuation_Ok in Hr as (day & Hday & (c & Hc & Hcd) & _ & Hframe & Hrest).
  split; [done|]. exists day. split_and!; [done|unfold cached_is_trading_day; by rewrite Hc, Hcd|].
  intros Htr. rewrite Htr in Hrest. destruct Hrest as (ids & ks & r & Hids & Hk & Hw & Hq & Hrun & He & Hn & Hst).
  exists ids, ks, r. split_and!; try done. intros Hcomp customer book Hbook.
  assert (Hlen : length (omap (quote d on) ids) = length ids).
  { rewrite <- Hq, length_fmap. rewrite Hcomp in Hst. destruct (Z.eqb_spec (Z.of_nat (length ks)) (Z.of_nat (length ids))); [lia|done]. }
  pose proof (all_quoted d on ids Hlen) as Hall.
  unfold value_book in Hbook. apply bind_Ok in Hbook as (cash & _ & Hbook). apply bind_Ok in Hbook as (rows & Hrows & Hbook).
  apply bind_Ok in Hbook as ([t f] & [_ Hf]%value_fold_Ok & [= <-]). cbn [completeness]. rewrite Hf.
  destruct (existsb (unpriced d' on) rows) eqn:Ex; [exfalso|done].
  apply existsb_exists in Ex as ([s units] & Hin%list_elem_of_In & Hun). unfold unpriced in Hun. cbn in Hun.
  apply andb_true_iff in Hun as [Hne%negb_true_iff%Z.eqb_neq Hnone%bool_decide_eq_true].
  assert (Hs : s ∈ ids).
  { apply (held_is_listed on d ids Hids Hlong customer s).
    assert (Hu : units_held customer s on d' = units_held customer s on d).
    { unfold units_held, unit_postings, posting_role, posting_security, effective_by, posting_entry, account_by_id, accounts, postings, journal_entries.
      by rewrite !Hframe by set_solver. }
    rewrite <- Hu. destruct (position_units_rows_Ok _ _ _ _ Hrows) as (_ & Hq' & _). by rewrite <- (Hq' s units Hin). }
  destruct (quote d on s) as [[s' price]|] eqn:Eq; [|by apply (Hall s Hs)].
  assert (Hpair : (s', price) ∈ omap (quote d on) ids) by (apply list_elem_of_omap; by exists s).
  rewrite <- Hq in Hpair. apply list_elem_of_fmap in Hpair as (k & [= Es Ep] & Hkin).
  assert (s' = s) as ->.
  { unfold quote in Eq. destruct (security_by_id d s); [|done]. cbn in Eq. by repeat case_match; simplify_eq. }
  assert (Hsome : latest_confirmed d' s on ≠ None); [|done].
  unfold latest_confirmed. rewrite max_by_None. intros Hempty.
  rewrite Forall_forall in Hw. destruct (Hw k Hkin) as (Hd' & Hst' & _).
  assert (Hkf : k ∈ filter (λ c, close_security_id c = s ∧ close_market_date c = on ∧ close_status c = CONFIRMED) (daily_closes d')).
  { apply list_elem_of_filter. split; [done|]. rewrite Hk. set_solver. }
  rewrite Hempty in Hkf. set_solver.
Qed.
End JobProperties.

(** ** The clock over the cache *)

(** Where the cache knows the days, it is the clock of [Calendar.v]. *)
Lemma checked_search_refines d close fuel delta c :
  (∀ i, 0 < i <= Z.of_nat fuel → is_Some (cached_day d (c + delta * i))) →
  checked_search (cached_is_trading_day d) fuel delta c = search (calendar := cache_calendar d close) fuel delta c.
Proof.
  revert c. induction fuel as [|fuel IH]; intros c Hc; [done|]. cbn [checked_search search].
  destruct (date_add c delta) as [c'|e] eqn:Ea; [|done]. apply date_add_Ok in Ea as [-> _]. cbn [mbind result_bind].
  destruct (Hc 1 ltac:(lia)) as [r Hr]. replace (c + delta * 1) with (c + delta) in Hr by lia.
  assert (E : cached_is_trading_day d (c + delta) = Ok (cache_is_trading_day r)) by (unfold cached_is_trading_day; by rewrite Hr).
  rewrite E. cbn [mbind result_bind is_trading_day cache_calendar]. rewrite Hr. cbn [from_option].
  destruct (cache_is_trading_day r); [done|]. apply IH. intros i Hi.
  replace (c + delta + delta * i) with (c + delta * (i + 1)) by lia. apply Hc. lia.
Qed.

(** A run of the job, for whatever the ports answer; a failed one leaves the books alone. *)
Inductive valuation_step (today : date) : db → db → Prop :=
  | step_valuation (P : MarketPorts) now on d : on <= today →
      valuation_step today d (transact no_deferred (daily_valuation (H := P) now on) d).2.

Definition cached_until (today : date) (d : db) : Prop := ∀ k, today < k → cached_day d k = None.

Lemma valuation_step_cached today d d' : valuation_step today d d' → cached_until today d → cached_until today d'.
Proof.
  intros [P now on d0 Hon] Hc k Hk. unfold transact.
  destruct (run _ d0) as [[[] d1]|e] eqn:E; [|by apply Hc]. destruct (no_deferred d1); [|by apply Hc]. cbn [snd].
  apply daily_valuation_Ok in E as (_ & _ & _ & Ho & _). rewrite Ho by lia. by apply Hc.
Qed.

(** The settlement date of a fill cannot be computed on the day of the fill.
    Only the daily valuation writes the cached calendar, and only the date it
    runs for: whatever runs up to a day there were, the next trading day after
    it - and with it [add_trading_days(fill_date, 1)], which books every fill -
    raises [MarketCalendarCacheMissError].  Where the following days are cached,
    the lookup is the market clock's, whose properties are proved apart. *)
Theorem settlement_day_uncached today d d' :
  MIN_ORDINAL <= today < MAX_ORDINAL → cached_until today d → rtc (valuation_step today) d d' →
  checked_next_trading_day (cached_is_trading_day d') today = Raise MarketCalendarCacheMissError ∧
  checked_add_trading_days (cached_is_trading_day d') today 1 = Raise MarketCalendarCacheMissError ∧
  ∀ d2 close, (∀ i, 0 < i <= Z.of_nat MAX_CALENDAR_SEARCH_DAYS → is_Some (cached_day d2 (today + i))) →
    checked_next_trading_day (cached_is_trading_day d2) today = next_trading_day (calendar := cache_calendar d2 close) today.
Proof.
  intros Ht Hc Hr. assert (Hd' : cached_until today d').
  { induction Hr as [d|d d1 d' Hs _ IH]; [done|]. apply IH. by eapply valuation_step_cached. }
  assert (Hn : checked_next_trading_day (cached_is_trading_day d') today = Raise MarketCalendarCacheMissError).
  { unfold checked_next_trading_day, MAX_CALENDAR_SEARCH_DAYS. cbn [checked_search].
    assert (Ha : date_add today 1 = Ok (today + 1)) by (apply date_add_Ok; lia). rewrite Ha. cbn [mbind result_bind].
    assert (E : cached_is_trading_day d' (today + 1) = Raise MarketCalendarCacheMissError) by (unfold cached_is_trading_day; by rewrite Hd' by lia).
    by rewrite E. }
  split_and!; [done| |].
  - unfold checked_add_trading_days. change (Z.to_nat (Z.abs 1)) with 1%nat. cbn [repeat_step]. change (0 <=? 1) with true. cbv iota. by rewrite Hn.
  - intros d2 close Hcov. apply checked_search_refines. intros i Hi. replace (today + 1 * i) with (today + i) by lia. by apply Hcov.
Qed.

(** ** Witnesses *)

Definition sample_ports : MarketPorts :=
  {| get_trading_day := λ _, Ok {| day_is_trading := true; day_open_at := Some 1; day_close_at := Some 2 |};
     get_close := λ symbol _, Ok (if String.eqb symbol "AAPL" then Some (QD 4250000) else None) |}.

Definition sample_security : Security :=
  {| security_id := 900; security_symbol := "AAPL"; security_name := "Apple"; security_asset_class := EQUITY;
     security_status := SECURITY_ACTIVE; security_created_at := 0 |}.

(** The book of [Valuation.v], not yet priced. *)
Definition sample_unpriced : db :=
  set_table (H := trueup) TSecurity [sample_security] (set_table (H := trueup) TDailyClose [] sample_book).

Definition sample_valued : () * db := run_or (daily_valuation (H := sample_ports) 50 738155) sample_unpriced tt.

Lemma sample_valued_runs : run (daily_valuation (H := sample_ports) 50 738155) sample_unpriced = Ok sample_valued.
Proof. apply run_or_Ok. vm_compute. done. Qed.

Lemma daily_valuation_complete_witness :
  ∃ book, value_book 7 738155 sample_valued.2 = Ok book ∧ completeness book = Complete ∧ total_value book = QD 925000.
Proof.
  assert (Hlong : long_only 738155 sample_unpriced).
  { intros c s. apply sum_by_nonneg. intros p [_ Hp]%list_elem_of_filter. apply list_elem_of_filter in Hp as [_ Hp].
    apply list_elem_of_filter in Hp as [_ Hp]. revert p Hp. apply Forall_forall. repeat (constructor; [vm_compute; discriminate|]). constructor. }
  pose proof sample_valued_runs as H1.
  assert (H2 : value_book 7 738155 sample_valued.2 = Ok {| total_value := QD 925000; as_of_date := 738155; completeness := Complete |}) by (vm_compute; reflexivity).
  assert (H3 : valuation_status <$> run_of sample_valued.2 738155 = Some RUN_COMPLETE) by (vm_compute; reflexivity).
  revert H1 H2 H3 Hlong. generalize sample_valued sample_unpriced. intros [u d'] d H1 H2 H3 Hlong. cbn [snd] in *.
  destruct (daily_valuation_complete (H := sample_ports) 50 738155 d u d' H1 Hlong) as (_ & day & [= <-] & _ & Hrest).
  destruct (Hrest eq_refl) as (ids & ks & r & _ & _ & _ & _ & Hr & _ & _ & Hc). rewrite Hr in H3. injection H3 as H3.
  eexists. split_and!; [exact H2|exact (Hc H3 7 _ H2)|reflexivity].
Defined.

Lemma settlement_day_uncached_witness :
  checked_add_trading_days (cached_is_trading_day (transact no_deferred (daily_valuation (H := sample_ports) 50 738155) sample_unpriced).2) 738155 1
  = Raise MarketCalendarCacheMissError.
Proof.
  refine (proj1 (proj2 (settlement_day_uncached 738155 sample_unpriced _ _ _ _))).
  - vm_compute. intuition discriminate.
  - intros k _. unfold cached_day. assert (E : calendar_cache sample_unpriced = []) by (vm_compute; reflexivity). by rewrite E.
  - apply rtc_once, step_valuation. lia.
Defined.
