(* ===== verification/Intake.v ===== *)
(** * Event intake and dispatch

    [app/services/intake]: the path of every external event, from its signature
    check to the outbox row that hands it over, and the dispatcher that routes
    the row to its source's handler.  The signature check, the lookup of an
    event by its payload's id and the handlers are parameters. *)

From S2P Require Import Prelude PyDecimal MoneyTypes Calendar Store Schema Ledger Operations.
From Stdlib Require Import String.
From stdpp Require Import strings.
Open Scope Z_scope.

(** ** [EventIntakeService] *)

(** The validated envelope; [Field(min_length=1, max_length=255)] bounds its id. *)
Record IncomingEvent := {
  incoming_source : InboundEventSource;
  incoming_source_event_id : string;
  incoming_payload : list (string * json);
}.

Inductive IntakeResult := ACCEPTED_EVENT | DUPLICATE_EVENT | INVALID_SIGNATURE.

(** [InboundEventRepository.record]: the savepoint keeps the transaction alive
    when the unique key is taken, and [false] stands for DuplicateInboundEventError. *)
Definition record_event (e : InboundEvent) : prog bool := try_add TInboundEvent e.

(** The row [intake] makes of an event. *)
Definition new_event (id : uuid) (now : instant) (event : IncomingEvent) : InboundEvent :=
  {| event_id := id; event_source := incoming_source event;
     event_source_event_id := incoming_source_event_id event;
     event_payload := incoming_payload event; event_signature_verified := true;
     event_received_at := now; event_status := EVENT_RECEIVED;
     event_attempts := 0; event_last_error := None |}.

Definition take_in (event : IncomingEvent) : prog IntakeResult :=
  id ← uuid4;
  now ← gets db_now;
  fresh ← record_event (new_event id now event);
  if (fresh : bool) then
    enqueue "process_inbound_event" [("inbound_event_id"%string, uuid_str id)] ;;
    mret ACCEPTED_EVENT
  else mret DUPLICATE_EVENT.

Section Intake.
(** [SignatureVerifier.verify] *)
Context (verify : string → option string → bool).

Definition intake (event : IncomingEvent) (raw_payload : string) (signature : option string) (d : db)
    : result IntakeResult * db :=
  if negb (verify raw_payload signature) then (Ok INVALID_SIGNATURE, d)
  else transact no_deferred (take_in event) d.

(** ** Deliveries *)

(** A provider's call: the event, its raw bytes and its signature header. *)
Record delivery := Delivery {
  delivered_event : IncomingEvent;
  delivered_payload : string;
  delivered_signature : option string;
}.

Definition genuine (x : delivery) : bool := verify (delivered_payload x) (delivered_signature x).

Definition event_key (e : InboundEvent) : InboundEventSource * string :=
  (event_source e, event_source_event_id e).
Definition incoming_key (e : IncomingEvent) : InboundEventSource * string :=
  (incoming_source e, incoming_source_event_id e).

Fixpoint deliver_all (l : list delivery) (d : db) : list (result IntakeResult) * db :=
  match l with
  | [] => ([], d)
  | x :: l =>
      let (r, d1) := intake (delivered_event x) (delivered_payload x) (delivered_signature x) d in
      let (rs, d2) := deliver_all l d1 in
      (r :: rs, d2)
  end.

(** What intake promises: the answer to each delivery and the keys it takes in,
    given the keys already seen. *)
Fixpoint intake_spec (seen : list (InboundEventSource * string)) (l : list delivery)
    : list IntakeResult * list (InboundEventSource * string) :=
  match l with
  | [] => ([], [])
  | x :: l =>
      let k := incoming_key (delivered_event x) in
      if negb (genuine x) then let (rs, ks) := intake_spec seen l in (INVALID_SIGNATURE :: rs, ks)
      else if bool_decide (k ∈ seen) then let (rs, ks) := intake_spec seen l in (DUPLICATE_EVENT :: rs, ks)
      else let (rs, ks) := intake_spec (seen ++ [k]) l in (ACCEPTED_EVENT :: rs, k :: ks)
  end.

(** The outbox row that hands an event over. *)
Definition hands_over (e : InboundEvent) (r : JobOutbox) : Prop :=
  outbox_task r = "process_inbound_event" ∧ outbox_payload r = [("inbound_event_id"%string, uuid_str (event_id e))] ∧
  outbox_status r = OUTBOX_PENDING ∧ outbox_attempts r = 0.

(** [uuid4] is fresh for the events and the queue. *)
Definition intake_fresh (d : db) : Prop :=
  (∀ e, e ∈ inbound_events d → event_id e < next_uuid d) ∧
  (∀ r, r ∈ outbox d → outbox_id r < next_uuid d).

(** Accepting an event is exactly having a new key. *)
Lemma accepts_event d e :
  (∀ x, x ∈ inbound_events d → event_id x < event_id e) →
  accepts TInboundEvent d e = bool_decide (event_key e ∉ event_key <$> inbound_events d).
Proof.
  intros Hfresh. unfold accepts. cbn [valid references trueup valid_of references_of].
  rewrite !andb_true_l. apply eq_bool_prop_intro. rewrite bool_decide_spec, Is_true_true, forallb_forall.
  change (tables d TInboundEvent) with (inbound_events d). split.
  - intros Hall (x & Hk & Hx)%list_elem_of_fmap. apply list_elem_of_In in Hx. specialize (Hall x Hx).
    cbn in Hall. injection Hk as Hs Hi. rewrite Hs, Hi, bool_decide_eq_true_2, String.eqb_refl in Hall by done.
    rewrite orb_true_r in Hall. done.
  - intros Hni x Hx%list_elem_of_In. cbn. specialize (Hfresh x Hx).
    apply negb_true_iff, orb_false_iff. split; [apply Z.eqb_neq; lia|].
    apply andb_false_iff. destruct (bool_decide_reflect (event_source x = event_source e)) as [Hs|]; [|by left].
    right. apply String.eqb_neq. intros Hi. apply Hni, list_elem_of_fmap. exists x. unfold event_key. by rewrite Hs, Hi.
Qed.

Lemma enqueue_run task payload d :
  (∀ r, r ∈ outbox d → outbox_id r < next_uuid d) →
  run (enqueue task payload) d =
    Ok (new_job (next_uuid d) (db_now d) task payload,
        insert_row (H := trueup) TJobOutbox (new_job (next_uuid d) (db_now d) task payload)
          (Db (tables d) (next_uuid d + 1) (db_now d))).
Proof.
  intros Hfresh. unfold enqueue. rewrite run_bind. unfold uuid4, gets. cbn [run]. rewrite run_bind. cbn [run].
  rewrite run_bind. unfold add. cbn [run db_now next_uuid].
  match goal with |- context [accepts TJobOutbox ?d0 ?r0] => assert (Hacc : accepts TJobOutbox d0 r0 = true) end.
  { unfold accepts. cbn [valid references trueup valid_of references_of]. apply forallb_forall.
    intros x Hx%list_elem_of_In. specialize (Hfresh x Hx). apply negb_true_iff. cbn. apply Z.eqb_neq. lia. }
  rewrite Hacc. reflexivity.
Qed.

(** One genuine delivery. *)
Lemma take_in_run event d :
  intake_fresh d →
  ∃ d', run (take_in event) d =
      Ok (if bool_decide (incoming_key event ∈ event_key <$> inbound_events d)
          then DUPLICATE_EVENT else ACCEPTED_EVENT, d') ∧ intake_fresh d' ∧
    if bool_decide (incoming_key event ∈ event_key <$> inbound_events d)
    then inbound_events d' = inbound_events d ∧ outbox d' = outbox d
    else ∃ e r, inbound_events d' = inbound_events d ++ [e] ∧ outbox d' = outbox d ++ [r] ∧
         event_key e = incoming_key event ∧ event_payload e = incoming_payload event ∧ hands_over e r.
Proof.
  intros [He Ho]. unfold take_in, record_event. rewrite run_bind. unfold uuid4, gets. cbn [run].
  rewrite run_bind. cbn [run]. rewrite run_bind. unfold try_add. cbn [run db_now].
  set (d1 := Db (tables d) (next_uuid d + 1) (db_now d)).
  set (e := new_event (next_uuid d) (db_now d) event).
  rewrite (accepts_event d1 e) by (intros x Hx; apply He; exact Hx).
  change (inbound_events d1) with (inbound_events d). change (event_key e) with (incoming_key event).
  rewrite bool_decide_not. destruct (bool_decide (incoming_key event ∈ _)); cbn [negb].
  - exists d1. split; [done|]. split; [|done]. split; intros x Hx; [specialize (He x Hx)|specialize (Ho x Hx)]; cbn; lia.
  - set (d2 := insert_row (H := trueup) TInboundEvent e d1).
    assert (Ho2 : ∀ r, r ∈ outbox d2 → outbox_id r < next_uuid d2).
    { intros x Hx. specialize (Ho x Hx). cbn. lia. }
    rewrite run_bind, (enqueue_run _ _ d2 Ho2). set (r := new_job _ _ _ _).
    eexists. split; [reflexivity|].
    assert (Hev : inbound_events (insert_row (H := trueup) TJobOutbox r
      (Db (tables d2) (next_uuid d2 + 1) (db_now d2))) = inbound_events d ++ [e]) by reflexivity.
    assert (Hjo : outbox (insert_row (H := trueup) TJobOutbox r
      (Db (tables d2) (next_uuid d2 + 1) (db_now d2))) = outbox d ++ [r]) by reflexivity.
    split; [|exists e, r; by split_and!]. split; intros x Hx.
    + rewrite Hev in Hx. apply elem_of_app in Hx as [Hx|Hx%list_elem_of_singleton]; [specialize (He x Hx)|subst x]; cbn; lia.
    + rewrite Hjo in Hx. apply elem_of_app in Hx as [Hx|Hx%list_elem_of_singleton]; [specialize (Ho x Hx)|subst x]; cbn; lia.
Qed.

Lemma exists_cons {A} (P : A → Prop) x l : (∃ y, y ∈ x :: l ∧ P y) ↔ P x ∨ ∃ y, y ∈ l ∧ P y.
Proof.
  split.
  - intros (y & [->|Hy]%elem_of_cons & HP); [by left|right; by exists y].
  - intros [HP|(y & Hy & HP)]; [exists x|exists y]; (split; [|done]); [by left|by right].
Qed.

(** The keys the specification takes in: the new genuine ones, each once. *)
Lemma intake_spec_keys l seen :
  NoDup (intake_spec seen l).2 ∧
  ∀ k, k ∈ (intake_spec seen l).2 ↔
       (k ∉ seen) ∧ ∃ x, x ∈ l ∧ (genuine x = true ∧ incoming_key (delivered_event x) = k).
Proof.
  revert seen. induction l as [|x l IH]; intros seen; cbn [intake_spec].
  { split; [constructor|]. intros k. split; [by intros ?%elem_of_nil|].
    intros (_ & x & Hx & _). by apply elem_of_nil in Hx. }
  destruct (genuine x) eqn:Hg; cbn [negb].
  2: { destruct (IH seen) as [Hnd Hk]. destruct (intake_spec seen l) as [rs ks]. cbn [snd] in *.
       split; [done|]. intros k. rewrite Hk, exists_cons, Hg. naive_solver. }
  destruct (bool_decide_reflect (incoming_key (delivered_event x) ∈ seen)) as [Hin|Hni].
  - destruct (IH seen) as [Hnd Hk]. destruct (intake_spec seen l) as [rs ks]. cbn [snd] in *.
    split; [done|]. intros k. rewrite Hk, exists_cons. naive_solver.
  - destruct (IH (seen ++ [incoming_key (delivered_event x)])) as [Hnd Hk].
    destruct (intake_spec _ l) as [rs ks]. cbn [snd] in *. split.
    + constructor; [|done]. rewrite Hk, elem_of_app, list_elem_of_singleton. naive_solver.
    + intros k. rewrite elem_of_cons, Hk, exists_cons, elem_of_app, list_elem_of_singleton.
      destruct (decide (k = incoming_key (delivered_event x))); naive_solver.
Qed.

Lemma deliver_all_run l d :
  intake_fresh d →
  (deliver_all l d).1 = (Ok <$> (intake_spec (event_key <$> inbound_events d) l).1) ∧
  ∃ events jobs, inbound_events (deliver_all l d).2 = inbound_events d ++ events ∧
    outbox (deliver_all l d).2 = outbox d ++ jobs ∧
    event_key <$> events = (intake_spec (event_key <$> inbound_events d) l).2 ∧ Forall2 hands_over events jobs.
Proof.
  revert d. induction l as [|x l IH]; intros d Hd; cbn [intake_spec deliver_all].
  { split; [done|]. exists [], []. rewrite !app_nil_r. by split_and!. }
  unfold intake. change (verify _ _) with (genuine x). destruct (genuine x); cbn [negb].
  2: { specialize (IH d Hd). destruct (intake_spec _ l), (deliver_all l d). cbn [fst snd] in *.
       destruct IH as (-> & Hrows). exact (conj eq_refl Hrows). }
  destruct (take_in_run (delivered_event x) d Hd) as (d1 & Hrun & Hd1 & Hstep).
  unfold transact. rewrite Hrun. cbn [no_deferred]. specialize (IH d1 Hd1).
  destruct (bool_decide (incoming_key (delivered_event x) ∈ event_key <$> inbound_events d)).
  - destruct Hstep as [Hev Hjo]. rewrite Hev, Hjo in IH.
    destruct (intake_spec _ l), (deliver_all l d1). cbn [fst snd] in *. destruct IH as (-> & Hrows). exact (conj eq_refl Hrows).
  - destruct Hstep as (e & r & Hev & Hjo & Hkey & _ & Hh). rewrite Hev, fmap_app, Hjo in IH.
    cbn [fmap list_fmap] in IH. rewrite Hkey in IH.
    destruct (intake_spec _ l), (deliver_all l d1). cbn [fst snd] in *.
    destruct IH as (-> & evs & jobs & He2 & Ho2 & Hks & Hho). split; [done|].
    exists (e :: evs), (r :: jobs). rewrite He2, Ho2, <- !app_assoc. split_and!; [done|done| |by constructor].
    cbn. by rewrite Hkey, Hks.
Qed.

(** C13. However often a provider delivers its events, and in whatever order,
    each genuine event is taken in exactly once: intake answers the deliveries
    as the specification does, the keys it adds are the new genuine ones, each
    once and in order of first arrival, and the outbox grows by exactly one
    pending job per new event, naming it. *)
Theorem intake_exactly_once l d :
  intake_fresh d →
  let spec := intake_spec (event_key <$> inbound_events d) l in
  (deliver_all l d).1 = (Ok <$> spec.1) ∧ NoDup spec.2 ∧
  (∀ k, k ∈ spec.2 ↔ (k ∉ (event_key <$> inbound_events d)) ∧
                    ∃ x, x ∈ l ∧ genuine x = true ∧ incoming_key (delivered_event x) = k) ∧
  ∃ events jobs, inbound_events (deliver_all l d).2 = inbound_events d ++ events ∧
    outbox (deliver_all l d).2 = outbox d ++ jobs ∧
    event_key <$> events = spec.2 ∧ Forall2 hands_over events jobs.
Proof.
  intros Hd spec. destruct (deliver_all_run l d Hd) as [Hr Hrows].
  destruct (intake_spec_keys l (event_key <$> inbound_events d)) as [Hnd Hk].
  by split_and!.
Qed.
End Intake.

(** Three calls: an event, its redelivery, and a forgery. *)
Definition sample_incoming (id : string) : IncomingEvent :=
  {| incoming_source := STRIPE; incoming_source_event_id := id; incoming_payload := [] |}.

Definition sample_verify (raw : string) (signature : option string) : bool :=
  bool_decide (signature = Some "sig"%string).

Definition sample_deliveries : list delivery :=
  [Delivery (sample_incoming "evt_1") "{}" (Some "sig"%string);
   Delivery (sample_incoming "evt_1") "{}" (Some "sig"%string);
   Delivery (sample_incoming "evt_2") "{}" None].

Example sample_answers :
  (deliver_all sample_verify sample_deliveries (empty_db 0)).1 =
  [Ok ACCEPTED_EVENT; Ok DUPLICATE_EVENT; Ok INVALID_SIGNATURE].
Proof. vm_compute. reflexivity. Qed.

Lemma intake_exactly_once_witness :
  let spec := intake_spec sample_verify (event_key <$> inbound_events (empty_db 0)) sample_deliveries in
  let final := deliver_all sample_verify sample_deliveries (empty_db 0) in
  final.1 = (Ok <$> spec.1) ∧ NoDup spec.2 ∧
  (∀ k, k ∈ spec.2 ↔ (k ∉ (event_key <$> inbound_events (empty_db 0))) ∧
     ∃ x, x ∈ sample_deliveries ∧ genuine sample_verify x = true ∧ incoming_key (delivered_event x) = k) ∧
  ∃ events jobs, inbound_events final.2 = inbound_events (empty_db 0) ++ events ∧
    outbox final.2 = outbox (empty_db 0) ++ jobs ∧ event_key <$> events = spec.2 ∧ Forall2 hands_over events jobs.
Proof.
  apply (intake_exactly_once sample_verify sample_deliveries (empty_db 0)).
  split; intros x Hx; by apply elem_of_nil in Hx.
Defined.

(** ** [InboundEventDispatcher] *)

(** The registered handlers: [_handlers], a dict.  A handler runs transactions
    of its own. *)
Abbreviation handler := (list (string * json) → db → result () * db) (only parsing).
Abbreviation handlers := (InboundEventSource → option handler) (only parsing).

Definition register_handler (hs : handlers) (source : InboundEventSource) (h : handler) : handlers :=
  λ s, if decide (s = source) then Some h else hs s.

(** [payload[key]] on a job's payload. *)
Definition payload_get (key : string) (payload : list (string * string)) : option string :=
  snd <$> last (filter (λ f, f.1 = key) payload).

(** [InboundEventDispatcher.handle]; [get_by_id] is the fetcher it is passed. *)
Definition dispatch (hs : handlers) (get_by_id : string → option InboundEvent) (task : string)
    (payload : list (string * string)) (d : db) : result () * db :=
  if negb (String.eqb task "process_inbound_event") then (Raise UnregisteredSourceError, d)
  else
    match payload_get "inbound_event_id" payload with
    | None => (Raise KeyError, d)
    | Some event_id =>
        match get_by_id event_id with
        | None => (Raise UnregisteredSourceError, d)
        | Some event =>
            match hs (event_source event) with
            | None => (Raise UnregisteredSourceError, d)
            | Some h => h (event_payload event) d
            end
        end
    end.

(** A job that hands an event over reaches the handler of its source. *)
Lemma dispatch_hands_over hs get_by_id e r h d :
  hands_over e r → get_by_id (uuid_str (event_id e)) = Some e → hs (event_source e) = Some h →
  dispatch hs get_by_id (outbox_task r) (outbox_payload r) d = h (event_payload e) d.
Proof.
  intros (-> & -> & _ & _) Hget Hh. unfold dispatch. cbn [negb String.eqb Ascii.eqb Bool.eqb].
  change (payload_get _ _) with (Some (uuid_str (event_id e))). cbn. by rewrite Hget, Hh.
Qed.
