(* ===== verification/OrderEvents.v ===== *)
(** * Order events and their projection

    [models/orders/order_event.py] and the pure part of
    [services/orders/order_projection_service.py]: the sequence number of an
    event, computed in binary floating point as the source does, and the fold
    that rebuilds an order's status and fill from its events. *)

From S2P Require Import Prelude PyDecimal MoneyTypes Calendar Store Schema.
From Stdlib Require Import String.
From stdpp Require Import strings.
Open Scope Z_scope.

(** ** [seq_from_timestamp] *)

(** An IEEE double as [mantissa * 2 ^ exponent]: the nearest one to the positive
    rational [num / den], ties to even.  The rationals here are far from
    overflow and underflow. *)
Definition scaled (num den e : Z) : Z * Z :=
  if e <? 0 then (num * 2 ^ (- e), den) else (num, den * 2 ^ e).

Definition nearest_double (num den : Z) : Z * Z :=
  let e := Z.log2 num - Z.log2 den - 52 in
  let (n, d) := scaled num den e in
  let e := if n <? 2 ^ 52 * d then e - 1 else e in
  let (n, d) := scaled num den e in
  (rhe n d, e).

(** [int(x)] *)
Definition trunc_double (x : Z * Z) : Z :=
  if x.2 <? 0 then x.1 / 2 ^ (- x.2) else x.1 * 2 ^ x.2.

(** [ts.timestamp()]: the microseconds since the epoch over [10 ** 6]. *)
Definition timestamp (us : Z) : Z * Z := nearest_double us (10 ^ 6).

(** [x * 1_000_000] *)
Definition times_million (x : Z * Z) : Z * Z :=
  if x.2 <? 0 then nearest_double (x.1 * 10 ^ 6) (2 ^ (- x.2))
  else nearest_double (x.1 * 10 ^ 6 * 2 ^ x.2) 1.

Definition seq_from_timestamp (ts : instant) : Z :=
  Z.sgn ts * (if ts =? 0 then 0 else trunc_double (times_million (timestamp (Z.abs ts)))).

(** The nearest double of a rational, its exponent known. *)
Lemma scaled_neg num den k : 0 < k → scaled num den (- k) = (num * 2 ^ k, den).
Proof. intros Hk. unfold scaled. destruct (Z.ltb_spec (- k) 0); [|lia]. by rewrite Z.opp_involutive. Qed.

Lemma nearest_double_at num den k e :
  Z.log2 num - Z.log2 den - 52 = e → 1 < k →
  (e = - k ∧ 2 ^ 52 * den <= num * 2 ^ k) ∨ (e = - (k - 1) ∧ num * 2 ^ (k - 1) < 2 ^ 52 * den) →
  nearest_double num den = (rhe (num * 2 ^ k) den, - k).
Proof.
  intros He Hk Hc. unfold nearest_double. rewrite He. destruct Hc as [[-> Hle]|[-> Hlt]].
  - rewrite scaled_neg by lia. destruct (Z.ltb_spec (num * 2 ^ k) (2 ^ 52 * den)); [lia|].
    by rewrite scaled_neg by lia.
  - rewrite scaled_neg by lia. destruct (Z.ltb_spec (num * 2 ^ (k - 1)) (2 ^ 52 * den)); [|lia].
    replace (- (k - 1) - 1) with (- k) by lia. by rewrite scaled_neg by lia.
Qed.

(** The floating-point detour of [seq_from_timestamp] is exact for every
    timestamp from September 2005 to the 19th of January 2038: the sequence
    number of an event is its microsecond, so events sort as they happened and
    distinct microseconds never collide. *)
Theorem seq_from_timestamp_exact (ts : instant) :
  2 ^ 50 < ts < 2 ^ 31 * 10 ^ 6 → seq_from_timestamp ts = ts.
Proof.
  intros [Hlo Hhi]. unfold seq_from_timestamp. destruct (Z.eqb_spec ts 0); [lia|].
  rewrite Z.sgn_pos, Z.abs_eq, Z.mul_1_l by lia. unfold timestamp.
  assert (Z.log2 ts = 50) as Hl by (apply Z.log2_unique; lia).
  rewrite (nearest_double_at ts (10 ^ 6) 22 (-21)); [|by rewrite Hl|lia|right; split; [done|lia]].
  pose proof (rhe_near (ts * 2 ^ 22) (10 ^ 6) eq_refl) as Hm. set (m := rhe _ _) in *.
  assert (Z.log2 (m * 10 ^ 6) = 72) as Hl2 by (apply Z.log2_unique; lia).
  unfold times_million. cbn [fst snd]. change (Z.opp 22 <? 0) with true. cbn match. change (Z.opp (Z.opp 22)) with 22.
  rewrite (nearest_double_at (m * 10 ^ 6) (2 ^ 22) 2 (-2)); [|by rewrite Hl2|lia|left; split; [done|lia]].
  rewrite (rhe_unique (m * 10 ^ 6 * 2 ^ 2) (2 ^ 22) eq_refl (ts * 2 ^ 2)) by lia.
  unfold trunc_double. cbn [fst snd]. change (Z.opp 2 <? 0) with true. cbn match. by apply Z.div_mul.
Qed.

(** 2026-11-02T12:00:00.000001Z *)
Lemma seq_from_timestamp_exact_witness : seq_from_timestamp 1793620800000001 = 1793620800000001.
Proof. apply (seq_from_timestamp_exact 1793620800000001). split; vm_compute; reflexivity. Defined.

(** From then on two consecutive microseconds can share a number, and the
    second event violates the unique key of [(order_id, seq)]. *)
Example seq_collides_after_2038 :
  seq_from_timestamp 2147483648999983 = seq_from_timestamp 2147483648999982.
Proof. vm_compute. reflexivity. Qed.

(** ** [fold] *)

Record OrderProjectionState := {
  state_status : OrderStatus;
  state_filled_quantity : Units;
  state_average_fill_price : option Price;
}.

(** [payload[key]] *)
Definition payload_item (key : string) (payload : list (string * json)) : result json :=
  match json_get key payload with Some v => Ok v | None => Raise KeyError end.

(** What a fill event says: [Units(str(payload["quantity"]))] at
    [Price(str(payload["price"]))]. *)
Definition fill_of (e : OrderEvent) : result (Units * Price) :=
  quantity ← payload_item "quantity" (order_event_payload e);
  fill_quantity ← init UnitsD (VStr (json_str quantity));
  price ← payload_item "price" (order_event_payload e);
  fill_price ← init PriceD (VStr (json_str price));
  Ok (fill_quantity, fill_price).

(** The loop's state: status, filled quantity, total notional. *)
Definition fold_event (quantity_requested : Units) (acc : OrderStatus * Units * Money) (e : OrderEvent)
    : result (OrderStatus * Units * Money) :=
  let '(_, filled_quantity, total_notional) := acc in
  match order_event_type e with
  | EV_SUBMITTED => Ok (SUBMITTED, filled_quantity, total_notional)
  | EV_ACCEPTED => Ok (ACCEPTED, filled_quantity, total_notional)
  | EV_FILL =>
      '(fill_quantity, fill_price) ← fill_of e;
      filled_quantity ← q_add filled_quantity fill_quantity;
      notional ← price_times_units fill_price fill_quantity;
      total_notional ← q_add total_notional notional;
      Ok (if q_leb quantity_requested filled_quantity then FILLED else PARTIALLY_FILLED,
          filled_quantity, total_notional)
  | EV_REJECTED => Ok (REJECTED, filled_quantity, total_notional)
  | EV_CANCELED => Ok (CANCELED, filled_quantity, total_notional)
  | EV_EXPIRED => Ok (EXPIRED, filled_quantity, total_notional)
  end.

Definition seq_le (a b : OrderEvent) : bool := order_event_seq a <=? order_event_seq b.

Definition fold (events : list OrderEvent) (quantity_requested : Units) : result OrderProjectionState :=
  '(status, filled_quantity, total_notional) ←
     foldr_result (fold_event quantity_requested) (sort_by seq_le events) (APPROVED, zero, zero);
  average_fill_price ←
     (if q_ltb zero filled_quantity
      then p ← money_div_units total_notional filled_quantity; Ok (Some p)
      else Ok None);
  Ok {| state_status := status; state_filled_quantity := filled_quantity;
        state_average_fill_price := average_fill_price |}.

(** *** The order of the events on file does not matter *)

Lemma seq_le_total a b : seq_le a b = true ∨ seq_le b a = true.
Proof. unfold seq_le. rewrite !Z.leb_le. lia. Qed.

Lemma seq_le_trans a b c : seq_le a b = true → seq_le b c = true → seq_le a c = true.
Proof. unfold seq_le. rewrite !Z.leb_le. lia. Qed.

Lemma sort_events_sorted l : StronglySorted (le_of seq_le) (sort_by seq_le l).
Proof. apply sort_by_sorted; [apply seq_le_total|apply seq_le_trans]. Qed.

(** A list with distinct numbers has one sorted arrangement. *)
Lemma sorted_events_unique l k :
  NoDup (order_event_seq <$> l) → l ≡ₚ k → StronglySorted (le_of seq_le) l → StronglySorted (le_of seq_le) k → l = k.
Proof.
  revert k. induction l as [|x l IH]; intros k Hnd Hp Hl Hk.
  { by apply Permutation_nil_l in Hp. }
  destruct k as [|y k]; [by apply Permutation_nil_r in Hp|].
  apply StronglySorted_inv in Hl as [Hl Hx], Hk as [Hk Hy].
  cbn in Hnd. apply NoDup_cons in Hnd as [Hni Hnd]. rewrite Forall_forall in Hx, Hy.
  assert (x = y) as <-.
  { assert (y ∈ x :: l) as [->|Hyl]%elem_of_cons by (rewrite Hp; by left); [done|].
    assert (x ∈ y :: k) as [->|Hxk]%elem_of_cons by (rewrite <- Hp; by left); [done|].
    specialize (Hx y Hyl). specialize (Hy x Hxk). unfold le_of, seq_le in Hx, Hy. zbool.
    exfalso. apply Hni, list_elem_of_fmap. exists y. split; [lia|done]. }
  f_equal. apply IH; [done| |done|done]. by apply Permutation_cons_inv in Hp.
Qed.

Lemma sort_events_perm l k :
  NoDup (order_event_seq <$> l) → l ≡ₚ k → sort_by seq_le l = sort_by seq_le k.
Proof.
  intros Hnd Hp. apply sorted_events_unique; [|by rewrite !sort_by_perm| |]; [|apply sort_events_sorted..].
  by rewrite sort_by_perm.
Qed.

(** *** What the fold computes *)

Definition is_fill (e : OrderEvent) : Prop := order_event_type e = EV_FILL.
#[export] Instance is_fill_dec e : Decision (is_fill e).
Proof. unfold is_fill. apply _. Defined.

(** The status an event leaves, the fills up to it filling [filled]. *)
Definition status_after (requested : Units) (filled : Z) (e : OrderEvent) : OrderStatus :=
  match order_event_type e with
  | EV_SUBMITTED => SUBMITTED
  | EV_ACCEPTED => ACCEPTED
  | EV_FILL => if quanta requested <=? filled then FILLED else PARTIALLY_FILLED
  | EV_REJECTED => REJECTED
  | EV_CANCELED => CANCELED
  | EV_EXPIRED => EXPIRED
  end.

Definition fill_units (f : Units * Price) : Z := quanta f.1.

(** A fill's notional, rounded half to even as it is added. *)
Definition fill_notional (f : Units * Price) : Z := rhe (quanta f.2 * quanta f.1) (10 ^ 8).

Lemma foldr_result_snoc {A B} (f : B → A → result B) l x acc :
  foldr_result f (l ++ [x]) acc = (acc' ← foldr_result f l acc; f acc' x).
Proof.
  revert acc. induction l as [|y l IH]; intros acc; cbn.
  - by destruct (f acc x).
  - destruct (f acc y); [apply IH|done].
Qed.

Lemma fold_loop_Ok req l s q n :
  foldr_result (fold_event req) l (APPROVED, zero, zero) = Ok (s, q, n) →
  ∃ fills, map_result fill_of (filter is_fill l) = Ok fills ∧
    quanta q = sum_by fill_units fills ∧ quanta n = sum_by fill_notional fills ∧
    s = from_option (status_after req (quanta q)) APPROVED (last l).
Proof.
  revert s q n. induction l as [|e l IH] using rev_ind; intros s q n.
  { cbn. intros [= <- <- <-]. exists []. by split_and!. }
  rewrite foldr_result_snoc, bind_Ok. intros ([[s0 q0] n0] & Hl & He).
  destruct (IH s0 q0 n0 Hl) as (fills & Hf & Hq & Hn & _). rewrite filter_app, last_snoc. cbn [from_option].
  unfold fold_event in He. destruct (decide (is_fill e)) as [Hfill|Hno].
  - unfold is_fill in Hfill. rewrite Hfill in He. inv_result. destruct x as [fq fp]. inv_result.
    repeat match goal with
    | E : q_add _ _ = Ok _ |- _ => apply q_add_Ok in E as [_ E]
    | E : price_times_units _ _ = Ok _ |- _ => apply price_times_units_Ok in E as [_ E]
    end.
    exists (fills ++ [(fq, fp)]). rewrite !sum_by_app, !sum_by_cons, !sum_by_nil. unfold fill_units at 2, fill_notional at 2.
    cbn [fst snd]. split_and!; [|lia|lia|].
    + apply map_result_Forall2, Forall2_app; [by apply map_result_Forall2|].
      rewrite filter_cons_True by done. by repeat constructor.
    + unfold status_after. by rewrite Hfill.
  - exists fills. rewrite filter_cons_False, filter_nil, app_nil_r by done. unfold is_fill in Hno.
    split_and!; [done| | |]; unfold status_after; destruct (order_event_type e); try done; inv_result; congruence.
Qed.

Lemma last_sorted l e :
  NoDup (order_event_seq <$> l) → e ∈ l → (∀ x, x ∈ l → order_event_seq x <= order_event_seq e) →
  last (sort_by seq_le l) = Some e.
Proof.
  intros Hnd (l1 & l2 & ->)%list_elem_of_split Hmax. set (l := l1 ++ e :: l2) in *.
  assert (Hp : sort_by seq_le l ≡ₚ sort_by seq_le (l1 ++ l2) ++ [e]).
  { rewrite !sort_by_perm. unfold l. rewrite <- app_assoc. apply Permutation_app_head. by rewrite Permutation_app_comm. }
  assert (sort_by seq_le l = sort_by seq_le (l1 ++ l2) ++ [e]) as ->; [|apply last_snoc].
  apply sorted_events_unique; [by rewrite sort_by_perm|done|apply sort_events_sorted|].
  apply StronglySorted_app; split_and!; [|apply sort_events_sorted|repeat constructor].
  intros x y Hx [->|Hy]%elem_of_cons; [|by apply elem_of_nil in Hy]. unfold le_of, seq_le. apply Z.leb_le, Hmax.
  rewrite sort_by_perm in Hx. unfold l. set_solver.
Qed.

(** C29. The projection of an order is a function of the set of its events: in
    whatever order they reach the fold it gives the same state or the same
    error.  The filled quantity is the sum of the fills, the average price their
    total notional (each rounded to a ten-thousandth) over that sum, and the
    status is decided by the event with the greatest sequence number alone. *)
Theorem fold_projects events req k :
  NoDup (order_event_seq <$> events) → k ≡ₚ events →
  fold k req = fold events req ∧
  ∀ st, fold events req = Ok st →
    (∃ fills, map_result fill_of (filter is_fill (sort_by seq_le events)) = Ok fills ∧
       quanta (state_filled_quantity st) = sum_by fill_units fills ∧
       match state_average_fill_price st with
       | None => sum_by fill_units fills <= 0
       | Some p => 0 < sum_by fill_units fills ∧
                   money_div_units (QD (sum_by fill_notional fills)) (state_filled_quantity st) = Ok p
       end) ∧
    (events = [] → state_status st = APPROVED) ∧
    (∀ e, e ∈ events → (∀ x, x ∈ events → order_event_seq x <= order_event_seq e) →
       state_status st = status_after req (quanta (state_filled_quantity st)) e).
Proof.
  intros Hnd Hp. split.
  { unfold fold. rewrite (sort_events_perm k events); [done| |done]. by rewrite Hp. }
  intros st. unfold fold. rewrite bind_Ok. intros ([[s q] n] & Hloop & Hst).
  apply bind_Ok in Hst as (avg & Havg & [= <-]).
  destruct (fold_loop_Ok _ _ _ _ _ Hloop) as (fills & Hf & Hq & Hn & Hs). cbn [state_filled_quantity
    state_average_fill_price state_status]. split_and!.
  - exists fills. split_and!; [done|done|]. unfold q_ltb in Havg. change (quanta zero) with 0 in Havg.
    destruct (Z.ltb_spec 0 (quanta q)) as [Hpos|Hneg]; [|injection Havg as <-; lia].
    apply bind_Ok in Havg as (p & Hdiv & [= <-]). split; [lia|]. rewrite <- Hn. by destruct n.
  - intros ->. exact Hs.
  - intros e He Hmax. by rewrite (last_sorted events e Hnd He Hmax) in Hs.
Qed.

Definition sample_event (seq : Z) (type : OrderEventType) (payload : list (string * json)) : OrderEvent :=
  {| order_event_id := seq; order_event_order_id := 1; order_event_seq := seq; order_event_type := type;
     order_event_execution_id := None; order_event_payload := payload; order_event_recorded_at := 0 |}.

(** A fill the broker stamped before the submission was recorded. *)
Definition sample_events : list OrderEvent :=
  [sample_event 30 EV_SUBMITTED []; sample_event 10 EV_FILL [("quantity"%string, JStr "2"); ("price"%string, JStr "10.5")];
   sample_event 20 EV_FILL [("quantity"%string, JStr "1"); ("price"%string, JStr "12")]].

Definition sample_state : OrderProjectionState :=
  {| state_status := SUBMITTED; state_filled_quantity := QD 3000000; state_average_fill_price := Some (QD 11000000) |}.

(** All three units are filled, and yet the order reads as submitted. *)
Lemma fold_projects_witness :
  fold (reverse sample_events) (QD 3000000) = fold sample_events (QD 3000000) ∧
  ∀ st, fold sample_events (QD 3000000) = Ok st →
    (∃ fills, map_result fill_of (filter is_fill (sort_by seq_le sample_events)) = Ok fills ∧
       quanta (state_filled_quantity st) = sum_by fill_units fills ∧
       match state_average_fill_price st with
       | None => sum_by fill_units fills <= 0
       | Some p => 0 < sum_by fill_units fills ∧
                   money_div_units (QD (sum_by fill_notional fills)) (state_filled_quantity st) = Ok p
       end) ∧
    (sample_events = [] → state_status st = APPROVED) ∧
    (∀ e, e ∈ sample_events → (∀ x, x ∈ sample_events → order_event_seq x <= order_event_seq e) →
       state_status st = status_after (QD 3000000) (quanta (state_filled_quantity st)) e).
Proof.
  apply (fold_projects sample_events (QD 3000000) (reverse sample_events)).
  - apply (bool_decide_unpack (NoDup (order_event_seq <$> sample_events))). vm_compute. exact I.
  - apply reverse_Permutation.
Defined.

Example late_submission_masks_fills : fold sample_events (QD 3000000) = Ok sample_state.
Proof. vm_compute. reflexivity. Qed.
