(* ===== verification/Orders.v ===== *)
(** * Orders

    [app/services/orders] and the order repositories: creation under the
    approval threshold, approval, submission to the broker, the projection kept
    from the events, the holds behind it all, specific-lot designation, and the
    handler of the broker's trade updates. *)

From S2P Require Import Prelude PyDecimal MoneyTypes Calendar Store Schema Ledger CashPolicy Funding Valuation Restatement Lots LotBooks Operations OrderEvents.
From Stdlib Require Import String.
From stdpp Require Import strings.
Open Scope Z_scope.

(** ** Repositories *)

Definition derive_client_order_id (id : uuid) : string := "trueup-" +:+ uuid_str id.

(** [get_by_id], [get_for_update] *)
Definition order_by_id (d : db) (id : uuid) : option Order :=
  head (filter (λ o, order_id o = id) (orders d)).

Definition order_by_client_order_id (d : db) (client_order_id : string) : option Order :=
  head (filter (λ o, order_client_order_id o = client_order_id) (orders d)).

Definition list_for_order (d : db) (id : uuid) : list OrderEvent :=
  sort_by seq_le (filter (λ e, order_event_order_id e = id) (order_events d)).

(** Past the approval window and not resolved yet. *)
Definition is_in_flight (s : OrderStatus) : bool :=
  bool_decide (s = SUBMITTED ∨ s = ACCEPTED ∨ s = PARTIALLY_FILLED).

Definition open_orders (side : OrderSide) (d : db) (customer : uuid) : list Order :=
  filter (λ o, order_customer_id o = customer ∧ order_side o = side ∧ is_in_flight (order_status o) = true) (orders d).

Definition open_buy_orders := open_orders BUY.
Definition open_sell_orders := open_orders SELL.

Definition hold_by_order (d : db) (id : uuid) : option ApprovalHold :=
  head (filter (λ h, hold_order_id h = id) (approval_holds d)).

Definition is_active_hold (customer : uuid) (h : ApprovalHold) : Prop :=
  hold_customer_id h = customer ∧ hold_status h = HOLD_ACTIVE.
#[export] Instance is_active_hold_dec c h : Decision (is_active_hold c h).
Proof. unfold is_active_hold. apply _. Defined.

Definition active_total_for_customer (customer : uuid) (d : db) : result Money :=
  q_sum (hold_amount_money <$> filter (is_active_hold customer) (approval_holds d)).

(** Assigning attributes of an order row: [updated_at] follows only when one of
    them changes, for only then is an UPDATE emitted. *)
Definition set_order (now : instant) (status : OrderStatus) (filled : Units) (average : option Price) (o : Order) : Order :=
  if bool_decide (status = order_status o) && q_eqb filled (order_filled_quantity o) &&
     match average, order_average_fill_price o with
     | Some a, Some b => q_eqb a b
     | None, None => true
     | _, _ => false
     end
  then o
  else {| order_id := order_id o; order_customer_id := order_customer_id o; order_security_id := order_security_id o;
          order_side := order_side o; order_quantity_requested := order_quantity_requested o;
          order_status := status; order_filled_quantity := filled; order_average_fill_price := average;
          order_designated_lot_ids := order_designated_lot_ids o; order_client_order_id := order_client_order_id o;
          order_created_at := order_created_at o; order_updated_at := now |}.

Definition assign_order (id : uuid) (f : instant → Order → Order) : prog () :=
  now ← gets db_now;
  update TOrder (λ o : Order, order_id o =? id) (f now).

(** ** [ApprovalHoldService] *)

Definition open_hold (order customer : uuid) (amount : Money) : prog ApprovalHold :=
  id ← uuid4;
  let hold := {| hold_id := id; hold_order_id := order; hold_customer_id := customer;
                 hold_amount_money := amount; hold_status := HOLD_ACTIVE;
                 hold_released_at := None; hold_release_reason := None |} in
  add TApprovalHold hold ;;
  mret hold.

Definition set_released (reason : ApprovalHoldReleaseReason) (at_ : instant) (h : ApprovalHold) : ApprovalHold :=
  {| hold_id := hold_id h; hold_order_id := hold_order_id h; hold_customer_id := hold_customer_id h;
     hold_amount_money := hold_amount_money h; hold_status := HOLD_RELEASED;
     hold_released_at := Some at_; hold_release_reason := Some reason |}.

Definition release_hold (order : uuid) (reason : ApprovalHoldReleaseReason) (released_at : instant) : prog () :=
  hold ← gets (λ d, hold_by_order d order);
  match hold with
  | None => mret tt
  | Some h =>
      if bool_decide (hold_status h = HOLD_RELEASED) then mret tt
      else update TApprovalHold (λ x : ApprovalHold, hold_id x =? hold_id h) (set_released reason released_at)
  end.

(** ** [OrderHoldsProvider] *)

(** The body of the loop of [open_buy_commitments]. *)
Definition buy_commitment (d : db) (total : Money) (order : Order) : result Money :=
  remaining ← q_sub (order_quantity_requested order) (order_filled_quantity order);
  match order_average_fill_price order with
  | Some price =>
      committed ← units_times_price remaining price;
      q_add total committed
  | None =>
      match hold_by_order d (order_id order) with
      | Some hold => q_add total (hold_amount_money hold)
      | None => Ok total
      end
  end.

#[export] Instance order_holds : HoldsProvider := {|
  holds := active_total_for_customer;
  open_buy_commitments := λ customer d, foldr_result (buy_commitment d) (open_buy_orders d customer) zero;
|}.

(** ** [OrderProjectionService] *)

Definition is_terminal_non_filled (s : OrderStatus) : option ApprovalHoldReleaseReason :=
  match s with
  | REJECTED => Some RELEASE_REJECTED
  | CANCELED => Some RELEASE_CANCELED
  | EXPIRED => Some RELEASE_EXPIRED
  | _ => None
  end.

(** [_release_hold_if_warranted] *)
Definition release_hold_if_warranted (order : uuid) (status : OrderStatus) (now : instant) : prog () :=
  if bool_decide (status = SUBMITTED) then release_hold order RELEASE_APPROVED_AND_SUBMITTED now
  else match is_terminal_non_filled status with
       | Some reason => release_hold order reason now
       | None => mret tt
       end.

Definition apply_new_event (order : Order) (event : OrderEvent) (now : instant) : prog OrderProjectionState :=
  add TOrderEvent event ;;
  events ← gets (λ d, list_for_order d (order_id order));
  state ← lift (fold events (order_quantity_requested order));
  assign_order (order_id order)
    (λ at_, set_order at_ (state_status state) (state_filled_quantity state) (state_average_fill_price state)) ;;
  release_hold_if_warranted (order_id order) (state_status state) now ;;
  mret state.

(** ** [OrderService] *)

(** The broker, as [submit_order] and [cancel_order] answer. *)
Class BrokerPort := {
  submit_order : string → string → OrderSide → string → result string;
  cancel_order : string → result ();
}.

Record OrderCreationRequest := {
  request_customer_id : uuid;
  request_security_id : uuid;
  request_side : OrderSide;
  request_quantity : Units;
  request_reference_price : Price;
}.

(** [_require_eligible_customer] *)
Definition require_eligible_customer (customer : uuid) : prog () :=
  reason ← gets (λ d, ineligibility d customer);
  match reason with
  | Some r => throw (CustomerNotEligibleError r)
  | None => mret tt
  end.

(** The row [create_order] adds. *)
Definition new_order (id : uuid) (now : instant) (request : OrderCreationRequest) (status : OrderStatus) : Order :=
  {| order_id := id; order_customer_id := request_customer_id request;
     order_security_id := request_security_id request; order_side := request_side request;
     order_quantity_requested := request_quantity request; order_status := status;
     order_filled_quantity := zero; order_average_fill_price := None; order_designated_lot_ids := None;
     order_client_order_id := derive_client_order_id id; order_created_at := now; order_updated_at := now |}.

Definition create_order `{HoldsProvider} (approval_threshold_usd : Money) (request : OrderCreationRequest) : prog Order :=
  require_eligible_customer (request_customer_id request) ;;
  acquire_cash_lock (request_customer_id request) ;;
  notional ← lift (price_times_units (request_reference_price request) (request_quantity request));
  (if bool_decide (request_side request = BUY) then
     available ← queries (investable (request_customer_id request));
     require (negb (q_ltb available notional)) InsufficientInvestableCashError
   else mret tt) ;;
  id ← uuid4;
  now ← gets db_now;
  let status := if q_ltb approval_threshold_usd notional then AWAITING_APPROVAL else APPROVED in
  let order := new_order id now request status in
  add TOrder order ;;
  open_hold id (request_customer_id request) notional ;;
  mret order.

(** [approve] *)
Definition approve_order (id : uuid) : prog Order :=
  found ← gets (λ d, order_by_id d id);
  match found with
  | None => throw OrderNotFoundError
  | Some order =>
      require (bool_decide (order_status order = AWAITING_APPROVAL)) InvalidOrderTransitionError ;;
      let f := λ at_ o, set_order at_ APPROVED (order_filled_quantity o) (order_average_fill_price o) o in
      assign_order id f ;;
      now ← gets db_now;
      mret (f now order)
  end.

(** [_broker_order_id] *)
Definition broker_order_id_of (e : OrderEvent) : option string :=
  match order_event_type e, json_get "broker_order_id" (order_event_payload e) with
  | EV_SUBMITTED, Some (JStr s) => if String.eqb s "" then None else Some s
  | _, _ => None
  end.

Definition broker_order_id (d : db) (order : Order) : result string :=
  match head (omap broker_order_id_of (list_for_order d (order_id order))) with
  | Some s => Ok s
  | None => Raise OrderHasNoBrokerOrderIdError
  end.

(** [request_cancel] *)
Definition request_cancel `{BrokerPort} (id : uuid) : prog Order :=
  found ← gets (λ d, order_by_id d id);
  match found with
  | None => throw OrderNotFoundError
  | Some order =>
      require (is_in_flight (order_status order)) OrderNotCancellableError ;;
      target ← queries (λ d, broker_order_id d order);
      lift (cancel_order target) ;;
      mret order
  end.

Definition enqueue_submission (order : Order) : prog () :=
  security ← gets (λ d, head (filter (λ s, security_id s = order_security_id order) (securities d)));
  match security with
  | None => throw SecurityNotFoundError
  | Some s =>
      enqueue "submit_order_to_broker"
        [("order_id"%string, uuid_str (order_id order)); ("symbol"%string, security_symbol s)] ;;
      mret tt
  end.

(** The readings of the clock while an event is synthesized. *)
Record Readings := { reading_seq : instant; reading_recorded : instant; reading_released : instant }.

(** [_synthesize_event] *)
Definition synthesize_event (order : Order) (type : OrderEventType) (payload : list (string * json)) (now : Readings)
    : prog () :=
  id ← uuid4;
  apply_new_event order
    {| order_event_id := id; order_event_order_id := order_id order;
       order_event_seq := seq_from_timestamp (reading_seq now); order_event_type := type;
       order_event_execution_id := None; order_event_payload := payload;
       order_event_recorded_at := reading_recorded now |} (reading_released now) ;;
  mret tt.

(** [submit_to_broker]; it returns the requests the broker has answered. *)
Definition submit_to_broker `{BrokerPort} (id : uuid) (symbol : string) (now : Readings) : prog (list string) :=
  found ← gets (λ d, order_by_id d id);
  match found with
  | None => mret []
  | Some order =>
      if negb (bool_decide (order_status order = APPROVED)) then mret []
      else
        reason ← gets (λ d, ineligibility d (order_customer_id order));
        match reason with
        | Some r => synthesize_event order EV_REJECTED [("reason"%string, JStr r)] now ;; mret []
        | None =>
            handle ← lift (submit_order (order_client_order_id order) symbol (order_side order)
                             (q_str (order_quantity_requested order)));
            synthesize_event order EV_SUBMITTED [("broker_order_id"%string, JStr handle)] now ;;
            mret [order_client_order_id order]
        end
  end.

(** ** [LotDesignationService] *)

Definition MAX_DESIGNATED_LOTS : Z := 50.

(** The named lots, each the customer's and of the security. *)
Definition named_lot (d : db) (customer security : uuid) (id : uuid) : result TaxLot :=
  match lot_by_id d id with
  | None => Raise UnknownTaxLotError
  | Some lot =>
      ensure ((lot_customer_id lot =? customer) && (lot_security_id lot =? security)) UnknownTaxLotError ;;
      Ok lot
  end.

(** An open sell order that names one of these lots; an empty designation is none. *)
Definition claims_from (named : list uuid) (order : Order) : Prop :=
  match order_designated_lot_ids order with
  | Some ids => ∃ id, id ∈ ids ∧ id ∈ named
  | None => False
  end.
#[export] Instance claims_from_dec named o : Decision (claims_from named o).
Proof.
  unfold claims_from. destruct (order_designated_lot_ids o) as [ids|]; [|apply _].
  destruct (decide (Exists (λ id, id ∈ named) ids)) as [H|H]; [left|right]; by rewrite Exists_exists in H.
Defined.

Definition add_open_claim (total : Units) (open_sell : Order) : result Units :=
  rest ← q_sub (order_quantity_requested open_sell) (order_filled_quantity open_sell);
  q_add total rest.

Definition validate_designation (customer security : uuid) (side : OrderSide) (quantity : Units)
    (lot_ids : option (list uuid)) (d : db) : result (option (list uuid)) :=
  match lot_ids with
  | None => Ok None
  | Some ids =>
      ensure (bool_decide (side = SELL)) LotDesignationNotAllowedForBuyError ;;
      ensure (negb (bool_decide (ids = []))) EmptyLotDesignationError ;;
      ensure (bool_decide (NoDup ids)) DuplicateLotDesignationError ;;
      ensure (Z.of_nat (length ids) <=? MAX_DESIGNATED_LOTS) TooManyDesignatedLotsError ;;
      named_lots ← map_result (named_lot d customer security) ids;
      named_total ← q_sum (lot_quantity_remaining <$> named_lots);
      already_committed ← foldr_result add_open_claim
        (filter (claims_from ids) (open_sell_orders d customer)) zero;
      cover ← q_sub named_total already_committed;
      ensure (negb (q_ltb cover quantity)) InsufficientDesignatedLotsError ;;
      Ok (Some ids)
  end.

(** ** Placing an order ([POST /orders], after authentication and parsing) *)

(** [uow.idempotency_keys.find] and [resolve_replay]: the stored answer, unless
    the key came with another body. *)
Definition find_key (d : db) (customer : uuid) (key : string) : result (option IdempotencyKey) :=
  scalar_one_or_none (filter (λ k, idem_customer_id k = customer ∧ idem_key k = key) (idempotency_keys d)).

Definition resolve_replay (record : IdempotencyKey) (request_hash : string) : result (Z * json) :=
  ensure (String.eqb (idem_request_hash record) request_hash) IdempotencyConflictError ;;
  Ok (idem_response_status record, idem_response_body record).

Definition set_designation (ids : option (list uuid)) (o : Order) : Order :=
  {| order_id := order_id o; order_customer_id := order_customer_id o; order_security_id := order_security_id o;
     order_side := order_side o; order_quantity_requested := order_quantity_requested o;
     order_status := order_status o; order_filled_quantity := order_filled_quantity o;
     order_average_fill_price := order_average_fill_price o; order_designated_lot_ids := ids;
     order_client_order_id := order_client_order_id o; order_created_at := order_created_at o;
     order_updated_at := order_updated_at o |}.

(** What the request needs besides the parsed body: the idempotency key, the
    digest of the raw body, the clock, and the rendering of the response. *)
Record OrderCall := {
  call_key : string;
  call_request_hash : string;
  call_now : instant;
  call_render : Order → json;
}.

Definition place_order (approval_threshold_usd : Money) (call : OrderCall) (request : OrderCreationRequest)
    (lot_ids : option (list uuid)) : prog (Z * json) :=
  let customer := request_customer_id request in
  existing ← queries (λ d, find_key d customer (call_key call));
  match existing with
  | Some record => lift (resolve_replay record (call_request_hash call))
  | None =>
      designated ← queries (validate_designation customer (request_security_id request) (request_side request)
                              (request_quantity request) lot_ids);
      order ← create_order approval_threshold_usd request;
      update TOrder (λ o : Order, order_id o =? order_id order) (set_designation designated) ;;
      (if bool_decide (order_status order = APPROVED) then enqueue_submission order else mret tt) ;;
      let body := call_render call (set_designation designated order) in
      id ← uuid4;
      add TIdempotencyKey {| idem_id := id; idem_customer_id := customer; idem_key := call_key call;
        idem_request_hash := call_request_hash call; idem_response_status := 201;
        idem_response_body := body; idem_created_at := call_now call |} ;;
      mret (201, body)
  end.

(** ** [AlpacaTradeUpdateHandler] *)

(** The validated message. *)
Record TradeUpdate := {
  update_event : string;
  update_execution_id : option string;
  update_client_order_id : string;
  update_timestamp : instant;
  update_price : option string;
  update_qty : option string;
}.

(** [_EVENT_TYPE_BY_ALPACA_EVENT] *)
Definition event_type_of (event : string) : option OrderEventType :=
  if String.eqb event "new" then Some EV_ACCEPTED
  else if String.eqb event "fill" then Some EV_FILL
  else if String.eqb event "partial_fill" then Some EV_FILL
  else if String.eqb event "canceled" then Some EV_CANCELED
  else if String.eqb event "expired" then Some EV_EXPIRED
  else if String.eqb event "rejected" then Some EV_REJECTED
  else None.

Definition json_of_option (s : option string) : json :=
  match s with Some s => JStr s | None => JNull end.

(** [_PUSH_WORTHY_STATUSES] *)
Definition is_push_worthy (s : OrderStatus) : bool :=
  bool_decide (s = FILLED ∨ s = PARTIALLY_FILLED) || bool_decide (is_Some (is_terminal_non_filled s)).

(** The notification after the commit: customer, order and new status. *)
Record Push := { push_customer : uuid; push_order : uuid; push_status : OrderStatus }.

Section TradeUpdates.
Context `{TradingCalendar} (utc_offset : instant → Z) (market_instant : date * Z → instant).

(** [_record_lot_fill] *)
Definition record_lot_fill (order : Order) (execution_id : option string) (message : TradeUpdate) : prog () :=
  match execution_id, update_qty message, update_price message with
  | Some execution_id, Some qty, Some price_ =>
      quantity ← lift (init UnitsD (VStr qty));
      price ← lift (init PriceD (VStr price_));
      match order_side order with
      | BUY =>
          record_buy_fill utc_offset market_instant (order_customer_id order) (order_security_id order) execution_id
            quantity price (update_timestamp message) ;; mret tt
      | SELL =>
          record_sell_fill utc_offset (order_customer_id order) (order_security_id order) execution_id
            quantity price (update_timestamp message) (order_designated_lot_ids order) ;; mret tt
      end
  | _, _, _ => throw InvalidFillPayloadError
  end.

(** The transaction of [handle], for a message of a tracked kind. *)
Definition apply_update (type : OrderEventType) (payload : list (string * json)) (message : TradeUpdate)
    (recorded_at released_at : instant) : prog Push :=
  found ← gets (λ d, order_by_client_order_id d (update_client_order_id message));
  match found with
  | None => throw OrderNotFoundForClientOrderIdError
  | Some order =>
      let is_fill := bool_decide (type = EV_FILL) in
      let event_payload :=
        if is_fill then [("quantity"%string, json_of_option (update_qty message));
                         ("price"%string, json_of_option (update_price message))]
        else payload in
      let execution_id := if is_fill then update_execution_id message else None in
      id ← uuid4;
      state ← apply_new_event order
        {| order_event_id := id; order_event_order_id := order_id order;
           order_event_seq := seq_from_timestamp (update_timestamp message); order_event_type := type;
           order_event_execution_id := execution_id; order_event_payload := event_payload;
           order_event_recorded_at := recorded_at |} released_at;
      (if is_fill then record_lot_fill order execution_id message else mret tt) ;;
      mret {| push_customer := order_customer_id order; push_order := order_id order;
              push_status := state_status state |}
  end.

(** [handle]: [model_validate] is the message's schema. *)
Definition handle_trade_update (model_validate : list (string * json) → result TradeUpdate)
    (payload : list (string * json)) (recorded_at released_at : instant) (d : db) : result (option Push) * db :=
  match model_validate payload with
  | Raise e => (Raise e, d)
  | Ok message =>
      match event_type_of (update_event message) with
      | None => (Ok None, d)
      | Some type =>
          match transact ledger_balance (apply_update type payload message recorded_at released_at) d with
          | (Raise e, d) => (Raise e, d)
          | (Ok push, d) => (Ok (if is_push_worthy (push_status push) then Some push else None), d)
          end
      end
  end.
End TradeUpdates.
