(* ===== verification/OrderBooks.v ===== *)
(** * The order book's invariants

    What the order services keep true: every order's cached status and fill are
    the fold of its events, and the cash behind an open buy stays reserved from
    its creation through its submission. *)

From S2P Require Import Prelude PyDecimal MoneyTypes Calendar Store Schema Ledger CashPolicy Funding Valuation Restatement Lots LotBooks Operations OrderEvents Orders.
From Stdlib Require Import String.
From stdpp Require Import strings.
Open Scope Z_scope.

(** ** What the programs write *)

Definition fill_tables : list tables_ := TSettlementObligation :: adjustment_tables.

Lemma writes_on_loss_sale k c s : writes adjustment_tables (on_loss_sale k c s).
Proof. unfold on_loss_sale. pose proof writes_apply_adjustment. writes_auto. Qed.

Lemma writes_on_buy_fill l : writes adjustment_tables (on_buy_fill l).
Proof.
  unfold on_buy_fill. repeat writes_step; auto using writes_apply_adjustment.
Qed.
#[local] Hint Resolve writes_apply_adjustment writes_on_loss_sale writes_on_buy_fill : writes.

Lemma writes_select c s ids : writes [TTaxLot] (select_lots_to_consume c s ids).
Proof. unfold select_lots_to_consume, designate_lot, assign_lot. writes_auto. Qed.

Lemma writes_consume ex p a f q ls : writes [TTaxLot; TLotConsumption] (consume_lots ex p a f q ls).
Proof. unfold consume_lots, consume_lot, assign_lot. writes_auto. Qed.
#[local] Hint Resolve writes_select writes_consume : writes.

Section LotWrites.
Context `{TradingCalendar} (utc_offset : instant → Z) (market_instant : date * Z → instant).

Lemma writes_buy_fill c s ex q p at_ : writes fill_tables (record_buy_fill utc_offset market_instant c s ex q p at_).
Proof. unfold record_buy_fill, fill_tables, adjustment_tables. writes_auto. Qed.

Lemma writes_sell_fill c s ex q p at_ ids : writes fill_tables (record_sell_fill utc_offset c s ex q p at_ ids).
Proof. unfold record_sell_fill, fill_tables, adjustment_tables. writes_auto. Qed.

Lemma writes_record_lot_fill o ex m : writes fill_tables (record_lot_fill utc_offset market_instant o ex m).
Proof.
  pose proof writes_buy_fill. pose proof writes_sell_fill. unfold record_lot_fill. writes_auto.
Qed.
End LotWrites.

(** ** The projection *)

(** What an order's row says of its events. *)
Definition projection (o : Order) : OrderProjectionState :=
  {| state_status := order_status o; state_filled_quantity := order_filled_quantity o;
     state_average_fill_price := order_average_fill_price o |}.

(** [projection == fold(order_event)], from the first event on; before it the
    order waits, unfilled. *)
Definition projected_by (events : list OrderEvent) (o : Order) : Prop :=
  match events with
  | [] => (order_status o = AWAITING_APPROVAL ∨ order_status o = APPROVED) ∧
          order_filled_quantity o = zero ∧ order_average_fill_price o = None
  | _ => fold events (order_quantity_requested o) = Ok (projection o)
  end.

Definition orders_ok (d : db) : Prop :=
  integrity d ∧ (∀ o, o ∈ orders d → order_id o < next_uuid d) ∧
  (∀ e, e ∈ order_events d → order_event_order_id e ∈ order_id <$> orders d) ∧
  (∀ o, o ∈ orders d → projected_by (list_for_order d (order_id o)) o).

(** The same while the order [id] is being rebuilt. *)
Definition orders_ok_but (id : uuid) (d : db) : Prop :=
  integrity d ∧ (∀ o, o ∈ orders d → order_id o < next_uuid d) ∧
  (∀ e, e ∈ order_events d → order_event_order_id e ∈ order_id <$> orders d) ∧
  (∀ o, o ∈ orders d → order_id o ≠ id → projected_by (list_for_order d (order_id o)) o).

Lemma orders_ok_weaken id d : orders_ok d → orders_ok_but id d.
Proof. intros (H1 & H2 & H3 & H4). split_and!; [done|done|done|]. intros o Ho _. by apply H4. Qed.

Lemma order_key (a b : Order) : order_id a = order_id b → conflicts (Schema := trueup) TOrder a b = true.
Proof. intros E. cbn. by rewrite E, Z.eqb_refl. Qed.

Lemma order_by_id_In d o : integrity d → o ∈ orders d → order_by_id d (order_id o) = Some o.
Proof.
  intros Hd Ho. unfold order_by_id. pose proof (filter_unique TOrder order_id d o order_key Hd Ho) as E.
  exact (f_equal head E).
Qed.

Lemma order_by_id_Some d id o : order_by_id d id = Some o → o ∈ orders d ∧ order_id o = id.
Proof. unfold order_by_id. intros Ho. by apply head_Some_elem_of, list_elem_of_filter in Ho as [? ?]. Qed.

Lemma order_id_inj d o o' : integrity d → o ∈ orders d → o' ∈ orders d → order_id o = order_id o' → o = o'.
Proof.
  intros Hd Ho Ho' E. pose proof (order_by_id_In _ _ Hd Ho) as H1. rewrite E, (order_by_id_In _ _ Hd Ho') in H1.
  by injection H1.
Qed.

Lemma quanta_eq {d} (a b : qd d) : q_eqb a b = true → a = b.
Proof. unfold q_eqb. intros E%Z.eqb_eq. destruct a, b. cbn in E. by subst. Qed.

Lemma set_order_projection at_ s f a o :
  projection (set_order at_ s f a o) =
    {| state_status := s; state_filled_quantity := f; state_average_fill_price := a |} ∧
  order_id (set_order at_ s f a o) = order_id o ∧
  order_quantity_requested (set_order at_ s f a o) = order_quantity_requested o ∧
  order_customer_id (set_order at_ s f a o) = order_customer_id o ∧
  order_side (set_order at_ s f a o) = order_side o.
Proof.
  unfold set_order. destruct (bool_decide (s = order_status o) && q_eqb f (order_filled_quantity o) && _) eqn:E;
    [|by split_and!].
  apply andb_true_iff in E as [[->%bool_decide_eq_true Hf%quanta_eq]%andb_true_iff Ha]. subst f.
  split_and!; [|done..]. unfold projection. f_equal.
  destruct a as [a|], (order_average_fill_price o) as [b|]; try done. by apply quanta_eq in Ha as ->.
Qed.

(** Writes elsewhere keep the order book. *)
Lemma orders_ok_frame {A} ts (m : prog A) d a d' :
  writes ts m → forallb (λ t, bool_decide (t ∉ [TOrder; TOrderEvent])) ts = true →
  orders_ok d → run m d = Ok (a, d') → orders_ok d'.
Proof.
  intros Hw Hts (Hd & Hf & He & Hp) Hr.
  assert (Hn : ∀ t, t ∈ [TOrder; TOrderEvent] → tables d' t = tables d t).
  { intros t Ht. refine (Hw d a d' Hr t _). intros Hin. rewrite forallb_forall in Hts.
    apply list_elem_of_In in Hin. specialize (Hts t Hin). by apply bool_decide_eq_true in Hts. }
  pose proof (Hn TOrder ltac:(by left) : orders d' = orders d) as Ho.
  pose proof (Hn TOrderEvent ltac:(right; by left) : order_events d' = order_events d) as Hev.
  destruct (run_extends _ _ _ _ Hr) as (Hu & _ & _). unfold orders_ok, list_for_order. rewrite Ho, Hev.
  split_and!; [exact (run_integrity _ _ _ _ Hd Hr)| |done|done]. intros o Hin. specialize (Hf o Hin). lia.
Qed.

Lemma orders_ok_uuid d : orders_ok d → orders_ok (Db (tables d) (next_uuid d + 1) (db_now d)).
Proof.
  intros Hok. by apply (orders_ok_frame [] uuid4 d (next_uuid d)); [apply writes_uuid4|done|done|].
Qed.

(** An order with a fresh id has no events. *)
Lemma orders_ok_add o d u d' :
  orders_ok d → order_id o < next_uuid d → projected_by [] o →
  run (add TOrder o) d = Ok (u, d') → orders_ok d' ∧ orders d' = orders d ++ [o].
Proof.
  intros (Hd & Hf & He & Hp) Hid Ho Hr. pose proof (run_integrity _ _ _ _ Hd Hr) as Hd'.
  apply run_add_Ok in Hr as [Hacc ->].
  assert (Hos : orders (insert_row (H := trueup) TOrder o d) = orders d ++ [o]) by reflexivity.
  assert (Hes : order_events (insert_row (H := trueup) TOrder o d) = order_events d) by reflexivity.
  split; [|exact Hos]. unfold orders_ok, list_for_order. rewrite Hos, Hes. split_and!; [done| | |].
  - intros x [Hx|Hx%list_elem_of_singleton]%elem_of_app; [exact (Hf x Hx)|by subst x].
  - intros e Hin. rewrite fmap_app. apply elem_of_app. left. by apply He.
  - intros x [Hx|Hx%list_elem_of_singleton]%elem_of_app; [exact (Hp x Hx)|subst x].
    assert (filter (λ e, order_event_order_id e = order_id o) (order_events d) = []) as ->; [|exact Ho].
    apply filter_none. intros e Hin Heq. apply He in Hin as (x & Hxe & Hx)%list_elem_of_fmap.
    apply andb_true_iff in Hacc as [_ Hc]. rewrite forallb_forall in Hc.
    specialize (Hc x (proj1 (list_elem_of_In _ _) Hx)). cbn in Hc.
    rewrite <- Heq, Hxe, Z.eqb_refl in Hc. done.
Qed.

(** One order's row replaced by a row its events still project to. *)
Lemma orders_ok_assign id f d u d' :
  orders_ok_but id d → run (update TOrder (λ o : Order, order_id o =? id) f) d = Ok (u, d') →
  (∀ o, o ∈ orders d → order_id o = id →
     order_id (f o) = id ∧ projected_by (list_for_order d id) (f o)) → orders_ok d'.
Proof.
  intros (Hd & Hf & He & Hp) Hr Hset. pose proof (run_integrity _ _ _ _ Hd Hr) as Hd'.
  apply run_update_Ok in Hr as (_ & _ & _ & _ & ->).
  assert (Hos : orders (set_table (H := trueup) TOrder
      (update_table TOrder (λ o : Order, order_id o =? id) f d) d) =
    (λ o, if order_id o =? id then f o else o) <$> orders d) by reflexivity.
  assert (Hes : order_events (set_table (H := trueup) TOrder
      (update_table TOrder (λ o : Order, order_id o =? id) f d) d) = order_events d) by reflexivity.
  assert (Hids : order_id <$> ((λ o, if order_id o =? id then f o else o) <$> orders d) = order_id <$> orders d).
  { rewrite <- list_fmap_compose. apply list_fmap_ext. intros i o Ho%list_elem_of_lookup_2. cbn.
    destruct (Z.eqb_spec (order_id o) id) as [E|]; [|done]. destruct (Hset o Ho E) as [-> _]. by symmetry. }
  unfold orders_ok, list_for_order. rewrite Hos, Hes, Hids. split_and!; [done| |done|].
  - intros x Hx. assert (order_id x ∈ order_id <$> orders d) as (y & -> & Hy)%list_elem_of_fmap.
    { rewrite <- Hids. by apply list_elem_of_fmap_2. }
    exact (Hf y Hy).
  - intros x (o & -> & Ho)%list_elem_of_fmap. destruct (Z.eqb_spec (order_id o) id) as [E|E]; [|exact (Hp o Ho E)].
    destruct (Hset o Ho E) as [Hi Hproj]. by rewrite Hi.
Qed.

Lemma list_for_order_insert (e : OrderEvent) id d :
  list_for_order (insert_row (H := trueup) TOrderEvent e d) id =
    if decide (order_event_order_id e = id)
    then sort_by seq_le (filter (λ e, order_event_order_id e = id) (order_events d) ++ [e])
    else list_for_order d id.
Proof.
  unfold list_for_order.
  change (order_events (insert_row (H := trueup) TOrderEvent e d)) with (order_events d ++ [e]).
  rewrite filter_app. destruct (decide (order_event_order_id e = id)) as [E|E].
  - by rewrite filter_cons_True by done.
  - by rewrite filter_cons_False, filter_nil, app_nil_r by done.
Qed.

(** A new event puts every other order in suspense of none. *)
Lemma orders_ok_event (e : OrderEvent) d u d' :
  orders_ok d → run (add TOrderEvent e) d = Ok (u, d') →
  orders_ok_but (order_event_order_id e) d' ∧ d' = insert_row (H := trueup) TOrderEvent e d.
Proof.
  intros (Hd & Hf & He & Hp) Hr. pose proof (run_integrity _ _ _ _ Hd Hr) as Hd'.
  apply run_add_Ok in Hr as [Hacc ->]. split; [|done]. split_and!; [done|exact Hf| |].
  - intros x Hx. change (order_events (insert_row (H := trueup) TOrderEvent e d)) with (order_events d ++ [e]) in Hx.
    apply elem_of_app in Hx as [Hx|Hx%list_elem_of_singleton]; [exact (He x Hx)|subst x].
    apply andb_true_iff in Hacc as [[_ Hrf]%andb_true_iff _]. cbn in Hrf.
    apply existsb_exists in Hrf as (o & Ho & E%Z.eqb_eq). rewrite <- E.
    apply list_elem_of_fmap_2. by apply list_elem_of_In.
  - intros o Ho Hne. rewrite list_for_order_insert, decide_False by done. exact (Hp o Ho).
Qed.

Lemma list_for_order_ne (e : OrderEvent) id d :
  order_event_order_id e = id → list_for_order (insert_row (H := trueup) TOrderEvent e d) id ≠ [].
Proof.
  intros E. rewrite list_for_order_insert, decide_True by done. intros Hn%(f_equal length).
  rewrite (Permutation_length (sort_by_perm _ _)), length_app in Hn. cbn in Hn. lia.
Qed.

Lemma projected_by_fold events o st :
  events ≠ [] → fold events (order_quantity_requested o) = Ok st → projection o = st → projected_by events o.
Proof. intros Hne Hf <-. by destruct events. Qed.

Lemma writes_release_hold id r at_ : writes [TApprovalHold] (release_hold id r at_).
Proof. unfold release_hold. writes_auto. Qed.

Lemma writes_release_if_warranted id s at_ : writes [TApprovalHold] (release_hold_if_warranted id s at_).
Proof. unfold release_hold_if_warranted. pose proof writes_release_hold. writes_auto. Qed.

(** [apply_new_event] in steps. *)
Lemma apply_new_event_Ok order e now d st d' :
  run (apply_new_event order e now) d = Ok (st, d') →
  ∃ d1 d2, run (add TOrderEvent e) d = Ok (tt, d1) ∧
    fold (list_for_order d1 (order_id order)) (order_quantity_requested order) = Ok st ∧
    run (update TOrder (λ o : Order, order_id o =? order_id order)
      (set_order (db_now d1) (state_status st) (state_filled_quantity st) (state_average_fill_price st))) d1 = Ok (tt, d2) ∧
    run (release_hold_if_warranted (order_id order) (state_status st) now) d2 = Ok (tt, d').
Proof.
  unfold apply_new_event. intros ([] & d1 & H1 & H)%run_bind_Ok.
  apply run_bind_Ok in H as (evs & ? & [<- <-]%run_gets_Ok & H).
  apply run_bind_Ok in H as (st' & ? & [Hf <-]%run_lift_Ok & H).
  apply run_bind_Ok in H as ([] & d2 & H2 & H). unfold assign_order in H2.
  apply run_bind_Ok in H2 as (n & ? & [<- <-]%run_gets_Ok & H2).
  apply run_bind_Ok in H as ([] & d3 & H3 & [<- <-]%run_ret_Ok).
  exists d1, d2. split_and!; [exact H1|exact Hf|exact H2|exact H3].
Qed.

Lemma orders_ok_new_event order e now d st d' :
  orders_ok d → order ∈ orders d → order_event_order_id e = order_id order →
  run (apply_new_event order e now) d = Ok (st, d') → orders_ok d'.
Proof.
  intros Hok Hin He (d1 & d2 & H1 & Hf & H2 & H3)%apply_new_event_Ok.
  destruct (orders_ok_event e d tt d1 Hok H1) as [Hbut ->]. rewrite He in Hbut.
  assert (Hok2 : orders_ok d2).
  { apply (orders_ok_assign _ _ _ _ _ Hbut H2). intros o Ho Hid.
    destruct (set_order_projection (db_now (insert_row (H := trueup) TOrderEvent e d)) (state_status st)
      (state_filled_quantity st) (state_average_fill_price st) o) as (Hproj & Hsid & Hq & _).
    split; [by rewrite Hsid|]. apply (projected_by_fold _ _ st); [by apply list_for_order_ne| |].
    - rewrite Hq. destruct Hok as (Hd & _).
      change (orders (insert_row (H := trueup) TOrderEvent e d)) with (orders d) in Ho.
      by rewrite (order_id_inj d o order Hd Ho Hin Hid).
    - rewrite Hproj. by destruct st. }
  exact (orders_ok_frame _ _ d2 tt d' (writes_release_if_warranted _ _ _) eq_refl Hok2 H3).
Qed.

(** ** Every operation keeps the projection *)

Lemma require_eligible_Ok c d u d' :
  run (require_eligible_customer c) d = Ok (u, d') → d' = d ∧ ineligibility d c = None.
Proof.
  unfold require_eligible_customer. intros (r & d1 & [<- <-]%run_gets_Ok & H)%run_bind_Ok.
  destruct (ineligibility d c); [done|]. by apply run_ret_Ok in H as [_ <-].
Qed.

(** What a successful [create_order] did. *)
Lemma create_order_Ok `{HoldsProvider} threshold req d o d' :
  run (create_order threshold req) d = Ok (o, d') →
  ∃ notional d2 d3, ineligibility d (request_customer_id req) = None ∧
    price_times_units (request_reference_price req) (request_quantity req) = Ok notional ∧
    (request_side req = BUY → ∃ available, investable (request_customer_id req) d = Ok available ∧
                                           quanta notional <= quanta available) ∧
    o = new_order (next_uuid d) (db_now d) req
          (if q_ltb threshold notional then AWAITING_APPROVAL else APPROVED) ∧
    d2 = Db (tables d) (next_uuid d + 1) (db_now d) ∧
    run (add TOrder o) d2 = Ok (tt, d3) ∧
    ∃ h, run (open_hold (order_id o) (request_customer_id req) notional) d3 = Ok (h, d').
Proof.
  unfold create_order. intros (u1 & d1 & [-> Hel]%require_eligible_Ok & Hr)%run_bind_Ok.
  apply run_bind_Ok in Hr as (u2 & d1 & ->%acquire_Ok & Hr).
  apply run_bind_Ok in Hr as (notional & d1 & [Hn <-]%run_lift_Ok & Hr).
  apply run_bind_Ok in Hr as (u3 & d1 & Hguard & Hr).
  assert (d1 = d ∧ (request_side req = BUY → ∃ available, investable (request_customer_id req) d = Ok available ∧
            quanta notional <= quanta available)) as [-> Hcov].
  { destruct (bool_decide_reflect (request_side req = BUY)) as [|Hs].
    - apply run_bind_Ok in Hguard as (av & d2 & [Hav <-]%run_queries_Ok & [Hle <-]%run_require_Ok).
      split; [done|]. intros _. exists av. unfold q_ltb in Hle. zbool. split; [done|lia].
    - apply run_ret_Ok in Hguard as [_ <-]. by split. }
  apply run_bind_Ok in Hr as (id & d1 & [-> ->]%run_uuid4_Ok & Hr).
  apply run_bind_Ok in Hr as (n & d1 & [<- <-]%run_gets_Ok & Hr).
  apply run_bind_Ok in Hr as ([] & d3 & Hadd & Hr).
  apply run_bind_Ok in Hr as (h & d4 & Hh & [<- <-]%run_ret_Ok).
  eexists notional, _, d3. split_and!; [done|done|done|reflexivity|reflexivity|exact Hadd|].
  exists h. exact Hh.
Qed.

Lemma writes_open_hold o c m : writes [TApprovalHold] (open_hold o c m).
Proof. unfold open_hold. writes_auto. Qed.

Lemma create_keeps `{HoldsProvider} threshold req d o d' :
  orders_ok d → run (create_order threshold req) d = Ok (o, d') → orders_ok d' ∧ o ∈ orders d'.
Proof.
  intros Hok (notional & d2 & d3 & _ & _ & _ & Ho & -> & Hadd & h & Hh)%create_order_Ok.
  apply orders_ok_uuid in Hok.
  assert (orders_ok d3 ∧ orders d3 = orders d ++ [o]) as [Hok3 Hos].
  { refine (orders_ok_add o _ _ _ Hok _ _ Hadd); subst o; [cbn; lia|].
    split_and!; [destruct (q_ltb _ _); [by left|by right]|done|done]. }
  split; [exact (orders_ok_frame _ _ _ _ _ (writes_open_hold _ _ _) eq_refl Hok3 Hh)|].
  assert (orders d' = orders d3) as ->.
  { exact (writes_open_hold _ _ _ d3 h d' Hh TOrder ltac:(by intros ?%list_elem_of_singleton)). }
  rewrite Hos. apply elem_of_app. right. by apply list_elem_of_singleton.
Qed.

(** An order that still waits has no events. *)
Lemma waiting_no_events d o :
  orders_ok d → o ∈ orders d → order_status o = AWAITING_APPROVAL ∨ order_status o = APPROVED →
  list_for_order d (order_id o) = [] ∧ order_filled_quantity o = zero ∧ order_average_fill_price o = None.
Proof.
  intros (_ & _ & _ & Hp) Ho Hs. specialize (Hp o Ho). destruct (list_for_order d (order_id o)) as [|e l] eqn:He.
  - by destruct Hp as (_ & Hf & Ha).
  - exfalso. unfold projected_by, fold in Hp.
    apply bind_Ok in Hp as ([[s q] n0] & Hloop & Hst). apply bind_Ok in Hst as (avg & _ & [= Hst]).
    apply fold_loop_Ok in Hloop as (_ & _ & _ & _ & Hlast).
    assert (Hne : sort_by seq_le (e :: l) ≠ []).
    { intros Hn%(f_equal length). by rewrite (Permutation_length (sort_by_perm _ _)) in Hn. }
    destruct (last (sort_by seq_le (e :: l))) as [z|] eqn:Hz; [|by apply last_None in Hz].
    cbn in Hlast. unfold status_after in Hlast.
    destruct (order_event_type z); try (destruct Hs; congruence). destruct (_ <=? _), Hs; congruence.
Qed.

Lemma approve_keeps id d o d' : orders_ok d → run (approve_order id) d = Ok (o, d') → orders_ok d'.
Proof.
  intros Hok Hr. unfold approve_order in Hr. apply run_bind_Ok in Hr as (found & d1 & [<- <-]%run_gets_Ok & Hr).
  destruct (order_by_id d id) as [x|] eqn:Hx; [|done]. apply order_by_id_Some in Hx as [Hx Hid].
  apply run_bind_Ok in Hr as (u & d1 & [Hs%bool_decide_eq_true <-]%run_require_Ok & Hr).
  apply run_bind_Ok in Hr as (u1 & d1 & Hu & Hr). apply run_bind_Ok in Hr as (n & d2 & [_ <-]%run_gets_Ok & Hr).
  apply run_ret_Ok in Hr as [_ <-]. unfold assign_order in Hu.
  apply run_bind_Ok in Hu as (now & d2 & [<- <-]%run_gets_Ok & Hu).
  refine (orders_ok_assign id _ d u1 d1 (orders_ok_weaken _ _ Hok) Hu _). intros y Hy Hyid.
  destruct (waiting_no_events d x Hok Hx (or_introl Hs)) as (Hnone & Hf & Ha). rewrite Hid in Hnone.
  destruct Hok as (Hd & _). rewrite (order_id_inj d y x Hd Hy Hx) in * by congruence.
  destruct (set_order_projection (db_now d) APPROVED (order_filled_quantity x) (order_average_fill_price x) x)
    as (Hpr & Hsid & _). split; [congruence|]. unfold projection in Hpr. injection Hpr as Hps Hpf Hpa.
  rewrite Hnone. split_and!; [right; by rewrite Hps|congruence|congruence].
Qed.

Lemma synthesize_keeps o type payload now d u d' :
  orders_ok d → o ∈ orders d → run (synthesize_event o type payload now) d = Ok (u, d') → orders_ok d'.
Proof.
  intros Hok Ho Hr. unfold synthesize_event in Hr. apply run_bind_Ok in Hr as (id & d1 & [-> ->]%run_uuid4_Ok & Hr).
  apply run_bind_Ok in Hr as (st & d1 & Hr & [_ <-]%run_ret_Ok). apply orders_ok_uuid in Hok.
  refine (orders_ok_new_event o _ _ _ _ _ Hok Ho _ Hr). reflexivity.
Qed.

Lemma submit_keeps `{BrokerPort} id symbol now d l d' :
  orders_ok d → run (submit_to_broker id symbol now) d = Ok (l, d') → orders_ok d'.
Proof.
  intros Hok Hr. unfold submit_to_broker in Hr. apply run_bind_Ok in Hr as (found & d1 & [<- <-]%run_gets_Ok & Hr).
  destruct (order_by_id d id) as [x|] eqn:Hx; [|by apply run_ret_Ok in Hr as [_ <-]].
  apply order_by_id_Some in Hx as [Hx _]. destruct (negb _); [by apply run_ret_Ok in Hr as [_ <-]|].
  apply run_bind_Ok in Hr as (reason & d1 & [<- <-]%run_gets_Ok & Hr). destruct (ineligibility d _) as [r|].
  - apply run_bind_Ok in Hr as (u & d1 & Hr & [_ <-]%run_ret_Ok). exact (synthesize_keeps _ _ _ _ _ _ _ Hok Hx Hr).
  - apply run_bind_Ok in Hr as (h & d1 & [_ <-]%run_lift_Ok & Hr).
    apply run_bind_Ok in Hr as (u & d1 & Hr & [_ <-]%run_ret_Ok). exact (synthesize_keeps _ _ _ _ _ _ _ Hok Hx Hr).
Qed.

Lemma writes_enqueue_submission o : writes [TJobOutbox] (enqueue_submission o).
Proof. unfold enqueue_submission, enqueue. writes_auto. Qed.

(** What a successful [place_order] did: a replay, or a new order under its key. *)
Lemma place_order_Ok threshold call req ids d res d' :
  run (place_order threshold call req ids) d = Ok (res, d') →
  (∃ k, find_key d (request_customer_id req) (call_key call) = Ok (Some k) ∧
        idem_request_hash k = call_request_hash call ∧
        res = (idem_response_status k, idem_response_body k) ∧ d' = d) ∨
  (find_key d (request_customer_id req) (call_key call) = Ok None ∧
   ∃ designated o d1 d2 d3 u k d4,
    validate_designation (request_customer_id req) (request_security_id req) (request_side req)
      (request_quantity req) ids d = Ok designated ∧
    run (create_order threshold req) d = Ok (o, d1) ∧
    run (update TOrder (λ x : Order, order_id x =? order_id o) (set_designation designated)) d1 = Ok (tt, d2) ∧
    run (if bool_decide (order_status o = APPROVED) then enqueue_submission o else mret tt) d2 = Ok (u, d3) ∧
    d4 = Db (tables d3) (next_uuid d3 + 1) (db_now d3) ∧
    idem_customer_id k = request_customer_id req ∧ idem_key k = call_key call ∧
    idem_request_hash k = call_request_hash call ∧ res = (idem_response_status k, idem_response_body k) ∧
    run (add TIdempotencyKey k) d4 = Ok (tt, d')).
Proof.
  unfold place_order. intros (existing & d1 & [Hk <-]%run_queries_Ok & Hr)%run_bind_Ok.
  destruct existing as [k|].
  - left. apply run_lift_Ok in Hr as [Hr <-]. unfold resolve_replay in Hr.
    apply bind_Ok in Hr as (u & Hh%ensure_Ok & [= <-]). exists k. split_and!; [done| |done|done].
    by apply String.eqb_eq.
  - right. split; [done|].
    apply run_bind_Ok in Hr as (designated & d1 & [Hdes <-]%run_queries_Ok & Hr).
    apply run_bind_Ok in Hr as (o & d1 & Hc & Hr). apply run_bind_Ok in Hr as ([] & d2 & Hu & Hr).
    apply run_bind_Ok in Hr as (u & d3 & Hq & Hr). apply run_bind_Ok in Hr as (id & d4 & [-> ->]%run_uuid4_Ok & Hr).
    apply run_bind_Ok in Hr as ([] & d5 & Ha & [<- <-]%run_ret_Ok).
    eexists designated, o, d1, d2, d3, u, _, _.
    split_and!; [exact Hdes|exact Hc|exact Hu|exact Hq|reflexivity|..|exact Ha]; reflexivity.
Qed.

Lemma place_keeps threshold call req ids d res d' :
  orders_ok d → run (place_order threshold call req ids) d = Ok (res, d') → orders_ok d'.
Proof.
  intros Hok [(k & _ & _ & _ & ->)|(_ & des & o & d1 & d2 & d3 & u & k & d4 & _ & Hc & Hu & Hq & -> & _ & _ & _ & _ & Ha)]%place_order_Ok;
    [done|].
  destruct (create_keeps _ _ _ _ _ Hok Hc) as [Hok1 Ho].
  assert (Hok2 : orders_ok d2).
  { refine (orders_ok_assign _ _ _ _ _ (orders_ok_weaken _ _ Hok1) Hu _). intros x Hx Hid.
    split; [exact Hid|]. destruct Hok1 as (_ & _ & _ & Hp). rewrite <- Hid. exact (Hp x Hx). }
  assert (Hok3 : orders_ok d3).
  { destruct (bool_decide _); [|by apply run_ret_Ok in Hq as [_ <-]].
    exact (orders_ok_frame _ _ _ _ _ (writes_enqueue_submission _) eq_refl Hok2 Hq). }
  apply orders_ok_uuid in Hok3.
  refine (orders_ok_frame [TIdempotencyKey] _ _ _ _ _ eq_refl Hok3 Ha). apply writes_add. by left.
Qed.

Lemma update_keeps `{TradingCalendar} utc_offset market_instant type payload message r1 r2 d push d' :
  orders_ok d → run (apply_update utc_offset market_instant type payload message r1 r2) d = Ok (push, d') →
  orders_ok d'.
Proof.
  intros Hok Hr. unfold apply_update in Hr. apply run_bind_Ok in Hr as (found & d1 & [<- <-]%run_gets_Ok & Hr).
  destruct (order_by_client_order_id d _) as [o|] eqn:Ho; [|done].
  apply head_Some_elem_of, list_elem_of_filter in Ho as [_ Ho].
  apply run_bind_Ok in Hr as (id & d1 & [-> ->]%run_uuid4_Ok & Hr).
  apply run_bind_Ok in Hr as (st & d2 & Hev & Hr). apply orders_ok_uuid in Hok.
  assert (Hok2 : orders_ok d2) by (refine (orders_ok_new_event o _ _ _ _ _ Hok Ho _ Hev); reflexivity).
  apply run_bind_Ok in Hr as (u & d3 & Hl & [_ <-]%run_ret_Ok).
  destruct (bool_decide (type = EV_FILL)); [|by apply run_ret_Ok in Hl as [_ <-]].
  exact (orders_ok_frame _ _ _ _ _ (writes_record_lot_fill _ _ _ _ _) eq_refl Hok2 Hl).
Qed.

(** ** The life of the order book *)

(** One successful transaction of the order services, from any input. *)
Inductive order_step `{BrokerPort, TradingCalendar} (utc_offset : instant → Z) (market_instant : date * Z → instant)
    : db → db → Prop :=
  | step_place threshold call req ids d res d' :
      run (place_order threshold call req ids) d = Ok (res, d') → order_step utc_offset market_instant d d'
  | step_create threshold req d o d' :
      run (create_order threshold req) d = Ok (o, d') → order_step utc_offset market_instant d d'
  | step_approve id d o d' :
      run (approve_order id) d = Ok (o, d') → order_step utc_offset market_instant d d'
  | step_submit id symbol now d calls d' :
      run (submit_to_broker id symbol now) d = Ok (calls, d') → order_step utc_offset market_instant d d'
  | step_update type payload message r1 r2 d push d' :
      run (apply_update utc_offset market_instant type payload message r1 r2) d = Ok (push, d') →
      order_step utc_offset market_instant d d'
  | step_elsewhere {A} ts (m : prog A) d a d' :
      writes ts m → TOrder ∉ ts → TOrderEvent ∉ ts → run m d = Ok (a, d') → order_step utc_offset market_instant d d'.

(** C4. [projection == fold(order_event)]: whatever the order services do, in
    any order and with any inputs, between any other writes, an order with
    events shows exactly the status, filled quantity and average price its
    events fold to, and an order without events is unfilled and awaiting
    approval or approved. *)
Theorem orders_project `{BrokerPort, TradingCalendar} utc_offset market_instant d d' :
  orders_ok d → rtc (order_step utc_offset market_instant) d d' →
  orders_ok d' ∧ ∀ o, o ∈ orders d' → projected_by (list_for_order d' (order_id o)) o.
Proof.
  intros Hok Hr. assert (orders_ok d') as Hok'.
  { induction Hr as [|d d1 d2 Hs _ IH]; [done|]. apply IH. clear IH. destruct Hs.
    - by eapply place_keeps.
    - by eapply create_keeps.
    - by eapply approve_keeps.
    - by eapply submit_keeps.
    - by eapply update_keeps.
    - eapply (orders_ok_frame ts m); [done| |done|done]. apply forallb_forall. intros t Ht%list_elem_of_In.
      apply bool_decide_eq_true. set_solver. }
  split; [done|]. by destruct Hok' as (_ & _ & _ & Hp).
Qed.
