(* ===== verification/OrderCash.v ===== *)
(** * The cash behind the orders

    Creating an order reserves its notional; submitting it turns the reservation
    of a buy into a commitment and lets go of everything else. *)

From S2P Require Import Prelude PyDecimal MoneyTypes Calendar Store Schema Ledger CashPolicy Funding Valuation Restatement Lots LotBooks Operations OrderEvents Orders OrderBooks.
From Stdlib Require Import String.
From stdpp Require Import strings.
Open Scope Z_scope.

(** ** What is reserved, in quanta *)

Definition hold_money (h : ApprovalHold) : Z := quanta (hold_amount_money h).

Definition held_amount (d : db) (order : uuid) : Z := from_option hold_money 0 (hold_by_order d order).

(** The open part of a buy: at its average price once it has one, else its hold. *)
Definition commitment (d : db) (o : Order) : Z :=
  match order_average_fill_price o with
  | Some p => rhe (quanta p * (quanta (order_quantity_requested o) - quanta (order_filled_quantity o))) (10 ^ 8)
  | None => held_amount d (order_id o)
  end.

Definition held (c : uuid) (d : db) : Z := sum_by hold_money (filter (is_active_hold c) (approval_holds d)).
Definition committed (c : uuid) (d : db) : Z := sum_by (commitment d) (open_buy_orders d c).
Definition reserved (c : uuid) (d : db) : Z := held c d + committed c d.

Lemma holds_Ok c d m : holds c d = Ok m → quanta m = held c d.
Proof.
  intros ->%q_sum_Ok. unfold held. by rewrite sum_by_fmap.
Qed.

Lemma commitments_Ok d l acc m :
  foldr_result (buy_commitment d) l acc = Ok m → quanta m = quanta acc + sum_by (commitment d) l.
Proof.
  revert acc. induction l as [|o l IH]; intros acc; cbn [foldr_result].
  { intros [= <-]. rewrite sum_by_nil. lia. }
  rewrite bind_Ok, sum_by_cons. intros (t & Ht & ->%IH). enough (quanta t = quanta acc + commitment d o) by lia.
  unfold buy_commitment in Ht. apply bind_Ok in Ht as (rest & [_ Hr]%q_sub_Ok & Ht). unfold commitment.
  destruct (order_average_fill_price o) as [p|].
  - apply bind_Ok in Ht as (m' & [_ Hm]%units_times_price_Ok & [_ Ht]%q_add_Ok). rewrite Ht, Hm, Hr. done.
  - unfold held_amount. destruct (hold_by_order d (order_id o)) as [h|]; cbn [from_option].
    + by apply q_add_Ok in Ht as [_ ->].
    + injection Ht as <-. lia.
Qed.

Lemma investable_Ok c d i :
  investable c d = Ok i →
  quanta i = settled_quanta c d + unsettled_quanta TRADE_SELL c d + unsettled_quanta DEPOSIT c d - reserved c d.
Proof.
  unfold investable. intros (s & Hs%settled_cash_Ok & H)%bind_Ok. apply bind_Ok in H as (sl & Hsl%unsettled_Ok & H).
  apply bind_Ok in H as (dp & Hdp%unsettled_Ok & H). apply bind_Ok in H as (co & Hco%commitments_Ok & H).
  apply bind_Ok in H as (h & Hh%holds_Ok & H). apply bind_Ok in H as (t1 & [_ H1]%q_add_Ok & H).
  apply bind_Ok in H as (t2 & [_ H2]%q_add_Ok & H). apply bind_Ok in H as (t3 & [_ H3]%q_sub_Ok & [_ H4]%q_sub_Ok).
  change (quanta zero) with 0 in Hco. unfold reserved, committed. lia.
Qed.

Lemma withdrawable_Ok c d w : withdrawable c d = Ok w → quanta w = settled_quanta c d - held c d.
Proof.
  unfold withdrawable. intros (s & Hs%settled_cash_Ok & H)%bind_Ok.
  apply bind_Ok in H as (h & Hh%holds_Ok & [_ H]%q_sub_Ok). lia.
Qed.

(** The ledger figures read the ledger tables alone. *)
Definition ledger_as (d d' : db) : Prop :=
  accounts d' = accounts d ∧ journal_entries d' = journal_entries d ∧ postings d' = postings d ∧
  settlement_obligations d' = settlement_obligations d.

Lemma ledger_figures d d' c :
  ledger_as d d' →
  settled_quanta c d' = settled_quanta c d ∧ ∀ type, unsettled_quanta type c d' = unsettled_quanta type c d.
Proof.
  intros (Ha & Hj & Hp & Ho). unfold settled_quanta, unsettled_quanta, on_cash, posting_role, counts_as_settled,
    has_obligation, has_confirmed_obligation, obligation_owner, obligation_entry_type, account_by_id.
  by rewrite Ha, Hj, Hp, Ho.
Qed.

Lemma ledger_as_frame {A} ts (m : prog A) d a d' :
  writes ts m → forallb (λ t, bool_decide (t ∉ [TAccount; TJournalEntry; TPosting; TSettlementObligation])) ts = true →
  run m d = Ok (a, d') → ledger_as d d'.
Proof.
  intros Hw Hts Hr.
  assert (Hn : ∀ t, t ∈ [TAccount; TJournalEntry; TPosting; TSettlementObligation] → tables d' t = tables d t).
  { intros t Ht. refine (Hw d a d' Hr t _). intros Hin. rewrite forallb_forall in Hts.
    apply list_elem_of_In in Hin. specialize (Hts t Hin). by apply bool_decide_eq_true in Hts. }
  exact (conj (Hn TAccount ltac:(set_solver)) (conj (Hn TJournalEntry ltac:(set_solver))
    (conj (Hn TPosting ltac:(set_solver)) (Hn TSettlementObligation ltac:(set_solver))))).
Qed.

(** ** Creating an order *)

Lemma writes_create_order `{HoldsProvider} threshold req : writes [TOrder; TApprovalHold] (create_order threshold req).
Proof. unfold create_order, require_eligible_customer, open_hold. writes_auto. Qed.

Lemma open_hold_Ok order c m d h d' :
  run (open_hold order c m) d = Ok (h, d') →
  hold_order_id h = order ∧ hold_customer_id h = c ∧ hold_amount_money h = m ∧ hold_status h = HOLD_ACTIVE ∧
  approval_holds d' = approval_holds d ++ [h] ∧ (∀ x, x ∈ approval_holds d → hold_order_id x ≠ order) ∧
  orders d' = orders d.
Proof.
  unfold open_hold. intros (id & d1 & [-> ->]%run_uuid4_Ok & H)%run_bind_Ok.
  apply run_bind_Ok in H as (u & d2 & [Hacc ->]%run_add_Ok & [<- <-]%run_ret_Ok).
  split_and!; [reflexivity..| |reflexivity]. intros x Hx E.
  apply andb_true_iff in Hacc as [_ Hc]. rewrite forallb_forall in Hc.
  specialize (Hc x (proj1 (list_elem_of_In _ _) Hx)). cbn in Hc. by rewrite E, Z.eqb_refl, orb_true_r in Hc.
Qed.

Lemma hold_by_order_new d d' h id :
  approval_holds d' = approval_holds d ++ [h] → hold_order_id h ≠ id → hold_by_order d' id = hold_by_order d id.
Proof.
  intros Hh Hne. unfold hold_by_order. rewrite Hh, filter_app, (filter_cons_False _ h) by done. by rewrite app_nil_r.
Qed.

Lemma hold_by_order_at d d' h id :
  approval_holds d' = approval_holds d ++ [h] → hold_order_id h = id →
  (∀ x, x ∈ approval_holds d → hold_order_id x ≠ id) → hold_by_order d' id = Some h.
Proof.
  intros Hh He Hnone. unfold hold_by_order. rewrite Hh, filter_app, (filter_none _ (approval_holds d)) by done.
  by rewrite (filter_cons_True _ h) by done.
Qed.

(** C20. An order is created only for an eligible customer, a buy only within
    investable cash, and it waits for approval exactly when its notional exceeds
    the threshold.  Its notional is then reserved: the customer's investable and
    withdrawable cash fall by exactly the notional, for buys and sells alike, and
    nobody else's cash moves. *)
Theorem create_order_reserves threshold req d o d' :
  orders_ok d → run (create_order threshold req) d = Ok (o, d') →
  ineligibility d (request_customer_id req) = None ∧
  ∃ notional h, price_times_units (request_reference_price req) (request_quantity req) = Ok notional ∧
    (request_side req = BUY → ∃ i, investable (request_customer_id req) d = Ok i ∧ quanta notional <= quanta i) ∧
    o ∈ orders d' ∧ order_status o = (if quanta threshold <? quanta notional then AWAITING_APPROVAL else APPROVED) ∧
    hold_by_order d' (order_id o) = Some h ∧ hold_status h = HOLD_ACTIVE ∧ hold_amount_money h = notional ∧
    ∀ c, let moved := if decide (c = request_customer_id req) then quanta notional else 0 in
      (∀ i i', investable c d = Ok i → investable c d' = Ok i' → quanta i' = quanta i - moved) ∧
      (∀ w w', withdrawable c d = Ok w → withdrawable c d' = Ok w' → quanta w' = quanta w - moved).
Proof.
  intros Hok Hrun. destruct (create_keeps _ _ _ _ _ Hok Hrun) as [_ Hin].
  pose proof (ledger_as_frame _ _ _ _ _ (writes_create_order threshold req) eq_refl Hrun) as Hledger.
  apply create_order_Ok in Hrun as (notional & d2 & d3 & Hel & Hn & Hcov & Ho & -> & Hadd & h & Hh).
  split; [done|]. exists notional, h. apply run_add_Ok in Hadd as [_ ->].
  destruct (open_hold_Ok _ _ _ _ _ _ Hh) as (Hho & Hhc & Hhm & Hhs & Hholds & Hnone & Hos).
  set (d3 := insert_row _ _ _) in *. change (approval_holds d3) with (approval_holds d) in Hholds, Hnone.
  change (orders d3) with (orders d ++ [o]) in Hos.
  assert (Hheld : ∀ c, held c d' = held c d + if decide (c = request_customer_id req) then quanta notional else 0).
  { intros c. unfold held. rewrite Hholds, filter_app, sum_by_app. f_equal. rewrite filter_cons.
    destruct (decide (is_active_hold c h)) as [[Hc _]|Hna], (decide (c = request_customer_id req)) as [E|E].
    - rewrite sum_by_cons, filter_nil, sum_by_nil. unfold hold_money. rewrite Hhm. lia.
    - congruence.
    - exfalso. apply Hna. split; congruence.
    - done. }
  assert (Hcom : ∀ c, committed c d' = committed c d).
  { intros c. unfold committed, open_buy_orders, open_orders. rewrite Hos, filter_app, sum_by_app.
    rewrite (filter_cons_False _ o), filter_nil, sum_by_nil, Z.add_0_r.
    2: { rewrite Ho. cbn. by destruct (q_ltb _ _); intros (_ & _ & ?). }
    apply sum_by_ext. intros x [_ Hx]%list_elem_of_filter. unfold commitment, held_amount.
    rewrite (hold_by_order_new d d' h); [done|done|]. rewrite Hho, Ho. cbn.
    destruct Hok as (_ & Hf & _). specialize (Hf x Hx). lia. }
  split_and!; [done|done|done|by rewrite Ho|by apply (hold_by_order_at d)|done|done|].
  intros c. cbn zeta. destruct (ledger_figures d d' c Hledger) as [Hs Hu]. split; intros x x' Hx Hx'.
  - apply investable_Ok in Hx, Hx'. unfold reserved in *. rewrite Hs, !Hu, Hheld, Hcom in Hx'. lia.
  - apply withdrawable_Ok in Hx, Hx'. rewrite Hs, Hheld in Hx'. lia.
Qed.

(** ** Releasing a hold *)

(** The rows of an update that keeps order and amount answer the same. *)
Lemma held_amount_map d d' (g : ApprovalHold → ApprovalHold) id :
  approval_holds d' = g <$> approval_holds d →
  (∀ h, hold_order_id (g h) = hold_order_id h ∧ hold_money (g h) = hold_money h) →
  held_amount d' id = held_amount d id.
Proof.
  intros Hl Hg. unfold held_amount, hold_by_order. rewrite Hl. clear Hl.
  induction (approval_holds d) as [|h l IH]; [done|]. cbn [fmap list_fmap].
  destruct (Hg h) as [Ho Hm]. destruct (decide (hold_order_id h = id)) as [E|E].
  - rewrite !filter_cons_True by congruence. exact Hm.
  - rewrite !filter_cons_False by congruence. exact IH.
Qed.

Lemma hold_key (a b : ApprovalHold) : hold_id a = hold_id b → conflicts (Schema := trueup) TApprovalHold a b = true.
Proof. intros E. cbn. by rewrite E, Z.eqb_refl. Qed.

(** Releasing the active hold of an order frees its amount, once. *)
Lemma release_hold_Ok id reason at_ h d u d' :
  integrity d → hold_by_order d id = Some h → hold_status h = HOLD_ACTIVE →
  run (release_hold id reason at_) d = Ok (u, d') →
  orders d' = orders d ∧ (∀ x, held_amount d' x = held_amount d x) ∧
  ∀ c, held c d' = held c d - (if decide (c = hold_customer_id h) then hold_money h else 0).
Proof.
  intros Hd Hh Ha Hr. unfold release_hold in Hr. apply run_bind_Ok in Hr as (found & d1 & [<- <-]%run_gets_Ok & Hr).
  rewrite Hh, Ha in Hr. cbn in Hr. apply run_update_Ok in Hr as (_ & _ & _ & _ & ->).
  set (d' := set_table _ _ _).
  assert (Hin : h ∈ approval_holds d) by (by apply head_Some_elem_of, list_elem_of_filter in Hh as [_ ?]).
  split_and!; [reflexivity| |].
  - intros x. apply (held_amount_map d d' (λ y, if hold_id y =? hold_id h then set_released reason at_ y else y));
      [reflexivity|]. intros y. by destruct (hold_id y =? hold_id h).
  - intros c. destruct (update_one (H := trueup) TApprovalHold hold_id (set_released reason at_) d h hold_key Hd Hin)
      as (l1 & l2 & Hl & Hu & _).
    assert (Hd' : approval_holds d' = l1 ++ set_released reason at_ h :: l2) by exact Hu.
    assert (Hd0 : approval_holds d = l1 ++ h :: l2) by exact Hl.
    unfold held. rewrite Hd', Hd0, !filter_app, !sum_by_app.
    rewrite (filter_cons_False _ (set_released reason at_ h)) by (by intros [_ ?]).
    destruct (decide (c = hold_customer_id h)) as [->|Hne].
    + rewrite (filter_cons_True _ h), sum_by_cons by done. lia.
    + rewrite (filter_cons_False _ h) by (intros [? _]; congruence). lia.
Qed.

(** ** Submitting an order *)

Lemma fold_single e req :
  order_event_type e ≠ EV_FILL →
  fold [e] req = Ok {| state_status := status_after req 0 e; state_filled_quantity := zero;
                       state_average_fill_price := None |}.
Proof.
  intros He. unfold fold. change (sort_by seq_le [e]) with [e]. unfold foldr_result, fold_event, status_after.
  destruct (order_event_type e); done.
Qed.

(** Recording the first event of a waiting order, its hold active: the order
    takes the event's status and the hold is freed. *)
Lemma first_event_Ok o e now h d st d' :
  orders_ok d → o ∈ orders d → order_status o = APPROVED → order_event_order_id e = order_id o →
  order_event_type e = EV_SUBMITTED ∨ order_event_type e = EV_REJECTED →
  hold_by_order d (order_id o) = Some h → hold_status h = HOLD_ACTIVE →
  run (apply_new_event o e now) d = Ok (st, d') →
  ∃ l1 o' l2, orders d = l1 ++ o :: l2 ∧ orders d' = l1 ++ o' :: l2 ∧ order_id o' = order_id o ∧
    order_customer_id o' = order_customer_id o ∧ order_side o' = order_side o ∧
    projection o' = {| state_status := status_after (order_quantity_requested o) 0 e;
                       state_filled_quantity := zero; state_average_fill_price := None |} ∧
    (∀ x, held_amount d' x = held_amount d x) ∧
    (∀ c, held c d' = held c d - if decide (c = hold_customer_id h) then hold_money h else 0) ∧ ledger_as d d'.
Proof.
  intros Hok Ho Hs He Ht Hh Ha (d1 & d2 & H1 & Hf & H2 & H3)%apply_new_event_Ok.
  pose proof (writes_add (H := trueup) [TOrderEvent] TOrderEvent e ltac:(by left)) as Hw1.
  pose proof (writes_update (H := trueup) [TOrder] TOrder (λ x : Order, order_id x =? order_id o)
    (set_order (db_now d1) (state_status st) (state_filled_quantity st) (state_average_fill_price st)) ltac:(by left)) as Hw2.
  assert (Hled : ledger_as d d').
  { destruct (ledger_as_frame _ _ _ _ _ Hw1 eq_refl H1) as (A1 & A2 & A3 & A4).
    destruct (ledger_as_frame _ _ _ _ _ Hw2 eq_refl H2) as (B1 & B2 & B3 & B4).
    destruct (ledger_as_frame _ _ _ _ _ (writes_release_if_warranted _ _ _) eq_refl H3) as (C1 & C2 & C3 & C4).
    split_and!; congruence. }
  destruct (orders_ok_event e d tt d1 Hok H1) as [(Hd1 & _) ->].
  destruct (waiting_no_events d o Hok Ho (or_intror Hs)) as (Hnone & _ & _).
  assert (Hevs : list_for_order (insert_row (H := trueup) TOrderEvent e d) (order_id o) = [e]).
  { rewrite list_for_order_insert, decide_True by done. unfold list_for_order in Hnone.
    pose proof (Permutation_length (sort_by_perm seq_le (filter (λ e, order_event_order_id e = order_id o) (order_events d)))) as Hlen.
    rewrite Hnone in Hlen. by destruct (filter _ (order_events d)). }
  rewrite Hevs, fold_single in Hf by (destruct Ht; congruence). injection Hf as <-.
  set (d1 := insert_row (H := trueup) TOrderEvent e d) in *. cbn [state_status state_filled_quantity state_average_fill_price] in *.
  set (f := set_order (db_now d1) (status_after (order_quantity_requested o) 0 e) zero None) in *.
  pose proof (run_integrity _ _ _ _ Hd1 H2) as Hd2.
  apply run_update_Ok in H2 as (_ & _ & _ & _ & ->).
  destruct (update_one (H := trueup) TOrder order_id f d1 o order_key Hd1 Ho) as (l1 & l2 & Hl & Hu & _).
  set (d2 := set_table _ _ _) in *.
  assert (Hrel : ∃ reason, run (release_hold (order_id o) reason now) d2 = Ok (tt, d')).
  { unfold release_hold_if_warranted, status_after in H3. destruct Ht as [Ht|Ht]; rewrite Ht in H3; eexists; exact H3. }
  destruct Hrel as [reason Hrel].
  destruct (release_hold_Ok _ _ _ h d2 tt d' Hd2 Hh Ha Hrel) as (Ho2 & Hamt & Hheld).
  destruct (set_order_projection (db_now d1) (status_after (order_quantity_requested o) 0 e) zero None o)
    as (Hpr & Hid & _ & Hc & Hside).
  exists l1, (f o), l2. repeat match goal with |- _ ∧ _ => split end;
    [exact Hl|rewrite Ho2; exact Hu|done|done|done|done|exact Hamt|exact Hheld|exact Hled].
Qed.

Lemma commitment_same d d' o : (∀ x, held_amount d' x = held_amount d x) → commitment d' o = commitment d o.
Proof. intros Ha. unfold commitment. by rewrite Ha. Qed.

(** How the commitments move when one waiting order takes a new status. *)
Lemma committed_replaced c d d' l1 o o' l2 :
  orders d = l1 ++ o :: l2 → orders d' = l1 ++ o' :: l2 → order_status o = APPROVED →
  order_customer_id o' = order_customer_id o → order_side o' = order_side o → order_id o' = order_id o →
  order_average_fill_price o' = None → (∀ x, held_amount d' x = held_amount d x) →
  committed c d' = committed c d +
    if decide (c = order_customer_id o ∧ order_side o = BUY ∧ is_in_flight (order_status o') = true)
    then held_amount d (order_id o) else 0.
Proof.
  intros Hl Hl' Hs Hc Hside Hid Havg Ha. unfold committed, open_buy_orders, open_orders.
  rewrite Hl, Hl', !filter_app, !sum_by_app.
  rewrite (sum_by_ext (commitment d') (commitment d) (filter _ l1)) by (intros; by apply commitment_same).
  rewrite (filter_cons_False _ o) by (rewrite Hs; by intros (_ & _ & ?)).
  destruct (decide (c = order_customer_id o ∧ _)) as [(-> & Hb & Hf)|Hn].
  - rewrite (filter_cons_True _ o'), sum_by_cons by (split_and!; congruence).
    rewrite (sum_by_ext (commitment d') (commitment d) (filter _ l2)) by (intros; by apply commitment_same).
    unfold commitment at 2. rewrite Havg, Ha, Hid. lia.
  - rewrite (filter_cons_False _ o') by (intros (? & ? & ?); apply Hn; split_and!; congruence).
    rewrite (sum_by_ext (commitment d') (commitment d) (filter _ l2)) by (intros; by apply commitment_same). lia.
Qed.

(** A submission that commits: it asks the broker exactly when the customer is
    still eligible and leaves the order submitted, or rejected when not.  The cash
    stays where it is for a buy, whose hold becomes a commitment of the same
    amount, while a sell or a rejection gives the hold back; nobody else's
    investable cash moves. *)
Lemma submission_settles `{BrokerPort} id symbol now d calls d' o h :
  orders_ok d → order_by_id d id = Some o → order_status o = APPROVED →
  hold_by_order d id = Some h → hold_status h = HOLD_ACTIVE → hold_customer_id h = order_customer_id o →
  run (submit_to_broker id symbol now) d = Ok (calls, d') →
  let refused := bool_decide (is_Some (ineligibility d (order_customer_id o))) in
  calls = (if refused then [] else [order_client_order_id o]) ∧
  (∃ o', order_by_id d' id = Some o' ∧ order_status o' = if refused then REJECTED else SUBMITTED) ∧
  list_for_order d' id ≠ [] ∧
  ∀ c i i', investable c d = Ok i → investable c d' = Ok i' →
    quanta i' = quanta i + if bool_decide (c = order_customer_id o) && (refused || bool_decide (order_side o = SELL))
                           then hold_money h else 0.
Proof.
  intros Hok Hid Hs Hh Ha Hhc Hr refused. pose proof (submit_keeps _ _ _ _ _ _ Hok Hr) as Hok'.
  destruct (order_by_id_Some _ _ _ Hid) as [Ho <-].
  assert (Hfirst : ∃ e now_, calls = (if refused then [] else [order_client_order_id o]) ∧
    order_event_order_id e = order_id o ∧ order_event_type e = (if refused then EV_REJECTED else EV_SUBMITTED) ∧
    ∃ st, run (apply_new_event o e now_) (Db (tables d) (next_uuid d + 1) (db_now d)) = Ok (st, d')).
  { unfold submit_to_broker in Hr. apply run_bind_Ok in Hr as (found & d1 & [<- <-]%run_gets_Ok & Hr).
    rewrite Hid, Hs in Hr. cbn [bool_decide negb] in Hr.
    rewrite bool_decide_eq_true_2 in Hr by done. cbn [negb] in Hr.
    apply run_bind_Ok in Hr as (reason & d1 & [<- <-]%run_gets_Ok & Hr). unfold refused.
    destruct (ineligibility d (order_customer_id o)) as [r|].
    2: apply run_bind_Ok in Hr as (hd & d1 & [_ <-]%run_lift_Ok & Hr).
    all: apply run_bind_Ok in Hr as (u & d1 & Hr & [<- <-]%run_ret_Ok); unfold synthesize_event in Hr;
         apply run_bind_Ok in Hr as (n & d2 & [-> ->]%run_uuid4_Ok & Hr);
         apply run_bind_Ok in Hr as (st & d2 & Hr & [_ <-]%run_ret_Ok);
         eexists _, _; split_and!; [done|..|by exists st]; done. }
  destruct Hfirst as (e & now_ & -> & Heo & Het & st & Hev). apply orders_ok_uuid in Hok.
  destruct (first_event_Ok o e now_ h _ st d' Hok Ho Hs Heo ltac:(destruct refused; auto) Hh Ha Hev)
    as (l1 & o' & l2 & Hl & Hl' & Hid' & Hc' & Hside' & Hpr & Hamt & Hheld & Hled).
  injection Hpr as Hst _ Havg.
  assert (Hst' : order_status o' = if refused then REJECTED else SUBMITTED).
  { rewrite Hst. unfold status_after. rewrite Het. by destruct refused. }
  assert (Hby : order_by_id d' (order_id o) = Some o').
  { rewrite <- Hid'. apply order_by_id_In; [by destruct Hok'|]. rewrite Hl'. set_solver. }
  split; [done|]. split; [by exists o'|]. split.
  - intros Hnone. destruct Hok' as (_ & _ & _ & Hp).
    pose proof (order_by_id_Some _ _ _ Hby) as [Hin' _]. specialize (Hp o' Hin'). rewrite Hid', Hnone in Hp.
    destruct Hp as [[Hp|Hp] _]; rewrite Hst' in Hp; by destruct refused.
  - intros c i i' Hi%investable_Ok Hi'%investable_Ok. destruct (ledger_figures d d' c Hled) as [Hsc Hu].
    rewrite Hsc, !Hu in Hi'. unfold reserved in *. rewrite Hheld in Hi'.
    rewrite (committed_replaced c _ d' l1 o o' l2 Hl Hl' Hs Hc' Hside' Hid' Havg Hamt) in Hi'.
    change (held c (Db (tables d) (next_uuid d + 1) (db_now d))) with (held c d) in Hi'.
    change (committed c (Db (tables d) (next_uuid d + 1) (db_now d))) with (committed c d) in Hi'.
    change (held_amount (Db (tables d) (next_uuid d + 1) (db_now d)) (order_id o)) with (held_amount d (order_id o)) in Hi'.
    unfold held_amount in Hi'. rewrite Hh in Hi'. cbn [from_option] in Hi'. rewrite Hhc, Hst' in Hi'.
    destruct (bool_decide_reflect (c = order_customer_id o)) as [->|Hne].
    + rewrite (decide_True (P := order_customer_id o = order_customer_id o)) in Hi' by done.
      match type of Hi' with context [decide ?P] => destruct (decide P) as [Hb|Hb] end;
        destruct refused, (order_side o); cbn in Hb |- *; repeat case_bool_decide; try congruence; try lia;
        first [destruct Hb as (_ & ? & ?); done | destruct Hb; split_and!; done].
    + rewrite !decide_False in Hi' by naive_solver. cbn. lia.
Qed.

(** ** An order from its placement to its acceptance *)

#[export] Instance sample_broker : BrokerPort :=
  {| submit_order := λ _ _ _ _, Ok "brk-1"%string; cancel_order := λ _, Ok tt |}.

Definition sample_security : Security :=
  {| security_id := 9; security_symbol := "ACME"; security_name := "Acme"; security_asset_class := EQUITY;
     security_status := SECURITY_ACTIVE; security_created_at := 0 |}.

(** Customer 7, with 50 in settled cash, and one security. *)
Definition sample_desk : db := set_table (H := trueup) TSecurity [sample_security] sample_funded.

Definition sample_request (side : OrderSide) (quantity : Z) : OrderCreationRequest :=
  {| request_customer_id := 7; request_security_id := 9; request_side := side;
     request_quantity := QD quantity; request_reference_price := QD 10500000 |}.

Definition sample_call (key hash : string) : OrderCall :=
  {| call_key := key; call_request_hash := hash; call_now := 0; call_render := λ o, JStr (uuid_str (order_id o)) |}.

Definition sample_place : prog (Z * json) :=
  place_order (QD 10000000) (sample_call "k" "h") (sample_request BUY 2000000) None.

Definition sample_placed : (Z * json) * db := run_or sample_place sample_desk (0, JNull).

Lemma sample_place_runs : run sample_place sample_desk = Ok (sample_placed.1, sample_placed.2).
Proof. rewrite <- surjective_pairing. apply run_or_Ok. vm_compute. reflexivity. Qed.

Lemma sample_desk_ok : orders_ok sample_desk.
Proof.
  split_and!.
  - apply integrity_check. intros []; vm_compute; reflexivity.
  - intros o Ho. by apply elem_of_nil in Ho.
  - intros e He. by apply elem_of_nil in He.
  - intros o Ho. by apply elem_of_nil in Ho.
Qed.

Definition sample_readings : Readings := Build_Readings 1793620800000001 1793620800000002 1793620800000003.

Definition sample_order : Order := default (new_order 0 0 (sample_request BUY 0) DRAFT) (head (orders sample_placed.2)).

Definition sample_submit : prog (list string) := submit_to_broker (order_id sample_order) "ACME" sample_readings.

Definition sample_submitted : list string * db := run_or sample_submit sample_placed.2 [].

Lemma sample_submit_runs : run sample_submit sample_placed.2 = Ok (sample_submitted.1, sample_submitted.2).
Proof. rewrite <- surjective_pairing. apply run_or_Ok. vm_compute. reflexivity. Qed.

Lemma orders_project_witness :
  orders_ok sample_submitted.2 ∧
  ∀ o, o ∈ orders sample_submitted.2 → projected_by (list_for_order sample_submitted.2 (order_id o)) o.
Proof.
  apply (orders_project (H0 := sample_calendar) (λ _, 0) (λ t, noon t.1) sample_desk _ sample_desk_ok).
  eapply rtc_l; [exact (step_place _ _ _ _ _ _ _ _ _ sample_place_runs)|].
  apply rtc_once. exact (step_submit _ _ _ _ _ _ _ _ sample_submit_runs).
Defined.

Lemma sample_placed_ok : orders_ok sample_placed.2.
Proof. exact (place_keeps _ _ _ _ _ _ _ sample_desk_ok sample_place_runs). Qed.

Definition sample_create : prog Order := create_order (QD 10000000) (sample_request SELL (-2000000)).

Definition sample_created : Order * db := run_or sample_create sample_desk sample_order.

Lemma sample_create_runs : run sample_create sample_desk = Ok (sample_created.1, sample_created.2).
Proof. rewrite <- surjective_pairing. apply run_or_Ok. vm_compute. reflexivity. Qed.

(** Nothing requires a positive quantity: an order for minus two units "reserves"
    minus 21, and the customer may withdraw 71 of the 50 there are. *)
Lemma create_order_reserves_witness :
  ∃ w', withdrawable 7 sample_created.2 = Ok w' ∧ quanta w' = 500000 + 210000.
Proof.
  destruct (create_order_reserves (QD 10000000) (sample_request SELL (-2000000)) sample_desk sample_created.1
    sample_created.2 sample_desk_ok sample_create_runs) as (_ & n & h & Hn & _ & _ & _ & _ & _ & _ & Hc).
  exists (QD 710000). assert (withdrawable 7 sample_created.2 = Ok (QD 710000)) as Hw by (vm_compute; reflexivity).
  split; [exact Hw|]. destruct (Hc 7) as [_ Hc7]. rewrite (Hc7 (QD 500000) (QD 710000)); [|vm_compute; reflexivity|exact Hw].
  assert (n = QD (-210000)) as -> by (vm_compute in Hn; by injection Hn). vm_compute. reflexivity.
Defined.
