(* ===== verification/Placement.v ===== *)
(** * Placing orders: replays and lot designations *)

From S2P Require Import Prelude PyDecimal MoneyTypes Calendar Store Schema Ledger CashPolicy Funding Valuation Restatement Lots LotBooks Operations OrderEvents Orders OrderBooks OrderCash.
From Stdlib Require Import String.
From stdpp Require Import strings.
Open Scope Z_scope.

(** ** Idempotency keys *)

(** The key a store row has is found, and found alone. *)
Lemma find_key_unique d k :
  integrity d → k ∈ idempotency_keys d → find_key d (idem_customer_id k) (idem_key k) = Ok (Some k).
Proof.
  intros Hd (l1 & l2 & Hl)%list_elem_of_split. unfold find_key. apply scalar_one_or_none_Some.
  destruct (Hd TIdempotencyKey) as [_ Hc]. unfold idempotency_keys in *. rewrite Hl in *.
  apply (conflict_free_split (H := trueup) TIdempotencyKey l1 k l2) in Hc as [H1 H2].
  rewrite filter_app, filter_cons_True, (filter_none _ l1), (filter_none _ l2); [done| | |done].
  - intros x Hx [Hcu Hk]. specialize (H2 x Hx). cbn in H2.
    by rewrite Hcu, Hk, Z.eqb_refl, String.eqb_refl, orb_true_r in H2.
  - intros x Hx [Hcu Hk]. specialize (H1 x Hx). cbn in H1.
    by rewrite Hcu, Hk, Z.eqb_refl, String.eqb_refl, orb_true_r in H1.
Qed.

(** Placing an order is idempotent under its key.  Once a request has been
    answered, the same customer's key with the same body gets the same answer
    and changes nothing, however the store moved on in the meantime, and with
    another body it is refused; so one key creates at most one order. *)
Theorem place_order_idempotent threshold call req ids d res d' :
  integrity d → run (place_order threshold call req ids) d = Ok (res, d') →
  ∀ d'' threshold' call' req' ids', integrity d'' → idempotency_keys d' ⊆ idempotency_keys d'' →
    call_key call' = call_key call → request_customer_id req' = request_customer_id req →
    run (place_order threshold' call' req' ids') d'' =
      if String.eqb (call_request_hash call) (call_request_hash call') then Ok (res, d'')
      else Raise IdempotencyConflictError.
Proof.
  intros Hd Hrun.
  assert (∃ k, k ∈ idempotency_keys d' ∧ idem_customer_id k = request_customer_id req ∧ idem_key k = call_key call ∧
    idem_request_hash k = call_request_hash call ∧ res = (idem_response_status k, idem_response_body k))
    as (k & Hk & Hcu & Hkey & Hh & ->).
  { apply place_order_Ok in Hrun as [(k & Hf & Hh & -> & ->)|(_ & _ & _ & _ & _ & _ & _ & k & d4 & _ & _ & _ & _ & _ & Hcu & Hkey & Hh & -> & Ha)].
    - apply scalar_one_or_none_Some in Hf. exists k.
      assert (k ∈ filter (λ k, idem_customer_id k = request_customer_id req ∧ idem_key k = call_key call)
                    (idempotency_keys d)) as [[? ?] ?]%list_elem_of_filter by (rewrite Hf; by left).
      by split_and!.
    - exists k. apply run_add_Ok in Ha as [_ ->]. split; [|by split_and!].
      change (idempotency_keys (insert_row (H := trueup) TIdempotencyKey k d4)) with (idempotency_keys d4 ++ [k]).
      apply elem_of_app. right. by left. }
  intros d'' threshold' call' req' ids' Hd'' Hsub Hkey' Hcu'.
  pose proof (find_key_unique d'' k Hd'' (Hsub _ Hk)) as Hfind.
  unfold place_order. rewrite run_bind. unfold queries at 1. cbn [run].
  rewrite Hkey', Hcu', <- Hcu, <- Hkey, Hfind. cbn [lift run]. unfold resolve_replay. rewrite Hh.
  by destruct (String.eqb _ _).
Qed.

Lemma place_order_idempotent_witness :
  run sample_place sample_placed.2 = Ok (sample_placed.1, sample_placed.2) ∧
  run (place_order (QD 0) (sample_call "k" "other") (sample_request SELL 1) None) sample_placed.2
    = Raise IdempotencyConflictError.
Proof.
  assert (integrity sample_desk ∧ integrity sample_placed.2) as [Hd Hd'].
  { split; [exact (proj1 sample_desk_ok)|exact (proj1 sample_placed_ok)]. }
  pose proof (place_order_idempotent _ _ _ _ sample_desk sample_placed.1 sample_placed.2 Hd sample_place_runs
    sample_placed.2) as Hagain.
  split; [exact (Hagain (QD 10000000) (sample_call "k" "h") (sample_request BUY 2000000) None Hd' (reflexivity _) eq_refl eq_refl)
         |exact (Hagain (QD 0) (sample_call "k" "other") (sample_request SELL 1) None Hd' (reflexivity _) eq_refl eq_refl)].
Defined.

(** ** Specific lots *)

Definition open_claim (o : Order) : Z := quanta (order_quantity_requested o) - quanta (order_filled_quantity o).

Lemma open_claims_Ok l acc m :
  foldr_result add_open_claim l acc = Ok m → quanta m = quanta acc + sum_by open_claim l.
Proof.
  revert acc. induction l as [|o l IH]; intros acc; cbn [foldr_result].
  { intros [= <-]. rewrite sum_by_nil. lia. }
  rewrite bind_Ok, sum_by_cons. intros (t & Ht & ->%IH). unfold add_open_claim in Ht.
  apply bind_Ok in Ht as (r & [_ Hr]%q_sub_Ok & [_ Ht]%q_add_Ok). unfold open_claim at 2. lia.
Qed.

(** A designation is accepted only on a sell, naming one to fifty distinct
    lots of the customer in that security which, after everything the open sells
    that share a lot with it still claim, cover the whole quantity; and it is
    stored as it was given.  Nothing else is substituted for a lot it names. *)
Theorem designation_covers c s side quantity ids r d :
  integrity d → validate_designation c s side quantity (Some ids) d = Ok r →
  r = Some ids ∧ side = SELL ∧ ids ≠ [] ∧ NoDup ids ∧ (length ids <= 50)%nat ∧
  ∃ lots, lot_id <$> lots = ids ∧
    (∀ l, l ∈ lots → l ∈ tax_lots d ∧ lot_customer_id l = c ∧ lot_security_id l = s) ∧
    quanta quantity <= sum_by Lots.remaining lots -
      sum_by open_claim (filter (claims_from ids) (open_sell_orders d c)).
Proof.
  intros Hd. unfold validate_designation.
  intros (u1 & Hside%ensure_Ok & H)%bind_Ok. apply bind_Ok in H as (u2 & Hne%ensure_Ok & H).
  apply bind_Ok in H as (u3 & Hnd%ensure_Ok & H). apply bind_Ok in H as (u4 & Hlen%ensure_Ok & H).
  apply bind_Ok in H as (lots & Hlots & H). apply bind_Ok in H as (total & Htotal%q_sum_Ok & H).
  apply bind_Ok in H as (claims & Hclaims%open_claims_Ok & H). apply bind_Ok in H as (cover & [_ Hcover]%q_sub_Ok & H).
  apply bind_Ok in H as (u5 & Hq%ensure_Ok & [= <-]). unfold q_ltb in Hq. unfold MAX_DESIGNATED_LOTS in Hlen.
  apply bool_decide_eq_true in Hside, Hnd. apply negb_true_iff, bool_decide_eq_false in Hne. zbool.
  rewrite sum_by_fmap in Htotal. change (quanta zero) with 0 in Hclaims.
  apply map_result_Forall2 in Hlots.
  assert (Hnamed : ∀ id l, named_lot d c s id = Ok l →
    lot_id l = id ∧ l ∈ tax_lots d ∧ lot_customer_id l = c ∧ lot_security_id l = s).
  { intros id l. unfold named_lot. destruct (lot_by_id d id) as [x|] eqn:Hx; [|done].
    intros (u & Hown%ensure_Ok & [= <-])%bind_Ok. apply lot_by_id_Some in Hx as [Hx <-]. zbool. by split_and!. }
  split_and!; [done|done|done|done|lia|]. exists lots. split_and!.
  - clear -Hlots Hnamed. induction Hlots as [|id l ids lots Hl _ IH]; [done|]. cbn.
    destruct (Hnamed _ _ Hl) as [-> _]. by rewrite IH.
  - intros l Hl. apply list_elem_of_lookup in Hl as [i Hi].
    destruct (Forall2_lookup_r _ _ _ _ _ Hlots Hi) as (id & _ & Hl). by destruct (Hnamed _ _ Hl) as (_ & ? & ? & ?).
  - change (quanta total = sum_by Lots.remaining lots) in Htotal. lia.
Qed.

(** Two lots of 10 and 5 units, 12 of them named for a sell. *)
Lemma designation_covers_witness :
  ∃ lots, lot_id <$> lots = lot_id <$> tax_lots sample_lots ∧ 12 <= sum_by Lots.remaining lots.
Proof.
  destruct (designation_covers 7 9 SELL (QD 12) (lot_id <$> tax_lots sample_lots)
    (Some (lot_id <$> tax_lots sample_lots)) sample_lots sample_lots_integrity) as (_ & _ & _ & _ & _ & lots & Hids & _ & Hq).
  - vm_compute. reflexivity.
  - exists lots. split; [exact Hids|]. etrans; [exact Hq|]. vm_compute (sum_by open_claim _). lia.
Defined.
