(* ===== verification/Fees.v ===== *)
(** * Performance fees: the high-water mark and the daily accrual

    [services/fees/high_water_mark_service.py],
    [services/fees/fee_accrual_service.py], the repositories of
    [models/fees/high_water_mark.py] and [models/fees/fee_accrual.py], and the
    body of [jobs/daily_fee_accrual.py].  A fee is owed only on what lifts the
    customer's time-weighted value above its previous peak; the theorem says
    what one day's accrual does to the peak, to the accruals and to the ledger,
    on every branch. *)

From S2P Require Import Prelude PyDecimal MoneyTypes Dates Calendar Store Schema Ledger CashPolicy Valuation Restatement Lots LotBooks CorporateActions.
From Stdlib Require Import String.
From stdpp Require Import strings.
Open Scope Z_scope.

(** ** The peak ([HighWaterMarkService]) *)

(** [_first_flow_date] *)
Definition first_flow_date (customer : uuid) (d : db) : option date :=
  head (sort_by Z.leb (omap (M := list) (λ p : Posting,
    match posting_entry d p with
    | Some e => if bool_decide (posting_customer_id p = Some customer) && is_external_flow e
                then Some (entry_effective_date e) else None
    | None => None
    end) (postings d))).

(** [shadow_nav] *)
Definition shadow_nav (customer : uuid) (as_of_date : date) : prog (option Money) :=
  found ← gets (first_flow_date customer);
  match found with
  | None => mret None
  | Some first =>
      if as_of_date <? first then mret None
      else
        book ← queries (value_book customer first);
        if q_eqb (total_value book) zero then mret None
        else
          cumulative_twr ← (if first =? as_of_date then mret (dec_of_Z 0)
                            else r ← compute_twr customer first as_of_date; mret (Dec (twr r) RETURN_EXP));
          nav ← lift (scale_by (total_value book) (dec_add (dec_of_Z 1) cumulative_twr));
          mret (Some nav)
  end.

(** [HighWaterMarkRepository.get_by_customer] *)
Definition hwm_by_customer (customer : uuid) (d : db) : result (option HighWaterMark) :=
  scalar_one_or_none (filter (λ h, hwm_customer_id h = customer) (high_water_marks d)).

(** [get_or_create] *)
Definition get_or_create_hwm (now : instant) (customer : uuid) (shadow_value : Money) : prog HighWaterMark :=
  existing ← queries (hwm_by_customer customer);
  match existing with
  | Some hwm => mret hwm
  | None =>
      let hwm := {| hwm_customer_id := customer; hwm_peak_value := shadow_value; hwm_updated_at := now |} in
      add THighWaterMark hwm ;;
      mret hwm
  end.

Definition set_peak (shadow_value : Money) (now : instant) (h : HighWaterMark) : HighWaterMark :=
  {| hwm_customer_id := hwm_customer_id h; hwm_peak_value := shadow_value; hwm_updated_at := now |}.

(** [ratchet] *)
Definition ratchet (now : instant) (hwm : HighWaterMark) (shadow_value : Money) : prog Money :=
  gain ← lift (q_sub shadow_value (hwm_peak_value hwm));
  if q_leb gain zero then mret zero
  else
    update THighWaterMark (λ h : HighWaterMark, hwm_customer_id h =? hwm_customer_id hwm)
      (set_peak shadow_value now) ;;
    mret gain.

(** ** The accrual ([FeeAccrualService]) *)

(** [_post_accrual] *)
Definition post_accrual (customer : uuid) (accrual_date_ : date) (gain_amount fee_amount : Money)
    : prog FeeAccrual :=
  payable_account ← get_or_create_customer_account customer FEES_ACCRUED_PAYABLE None;
  revenue_account ← get_or_create_house_account FEE_REVENUE_ACCRUED;
  event ← record_inbound_event MARKETDATA "fee_accrual"
    [("customer_id", JStr (uuid_str customer)); ("accrual_date", JStr (date_str accrual_date_));
     ("gain_amount", JStr (q_str gain_amount)); ("fee_amount", JStr (q_str fee_amount))]%string;
  negated ← lift (q_neg fee_amount);
  entry ← post FEE_ADJUSTMENT accrual_date_ (event_id event)
    [money_leg (account_id payable_account) fee_amount; money_leg (account_id revenue_account) negated]
    (Some "performance fee daily accrual (S10 §4, ADR 10)"%string);
  id ← uuid4;
  let accrual := {| accrual_id := id; accrual_customer_id := customer; accrual_date := accrual_date_;
                    accrual_gain_amount := gain_amount; accrual_fee_amount := fee_amount;
                    accrual_journal_entry_id := entry_id entry |} in
  add TFeeAccrual accrual ;;
  mret accrual.

Definition DAYS_PER_YEAR : dec := dec_of_Z 365.

(** [except IntegrityError] *)
Definition on_integrity_error (e : exn) : bool := bool_decide (e = IntegrityError).

(** [gain * (fee_rate_pct / _DAYS_PER_YEAR)] *)
Definition daily_fee (fee_rate_pct : dec) (gain : Money) : result Money :=
  daily_rate ← dec_div fee_rate_pct DAYS_PER_YEAR;
  scale_by gain daily_rate.

(** The block under [begin_nested]. *)
Definition accrue (fee_rate_pct : dec) (now : instant) (customer : uuid) (on : date) (shadow_value : Money)
    : prog FeeAccrual :=
  hwm ← get_or_create_hwm now customer shadow_value;
  gain ← ratchet now hwm shadow_value;
  fee_amount ← lift (daily_fee fee_rate_pct gain);
  post_accrual customer on gain fee_amount.

(** [accrue_for_customer] *)
Definition accrue_for_customer (fee_rate_pct : dec) (now : instant) (customer : uuid) (on : date)
    : prog (option FeeAccrual) :=
  shadow_value ← shadow_nav customer on;
  match shadow_value with
  | None => mret None
  | Some v =>
      accrual ← savepoint on_integrity_error (accrue fee_rate_pct now customer on v);
      mret (match accrual with Ok a => Some a | Raise _ => None end)
  end.

(** [DailyFeeAccrualJob.perform], one transaction over every assigned customer. *)
Definition daily_fee_accrual (fee_rate_pct : dec) (now : instant) (market_date : date) : prog () :=
  assignments ← gets customer_model_assignments;
  for_each assignments (λ a, accrue_for_customer fee_rate_pct now (assignment_customer_id a) market_date ;; mret tt).

(** ** Lemmas: an entry between a customer and the house *)

(** The house's accounts of a role, and what is posted to them. *)
Definition of_house (role : AccountRole) (a : Account) : bool :=
  bool_decide (account_role a = role) && bool_decide (account_customer_id a = None).

Definition house_balance (role : AccountRole) (d : db) : Z := posted (of_house role) posting_money d.

(** An entry of two legs: [x] on the customer's account, [y] on the house's. *)
Record transferred (type : JournalEntryType) (on : date) (c : uuid) (role house : AccountRole) (x y : Money)
    (entry : JournalEntry) (d d' : db) : Prop := {
  transferred_entry : journal_entries d' = journal_entries d ++ [entry];
  transferred_type : entry_type entry = type;
  transferred_date : entry_effective_date entry = on;
  transferred_customer : ∀ r c', balance r c' d' = balance r c' d + (if bool_decide (r = role ∧ c' = c) then quanta x else 0);
  transferred_house : ∀ r, house_balance r d' = house_balance r d + (if bool_decide (r = house) then quanta y else 0);
  transferred_frame : ∀ t, t ∉ [TAccount; TInboundEvent; TJournalEntry; TPosting] → tables d' t = tables d t;
}.

Lemma house_account_role role d a d' :
  run (get_or_create_house_account role) d = Ok (a, d') → account_role a = role.
Proof.
  unfold get_or_create_house_account. intros ([b|] & d1 & [Hs <-]%run_queries_Ok & H)%run_bind_Ok.
  - apply run_ret_Ok in H as [<- <-]. apply scalar_one_or_none_Some in Hs.
    assert (b ∈ select_accounts d None role None) as Hin by (rewrite Hs; set_solver).
    by apply list_elem_of_filter in Hin as [(_ & ? & _) _].
  - apply run_bind_Ok in H as (b & d2 & (_ & Hr & _)%account_create_Ok & H).
    by apply run_bind_Ok in H as (u & d3 & _ & [<- _]%run_ret_Ok).
Qed.

Lemma still_step {A} (m : prog A) d a d' :
  preserves (same_books d) m → preserves ledger_ok m → state_ok d → run m d = Ok (a, d') →
  state_ok d' ∧ same_books d d' ∧ ∀ P f, posted P f d' = posted P f d.
Proof.
  intros Hb Hl Hok Hr. destruct (books_step m d a d' Hb Hl Hok Hr) as (Hok' & Hs & _).
  split_and!; [done..|]. intros P f. apply posted_same; [apply Hok|done].
Qed.

Lemma transfer_Ok source kind payload type on c role house x y memo d a d1 h d2 ev d3 entry d' :
  state_ok d →
  run (get_or_create_customer_account c role None) d = Ok (a, d1) →
  run (get_or_create_house_account house) d1 = Ok (h, d2) →
  run (record_inbound_event source kind payload) d2 = Ok (ev, d3) →
  run (post type on (event_id ev) [money_leg (account_id a) x; money_leg (account_id h) y] memo) d3 = Ok (entry, d') →
  state_ok d' ∧ transferred type on c role house x y entry d d'.
Proof.
  intros Hok Ha Hh Hev Hpost. pose proof (get_or_create_Ok _ _ _ _ _ _ Ha) as (Hina & Hac & Har).
  pose proof (house_account_Ok _ _ _ _ Hh) as [Hinh Hhc]. pose proof (house_account_role _ _ _ _ Hh) as Hhr.
  destruct (still_step _ _ _ _ (books_get_or_create _ _ _ _) (preserves_get_or_create _ _ _) Hok Ha) as (Hok1 & Hs1 & Hp1).
  destruct (still_step _ _ _ _ (books_house_account _ _) (preserves_house_account _) Hok1 Hh) as (Hok2 & Hs2 & Hp2).
  destruct (still_step _ _ _ _ (books_inbound_event _ _ _ _) (preserves_inbound_event _ _ _) Hok2 Hev) as (Hok3 & Hs3 & Hp3).
  destruct (post_step _ _ _ _ _ _ _ _ Hok3 Hpost) as (Hok4 & _ & _ & _).
  assert (Hlegs : ∀ P, legs_on P leg_money d3 [money_leg (account_id a) x; money_leg (account_id h) y] =
                       (if P a then quanta x else 0) + (if P h then quanta y else 0)).
  { intros P. destruct Hok3 as [Hd3 _].
    rewrite (legs_on_cons P _ d3 a), (legs_on_cons P _ d3 h), legs_on_nil; try done.
    - unfold leg_money. cbn. destruct (P a), (P h); lia.
    - exact (books_accounts _ _ _ Hs3 Hinh).
    - exact (books_accounts _ _ _ Hs3 (books_accounts _ _ _ Hs2 Hina)). }
  pose proof (λ P, post_posted P posting_money leg_money _ _ _ _ _ _ _ _
    (λ e l p H, proj2 (posting_of_figures d3 e l p H)) Hpost) as Hp4.
  pose proof (write_Ok _ _ _ _ _ _ _ _ _ _ Hpost) as Hw.
  split; [done|]. constructor.
  - rewrite (written_entries _ _ _ _ _ _ _ _ Hw). f_equal. unfold journal_entries.
    rewrite (writes_inbound_event _ _ _ _ _ _ Hev), (writes_house_account _ _ _ _ Hh),
      (writes_get_or_create _ _ _ _ _ _ Ha) by set_solver. done.
  - exact (written_type _ _ _ _ _ _ _ _ Hw).
  - exact (written_date _ _ _ _ _ _ _ _ Hw).
  - intros r c'. unfold balance. rewrite Hp4, Hp3, Hp2, Hp1, Hlegs, (own_house h) by done.
    rewrite (own_account c role a) by done.
    destruct (bool_decide_reflect (r = role ∧ c' = c)) as [[-> ->]|Hne].
    + rewrite !bool_decide_eq_true_2 by done. cbn. lia.
    + destruct (bool_decide_reflect (role = r)) as [<-|]; [|cbn; lia].
      rewrite bool_decide_eq_false_2 by naive_solver. cbn. lia.
  - intros r. unfold house_balance. rewrite Hp4, Hp3, Hp2, Hp1, Hlegs. unfold of_house. rewrite Hac, Hhc, Hhr.
    rewrite (bool_decide_eq_false_2 (Some c = None)), andb_false_r by done.
    rewrite (bool_decide_eq_true_2 (None = None)), andb_true_r by done.
    rewrite (bool_decide_ext (r = house) (house = r)) by done. lia.
  - intros t Ht. rewrite (written_frame _ _ _ _ _ _ _ _ Hw) by set_solver.
    rewrite (writes_inbound_event _ _ _ _ _ _ Hev), (writes_house_account _ _ _ _ Hh),
      (writes_get_or_create _ _ _ _ _ _ Ha) by set_solver. done.
Qed.

(** ** Lemmas: the peak *)

Definition peak (c : uuid) (d : db) : option Z :=
  (λ h, quanta (hwm_peak_value h)) <$> head (filter (λ h, hwm_customer_id h = c) (high_water_marks d)).

Lemma hwm_key (a b : HighWaterMark) : hwm_customer_id a = hwm_customer_id b → conflicts (Schema := trueup) THighWaterMark a b = true.
Proof. intros E. cbn. by rewrite E, Z.eqb_refl. Qed.

Lemma peak_of_row d h : integrity d → h ∈ high_water_marks d → peak (hwm_customer_id h) d = Some (quanta (hwm_peak_value h)).
Proof.
  intros Hd Hh. unfold peak.
  assert (E : filter (λ x, hwm_customer_id x = hwm_customer_id h) (high_water_marks d) = [h])
    by exact (filter_unique (H := trueup) THighWaterMark hwm_customer_id d h hwm_key Hd Hh).
  by rewrite E.
Qed.

Lemma get_or_create_hwm_Ok now c v d h d' :
  integrity d → run (get_or_create_hwm now c v) d = Ok (h, d') →
  h ∈ high_water_marks d' ∧ hwm_customer_id h = c ∧ quanta (hwm_peak_value h) = default (quanta v) (peak c d) ∧
  (∀ x, x ≠ c → peak x d' = peak x d) ∧ (∀ t, t ≠ THighWaterMark → tables d' t = tables d t).
Proof.
  intros Hd. unfold get_or_create_hwm. intros ([b|] & d1 & [Hs <-]%run_queries_Ok & H)%run_bind_Ok.
  - apply run_ret_Ok in H as [<- <-]. apply scalar_one_or_none_Some in Hs.
    assert (b ∈ filter (λ h, hwm_customer_id h = c) (high_water_marks d)) as Hin by (rewrite Hs; set_solver).
    apply list_elem_of_filter in Hin as [<- Hin]. rewrite (peak_of_row d b) by done. by split_and!.
  - apply scalar_one_or_none_None in Hs. unfold peak at 1. rewrite Hs.
    apply run_bind_Ok in H as (u & d2 & [_ ->]%run_add_Ok & [<- <-]%run_ret_Ok).
    split_and!; [|done|done| |].
    + unfold high_water_marks, insert_row. rewrite tables_set_same. set_solver.
    + intros x Hx. unfold peak, high_water_marks, insert_row. rewrite tables_set_same, filter_app.
      rewrite filter_cons_False by (cbn; congruence). by rewrite filter_nil, app_nil_r.
    + intros t Ht. unfold insert_row. by rewrite tables_set_ne.
Qed.

Lemma ratchet_Ok now h v d g d' :
  integrity d → h ∈ high_water_marks d → run (ratchet now h v) d = Ok (g, d') →
  quanta g = Z.max 0 (quanta v - quanta (hwm_peak_value h)) ∧
  peak (hwm_customer_id h) d' = Some (Z.max (quanta v) (quanta (hwm_peak_value h))) ∧
  (∀ x, x ≠ hwm_customer_id h → peak x d' = peak x d) ∧ (∀ t, t ≠ THighWaterMark → tables d' t = tables d t).
Proof.
  intros Hd Hh. unfold ratchet. intros (gain & d1 & [[_ Hg]%q_sub_Ok <-]%run_lift_Ok & H)%run_bind_Ok.
  unfold q_leb in H. cbn [quanta zero] in H. destruct (Z.leb_spec (quanta gain) 0).
  - apply run_ret_Ok in H as [<- <-]. rewrite (peak_of_row d h) by done. split_and!; [cbn; lia|f_equal; lia|done|done].
  - apply run_bind_Ok in H as (u & d1 & (_ & _ & _ & _ & ->)%run_update_Ok & [<- <-]%run_ret_Ok).
    destruct (update_one (H := trueup) THighWaterMark hwm_customer_id (set_peak v now) d h hwm_key Hd Hh)
      as (l1 & l2 & Hl & Hu & Hne).
    assert (Hrow : ∀ d0, high_water_marks (set_table (H := trueup) THighWaterMark
       (update_table (H := trueup) THighWaterMark (λ x, hwm_customer_id x =? hwm_customer_id h) (set_peak v now) d) d0)
       = l1 ++ set_peak v now h :: l2) by (intros d0; unfold high_water_marks; rewrite tables_set_same; exact Hu).
    split_and!; [lia| | |].
    + unfold peak. rewrite Hrow, filter_app, (filter_none _ l1) by (intros x Hx; apply Hne; set_solver).
      rewrite filter_cons_True by done. cbn. f_equal. lia.
    + intros x Hx. unfold peak. rewrite Hrow. unfold high_water_marks. rewrite Hl, !filter_app.
      by rewrite !filter_cons_False by (cbn; congruence).
    + intros t Ht. by rewrite tables_set_ne.
Qed.

Lemma writes_get_or_create_hwm now c v : writes [THighWaterMark] (get_or_create_hwm now c v).
Proof. unfold get_or_create_hwm. writes_auto. Qed.

Lemma writes_ratchet now h v : writes [THighWaterMark] (ratchet now h v).
Proof. unfold ratchet. writes_auto. Qed.

Lemma writes_shadow_nav c on : writes [TSubPeriodReturn] (shadow_nav c on).
Proof. unfold shadow_nav. pose proof writes_compute_twr. writes_auto. Qed.

#[export] Hint Resolve writes_get_or_create_hwm writes_ratchet writes_shadow_nav : writes.

Definition fee_tables : list tables_ :=
  [TSubPeriodReturn; THighWaterMark; TAccount; TInboundEvent; TJournalEntry; TPosting; TFeeAccrual].

Lemma writes_post_accrual c on g f : writes fee_tables (post_accrual c on g f).
Proof. unfold post_accrual, fee_tables. writes_auto. Qed.
#[export] Hint Resolve writes_post_accrual : writes.

Lemma writes_accrue rate now c on : writes fee_tables (accrue_for_customer rate now c on).
Proof. unfold accrue_for_customer, accrue, fee_tables. pose proof writes_post_accrual as H. unfold fee_tables in H. writes_auto. Qed.
#[export] Hint Resolve writes_accrue : writes.

(** [_post_accrual]: the fee is owed by the customer and earned by the house. *)
Lemma post_accrual_Ok c on gain fee d a d' :
  state_ok d → run (post_accrual c on gain fee) d = Ok (a, d') →
  state_ok d' ∧
  (∃ entry d1, transferred FEE_ADJUSTMENT on c FEES_ACCRUED_PAYABLE FEE_REVENUE_ACCRUED fee (QD (- quanta fee)) entry d d1 ∧
     accrual_journal_entry_id a = entry_id entry ∧ accepts (H := trueup) TFeeAccrual d1 a = true ∧
     ∀ t, tables d' t = tables (insert_row (H := trueup) TFeeAccrual a d1) t) ∧
  accrual_customer_id a = c ∧ accrual_date a = on ∧ accrual_gain_amount a = gain ∧ accrual_fee_amount a = fee.
Proof.
  intros Hok Hrun. unfold post_accrual in Hrun.
  apply run_bind_Ok in Hrun as (p & d1 & Hp & Hrun). apply run_bind_Ok in Hrun as (h & d2 & Hh & Hrun).
  apply run_bind_Ok in Hrun as (ev & d3 & Hev & Hrun).
  apply run_bind_Ok in Hrun as (n & d3' & [[_ Hn]%q_neg_Ok <-]%run_lift_Ok & Hrun).
  apply run_bind_Ok in Hrun as (entry & d4 & Hpost & Hrun).
  destruct (transfer_Ok _ _ _ _ _ _ _ _ _ _ _ _ _ _ _ _ _ _ _ _ Hok Hp Hh Hev Hpost) as [Hok4 Ht].
  assert (Hn' : n = QD (- quanta fee)) by (destruct n; by cbn in Hn; subst). subst n.
  apply run_bind_Ok in Hrun as (id & d5 & [-> ->]%run_uuid4_Ok & Hrun). cbn zeta in Hrun.
  apply run_bind_Ok in Hrun as (u & d6 & [Hacc ->]%run_add_Ok & [<- <-]%run_ret_Ok).
  split_and!; try done.
  - split; [apply integrity_insert; [exact (proj1 Hok4)|exact Hacc]|].
    apply (ledger_ok_frame (Db (tables d4) (next_uuid d4 + 1) (db_now d4))); [|exact (proj2 Hok4)]. intros t Hin. unfold insert_row. apply tables_set_ne.
    intros <-. unfold ledger_tables in Hin. set_solver.
  - eexists entry, d4. split_and!; [exact Ht|done|exact Hacc|done].
Qed.

(** ** One day's accrual *)

(** The state after an accrual [a] on [c]'s value [v]. *)
Record accrued (rate : dec) (c : uuid) (on : date) (v : Money) (a : FeeAccrual) (d d' : db) : Prop := {
  accrued_once : ∀ b, b ∈ fee_accruals d → ¬ (accrual_customer_id b = c ∧ accrual_date b = on);
  accrued_row : fee_accruals d' = fee_accruals d ++ [a] ∧ accrual_customer_id a = c ∧ accrual_date a = on;
  accrued_peak : peak c d' = Some (Z.max (quanta v) (default (quanta v) (peak c d)));
  accrued_gain : quanta (accrual_gain_amount a) = Z.max 0 (quanta v - default (quanta v) (peak c d));
  accrued_fee : daily_fee rate (accrual_gain_amount a) = Ok (accrual_fee_amount a);
  accrued_others : ∀ x, x ≠ c → peak x d' = peak x d;
  accrued_customer : ∀ r x, balance r x d' = balance r x d +
    (if bool_decide (r = FEES_ACCRUED_PAYABLE ∧ x = c) then quanta (accrual_fee_amount a) else 0);
  accrued_house : ∀ r, house_balance r d' = house_balance r d -
    (if bool_decide (r = FEE_REVENUE_ACCRUED) then quanta (accrual_fee_amount a) else 0);
  accrued_entry : ∃ e, journal_entries d' = journal_entries d ++ [e] ∧ entry_id e = accrual_journal_entry_id a ∧
    entry_type e = FEE_ADJUSTMENT ∧ entry_effective_date e = on;
}.

Lemma same_balances d d' : accounts d' = accounts d → postings d' = postings d →
  (∀ r x, balance r x d' = balance r x d) ∧ ∀ r, house_balance r d' = house_balance r d.
Proof. intros Ha Hp. unfold balance, house_balance, posted, account_by_id. by rewrite Ha, Hp. Qed.

Lemma accrue_Ok rate now c on v d a d' :
  state_ok d → run (accrue rate now c on v) d = Ok (a, d') → state_ok d' ∧ accrued rate c on v a d d'.
Proof.
  intros [Hd Hok] Hrun. unfold accrue in Hrun.
  apply run_bind_Ok in Hrun as (h & d1 & Hh & Hrun). apply run_bind_Ok in Hrun as (g & d2 & Hg & Hrun).
  apply run_bind_Ok in Hrun as (fee & d2' & [Hfee <-]%run_lift_Ok & Hrun).
  destruct (get_or_create_hwm_Ok _ _ _ _ _ _ Hd Hh) as (Hin & Hc & Hpk & Hx1 & Hf1).
  pose proof (run_integrity _ _ _ _ Hd Hh) as Hd1.
  destruct (ratchet_Ok _ _ _ _ _ _ Hd1 Hin Hg) as (Hgain & Hpk2 & Hx2 & Hf2). rewrite Hc in Hpk2, Hx2.
  assert (Hfr : ∀ t, t ≠ THighWaterMark → tables d2 t = tables d t) by (intros t Ht; by rewrite Hf2, Hf1).
  assert (Hok2 : state_ok d2).
  { split; [exact (run_integrity _ _ _ _ Hd1 Hg)|]. apply (ledger_ok_frame d); [|done]. intros t Ht.
    apply Hfr. intros ->. unfold ledger_tables in Ht. set_solver. }
  destruct (post_accrual_Ok _ _ _ _ _ _ _ Hok2 Hrun) as (Hok' & (e & d3 & Ht & He & Hacc & Hd') & Hac & Had & Hag & Haf).
  destruct (same_balances d d2) as [Hb2 Hh2]; [exact (Hfr TAccount ltac:(done))|exact (Hfr TPosting ltac:(done))|].
  destruct (same_balances d3 d') as [Hb3 Hh3]; [exact (Hd' TAccount)|exact (Hd' TPosting)|].
  assert (Hrow : fee_accruals d' = fee_accruals d3 ++ [a]).
  { unfold fee_accruals. rewrite Hd'. unfold insert_row. by rewrite tables_set_same. }
  assert (Hrow3 : fee_accruals d3 = fee_accruals d).
  { unfold fee_accruals. rewrite (transferred_frame _ _ _ _ _ _ _ _ _ _ Ht) by set_solver. exact (Hfr TFeeAccrual ltac:(done)). }
  assert (Hpk' : ∀ x, peak x d' = peak x d2).
  { intros x. unfold peak, high_water_marks. rewrite Hd'. unfold insert_row. rewrite tables_set_ne by done.
    by rewrite (transferred_frame _ _ _ _ _ _ _ _ _ _ Ht) by set_solver. }
  split; [exact Hok'|]. constructor.
  - intros b Hb [Hbc Hbd]. rewrite <- Hrow3 in Hb. apply andb_true_iff in Hacc as [_ Hn].
    rewrite forallb_forall in Hn. specialize (Hn b (proj1 (list_elem_of_In _ _) Hb)). cbn in Hn.
    rewrite Hbc, Hbd, Hac, Had, !Z.eqb_refl, orb_true_r in Hn. done.
  - by rewrite Hrow, Hrow3.
  - by rewrite Hpk', Hpk2, Hpk.
  - by rewrite Hag, Hgain, Hpk.
  - by rewrite Hag, Haf.
  - intros x Hx. by rewrite Hpk', Hx2, Hx1.
  - intros r x. by rewrite Hb3, (transferred_customer _ _ _ _ _ _ _ _ _ _ Ht), Hb2, Haf.
  - intros r. rewrite Hh3, (transferred_house _ _ _ _ _ _ _ _ _ _ Ht), Hh2, Haf. cbn [quanta].
    case_bool_decide; lia.
  - exists e. split_and!; [|done| |].
    + replace (journal_entries d') with (journal_entries d3) by (unfold journal_entries; by rewrite Hd').
      rewrite (transferred_entry _ _ _ _ _ _ _ _ _ _ Ht). f_equal. exact (Hfr TJournalEntry ltac:(done)).
    + exact (transferred_type _ _ _ _ _ _ _ _ _ _ Ht).
    + exact (transferred_date _ _ _ _ _ _ _ _ _ _ Ht).
Qed.

(** C8. A day's fee is accrued once and only above the peak: when
    [accrue_for_customer] makes an accrual there was none for that customer and
    date, the gain is what the time-weighted value [v] has above the previous
    peak and never negative, the peak becomes the larger of the two and no other
    customer's peak moves, and the fee is posted once, from the house's accrued
    revenue to the customer's payable.  When it makes none - no funded basis, or
    the date already accrued - nothing but cached sub-period returns changes. *)
Theorem accrual_ratchets rate now c on d r d' :
  state_ok d → run (accrue_for_customer rate now c on) d = Ok (r, d') →
  state_ok d' ∧
  match r with
  | Some a => ∃ v d1, run (shadow_nav c on) d = Ok (Some v, d1) ∧ accrued rate c on v a d d'
  | None => ∀ t, t ≠ TSubPeriodReturn → tables d' t = tables d t
  end.
Proof.
  intros [Hd Hok] Hrun. unfold accrue_for_customer in Hrun.
  apply run_bind_Ok in Hrun as (nav & d1 & Hnav & Hrun). pose proof (writes_shadow_nav _ _ _ _ _ Hnav) as Hw.
  assert (Hf : ∀ t, t ≠ TSubPeriodReturn → tables d1 t = tables d t) by (intros t Ht; apply Hw; set_solver).
  assert (Hok1 : state_ok d1).
  { split; [exact (run_integrity _ _ _ _ Hd Hnav)|]. apply (ledger_ok_frame d); [|done]. intros t Ht.
    apply Hf. intros ->. unfold ledger_tables in Ht. set_solver. }
  destruct nav as [v|]; [|by apply run_ret_Ok in Hrun as [<- <-]].
  apply run_bind_Ok in Hrun as (res & d2 & Hsave & [<- <-]%run_ret_Ok). rewrite run_savepoint in Hsave.
  destruct (run (accrue rate now c on v) d1) as [[a d3]|e] eqn:E.
  - injection Hsave as <- <-. destruct (accrue_Ok _ _ _ _ _ _ _ _ Hok1 E) as [Hok3 [H1 H2 H3 H4 H5 H6 H7 H8 H9]].
    split; [done|]. exists v, d1. split; [done|].
    destruct (same_balances d d1) as [Hb Hh]; [exact (Hf TAccount ltac:(done))|exact (Hf TPosting ltac:(done))|].
    assert (Hp : ∀ x, peak x d1 = peak x d) by (intros x; unfold peak, high_water_marks; by rewrite Hf).
    unfold fee_accruals, journal_entries in *. rewrite !Hf in H1, H2, H9 by done. rewrite Hp in H3, H4.
    constructor; try done.
    + intros x Hx. by rewrite H6.
    + intros r x. by rewrite H7, Hb.
    + intros r. by rewrite H8, Hh.
  - destruct (on_integrity_error e); [|done]. injection Hsave as <- <-. done.
Qed.

(** Customer 7 with 15 units worth 12.00 and a peak of 48.00, a fee of 20% a year. *)
Definition sample_invested : db :=
  let d := set_table (H := trueup) THighWaterMark
    [{| hwm_customer_id := 7; hwm_peak_value := QD 480000; hwm_updated_at := 0 |}] sample_lots in
  set_table (H := trueup) TDailyClose
    [{| close_id := 600; close_security_id := 9; close_market_date := 738165; close_price := QD 12000000;
        close_source := LIVE; close_status := CONFIRMED; close_recorded_at := 10 |}] d.

Lemma sample_invested_ok : state_ok sample_invested.
Proof.
  split; [apply integrity_check; intros []; vm_compute; reflexivity|].
  apply (ledger_ok_frame sample_lots); [|exact sample_lots_ok]. intros t Ht. unfold sample_invested.
  rewrite !tables_set_ne; [done|..]; intros <-; unfold ledger_tables in Ht; set_solver.
Qed.

Definition sample_accrued : option FeeAccrual * db :=
  run_or (accrue_for_customer (Dec 20 (-2)) 0 7 738165) sample_invested None.

Lemma sample_accrual_runs :
  run (accrue_for_customer (Dec 20 (-2)) 0 7 738165) sample_invested = Ok (sample_accrued.1, sample_accrued.2).
Proof. rewrite <- surjective_pairing. apply run_or_Ok. vm_compute. reflexivity. Qed.

Lemma accrual_ratchets_witness :
  ∃ a, sample_accrued.1 = Some a ∧ quanta (accrual_fee_amount a) = 121 ∧ peak 7 sample_accrued.2 = Some 700000.
Proof.
  pose proof sample_accrual_runs as Hr. assert (Hs : is_Some sample_accrued.1) by (vm_compute; by eexists).
  revert Hr Hs. generalize (sample_accrued.2). generalize (sample_accrued.1). intros [a|] d' Hr Hs; [clear Hs|by destruct Hs].
  destruct (accrual_ratchets _ _ _ _ _ _ _ sample_invested_ok Hr) as [_ Ha].
  destruct Ha as (v & d1 & Hv & Ha). exists a. split; [done|].
  assert (Hnav : fst <$> (match run (shadow_nav 7 738165) sample_invested with Ok r => Some r | Raise _ => None end)
                 = Some (Some (QD 700000))) by (vm_compute; reflexivity).
  rewrite Hv in Hnav. cbn in Hnav. injection Hnav as ->. split; [|exact (accrued_peak _ _ _ _ _ _ _ Ha)].
  pose proof (accrued_gain _ _ _ _ _ _ _ Ha) as Hg. pose proof (accrued_fee _ _ _ _ _ _ _ Ha) as Hf.
  destruct (accrual_gain_amount a) as [g]. cbn in Hg. change (Z.max 0 _) with 220000 in Hg. subst g.
  assert (E : daily_fee (Dec 20 (-2)) (QD 220000) = Ok (QD 121)) by (vm_compute; reflexivity).
  rewrite E in Hf. by injection Hf as <-.
Defined.
