(* ===== verification/FeeCharges.v ===== *)
(** * Fee charges: billing, collection and dunning

    [services/fees/fee_charge_service.py], [dunning_service.py],
    [fee_charge_outbox_handler.py], [payment_method_service.py],
    [fee_summary_service.py], their repositories under [models/fees/], the
    verdict of [controllers/webhooks/stripe_billing.py] and the bodies of the
    monthly-charge and dunning-retry jobs.  A period's accruals become one
    charge and one outbox job; the payment provider's answer settles the charge
    or starts the dunning of it.  The provider ([PaymentPort]) is a parameter. *)

From S2P Require Import Prelude PyDecimal MoneyTypes Dates Calendar Store Schema Ledger CashPolicy Funding Valuation Restatement Lots LotBooks CorporateActions Operations Fees.
From Stdlib Require Import String.
From stdpp Require Import strings.
Open Scope Z_scope.

(** ** Repositories *)

Definition charge_by_id (id : uuid) (d : db) : result (option FeeCharge) :=
  scalar_one_or_none (filter (λ f, charge_id f = id) (fee_charges d)).

(** [get_by_stripe_charge_id] *)
Definition charge_by_stripe_id (stripe_charge_id : string) (d : db) : result (option FeeCharge) :=
  scalar_one_or_none (filter (λ f, charge_stripe_charge_id f = Some stripe_charge_id) (fee_charges d)).

(** [get_for_period] *)
Definition charge_for_period (customer : uuid) (period_start period_end : date) (d : db) : result (option FeeCharge) :=
  scalar_one_or_none (filter (λ f, charge_customer_id f = customer ∧ charge_billing_period_start f = period_start ∧
                                   charge_billing_period_end f = period_end) (fee_charges d)).

(** [FeeChargeRepository.list_for_customer] *)
Definition charges_for_customer (customer : uuid) (d : db) : list FeeCharge :=
  sort_by (λ a b, charge_billing_period_start b <=? charge_billing_period_start a)
    (filter (λ f, charge_customer_id f = customer) (fee_charges d)).

(** [FeeAccrualRepository.list_for_period] *)
Definition accruals_for_period (customer : uuid) (period_start period_end : date) (d : db) : list FeeAccrual :=
  filter (λ a, accrual_customer_id a = customer ∧ period_start <= accrual_date a ∧ accrual_date a <= period_end)
    (fee_accruals d).

(** [list_customers_with_accruals_in_period] *)
Definition customers_with_accruals (period_start period_end : date) (d : db) : list uuid :=
  remove_dups (accrual_customer_id <$>
    filter (λ a, period_start <= accrual_date a ∧ accrual_date a <= period_end) (fee_accruals d)).

(** [DunningStateRepository.get_by_fee_charge_id], [get_by_customer], [list_due] *)
Definition dunning_by_charge (id : uuid) (d : db) : result (option DunningState) :=
  scalar_one_or_none (filter (λ s, dunning_fee_charge_id s = id) (dunning_states d)).

Definition dunning_by_customer (customer : uuid) (d : db) : list DunningState :=
  filter (λ s, dunning_customer_id s = customer) (dunning_states d).

Definition list_due (now : instant) (d : db) : list DunningState :=
  filter (λ s, dunning_status s = RETRYING ∧ dunning_next_retry_at s <= now) (dunning_states d).

(** [PaymentMethodRepository.get_by_customer] *)
Definition method_by_customer (customer : uuid) (d : db) : result (option PaymentMethod) :=
  scalar_one_or_none (filter (λ p, pm_customer_id p = customer) (payment_methods d)).

(** The attribute assignments on a charge: its status, provider id and entry. *)
Definition set_charge (s : FeeChargeStatus) (stripe : option string) (entry : option uuid) (c : FeeCharge) : FeeCharge :=
  {| charge_id := charge_id c; charge_customer_id := charge_customer_id c;
     charge_billing_period_start := charge_billing_period_start c;
     charge_billing_period_end := charge_billing_period_end c; charge_total_accrued := charge_total_accrued c;
     charge_as_published_watermark := charge_as_published_watermark c; charge_status := s;
     charge_stripe_charge_id := stripe; charge_journal_entry_id := entry |}.

Definition assign_charge (id : uuid) (f : FeeCharge → FeeCharge) : prog () :=
  update TFeeCharge (λ c : FeeCharge, charge_id c =? id) f.

(** ** Billing a period ([FeeChargeService.create_pending_charge]) *)

(** [_ensure_published] *)
Definition ensure_published (customer : uuid) (period_start period_end : date) : prog instant :=
  existing ← gets (λ d, latest_for_period d customer period_start);
  let publish_now := snapshot ← publish customer period_start period_end; mret (snapshot_publish_watermark snapshot) in
  match existing with
  | Some s => if snapshot_period_end s =? period_end then mret (snapshot_publish_watermark s) else publish_now
  | None => publish_now
  end.

(** [total += accrual.fee_amount] *)
Definition total_fees (accruals : list FeeAccrual) : result Money :=
  foldr_result (λ total a, q_add total (accrual_fee_amount a)) accruals zero.

(** The block under [begin_nested]. *)
Definition insert_charge (customer : uuid) (period_start period_end : date) (total : Money) (watermark : instant)
    : prog FeeCharge :=
  id ← uuid4;
  let charge := {| charge_id := id; charge_customer_id := customer; charge_billing_period_start := period_start;
                   charge_billing_period_end := period_end; charge_total_accrued := total;
                   charge_as_published_watermark := Some watermark; charge_status := CHARGE_PENDING;
                   charge_stripe_charge_id := None; charge_journal_entry_id := None |} in
  add TFeeCharge charge ;;
  mret charge.

Definition create_pending_charge (customer : uuid) (period_start period_end : date) : prog (option FeeCharge) :=
  existing ← queries (charge_for_period customer period_start period_end);
  match existing with
  | Some charge => mret (Some charge)
  | None =>
      accruals ← gets (accruals_for_period customer period_start period_end);
      total ← lift (total_fees accruals);
      if q_eqb total zero then mret None
      else
        watermark ← ensure_published customer period_start period_end;
        inserted ← savepoint on_integrity_error (insert_charge customer period_start period_end total watermark);
        match inserted with
        | Raise _ => queries (charge_for_period customer period_start period_end)
        | Ok charge =>
            enqueue "charge_fee" [("fee_charge_id", uuid_str (charge_id charge))]%string ;;
            mret (Some charge)
        end
  end.

(** [previous_month_bounds] *)
Definition previous_month_bounds (market_date : date) : result (date * date) :=
  let '(y, m, _) := ymd_of_date market_date in
  first_of_this_month ← date_of_ymd y m 1;
  period_end ← date_add first_of_this_month (-1);
  let '(y, m, _) := ymd_of_date period_end in
  period_start ← date_of_ymd y m 1;
  Ok (period_start, period_end).

(** [MonthlyFeeChargeJob.perform] *)
Definition monthly_fee_charge (market_date : date) : prog () :=
  bounds ← lift (previous_month_bounds market_date);
  customer_ids ← gets (customers_with_accruals bounds.1 bounds.2);
  for_each customer_ids (λ c, create_pending_charge c bounds.1 bounds.2 ;; mret tt).

(** ** Dunning ([DunningService]) *)

(** [compute_backoff], in microseconds. *)
Definition compute_backoff (attempt_number base_hours : Z) : result Z :=
  ensure (1 <=? attempt_number) ValueError ;;
  Ok (base_hours * 2 ^ (attempt_number - 1) * 3600 * 1000000).

(** [self._now() + compute_backoff(...)] *)
Definition next_retry (now : instant) (attempt_number base_hours : Z) : result instant :=
  delay ← compute_backoff attempt_number base_hours;
  ensure (now + delay <=? MAX_INSTANT) OverflowError ;;
  Ok (now + delay).

(** [backoff_base_hours: int = 24], the only value the services use. *)
Definition BACKOFF_BASE_HOURS : Z := 24.

Definition start_dunning (max_attempts : Z) (now : instant) (charge : FeeCharge) : prog DunningState :=
  next_retry_at ← lift (next_retry now 1 BACKOFF_BASE_HOURS);
  let dunning := {| dunning_fee_charge_id := charge_id charge; dunning_customer_id := charge_customer_id charge;
                    dunning_attempt_number := 1; dunning_next_retry_at := next_retry_at;
                    dunning_max_attempts := max_attempts; dunning_status := RETRYING |} in
  add TDunningState dunning ;;
  mret dunning.

Definition set_dunning (attempt : Z) (next_retry_at : instant) (s : DunningStatus) (x : DunningState) : DunningState :=
  {| dunning_fee_charge_id := dunning_fee_charge_id x; dunning_customer_id := dunning_customer_id x;
     dunning_attempt_number := attempt; dunning_next_retry_at := next_retry_at;
     dunning_max_attempts := dunning_max_attempts x; dunning_status := s |}.

Definition assign_dunning (id : uuid) (f : DunningState → DunningState) : prog () :=
  update TDunningState (λ x : DunningState, dunning_fee_charge_id x =? id) f.

Definition record_retry_failure (now : instant) (dunning : DunningState) (charge : FeeCharge) : prog () :=
  let attempt := dunning_attempt_number dunning + 1 in
  if dunning_max_attempts dunning <=? attempt then
    assign_dunning (dunning_fee_charge_id dunning) (λ x, set_dunning attempt (dunning_next_retry_at x) EXHAUSTED x) ;;
    assign_charge (charge_id charge)
      (λ c, set_charge CHARGE_DUNNING (charge_stripe_charge_id c) (charge_journal_entry_id c) c)
  else
    next_retry_at ← lift (next_retry now attempt BACKOFF_BASE_HOURS);
    assign_dunning (dunning_fee_charge_id dunning) (λ x, set_dunning attempt next_retry_at (dunning_status x) x).

(** ** Applying the provider's outcome *)

(** [apply_charge_success] *)
Definition apply_charge_success (now : instant) (fee_charge_id : uuid) (stripe_charge_id : string) : prog () :=
  found ← queries (charge_by_id fee_charge_id);
  match found with
  | None => throw FeeChargeNotFoundError
  | Some charge =>
      if bool_decide (charge_status charge = CHARGE_SUCCEEDED) then mret tt
      else
        payable_account ← get_or_create_customer_account (charge_customer_id charge) FEES_ACCRUED_PAYABLE None;
        collected_account ← get_or_create_house_account FEE_REVENUE_COLLECTED;
        event ← record_inbound_event STRIPE "fee_charge_succeeded"
          [("fee_charge_id", JStr (uuid_str (charge_id charge))); ("stripe_charge_id", JStr stripe_charge_id);
           ("amount", JStr (q_str (charge_total_accrued charge)))]%string;
        negated ← lift (q_neg (charge_total_accrued charge));
        entry ← post FEE_ADJUSTMENT (date_of_local now) (event_id event)
          [money_leg (account_id payable_account) negated;
           money_leg (account_id collected_account) (charge_total_accrued charge)]
          (Some "performance fee charge succeeded (S10 §5, ADR 10)"%string);
        assign_charge (charge_id charge) (set_charge CHARGE_SUCCEEDED (Some stripe_charge_id) (Some (entry_id entry))) ;;
        dunning ← queries (dunning_by_charge (charge_id charge));
        match dunning with
        | Some x => delete_rows TDunningState (λ y : DunningState, dunning_fee_charge_id y =? dunning_fee_charge_id x)
        | None => mret tt
        end
  end.

(** [apply_charge_failure] *)
Definition apply_charge_failure (max_attempts : Z) (now : instant) (fee_charge_id : uuid) : prog () :=
  found ← queries (charge_by_id fee_charge_id);
  match found with
  | None => throw FeeChargeNotFoundError
  | Some charge =>
      if bool_decide (charge_status charge = CHARGE_SUCCEEDED ∨ charge_status charge = CHARGE_DUNNING) then mret tt
      else
        existing ← queries (dunning_by_charge (charge_id charge));
        match existing with
        | None =>
            assign_charge (charge_id charge)
              (λ c, set_charge CHARGE_FAILED (charge_stripe_charge_id c) (charge_journal_entry_id c) c) ;;
            start_dunning max_attempts now charge ;;
            mret tt
        | Some dunning => record_retry_failure now dunning charge
        end
  end.

(** ** The outbox handler ([FeeChargeOutboxHandler]) and the jobs *)

Record ChargeHandle := { handle_stripe_charge_id : string; handle_status : string }.

(** [PaymentPort.charge(stripe_customer_id, stripe_payment_method_id, amount, idempotency_key)];
    a declined charge is [Raise (PaymentDeclinedError _)]. *)
Abbreviation charge_port := (string → string → Money → string → result ChargeHandle) (only parsing).

(** The first transaction: what to charge, or nothing to do. *)
Definition charge_request (fee_charge_id : uuid) (d : db) : result (option (string * string * Money)) :=
  found ← charge_by_id fee_charge_id d;
  match found with
  | None => Raise FeeChargeNotFoundError
  | Some charge =>
      if bool_decide (charge_status charge = CHARGE_PENDING ∨ charge_status charge = CHARGE_FAILED) then
        method ← method_by_customer (charge_customer_id charge) d;
        match method with
        | None => Raise NoPaymentMethodError
        | Some m => Ok (Some (pm_stripe_customer_id m, pm_stripe_payment_method_id m, charge_total_accrued charge))
        end
      else Ok None
  end.

(** [charge_fee]: read, call the provider outside any transaction, record. *)
Definition charge_fee (port : charge_port) (max_attempts : Z) (now : instant) (fee_charge_id : uuid) (d : db)
    : result () * db :=
  match charge_request fee_charge_id d with
  | Raise e => (Raise e, d)
  | Ok None => (Ok tt, d)
  | Ok (Some (stripe_customer_id, stripe_payment_method_id, amount)) =>
      match port stripe_customer_id stripe_payment_method_id amount (uuid_str fee_charge_id) with
      | Raise (PaymentDeclinedError _) => transact ledger_balance (apply_charge_failure max_attempts now fee_charge_id) d
      | Raise e => (Raise e, d)
      | Ok handle =>
          transact ledger_balance (apply_charge_success now fee_charge_id (handle_stripe_charge_id handle)) d
      end
  end.

(** [DunningRetryJob.perform]: the due charges, one after the other; an
    exception stops the job. *)
Fixpoint retry_charges (port : charge_port) (max_attempts : Z) (now : instant) (ids : list uuid) (d : db)
    : result () * db :=
  match ids with
  | [] => (Ok tt, d)
  | id :: ids =>
      match charge_fee port max_attempts now id d with
      | (Ok _, d) => retry_charges port max_attempts now ids d
      | (Raise e, d) => (Raise e, d)
      end
  end.

Definition dunning_retry (port : charge_port) (max_attempts : Z) (now : instant) (d : db) : result () * db :=
  retry_charges port max_attempts now (dunning_fee_charge_id <$> list_due now d) d.

(** ** The webhook's verdict ([_apply_verdict]) *)

Definition SUCCESS_STATUSES : list string := ["succeeded"%string].
Definition FAILURE_STATUSES : list string := ["payment_failed"; "canceled"]%string.

(** [FeeChargeService(uow)] there has the default of four attempts. *)
Definition DEFAULT_DUNNING_MAX_ATTEMPTS : Z := 4.

Definition apply_verdict (now : instant) (stripe_charge_id status : string) : prog () :=
  found ← queries (charge_by_stripe_id stripe_charge_id);
  match found with
  | None => mret tt
  | Some charge =>
      if bool_decide (status ∈ SUCCESS_STATUSES) then apply_charge_success now (charge_id charge) stripe_charge_id
      else if bool_decide (status ∈ FAILURE_STATUSES)
      then apply_charge_failure DEFAULT_DUNNING_MAX_ATTEMPTS now (charge_id charge)
      else mret tt
  end.

(** ** Payment methods ([PaymentMethodService], [PaymentMethodRepository.upsert]) *)

Definition upsert_method (m : PaymentMethod) : prog PaymentMethod :=
  existing ← queries (method_by_customer (pm_customer_id m));
  match existing with
  | None => add TPaymentMethod m ;; mret m
  | Some _ =>
      update TPaymentMethod (λ p : PaymentMethod, pm_customer_id p =? pm_customer_id m)
        (λ p, {| pm_customer_id := pm_customer_id p; pm_stripe_customer_id := pm_stripe_customer_id m;
                 pm_stripe_payment_method_id := pm_stripe_payment_method_id m; pm_updated_at := pm_updated_at m |}) ;;
      mret m
  end.

(** [attach]; the port maps the known Stripe customer, the email and the method
    to the pair of ids of [PaymentMethodHandle]. *)
Definition attach (attach_port : option string → string → string → result (string * string)) (now : instant)
    (customer : uuid) (payment_method_id : string) : prog PaymentMethod :=
  found ← gets (λ d, customer_by_id d customer);
  match found with
  | None => throw CustomerNotFoundError
  | Some c =>
      existing ← queries (method_by_customer customer);
      handle ← lift (attach_port (pm_stripe_customer_id <$> existing) (customer_email c) payment_method_id);
      upsert_method {| pm_customer_id := customer; pm_stripe_customer_id := handle.1;
                       pm_stripe_payment_method_id := handle.2; pm_updated_at := now |}
  end.

(** ** The read model ([FeeSummaryService.summarize]) *)

Record FeeSummary := {
  summary_accrual_to_date : Money;
  summary_high_water_mark : option HighWaterMark;
  summary_charges : list FeeCharge;
  summary_dunning : option DunningState;
}.

Definition summarize (today : date) (customer : uuid) (d : db) : result FeeSummary :=
  let '(y, m, _) := ymd_of_date today in
  period_start ← date_of_ymd y m 1;
  accrual_to_date ← total_fees (accruals_for_period customer period_start today d);
  hwm ← hwm_by_customer customer d;
  Ok {| summary_accrual_to_date := accrual_to_date; summary_high_water_mark := hwm;
        summary_charges := charges_for_customer customer d;
        summary_dunning := head (dunning_by_customer customer d) |}.

(** ** Lemmas: replacing one row *)

Section Replace.
Context `{S : Schema}.

Lemma conflict_free_replace t l1 r r' l2 :
  (∀ x, conflicts t x r' = conflicts t x r) → (∀ x, conflicts t r' x = conflicts t r x) →
  conflict_free t (l1 ++ r :: l2) = true → conflict_free t (l1 ++ r' :: l2) = true.
Proof.
  intros H1 H2. induction l1 as [|x l1 IH]; cbn [app conflict_free].
  - intros [Hr Hl]%andb_true_iff. rewrite Hl, andb_true_r, forallb_forall in *. intros x Hx. rewrite H2. by apply Hr.
  - intros [Hx Hl]%andb_true_iff. rewrite IH, andb_true_r by done.
    rewrite !forallb_app in *. cbn [forallb] in *. by rewrite H1.
Qed.

(** An update of the row of a unique key that keeps the row's keys goes through. *)
Lemma update_one_run t (key : row t → Z) f d r :
  (∀ a b, key a = key b → conflicts t a b = true) → integrity d → r ∈ tables d t →
  append_only t = false → transition t r (f r) = true → valid t (f r) = true →
  (∀ x, conflicts t x (f r) = conflicts t x r) → (∀ x, conflicts t (f r) x = conflicts t r x) →
  ∃ l1 l2, tables d t = l1 ++ r :: l2 ∧ (∀ x, x ∈ l1 ++ l2 → key x ≠ key r) ∧
    run (update t (λ x, key x =? key r) f) d = Ok (tt, set_table t (l1 ++ f r :: l2) d).
Proof.
  intros Hkey Hd Hr Ha Ht Hv Hc1 Hc2. destruct (update_one t key f d r Hkey Hd Hr) as (l1 & l2 & Hl & Hu & Hne).
  exists l1, l2. split_and!; [done|done|]. apply run_update_Ok. rewrite Hu. destruct (Hd t) as [Hval Hcf].
  rewrite Hl in Hcf. split_and!; [done| | |by eapply conflict_free_replace|done].
  - unfold may_update. rewrite Hl. apply forallb_forall. intros x Hx%list_elem_of_In.
    destruct (Z.eqb_spec (key x) (key r)) as [E|]; [|done]. cbn.
    apply elem_of_app in Hx as [Hx|[->|Hx]%elem_of_cons]; [exfalso|done|exfalso]; by apply (Hne x); [set_solver|].
  - apply forallb_forall. intros x Hx%list_elem_of_In. rewrite Forall_forall in Hval.
    apply elem_of_app in Hx as [Hx|[->|Hx]%elem_of_cons]; [|done|]; apply Hval; rewrite Hl; set_solver.
Qed.
End Replace.

(** ** Lemmas: the rows of one charge *)

Lemma charge_key (a b : FeeCharge) : charge_id a = charge_id b → conflicts (Schema := trueup) TFeeCharge a b = true.
Proof. intros E. cbn. by rewrite E, Z.eqb_refl. Qed.

Lemma dunning_key (a b : DunningState) :
  dunning_fee_charge_id a = dunning_fee_charge_id b → conflicts (Schema := trueup) TDunningState a b = true.
Proof. intros E. cbn. by rewrite E, Z.eqb_refl. Qed.

Lemma charge_by_id_In d c : integrity d → c ∈ fee_charges d → charge_by_id (charge_id c) d = Ok (Some c).
Proof.
  intros Hd Hc. unfold charge_by_id. apply scalar_one_or_none_Some.
  exact (filter_unique (H := trueup) TFeeCharge charge_id d c charge_key Hd Hc).
Qed.

Lemma charge_by_id_Some d id c : charge_by_id id d = Ok (Some c) → c ∈ fee_charges d ∧ charge_id c = id.
Proof.
  intros Hs%scalar_one_or_none_Some.
  assert (Hin : c ∈ filter (λ f, charge_id f = id) (fee_charges d)) by (rewrite Hs; set_solver).
  by apply list_elem_of_filter in Hin as [? ?].
Qed.

Lemma dunning_by_charge_In d x :
  integrity d → x ∈ dunning_states d → dunning_by_charge (dunning_fee_charge_id x) d = Ok (Some x).
Proof.
  intros Hd Hx. unfold dunning_by_charge. apply scalar_one_or_none_Some.
  exact (filter_unique (H := trueup) TDunningState dunning_fee_charge_id d x dunning_key Hd Hx).
Qed.

Lemma dunning_by_charge_Some d id x :
  dunning_by_charge id d = Ok (Some x) → x ∈ dunning_states d ∧ dunning_fee_charge_id x = id.
Proof.
  intros Hs%scalar_one_or_none_Some.
  assert (Hin : x ∈ filter (λ f, dunning_fee_charge_id f = id) (dunning_states d)) by (rewrite Hs; set_solver).
  by apply list_elem_of_filter in Hin as [? ?].
Qed.

(** An assignment that keeps the charge's keys and watermark. *)
Lemma assign_charge_run c s stripe entry d :
  integrity d → c ∈ fee_charges d → stripe = charge_stripe_charge_id c →
  ∃ l1 l2, fee_charges d = l1 ++ c :: l2 ∧ (∀ x, x ∈ l1 ++ l2 → charge_id x ≠ charge_id c) ∧
    run (assign_charge (charge_id c) (λ c, set_charge s (charge_stripe_charge_id c) (entry c) c)) d =
      Ok (tt, set_table (H := trueup) TFeeCharge (l1 ++ set_charge s stripe (entry c) c :: l2) d).
Proof.
  intros Hd Hc ->.
  refine (update_one_run (S := trueup) TFeeCharge charge_id
    (λ c, set_charge s (charge_stripe_charge_id c) (entry c) c) d c charge_key Hd Hc eq_refl _ eq_refl _ _).
  - cbn. unfold set_charge. cbn. destruct (charge_as_published_watermark c); [|done]. by apply bool_decide_eq_true.
  - done.
  - done.
Qed.

Lemma assign_dunning_run x f d :
  integrity d → x ∈ dunning_states d → (∀ y, dunning_fee_charge_id (f y) = dunning_fee_charge_id y) →
  ∃ l1 l2, dunning_states d = l1 ++ x :: l2 ∧ (∀ y, y ∈ l1 ++ l2 → dunning_fee_charge_id y ≠ dunning_fee_charge_id x) ∧
    run (assign_dunning (dunning_fee_charge_id x) f) d =
      Ok (tt, set_table (H := trueup) TDunningState (l1 ++ f x :: l2) d).
Proof.
  intros Hd Hx Hf.
  refine (update_one_run (S := trueup) TDunningState dunning_fee_charge_id f d x dunning_key Hd Hx
    eq_refl eq_refl eq_refl _ _); intros y; cbn; by rewrite Hf.
Qed.

(** ** Collecting a charge *)

(** The charge [c] settled by the provider's charge [s]. *)
Record collected (c : FeeCharge) (s : string) (on : date) (d d' : db) : Prop := {
  collected_row : ∃ l1 l2 e, fee_charges d = l1 ++ c :: l2 ∧
    fee_charges d' = l1 ++ set_charge CHARGE_SUCCEEDED (Some s) (Some (entry_id e)) c :: l2 ∧
    journal_entries d' = journal_entries d ++ [e] ∧ entry_type e = FEE_ADJUSTMENT ∧ entry_effective_date e = on;
  collected_customer : ∀ r x, balance r x d' = balance r x d -
    (if bool_decide (r = FEES_ACCRUED_PAYABLE ∧ x = charge_customer_id c) then quanta (charge_total_accrued c) else 0);
  collected_house : ∀ r, house_balance r d' = house_balance r d +
    (if bool_decide (r = FEE_REVENUE_COLLECTED) then quanta (charge_total_accrued c) else 0);
  collected_dunning : dunning_states d' = filter (λ x, dunning_fee_charge_id x ≠ charge_id c) (dunning_states d);
}.

Lemma delete_dunning_Ok id d u d' :
  run (x ← queries (dunning_by_charge id);
       match x with
       | Some x => delete_rows TDunningState (λ y : DunningState, dunning_fee_charge_id y =? dunning_fee_charge_id x)
       | None => mret tt
       end) d = Ok (u, d') →
  dunning_states d' = filter (λ x, dunning_fee_charge_id x ≠ id) (dunning_states d) ∧
  ∀ t, t ≠ TDunningState → tables d' t = tables d t.
Proof.
  intros ([x|] & d1 & [Hs <-]%run_queries_Ok & H)%run_bind_Ok.
  - apply dunning_by_charge_Some in Hs as [_ <-]. apply run_delete_Ok in H as (_ & _ & ->). split.
    + unfold dunning_states. rewrite tables_set_same. unfold delete_table. apply filter_iff. intros y _. by rewrite Z.eqb_neq.
    + intros t Ht. by rewrite tables_set_ne.
  - apply run_ret_Ok in H as [_ <-]. split; [|done]. apply scalar_one_or_none_None in Hs.
    symmetry. apply filter_all. intros y Hy E. apply (not_elem_of_nil y). rewrite <- Hs. by apply list_elem_of_filter.
Qed.

Lemma apply_success_Ok now id s d u d' :
  state_ok d → run (apply_charge_success now id s) d = Ok (u, d') →
  ∃ c, c ∈ fee_charges d ∧ charge_id c = id ∧
    ((charge_status c = CHARGE_SUCCEEDED ∧ d' = d) ∨
     (charge_status c ≠ CHARGE_SUCCEEDED ∧ state_ok d' ∧ collected c s (date_of_local now) d d')).
Proof.
  intros Hok Hrun. unfold apply_charge_success in Hrun.
  apply run_bind_Ok in Hrun as (found & d0 & [Hf <-]%run_queries_Ok & Hrun).
  destruct found as [c|]; [|done]. apply charge_by_id_Some in Hf as [Hc <-]. exists c. split_and!; [done..|].
  case_bool_decide as Hst; [left; by apply run_ret_Ok in Hrun as [_ <-]|right]. split; [done|].
  apply run_bind_Ok in Hrun as (p & d1 & Hp & Hrun). apply run_bind_Ok in Hrun as (h & d2 & Hh & Hrun).
  apply run_bind_Ok in Hrun as (ev & d3 & Hev & Hrun).
  apply run_bind_Ok in Hrun as (n & d3' & [[_ Hn]%q_neg_Ok <-]%run_lift_Ok & Hrun).
  apply run_bind_Ok in Hrun as (entry & d4 & Hpost & Hrun).
  destruct (transfer_Ok _ _ _ _ _ _ _ _ _ _ _ _ _ _ _ _ _ _ _ _ Hok Hp Hh Hev Hpost) as [[Hd4 Hok4] Ht].
  apply run_bind_Ok in Hrun as (u1 & d5 & Hupd & Hrun).
  pose proof (run_integrity _ _ _ _ Hd4 Hupd) as Hd5.
  apply run_update_Ok in Hupd as (_ & _ & _ & _ & E5).
  assert (Hc4 : c ∈ fee_charges d4).
  { unfold fee_charges. by rewrite (transferred_frame _ _ _ _ _ _ _ _ _ _ Ht) by set_solver. }
  destruct (update_one (H := trueup) TFeeCharge charge_id (set_charge CHARGE_SUCCEEDED (Some s) (Some (entry_id entry)))
    d4 c charge_key Hd4 Hc4) as (l1 & l2 & Hl & Hu & _).
  assert (Hf5 : ∀ t, t ≠ TFeeCharge → tables d5 t = tables d4 t) by (intros t Hne; by rewrite E5, tables_set_ne).
  pose proof (run_integrity _ _ _ _ Hd5 Hrun) as Hd'.
  apply delete_dunning_Ok in Hrun as [Hdun Hf6].
  assert (Hfin : ∀ t, t ≠ TFeeCharge → t ≠ TDunningState → tables d' t = tables d4 t) by (intros t H1 H2; by rewrite Hf6, Hf5).
  split; [split; [done|apply (ledger_ok_frame d4); [|done]; intros t Hin; apply Hfin; intros ->; unfold ledger_tables in Hin; set_solver]|].
  destruct (same_balances d4 d') as [Hb Hh']; [exact (Hfin TAccount ltac:(done) ltac:(done))|exact (Hfin TPosting ltac:(done) ltac:(done))|].
  constructor.
  - exists l1, l2, entry. split_and!.
    + unfold fee_charges. by rewrite <- (transferred_frame _ _ _ _ _ _ _ _ _ _ Ht) by set_solver.
    + unfold fee_charges. rewrite Hf6 by done. rewrite E5, tables_set_same. exact Hu.
    + rewrite <- (transferred_entry _ _ _ _ _ _ _ _ _ _ Ht). exact (Hfin TJournalEntry ltac:(done) ltac:(done)).
    + exact (transferred_type _ _ _ _ _ _ _ _ _ _ Ht).
    + exact (transferred_date _ _ _ _ _ _ _ _ _ _ Ht).
  - intros r x. rewrite Hb, (transferred_customer _ _ _ _ _ _ _ _ _ _ Ht), Hn. case_bool_decide; lia.
  - intros r. by rewrite Hh', (transferred_house _ _ _ _ _ _ _ _ _ _ Ht).
  - rewrite Hdun. f_equal. unfold dunning_states. rewrite Hf5 by done.
    by rewrite (transferred_frame _ _ _ _ _ _ _ _ _ _ Ht) by set_solver.
Qed.

(** A charge in one of the final statuses is left alone. *)
Lemma settled_left_alone c d now s max now' :
  integrity d → c ∈ fee_charges d → charge_status c = CHARGE_SUCCEEDED →
  run (apply_charge_success now (charge_id c) s) d = Ok (tt, d) ∧
  run (apply_charge_failure max now' (charge_id c)) d = Ok (tt, d).
Proof.
  intros Hd Hc Hs. unfold apply_charge_success, apply_charge_failure, queries. rewrite !run_bind. cbn [run].
  rewrite (charge_by_id_In d c Hd Hc). cbn [lift run]. rewrite Hs. by split.
Qed.

(** C7. A charge is collected exactly once: applying a success either finds the
    charge already succeeded and changes nothing, or posts its total once from
    the customer's payable to the house's collected revenue, marks it succeeded
    under the provider's id and drops its dunning; and after that no outcome, of
    any provider charge at any time, success or failure, changes the store. *)
Theorem charge_collected_once now id s d u d' :
  state_ok d → run (apply_charge_success now id s) d = Ok (u, d') →
  ∃ c, c ∈ fee_charges d ∧ charge_id c = id ∧
    (if bool_decide (charge_status c = CHARGE_SUCCEEDED) then d' = d
     else state_ok d' ∧ collected c s (date_of_local now) d d') ∧
    ∀ now' s' max, run (apply_charge_success now' id s') d' = Ok (tt, d') ∧
                   run (apply_charge_failure max now' id) d' = Ok (tt, d').
Proof.
  intros Hok Hrun. destruct (apply_success_Ok _ _ _ _ _ _ Hok Hrun) as (c & Hc & <- & [[Hs ->]|(Hs & Hok' & Hcol)]);
    exists c; split_and!; try done.
  - by rewrite bool_decide_eq_true_2.
  - intros now' s' max. by apply settled_left_alone; [apply Hok| |].
  - by rewrite bool_decide_eq_false_2.
  - intros now' s' max. destruct (collected_row _ _ _ _ _ Hcol) as (l1 & l2 & e & _ & Hl & _).
    apply (settled_left_alone (set_charge CHARGE_SUCCEEDED (Some s) (Some (entry_id e)) c)); [apply Hok'| |done].
    rewrite Hl. set_solver.
Qed.

(** ** Billing a period once *)

Lemma total_fees_Ok l t : total_fees l = Ok t → quanta t = sum_by (λ a, quanta (accrual_fee_amount a)) l.
Proof.
  unfold total_fees. change (sum_by _ l) with (quanta (@zero MoneyD) + sum_by (λ a, quanta (accrual_fee_amount a)) l).
  generalize (@zero MoneyD). induction l as [|a l IH]; intros m; cbn [foldr_result].
  - intros [= <-]. rewrite sum_by_nil. lia.
  - intros (m1 & [_ H1]%q_add_Ok & H2%IH)%bind_Ok. rewrite sum_by_cons. lia.
Qed.

Lemma writes_ensure_published c s e : writes [TSubPeriodReturn; TPublishedSnapshot] (ensure_published c s e).
Proof. unfold ensure_published. pose proof writes_publish. writes_auto. Qed.

Lemma ensure_published_Ok c s e d w d' :
  run (ensure_published c s e) d = Ok (w, d') →
  ∃ p, p ∈ published_snapshots d' ∧ snapshot_customer_id p = c ∧ snapshot_period_start p = s ∧
       snapshot_period_end p = e ∧ snapshot_publish_watermark p = w.
Proof.
  unfold ensure_published. intros (existing & d1 & [<- <-]%run_gets_Ok & H)%run_bind_Ok. cbn zeta in H.
  assert (Hpub : run (snapshot ← publish c s e; mret (snapshot_publish_watermark snapshot)) d = Ok (w, d') →
    ∃ p, p ∈ published_snapshots d' ∧ snapshot_customer_id p = c ∧ snapshot_period_start p = s ∧
       snapshot_period_end p = e ∧ snapshot_publish_watermark p = w).
  { unfold publish. intros (p & d2 & Hp & [<- <-]%run_ret_Ok)%run_bind_Ok. inv_run. eexists. split.
    - unfold published_snapshots, insert_row. rewrite tables_set_same. apply elem_of_app. right. by apply list_elem_of_singleton.
    - by split_and!. }
  destruct (latest_for_period d c s) as [p|] eqn:E; [|by apply Hpub].
  destruct (Z.eqb_spec (snapshot_period_end p) e) as [<-|]; [|by apply Hpub].
  apply run_ret_Ok in H as [<- <-]. apply max_by_Some in E as [Hin _].
  apply list_elem_of_filter in Hin as [[<- <-] Hin]. by exists p.
Qed.

(** Fresh identifiers do not meet the charges on file. *)
Definition charges_fresh (d : db) : Prop := ∀ f, f ∈ fee_charges d → charge_id f < next_uuid d.

Lemma insert_charge_runs c s e t w d :
  charges_fresh d → charge_for_period c s e d = Ok None → is_ok (run (insert_charge c s e t w) d) = true.
Proof.
  intros Hf Hno%scalar_one_or_none_None. unfold insert_charge. rewrite run_bind. cbn [run uuid4]. cbn zeta.
  rewrite run_bind. unfold add. cbn [run].
  match goal with |- context [accepts ?t ?d ?r] => assert (accepts t d r = true) as -> end; [|done].
  unfold accepts. cbn [valid references trueup valid_of references_of tables andb].
  apply forallb_forall. intros x Hx%list_elem_of_In. cbn.
  assert (same_text (charge_stripe_charge_id x) None = false) as -> by (by destruct (charge_stripe_charge_id x)).
  rewrite orb_false_r.
  specialize (Hf x Hx). apply negb_true_iff, orb_false_iff. split; [apply Z.eqb_neq; lia|].
  destruct (Z.eqb_spec (charge_customer_id x) c), (Z.eqb_spec (charge_billing_period_start x) s),
    (Z.eqb_spec (charge_billing_period_end x) e); try done. exfalso.
  apply (not_elem_of_nil (A := FeeCharge) x). rewrite <- Hno. by apply list_elem_of_filter.
Qed.

(** The new charge [f], its total, its watermark and its job. *)
Definition billed (c : uuid) (s e : date) (f : FeeCharge) (d d' : db) : Prop :=
  fee_charges d' = fee_charges d ++ [f] ∧ charge_status f = CHARGE_PENDING ∧
  quanta (charge_total_accrued f) = sum_by (λ a, quanta (accrual_fee_amount a)) (accruals_for_period c s e d) ∧
  quanta (charge_total_accrued f) ≠ 0 ∧
  (∃ p, p ∈ published_snapshots d' ∧ snapshot_customer_id p = c ∧ snapshot_period_start p = s ∧
        snapshot_period_end p = e ∧ charge_as_published_watermark f = Some (snapshot_publish_watermark p)) ∧
  ∃ id, outbox d' = outbox d ++ [new_job id (db_now d) "charge_fee" [("fee_charge_id"%string, uuid_str (charge_id f))]].

Lemma charge_for_period_In d f :
  integrity d → f ∈ fee_charges d →
  charge_for_period (charge_customer_id f) (charge_billing_period_start f) (charge_billing_period_end f) d = Ok (Some f).
Proof.
  intros Hd (l1 & l2 & Hl)%list_elem_of_split. unfold charge_for_period. apply scalar_one_or_none_Some.
  destruct (Hd TFeeCharge) as [_ Hc]. change (tables d TFeeCharge) with (fee_charges d) in Hc. rewrite Hl in Hc |- *.
  apply (conflict_free_split (H := trueup)) in Hc as [H1 H2]. rewrite filter_app, filter_cons_True by done.
  rewrite (filter_none _ l1), (filter_none _ l2); [done| |].
  - intros x Hx (E1 & E2 & E3). specialize (H2 x Hx). cbn in H2.
    by rewrite E1, E2, E3, !Z.eqb_refl, orb_true_r in H2.
  - intros x Hx (E1 & E2 & E3). specialize (H1 x Hx). cbn in H1.
    by rewrite E1, E2, E3, !Z.eqb_refl, orb_true_r in H1.
Qed.

Lemma create_pending_charge_Ok c s e d r d' :
  charges_fresh d → run (create_pending_charge c s e) d = Ok (r, d') →
  match r with
  | None => sum_by (λ a, quanta (accrual_fee_amount a)) (accruals_for_period c s e d) = 0 ∧ d' = d ∧
            charge_for_period c s e d = Ok None
  | Some f => charge_customer_id f = c ∧ charge_billing_period_start f = s ∧ charge_billing_period_end f = e ∧
              ((f ∈ fee_charges d ∧ d' = d) ∨ (charge_for_period c s e d = Ok None ∧ billed c s e f d d'))
  end.
Proof.
  intros Hfresh. unfold create_pending_charge. intros (existing & d1 & [Hex <-]%run_queries_Ok & H)%run_bind_Ok.
  destruct existing as [f|].
  { apply run_ret_Ok in H as [<- <-]. apply scalar_one_or_none_Some in Hex.
    assert (Hin : f ∈ [f]) by set_solver. rewrite <- Hex in Hin.
    apply list_elem_of_filter in Hin as [(H1 & H2 & H3) Hin]. split_and!; [done..|]. by left. }
  apply run_bind_Ok in H as (l & d1 & [<- <-]%run_gets_Ok & H).
  apply run_bind_Ok in H as (t & d1 & [Ht%total_fees_Ok <-]%run_lift_Ok & H).
  unfold q_eqb in H. cbn [quanta zero] in H. destruct (Z.eqb_spec (quanta t) 0) as [E|Hne].
  { apply run_ret_Ok in H as [<- <-]. split_and!; [lia|done|done]. }
  apply run_bind_Ok in H as (w & d1 & Hw & H).
  pose proof (ensure_published_Ok _ _ _ _ _ _ Hw) as (p & Hp & Hpc & Hps & Hpe & <-).
  pose proof (writes_ensure_published _ _ _ _ _ _ Hw) as Hf1.
  pose proof (run_extends _ _ _ _ Hw) as (Hnext & Hnow & _).
  assert (Hno : charge_for_period c s e d1 = Ok None)
    by (unfold charge_for_period, fee_charges; rewrite Hf1 by set_solver; exact Hex).
  apply run_bind_Ok in H as (ins & d2 & Hins & H). rewrite run_savepoint in Hins.
  destruct (run (insert_charge _ _ _ _ _) d1) as [[f d3]|x] eqn:Ei.
  - injection Hins as <- <-. unfold insert_charge in Ei. inv_run. cbn zeta in *. inv_run.
    split_and!; [done..|]. right. split; [done|].
    match goal with Hj : run (enqueue _ _) _ = Ok _ |- _ => unfold enqueue in Hj end. inv_run. unfold billed. split_and!.
    + match goal with |- _ = _ ++ ?l => transitivity (fee_charges d1 ++ l); [reflexivity|] end.
      unfold fee_charges. by rewrite Hf1 by set_solver.
    + done.
    + exact Ht.
    + exact Hne.
    + exists p. split_and!; [exact Hp|done..].
    + eexists. match goal with |- outbox (insert_row _ ?j _) = _ => transitivity (outbox d1 ++ [j]); [reflexivity|] end.
      unfold outbox. rewrite Hf1 by set_solver. cbn [db_now]. by rewrite Hnow.
  - exfalso. assert (Hfr : charges_fresh d1).
    { intros f Hf. unfold fee_charges in Hf. rewrite Hf1 in Hf by set_solver. specialize (Hfresh f Hf). lia. }
    pose proof (insert_charge_runs c s e t (snapshot_publish_watermark p) d1 Hfr Hno) as Hok. by rewrite Ei in Hok.
Qed.

(** A billing period is charged once.  [create_pending_charge] returns the
    charge on file, or nothing when no fee accrued, leaving the store as it was;
    or it adds one pending charge whose total is the sum of the period's accruals,
    locked to the watermark of a snapshot published for exactly that period, with
    one outbox job naming it.  Calling it again for the period gives the same
    answer and changes nothing. *)
Theorem period_billed_once c s e d r d' :
  integrity d → charges_fresh d → run (create_pending_charge c s e) d = Ok (r, d') →
  (match r with
   | None => d' = d ∧ sum_by (λ a, quanta (accrual_fee_amount a)) (accruals_for_period c s e d) = 0
   | Some f => charge_customer_id f = c ∧ charge_billing_period_start f = s ∧ charge_billing_period_end f = e ∧
               ((f ∈ fee_charges d ∧ d' = d) ∨ billed c s e f d d')
   end) ∧
  run (create_pending_charge c s e) d' = Ok (r, d').
Proof.
  intros Hd Hfr Hrun. pose proof (create_pending_charge_Ok c s e d r d' Hfr Hrun) as Hr. destruct r as [f|].
  - destruct Hr as (<- & <- & <- & Hr). split; [split_and!; [done..|destruct Hr as [?|[_ ?]]; [by left|by right]]|].
    unfold create_pending_charge. rewrite run_bind. unfold queries at 1. cbn [run].
    rewrite charge_for_period_In; [done|exact (run_integrity _ _ _ _ Hd Hrun)|].
    destruct Hr as [[Hf ->]|[_ (-> & _)]]; [done|set_solver].
  - destruct Hr as (H1 & -> & _). by split_and!.
Qed.

(** ** Dunning as a state machine *)

(** Where a charge stands, with the attempt, the next retry and the limit on file. *)
Inductive phase := Idle | Retrying (attempt : Z) (at_ : instant) (limit : Z) | Exhausted (attempt : Z) (at_ : instant) (limit : Z).

Definition phase_of (id : uuid) (d : db) : option phase :=
  match charge_by_id id d, dunning_by_charge id d with
  | Ok (Some c), Ok None => if bool_decide (charge_status c = CHARGE_PENDING) then Some Idle else None
  | Ok (Some c), Ok (Some x) =>
      match charge_status c, dunning_status x with
      | CHARGE_FAILED, RETRYING =>
          Some (Retrying (dunning_attempt_number x) (dunning_next_retry_at x) (dunning_max_attempts x))
      | CHARGE_DUNNING, EXHAUSTED =>
          Some (Exhausted (dunning_attempt_number x) (dunning_next_retry_at x) (dunning_max_attempts x))
      | _, _ => None
      end
  | _, _ => None
  end.

(** [24h * 2^(attempt - 1)] *)
Definition backoff (attempt : Z) : Z := 24 * 2 ^ (attempt - 1) * 3600 * 1000000.

(** One more decline, in the abstract. *)
Definition decline (max_attempts : Z) (now : instant) (p : phase) : phase :=
  match p with
  | Idle => Retrying 1 (now + backoff 1) max_attempts
  | Retrying n at_ limit =>
      if limit <=? n + 1 then Exhausted (n + 1) at_ limit else Retrying (n + 1) (now + backoff (n + 1)) limit
  | Exhausted n at_ limit => Exhausted n at_ limit
  end.

(** The retry instant the decline computes is a valid [datetime]. *)
Definition representable (now : instant) (p : phase) : Prop :=
  match p with
  | Idle => now + backoff 1 <= MAX_INSTANT
  | Retrying n _ limit => 1 <= n ∧ (n + 1 < limit → now + backoff (n + 1) <= MAX_INSTANT)
  | Exhausted _ _ _ => True
  end.

Lemma next_retry_Ok now n : 1 <= n → now + backoff n <= MAX_INSTANT → next_retry now n BACKOFF_BASE_HOURS = Ok (now + backoff n).
Proof.
  intros Hn Hm. unfold next_retry, compute_backoff, BACKOFF_BASE_HOURS. rewrite (proj2 (Z.leb_le 1 n) Hn).
  cbn [ensure mbind result_bind]. fold (backoff n). by rewrite (proj2 (Z.leb_le _ _) Hm).
Qed.

Lemma run_found {A B} (f : db → result A) (k : A → prog B) d a : f d = Ok a → run (queries f ≫= k) d = run (k a) d.
Proof. intros E. rewrite run_bind. unfold queries. cbn [run]. by rewrite E. Qed.

Lemma phase_found d c x :
  integrity d → c ∈ fee_charges d → x ∈ dunning_states d → dunning_fee_charge_id x = charge_id c →
  phase_of (charge_id c) d =
    match charge_status c, dunning_status x with
    | CHARGE_FAILED, RETRYING =>
        Some (Retrying (dunning_attempt_number x) (dunning_next_retry_at x) (dunning_max_attempts x))
    | CHARGE_DUNNING, EXHAUSTED =>
        Some (Exhausted (dunning_attempt_number x) (dunning_next_retry_at x) (dunning_max_attempts x))
    | _, _ => None
    end.
Proof.
  intros Hd Hc Hx E. unfold phase_of. rewrite (charge_by_id_In d c Hd Hc).
  pose proof (dunning_by_charge_In d x Hd Hx) as Hx'. rewrite E in Hx'. by rewrite Hx'.
Qed.

(** What a decline does: the phase moves, and only the two tables. *)
Definition declined (max : Z) (now : instant) (id : uuid) (p : phase) (d : db) : Prop :=
  ∃ d', run (apply_charge_failure max now id) d = Ok (tt, d') ∧ phase_of id d' = Some p ∧
        ∀ t, t ∉ [TFeeCharge; TDunningState] → tables d' t = tables d t.

Lemma first_decline c max now d :
  integrity d → c ∈ fee_charges d → charge_status c = CHARGE_PENDING → dunning_by_charge (charge_id c) d = Ok None →
  now + backoff 1 <= MAX_INSTANT → declined max now (charge_id c) (Retrying 1 (now + backoff 1) max) d.
Proof.
  intros Hd Hc Hs Hx Hr. unfold declined, apply_charge_failure. rewrite (run_found _ _ _ _ (charge_by_id_In d c Hd Hc)), Hs.
  rewrite bool_decide_eq_false_2 by naive_solver. rewrite (run_found _ _ _ _ Hx).
  destruct (assign_charge_run c CHARGE_FAILED _ charge_journal_entry_id d Hd Hc eq_refl) as (l1 & l2 & Hl & _ & Hrun).
  rewrite run_bind, Hrun. pose proof (run_integrity _ _ _ _ Hd Hrun) as Hd1. set (d1 := set_table _ _ d) in *.
  unfold start_dunning. rewrite next_retry_Ok by done. cbn zeta.
  set (x := {| dunning_fee_charge_id := charge_id c; dunning_customer_id := charge_customer_id c; dunning_attempt_number := 1;
               dunning_next_retry_at := now + backoff 1; dunning_max_attempts := max; dunning_status := RETRYING |}).
  assert (Hacc : accepts (H := trueup) TDunningState d1 x = true).
  { unfold accepts. cbn [valid references trueup valid_of references_of andb]. apply andb_true_iff. split.
    - unfold has, d1. rewrite tables_set_same. rewrite existsb_app. cbn. by rewrite Z.eqb_refl, orb_true_r.
    - unfold d1. rewrite tables_set_ne by done. apply forallb_forall. intros y Hy%list_elem_of_In. cbn.
      apply negb_true_iff, Z.eqb_neq. intros E. apply scalar_one_or_none_None in Hx.
      apply (not_elem_of_nil (A := DunningState) y). rewrite <- Hx. by apply list_elem_of_filter. }
  eexists. split; [|split].
  - rewrite run_bind. cbn [lift]. rewrite run_bind. cbn [run]. rewrite run_bind. unfold add. cbn [run].
    match goal with |- context [accepts _ d1 ?r] => change r with x end. rewrite Hacc. reflexivity.
  - pose proof (integrity_insert (H := trueup) TDunningState x d1 Hd1 Hacc) as Hd2.
    refine (phase_found _ (set_charge CHARGE_FAILED (charge_stripe_charge_id c) (charge_journal_entry_id c) c) x Hd2 _ _ eq_refl).
    + unfold fee_charges, insert_row, d1. rewrite tables_set_ne, tables_set_same by done. set_solver.
    + unfold dunning_states, insert_row. rewrite tables_set_same. set_solver.
  - intros t Ht. unfold insert_row, d1. by rewrite !tables_set_ne by set_solver.
Qed.

Lemma later_decline c x max now d :
  integrity d → c ∈ fee_charges d → charge_status c = CHARGE_FAILED →
  dunning_by_charge (charge_id c) d = Ok (Some x) → dunning_status x = RETRYING →
  let n := dunning_attempt_number x + 1 in
  1 < n → (n < dunning_max_attempts x → now + backoff n <= MAX_INSTANT) →
  declined max now (charge_id c)
    (if dunning_max_attempts x <=? n then Exhausted n (dunning_next_retry_at x) (dunning_max_attempts x)
     else Retrying n (now + backoff n) (dunning_max_attempts x)) d.
Proof.
  intros Hd Hc Hs Hx Hds n Hn Hr. unfold declined, apply_charge_failure.
  rewrite (run_found _ _ _ _ (charge_by_id_In d c Hd Hc)), Hs. rewrite bool_decide_eq_false_2 by naive_solver.
  rewrite (run_found _ _ _ _ Hx). destruct (dunning_by_charge_Some _ _ _ Hx) as [Hin Hid].
  unfold record_retry_failure. fold n. cbn zeta. destruct (Z.leb_spec (dunning_max_attempts x) n).
  - destruct (assign_dunning_run x (λ y, set_dunning n (dunning_next_retry_at y) EXHAUSTED y) d Hd Hin ltac:(done))
      as (k1 & k2 & _ & _ & Hrun1).
    pose proof (run_integrity _ _ _ _ Hd Hrun1) as Hd1. set (d1 := set_table _ _ d) in *.
    destruct (assign_charge_run c CHARGE_DUNNING _ charge_journal_entry_id d1 Hd1 Hc eq_refl) as (l1 & l2 & _ & _ & Hrun2).
    pose proof (run_integrity _ _ _ _ Hd1 Hrun2) as Hd2. eexists. split; [|split].
    + rewrite run_bind, Hrun1. exact Hrun2.
    + refine (phase_found _ (set_charge CHARGE_DUNNING (charge_stripe_charge_id c) (charge_journal_entry_id c) c)
        (set_dunning n (dunning_next_retry_at x) EXHAUSTED x) Hd2 _ _ Hid).
      * unfold fee_charges. rewrite tables_set_same. set_solver.
      * unfold dunning_states. rewrite tables_set_ne by done. unfold d1. rewrite tables_set_same. set_solver.
    + intros t Ht. unfold d1. by rewrite !tables_set_ne by set_solver.
  - rewrite next_retry_Ok by lia.
    destruct (assign_dunning_run x (λ y, set_dunning n (now + backoff n) (dunning_status y) y) d Hd Hin ltac:(done))
      as (k1 & k2 & _ & _ & Hrun1).
    pose proof (run_integrity _ _ _ _ Hd Hrun1) as Hd1. eexists. split; [exact Hrun1|split].
    + rewrite (phase_found _ c (set_dunning n (now + backoff n) (dunning_status x) x) Hd1), Hs; [cbn; by rewrite Hds|..].
      * unfold fee_charges. by rewrite tables_set_ne.
      * unfold dunning_states. rewrite tables_set_same. set_solver.
      * exact Hid.
    + intros t Ht. by rewrite tables_set_ne by set_solver.
Qed.

Lemma decline_refines id max now d p :
  integrity d → phase_of id d = Some p → representable now p → declined max now id (decline max now p) d.
Proof.
  intros Hd Hp Hrep. pose proof Hp as Hp0. unfold phase_of in Hp. destruct (charge_by_id id d) as [[c|]|] eqn:Ec; try done.
  pose proof (charge_by_id_Some _ _ _ Ec) as [Hc <-].
  destruct (dunning_by_charge (charge_id c) d) as [[x|]|] eqn:Ex; try done.
  - destruct (charge_status c) eqn:Hs, (dunning_status x) eqn:Hds; try done; injection Hp as <-.
    + destruct Hrep as [Hn Hrep]. cbn [decline]. apply later_decline; [done..|lia|exact Hrep].
    + exists d. split_and!; [|done|done]. unfold apply_charge_failure. rewrite (run_found _ _ _ _ Ec), Hs.
      by rewrite bool_decide_eq_true_2 by naive_solver.
  - case_bool_decide as Hs; [|done]. injection Hp as <-. by apply first_decline.
Qed.

(** The phase after so many declines of a pending charge. *)
Definition after_declines (max k : Z) (at_ : instant) : phase :=
  if k <? Z.max 2 max then Retrying k at_ max else Exhausted (Z.max 2 max) at_ max.

Lemma declines_phase max nows :
  nows ≠ [] → ∃ at_, foldl (λ p now, decline max now p) Idle nows = after_declines max (Z.of_nat (length nows)) at_.
Proof.
  induction nows as [|now nows IH] using rev_ind; [done|]. intros _.
  rewrite foldl_app, length_app, Nat2Z.inj_add. cbn [foldl length]. destruct (decide (nows = [])) as [->|Hne].
  - exists (now + backoff 1). unfold after_declines. change (Z.of_nat (length (@nil Z)) + Z.of_nat 1) with 1.
    destruct (Z.ltb_spec 1 (Z.max 2 max)); [reflexivity|lia].
  - destruct (IH Hne) as [at_ ->]. destruct nows as [|y ys]; [done|]. set (k := Z.of_nat (length (y :: ys))).
    assert (1 <= k) by (unfold k; cbn; lia). unfold after_declines. change (Z.of_nat 1) with 1.
    destruct (Z.ltb_spec k (Z.max 2 max)).
    + cbn [decline]. destruct (Z.leb_spec max (k + 1)); eexists.
      * destruct (Z.ltb_spec (k + 1) (Z.max 2 max)); [lia|]. f_equal; lia.
      * by destruct (Z.ltb_spec (k + 1) (Z.max 2 max)); [|lia].
    + exists at_. by destruct (Z.ltb_spec (k + 1) (Z.max 2 max)); [lia|].
Qed.

Lemma run_for_each_snoc {A} (l : list A) x (body : A → prog ()) d :
  run (for_each (l ++ [x]) body) d = run (for_each l body ;; body x) d.
Proof.
  revert d. induction l as [|y l IH]; intros d; cbn [app for_each]; rewrite !run_bind.
  - cbn [run]. by destruct (run (body x) d) as [[[] ?]|].
  - destruct (run (body y) d) as [[? d1]|]; [|done]. by rewrite IH, run_bind.
Qed.

Lemma backoff_mono n m : 1 <= n → n <= m → backoff n <= backoff m.
Proof.
  intros Hn Hm. unfold backoff. assert (2 ^ (n - 1) <= 2 ^ (m - 1)) by (apply Z.pow_le_mono_r; lia). lia.
Qed.

(** C30. Dunning runs its course and stops.  From a pending charge, any sequence of
    declines goes through, touches nothing but the charge and its dunning row, and
    leaves them in the phase the abstract machine computes: the n-th decline
    schedules the next retry 24h doubled n-1 times after it, and the
    [max_attempts]-th (the second, when fewer are allowed) exhausts the charge,
    after which declines change nothing. *)
Theorem declines_exhaust max id nows d :
  integrity d → phase_of id d = Some Idle →
  (∀ now, now ∈ nows → now + backoff (Z.max 1 max) <= MAX_INSTANT) →
  ∃ d', run (for_each nows (λ now, apply_charge_failure max now id)) d = Ok (tt, d') ∧
    phase_of id d' = Some (foldl (λ p now, decline max now p) Idle nows) ∧
    (∀ t, t ∉ [TFeeCharge; TDunningState] → tables d' t = tables d t) ∧
    (Z.max 2 max <= Z.of_nat (length nows) → ∃ at_, phase_of id d' = Some (Exhausted (Z.max 2 max) at_ max)).
Proof.
  intros Hd Hp Hroom.
  assert (∃ d', run (for_each nows (λ now, apply_charge_failure max now id)) d = Ok (tt, d') ∧
    phase_of id d' = Some (foldl (λ p now, decline max now p) Idle nows) ∧
    ∀ t, t ∉ [TFeeCharge; TDunningState] → tables d' t = tables d t) as (d' & Hrun & Hp' & Hf).
  { induction nows as [|now nows IH] using rev_ind; [by exists d|].
    destruct IH as (d1 & Hrun1 & Hp1 & Hf1); [intros x Hx; apply Hroom; set_solver|].
    pose proof (run_integrity _ _ _ _ Hd Hrun1) as Hd1. specialize (Hroom now ltac:(set_solver)).
    assert (Hrep : representable now (foldl (λ p now, decline max now p) Idle nows)).
    { destruct nows as [|y ys]; [cbn; pose proof (backoff_mono 1 (Z.max 1 max)); lia|].
      destruct (declines_phase max (y :: ys) ltac:(done)) as [at_ ->]. unfold after_declines.
      destruct (Z.ltb_spec (Z.of_nat (length (y :: ys))) (Z.max 2 max)); [|done].
      cbn [representable]. split; [cbn; lia|]. intros Hlt.
      pose proof (backoff_mono (Z.of_nat (length (y :: ys)) + 1) (Z.max 1 max)). lia. }
    destruct (decline_refines id max now d1 _ Hd1 Hp1 Hrep) as (d2 & Hrun2 & Hp2 & Hf2).
    exists d2. split_and!.
    - by rewrite run_for_each_snoc, run_bind, Hrun1.
    - by rewrite foldl_app.
    - intros t Ht. by rewrite Hf2, Hf1. }
  exists d'. split_and!; [done..|]. intros Hlen. rewrite Hp'.
  destruct (declines_phase max nows) as [at_ ->]; [intros ->; cbn in Hlen; lia|]. exists at_. unfold after_declines.
  by destruct (Z.ltb_spec (Z.of_nat (length nows)) (Z.max 2 max)); [lia|].
Qed.

(** ** The webhook never applies anything *)

(** Only a success writes the provider's id. *)
Definition succeeded_only (d : db) : Prop :=
  ∀ f, f ∈ fee_charges d → is_Some (charge_stripe_charge_id f) → charge_status f = CHARGE_SUCCEEDED.

Definition verdict_inv (d : db) : Prop := integrity d ∧ succeeded_only d.

Lemma charges_frame {A} ts (m : prog A) : writes ts m → TFeeCharge ∉ ts → preserves succeeded_only m.
Proof.
  intros Hw Ht. apply (preserves_frame _ ts); [|done]. intros d d' Hf HI. unfold succeeded_only, fee_charges.
  rewrite Hf by done. exact HI.
Qed.

#[export] Hint Extern 1 (preserves succeeded_only (add ?t _)) =>
  apply (charges_frame [t]); [apply writes_add; set_solver|set_solver] : preserves.
#[export] Hint Extern 1 (preserves succeeded_only (delete_rows ?t _)) =>
  apply (charges_frame [t]); [apply writes_delete; set_solver|set_solver] : preserves.
#[export] Hint Extern 1 (preserves succeeded_only (assign_dunning _ _)) =>
  apply (charges_frame [TDunningState]); [apply writes_update; set_solver|set_solver] : preserves.
#[export] Hint Extern 1 (preserves succeeded_only (get_or_create_customer_account _ _ _)) =>
  apply (charges_frame [TAccount]); [apply writes_get_or_create|set_solver] : preserves.
#[export] Hint Extern 1 (preserves succeeded_only (get_or_create_house_account _)) =>
  apply (charges_frame [TAccount]); [apply writes_house_account|set_solver] : preserves.
#[export] Hint Extern 1 (preserves succeeded_only (record_inbound_event _ _ _)) =>
  apply (charges_frame [TInboundEvent]); [apply writes_inbound_event|set_solver] : preserves.
#[export] Hint Extern 1 (preserves succeeded_only (post _ _ _ _ _)) =>
  apply (charges_frame [TJournalEntry; TPosting]); [apply writes_post|set_solver] : preserves.
#[export] Hint Extern 1 (preserves succeeded_only (ensure_published _ _ _)) =>
  apply (charges_frame [TSubPeriodReturn; TPublishedSnapshot]); [apply writes_ensure_published|set_solver] : preserves.
#[export] Hint Extern 1 (preserves succeeded_only (enqueue _ _)) =>
  apply (charges_frame [TJobOutbox]); [unfold enqueue; writes_auto|set_solver] : preserves.
#[export] Hint Extern 1 (preserves succeeded_only uuid4) =>
  apply (charges_frame []); [apply writes_uuid4|set_solver] : preserves.

Lemma success_inv id s e : preserves succeeded_only (assign_charge id (set_charge CHARGE_SUCCEEDED s e)).
Proof.
  intros d u d' HI (_ & _ & _ & _ & ->)%run_update_Ok f. unfold fee_charges. rewrite tables_set_same.
  intros (x & -> & Hx)%list_elem_of_fmap. destruct (charge_id x =? id); [done|]. by apply HI.
Qed.
#[export] Hint Resolve success_inv : preserves.

Lemma preserves_success now id s : preserves succeeded_only (apply_charge_success now id s).
Proof. unfold apply_charge_success. preserves_auto. Qed.

Lemma insert_charge_inv c s e t w : preserves succeeded_only (insert_charge c s e t w).
Proof.
  intros d f d' HI Hrun. unfold insert_charge in Hrun. inv_run. cbn zeta in *. inv_run.
  intros g Hg Hs. unfold fee_charges, insert_row in Hg. rewrite tables_set_same in Hg.
  apply elem_of_app in Hg as [Hg|Hg%list_elem_of_singleton]; [by apply HI|]. subst g. by destruct Hs.
Qed.
#[export] Hint Resolve insert_charge_inv : preserves.

Lemma preserves_billing c s e : preserves succeeded_only (create_pending_charge c s e).
Proof. unfold create_pending_charge. preserves_auto. Qed.

(** A charge that is not succeeded has no provider id to keep. *)
Lemma assign_charge_inv c s d u d' :
  verdict_inv d → c ∈ fee_charges d → charge_status c ≠ CHARGE_SUCCEEDED →
  run (assign_charge (charge_id c) (λ c, set_charge s (charge_stripe_charge_id c) (charge_journal_entry_id c) c)) d
    = Ok (u, d') → succeeded_only d'.
Proof.
  intros [Hd HI] Hc Hs (_ & _ & _ & _ & ->)%run_update_Ok f. unfold fee_charges. rewrite tables_set_same.
  destruct (update_one (H := trueup) TFeeCharge charge_id (λ c, set_charge s (charge_stripe_charge_id c)
    (charge_journal_entry_id c) c) d c charge_key Hd Hc) as (l1 & l2 & Hl & Hu & _).
  intros Hf. set (c' := set_charge s (charge_stripe_charge_id c) (charge_journal_entry_id c) c) in *.
  assert (Hf1 : f ∈ l1 ++ c' :: l2) by exact (eq_rect _ (λ l : list FeeCharge, f ∈ l) Hf _ Hu).
  assert (Hf' : f ∈ fee_charges d ∨ f = c') 
    by (change (fee_charges d) with (tables d TFeeCharge); rewrite Hl; set_solver).
  destruct Hf' as [Hin| ->]; [by apply HI|]. cbn. intros Hsome. exfalso. by apply Hs, HI.
Qed.

Lemma failure_inv max now id d u d' :
  verdict_inv d → run (apply_charge_failure max now id) d = Ok (u, d') → succeeded_only d'.
Proof.
  intros Hinv Hrun. unfold apply_charge_failure in Hrun.
  apply run_bind_Ok in Hrun as (found & d0 & [Hf <-]%run_queries_Ok & Hrun). destruct found as [c|]; [|done].
  apply charge_by_id_Some in Hf as [Hc <-]. case_bool_decide as Hst; [by apply run_ret_Ok in Hrun as [_ <-]; apply Hinv|].
  apply run_bind_Ok in Hrun as (x & d0 & [_ <-]%run_queries_Ok & Hrun). destruct x as [x|].
  - unfold record_retry_failure in Hrun. destruct (_ <=? _).
    + apply run_bind_Ok in Hrun as (u1 & d1 & H1 & H2). refine (assign_charge_inv c _ d1 _ _ _ _ _ H2); [|..|naive_solver].
      * split; [exact (run_integrity _ _ _ _ (proj1 Hinv) H1)|].
        revert H1. apply (charges_frame [TDunningState] (assign_dunning _ _)); [apply writes_update; set_solver|set_solver|apply Hinv].
      * unfold fee_charges. by rewrite (writes_update (H := trueup) [TDunningState] TDunningState _ _ ltac:(set_solver) _ _ _ H1) by set_solver.
    + revert Hrun. assert (Hpr : preserves succeeded_only (next_retry_at ← lift (next_retry now (dunning_attempt_number x + 1) BACKOFF_BASE_HOURS);
        assign_dunning (dunning_fee_charge_id x) (λ y, set_dunning (dunning_attempt_number x + 1) next_retry_at (dunning_status y) y)))
        by preserves_auto. apply Hpr. apply Hinv.
  - apply run_bind_Ok in Hrun as (u1 & d1 & H1 & H2).
    assert (HI1 : succeeded_only d1) by (refine (assign_charge_inv c _ d _ _ Hinv Hc _ H1); naive_solver).
    revert H2. assert (Hpr : preserves succeeded_only (start_dunning max now c ;; mret tt)) by (unfold start_dunning; preserves_auto).
    by apply Hpr.
Qed.

(** Everything that may happen to the store: billing, collection, a webhook's
    verdict, and any program that leaves the charges alone. *)
Inductive fee_step : db → db → Prop :=
  | step_bill c s e d r d' : run (create_pending_charge c s e) d = Ok (r, d') → fee_step d d'
  | step_collect port max now id d : fee_step d (charge_fee port max now id d).2
  | step_verdict now s status d u d' : run (apply_verdict now s status) d = Ok (u, d') → fee_step d d'
  | step_other {A} ts (m : prog A) d a d' :
      writes ts m → TFeeCharge ∉ ts → run m d = Ok (a, d') → fee_step d d'.

Lemma transact_inv {A} (m : prog A) d :
  (∀ a d', run m d = Ok (a, d') → verdict_inv d') → verdict_inv d → verdict_inv (transact ledger_balance m d).2.
Proof.
  intros Hm Hd. unfold transact. destruct (run m d) as [[a d']|] eqn:E; [|done].
  destruct (ledger_balance d'); [by apply (Hm a)|done].
Qed.

Lemma success_verdict_inv now id s d u d' :
  verdict_inv d → run (apply_charge_success now id s) d = Ok (u, d') → verdict_inv d'.
Proof. intros [Hd HI] Hr. split; [exact (run_integrity _ _ _ _ Hd Hr)|exact (preserves_success _ _ _ _ _ _ HI Hr)]. Qed.

Lemma failure_verdict_inv max now id d u d' :
  verdict_inv d → run (apply_charge_failure max now id) d = Ok (u, d') → verdict_inv d'.
Proof. intros Hinv Hr. split; [exact (run_integrity _ _ _ _ (proj1 Hinv) Hr)|exact (failure_inv _ _ _ _ _ _ Hinv Hr)]. Qed.

(** Under the invariant the verdict finds only charges that are settled. *)
Lemma verdict_does_nothing d now s status :
  verdict_inv d → run (apply_verdict now s status) d = Ok (tt, d).
Proof.
  intros [Hd HI]. unfold apply_verdict.
  destruct (charge_by_stripe_id s d) as [[c|]|e] eqn:E.
  - rewrite (run_found _ _ _ _ E). apply scalar_one_or_none_Some in E.
    assert (Hin : c ∈ filter (λ f, charge_stripe_charge_id f = Some s) (fee_charges d)) by (rewrite E; set_solver).
    apply list_elem_of_filter in Hin as [Hs Hc].
    destruct (settled_left_alone c d now s DEFAULT_DUNNING_MAX_ATTEMPTS now Hd Hc) as [H1 H2]; [by apply HI; [|rewrite Hs]|].
    destruct (bool_decide (status ∈ SUCCESS_STATUSES)); [done|]. by destruct (bool_decide (status ∈ FAILURE_STATUSES)).
  - by rewrite (run_found _ _ _ _ E).
  - exfalso. unfold charge_by_stripe_id in E.
    destruct (filter _ _) as [|a [|b l]] eqn:F; [done|done|]. clear E.
    assert (Hab : ∀ x, x ∈ a :: b :: l → charge_stripe_charge_id x = Some s).
    { intros x Hx. rewrite <- F in Hx. by apply list_elem_of_filter in Hx as [? _]. }
    destruct (Hd TFeeCharge) as [_ Hc].
    assert (Hc' : conflict_free (H := trueup) TFeeCharge (a :: b :: l) = true).
    { exact (eq_rect _ (λ l : list FeeCharge, conflict_free (H := trueup) TFeeCharge l = true)
        (conflict_free_filter (H := trueup) TFeeCharge (λ f : FeeCharge, charge_stripe_charge_id f = Some s) _ Hc) _ F). }
    cbn in Hc'. rewrite (Hab a), (Hab b) in Hc' by set_solver. cbn in Hc'. by rewrite String.eqb_refl, orb_true_r in Hc'.
Qed.

Lemma fee_step_inv d d' : fee_step d d' → verdict_inv d → verdict_inv d'.
Proof.
  intros [c s e d0 r d1 Hr|port max now id d0|now s st d0 u d1 Hr|A ts m d0 a d1 Hw Ht Hr] Hinv.
  - split; [exact (run_integrity _ _ _ _ (proj1 Hinv) Hr)|exact (preserves_billing _ _ _ _ _ _ (proj2 Hinv) Hr)].
  - unfold charge_fee. destruct (charge_request id d0) as [[[[sc sm] amount]|]|]; [|done..].
    destruct (port sc sm amount (uuid_str id)) as [h|[]]; try done; apply transact_inv; try done; intros a d1 Hr.
    + by eapply success_verdict_inv.
    + by eapply failure_verdict_inv.
  - rewrite verdict_does_nothing in Hr by done. by injection Hr as _ <-.
  - split; [exact (run_integrity _ _ _ _ (proj1 Hinv) Hr)|exact (charges_frame ts m Hw Ht _ _ _ (proj2 Hinv) Hr)].
Qed.

(** The Stripe webhook settles nothing: from a store with no charges, after
    any sequence of billings, collections, webhooks and other programs, a verdict
    for any Stripe charge - success, failure, cancellation - succeeds and leaves
    the store exactly as it was.  A charge has a provider id only once it has been
    marked succeeded, and then no outcome is applied to it. *)
Theorem webhook_inert d0 d now s status :
  integrity d0 → fee_charges d0 = [] → rtc fee_step d0 d → run (apply_verdict now s status) d = Ok (tt, d).
Proof.
  intros Hd Hno Hsteps. apply verdict_does_nothing.
  assert (Hinv : verdict_inv d0) by (split; [done|]; intros f Hf; rewrite Hno in Hf; by apply elem_of_nil in Hf).
  clear Hd Hno. induction Hsteps as [|d1 d2 d3 H12 _ IH]; [done|]. by apply IH, (fee_step_inv d1).
Qed.

(** ** A concrete history *)

(** Customer 7 owes 0.0121 for a day of January 2022, and has a card. *)
Definition sample_billable : db :=
  let d := set_table (H := trueup) TFeeAccrual
    [{| accrual_id := 50; accrual_customer_id := 7; accrual_date := 738165; accrual_gain_amount := QD 220000;
        accrual_fee_amount := QD 121; accrual_journal_entry_id := 100 |}] sample_invested in
  set_table (H := trueup) TPaymentMethod
    [{| pm_customer_id := 7; pm_stripe_customer_id := "cus_1"; pm_stripe_payment_method_id := "pm_1"; pm_updated_at := 0 |}] d.

Lemma sample_billable_ok : state_ok sample_billable.
Proof.
  split; [apply integrity_check; intros []; vm_compute; reflexivity|].
  apply (ledger_ok_frame sample_invested); [|exact (proj2 sample_invested_ok)]. intros t Ht. unfold sample_billable.
  rewrite !tables_set_ne; [done|..]; intros <-; unfold ledger_tables in Ht; set_solver.
Qed.

Lemma sample_no_charges : fee_charges sample_billable = [].
Proof. vm_compute. reflexivity. Qed.

Lemma sample_month : previous_month_bounds 738190 = Ok (738156, 738186).
Proof. vm_compute. reflexivity. Qed.

Definition sample_billed : option FeeCharge * db :=
  run_or (create_pending_charge 7 738156 738186) sample_billable None.

Lemma sample_billed_runs :
  run (create_pending_charge 7 738156 738186) sample_billable = Ok (sample_billed.1, sample_billed.2).
Proof. rewrite <- surjective_pairing. apply run_or_Ok. vm_compute. reflexivity. Qed.

Lemma period_billed_once_witness :
  ∃ f, sample_billed.1 = Some f ∧ charge_customer_id f = 7 ∧
       run (create_pending_charge 7 738156 738186) sample_billed.2 = Ok (Some f, sample_billed.2).
Proof.
  assert (Hfr : charges_fresh sample_billable).
  { intros f Hf. rewrite sample_no_charges in Hf. by apply elem_of_nil in Hf. }
  assert (Hs : is_Some sample_billed.1) by (vm_compute; by eexists). pose proof sample_billed_runs as Hr.
  revert Hr Hs. generalize (sample_billed.2). generalize (sample_billed.1). intros [f|] d' Hr Hs; [|by destruct Hs].
  destruct (period_billed_once _ _ _ _ _ _ (proj1 sample_billable_ok) Hfr Hr) as [(Hc & _) Hagain].
  exists f. exact (conj eq_refl (conj Hc Hagain)).
Defined.

(** The pending charge on file. *)
Definition sample_charge : FeeCharge :=
  {| charge_id := 60; charge_customer_id := 7; charge_billing_period_start := 738156;
     charge_billing_period_end := 738186; charge_total_accrued := QD 121; charge_as_published_watermark := Some 0;
     charge_status := CHARGE_PENDING; charge_stripe_charge_id := None; charge_journal_entry_id := None |}.

Definition sample_chargeable : db := set_table (H := trueup) TFeeCharge [sample_charge] sample_billable.

Lemma sample_chargeable_ok : state_ok sample_chargeable.
Proof.
  split; [apply integrity_check; intros []; vm_compute; reflexivity|].
  apply (ledger_ok_frame sample_billable); [|exact (proj2 sample_billable_ok)]. intros t Ht. unfold sample_chargeable.
  rewrite tables_set_ne; [done|]. intros <-; unfold ledger_tables in Ht; set_solver.
Qed.

Definition sample_collected : db := (run_or (apply_charge_success 0 60 "pi_1") sample_chargeable tt).2.

Lemma sample_collected_runs : run (apply_charge_success 0 60 "pi_1") sample_chargeable = Ok (tt, sample_collected).
Proof. apply run_or_unit. vm_compute. reflexivity. Qed.

Lemma charge_collected_once_witness :
  charge_status <$> fee_charges sample_collected = [CHARGE_SUCCEEDED] ∧
  ∀ now s, run (apply_charge_success now 60 s) sample_collected = Ok (tt, sample_collected).
Proof.
  split; [vm_compute; reflexivity|]. pose proof sample_collected_runs as Hr. revert Hr. generalize sample_collected. intros d' Hr.
  destruct (charge_collected_once _ _ _ _ _ _ sample_chargeable_ok Hr) as (c & _ & _ & _ & Hagain).
  intros now s. exact (proj1 (Hagain now s 4)).
Defined.

Definition sample_declines : list instant := [0; 1; 2; 3].

Lemma declines_exhaust_witness :
  ∃ d' at_, run (for_each sample_declines (λ now, apply_charge_failure 4 now 60)) sample_chargeable = Ok (tt, d') ∧
            phase_of 60 d' = Some (Exhausted 4 at_ 4).
Proof.
  destruct (declines_exhaust 4 60 sample_declines sample_chargeable (proj1 sample_chargeable_ok)) as (d' & Hr & _ & _ & He).
  - vm_compute. reflexivity.
  - intros now Hnow. assert (now <= 3) by (unfold sample_declines in Hnow; set_solver by lia). cut (3 + backoff (Z.max 1 4) <= MAX_INSTANT); [lia|].
    vm_compute. done.
  - destruct He as [at_ He]; [vm_compute; done|]. exists d', at_. exact (conj Hr He).
Defined.

(** A provider that accepts the charge and is still processing it. *)
Definition sample_port (_ _ : string) (_ : Money) (_ : string) : result ChargeHandle :=
  Ok {| handle_stripe_charge_id := "pi_1"; handle_status := "processing" |}.

Definition sample_processing : db := (charge_fee sample_port 4 0 127 sample_billed.2).2.

(** The payment fails later, and its webhook changes nothing: the fee stays collected. *)
Lemma webhook_inert_witness :
  charge_status <$> fee_charges sample_processing = [CHARGE_SUCCEEDED] ∧
  run (apply_verdict 0 "pi_1" "payment_failed") sample_processing = Ok (tt, sample_processing).
Proof.
  split; [vm_compute; reflexivity|].
  refine (webhook_inert sample_billable sample_processing 0 "pi_1" "payment_failed" (proj1 sample_billable_ok)
    sample_no_charges _).
  eapply rtc_l; [exact (step_bill _ _ _ _ _ _ sample_billed_runs)|].
  apply rtc_once. unfold sample_processing. exact (step_collect sample_port 4 0 127 _).
Defined.
