(* ===== verification/Reconciliation.v ===== *)
(** * Morning reconciliation

    [services/reconciliation/reconciliation_service.py], [internal_state.py],
    [break_aging_service.py], the break repository of
    [models/reconciliation/reconciliation_break.py] and the custodian-file
    simulator [integrations/fake/custodian_file_adapter.py].  The custodian's
    three files are compared with the ledger; every difference opens a break,
    and nothing else does.  A Python set has no order: its elements are listed
    here in some order, and no theorem depends on which. *)

From S2P Require Import Prelude PyDecimal MoneyTypes Dates Calendar Store Schema Ledger CashPolicy Funding Valuation Restatement Lots LotBooks.
From Stdlib Require Import String.
From stdpp Require Import strings.
Open Scope Z_scope.

(** ** Dictionaries: association lists in insertion order *)

Section Dict.
Context {K V : Type} `{EqDecision K}.

(** [d[k] = v] *)
Definition dict_set (k : K) (v : V) (l : list (K * V)) : list (K * V) :=
  if bool_decide (k ∈ l.*1) then (λ x, if bool_decide (x.1 = k) then (k, v) else x) <$> l else l ++ [(k, v)].

(** A comprehension [{k: v for k, v in items}]: a later item overwrites. *)
Definition dict_of (items : list (K * V)) : list (K * V) := foldl (λ l x, dict_set x.1 x.2 l) [] items.

(** [d.get(k)] *)
Definition dict_get (k : K) (l : list (K * V)) : option V := snd <$> head (filter (λ x, x.1 = k) l).
End Dict.

(** ** The custodian's files ([integrations/ports.py]) *)

Inductive CustodianTransactionType := TX_TRADE | TX_DIVIDEND | TX_DEPOSIT | TX_WITHDRAWAL | TX_FEE.

Record CustodianPositionRow := {
  position_customer_id : uuid; position_security_id : uuid; position_quantity : Units; position_as_of_date : date }.

Record CustodianCashRow := { cash_customer_id : uuid; cash_settled_cash : Money; cash_as_of_date : date }.

Record CustodianTransactionRow := {
  tx_custodian_transaction_id : string; tx_customer_id : option uuid; tx_security_id : option uuid;
  tx_transaction_type : CustodianTransactionType; tx_amount_money : Money; tx_quantity : option Units;
  tx_effective_date : date }.

Record CustodianFileSet := {
  file_positions : list CustodianPositionRow; file_cash : list CustodianCashRow;
  file_transactions : list CustodianTransactionRow; file_is_simulated : bool }.

Definition transaction_type_value (t : CustodianTransactionType) : string :=
  match t with
  | TX_TRADE => "trade" | TX_DIVIDEND => "dividend" | TX_DEPOSIT => "deposit" | TX_WITHDRAWAL => "withdrawal"
  | TX_FEE => "fee"
  end.

Definition entry_type_value (t : JournalEntryType) : string :=
  match t with
  | TRADE_BUY => "trade_buy" | TRADE_SELL => "trade_sell" | DEPOSIT => "deposit" | WITHDRAWAL => "withdrawal"
  | DIVIDEND => "dividend" | SPLIT => "split" | FEE_ADJUSTMENT => "fee_adjustment" | CORRECTION => "correction"
  | WASH_SALE_ADJUSTMENT => "wash_sale_adjustment"
  end.

(** ** The internal state ([internal_state.py]) *)

Definition CUSTODIAN_OBSERVABLE_ENTRY_TYPES : list JournalEntryType :=
  [TRADE_BUY; TRADE_SELL; DEPOSIT; WITHDRAWAL; DIVIDEND; FEE_ADJUSTMENT].

(** The group a posting belongs to in [read_internal_positions], if any. *)
Definition position_group (d : db) (on : date) (p : Posting) : option (option uuid * option uuid) :=
  match account_by_id d (posting_account_id p) with
  | Some a => if bool_decide (account_role a = POSITION_UNITS) && effective_by d on p
              then Some (account_customer_id a, account_security_id a) else None
  | None => None
  end.

(** [Units(units)] of one group. *)
Definition group_units (d : db) (on : date) (g : option uuid * option uuid) : result Units :=
  sql_sum (omap (M := list) posting_quantity_units (filter (λ p, position_group d on p = Some g) (postings d))).

Definition nonzero_position (row : (option uuid * option uuid) * Units) : option ((uuid * uuid) * Units) :=
  match row with
  | ((Some c, Some s), units) => if q_eqb units zero then None else Some ((c, s), units)
  | _ => None
  end.

Definition read_internal_positions (on : date) (d : db) : result (list ((uuid * uuid) * Units)) :=
  rows ← map_result (λ g, units ← group_units d on g; Ok (g, units))
           (remove_dups (omap (M := list) (position_group d on) (postings d)));
  Ok (omap (M := list) nonzero_position rows).

Definition read_customer_ids (d : db) : list uuid := remove_dups (customer_id <$> customers d).

Record InternalTransactionSnapshot := {
  snap_journal_entry_id : uuid; snap_entry_type : JournalEntryType; snap_customer_id : option uuid;
  snap_security_id : option uuid; snap_amount_money : Money; snap_quantity : option Units;
  snap_effective_date : date }.

(** The body of the loop over an entry's postings. *)
Definition snapshot_posting (d : db) (acc : Money * option Units * option uuid) (p : Posting)
    : result (Money * option Units * option uuid) :=
  let '(amount, units, security) := acc in
  amount ← match posting_amount_money p with Some m => q_add amount m | None => Ok amount end;
  match posting_quantity_units p with
  | None => Ok (amount, units, security)
  | Some q =>
      units ← q_add (default zero units) q;
      Ok (amount, Some units, match account_by_id d (posting_account_id p) with
                              | Some a => account_security_id a
                              | None => security
                              end)
  end.

Definition transaction_snapshot (d : db) (e : JournalEntry) : result InternalTransactionSnapshot :=
  let ps := for_journal_entry d (entry_id e) in
  '(amount, units, security) ← foldr_result (snapshot_posting d) ps (zero, None, None);
  Ok {| snap_journal_entry_id := entry_id e; snap_entry_type := entry_type e;
        snap_customer_id := head (omap (M := list) posting_customer_id ps); snap_security_id := security;
        snap_amount_money := amount; snap_quantity := units; snap_effective_date := entry_effective_date e |}.

(** The entry with its event's id, when the entry is one the custodian sees on that date. *)
Definition observed_entry (d : db) (on : date) (e : JournalEntry) : option (string * JournalEntry) :=
  if bool_decide (entry_effective_date e = on ∧ entry_type e ∈ CUSTODIAN_OBSERVABLE_ENTRY_TYPES) then
    (λ ev, (event_source_event_id ev, e)) <$> head (filter (λ ev, event_id ev = entry_source_event_id e) (inbound_events d))
  else None.

Definition read_internal_transactions (on : date) (d : db) : result (list (string * InternalTransactionSnapshot)) :=
  rows ← map_result (λ x : string * JournalEntry, snapshot ← transaction_snapshot d x.2; Ok (x.1, snapshot))
           (omap (M := list) (observed_entry d on) (journal_entries d));
  Ok (dict_of rows).

(** ** Matching ([ReconciliationService]) *)

(** What a [ReconciliationBreak(...)] is constructed from, but for its batch and instant. *)
Record BreakDraft := Draft {
  draft_type : ReconciliationBreakType;
  draft_customer : option uuid;
  draft_expected : option (list (string * json));
  draft_actual : option (list (string * json));
}.

Definition optional_str {A} (f : A → string) (x : option A) : json := from_option (λ a, JStr (f a)) JNull x.

(** [_serialize_transaction_row] and [_serialize_internal_snapshot] *)
Definition serialize_transaction_row (r : CustodianTransactionRow) : list (string * json) :=
  [("custodian_transaction_id", JStr (tx_custodian_transaction_id r));
   ("customer_id", optional_str uuid_str (tx_customer_id r));
   ("security_id", optional_str uuid_str (tx_security_id r));
   ("transaction_type", JStr (transaction_type_value (tx_transaction_type r)));
   ("amount_money", JStr (q_str (tx_amount_money r)));
   ("quantity", optional_str q_str (tx_quantity r));
   ("effective_date", JStr (date_str (tx_effective_date r)))]%string.

Definition serialize_internal_snapshot (s : InternalTransactionSnapshot) : list (string * json) :=
  [("journal_entry_id", JStr (uuid_str (snap_journal_entry_id s)));
   ("entry_type", JStr (entry_type_value (snap_entry_type s)));
   ("customer_id", optional_str uuid_str (snap_customer_id s));
   ("security_id", optional_str uuid_str (snap_security_id s));
   ("amount_money", JStr (q_str (snap_amount_money s)));
   ("quantity", optional_str q_str (snap_quantity s));
   ("effective_date", JStr (date_str (snap_effective_date s)))]%string.

(** [{(row.customer_id, row.security_id): row.quantity for row in file_set.positions}] *)
Definition positions_from_file (files : CustodianFileSet) : list ((uuid * uuid) * Units) :=
  dict_of ((λ r, ((position_customer_id r, position_security_id r), position_quantity r)) <$> file_positions files).

Definition position_draft (c s : uuid) (internal_qty file_qty : Units) : BreakDraft :=
  Draft POSITION_MISMATCH (Some c)
    (Some [("security_id", JStr (uuid_str s)); ("quantity", JStr (q_str internal_qty))]%string)
    (Some [("security_id", JStr (uuid_str s)); ("quantity", JStr (q_str file_qty))]%string).

(** [_match_positions] *)
Definition match_positions (files : CustodianFileSet) (on : date) (d : db) : result (list BreakDraft) :=
  internal ← read_internal_positions on d;
  let from_file := positions_from_file files in
  Ok (omap (M := list) (λ k : uuid * uuid,
        let internal_qty := default zero (dict_get k internal) in
        let file_qty := default zero (dict_get k from_file) in
        if q_eqb internal_qty file_qty then None else Some (position_draft k.1 k.2 internal_qty file_qty))
      (remove_dups (internal.*1 ++ from_file.*1))).

Definition cash_from_file (files : CustodianFileSet) : list (uuid * Money) :=
  dict_of ((λ r, (cash_customer_id r, cash_settled_cash r)) <$> file_cash files).

Definition cash_draft (c : uuid) (internal_cash file_cash_ : Money) : BreakDraft :=
  Draft CASH_MISMATCH (Some c) (Some [("settled_cash", JStr (q_str internal_cash))]%string)
    (Some [("settled_cash", JStr (q_str file_cash_))]%string).

(** The body of the loop of [_match_cash]. *)
Definition match_cash_of (from_file : list (uuid * Money)) (d : db) (c : uuid) : result (option BreakDraft) :=
  internal_cash ← settled_cash c d;
  let file_cash_ := default zero (dict_get c from_file) in
  Ok (if q_eqb internal_cash file_cash_ then None else Some (cash_draft c internal_cash file_cash_)).

(** [_match_cash] *)
Definition match_cash (files : CustodianFileSet) (d : db) : result (list BreakDraft) :=
  let from_file := cash_from_file files in
  found ← map_result (match_cash_of from_file d) (remove_dups (read_customer_ids d ++ from_file.*1));
  Ok (omap (M := list) id found).

Definition transactions_from_file (files : CustodianFileSet) : list (string * CustodianTransactionRow) :=
  dict_of ((λ r, (tx_custodian_transaction_id r, r)) <$> file_transactions files).

(** [_match_transactions] *)
Definition match_transactions (files : CustodianFileSet) (on : date) (d : db) : result (list BreakDraft) :=
  let from_file := transactions_from_file files in
  internal ← read_internal_transactions on d;
  Ok (((λ x : string * CustodianTransactionRow,
          Draft UNMATCHED_CUSTODIAN_TRANSACTION (tx_customer_id x.2) None (Some (serialize_transaction_row x.2)))
        <$> filter (λ x, x.1 ∉ internal.*1) from_file) ++
      ((λ x : string * InternalTransactionSnapshot,
          Draft UNMATCHED_INTERNAL_TRANSACTION (snap_customer_id x.2) (Some (serialize_internal_snapshot x.2)) None)
        <$> filter (λ x, x.1 ∉ from_file.*1) internal)).

(** The raw rows of [_persist_raw_rows], in their order. *)
Definition raw_rows (files : CustodianFileSet) : list (CustodianFileType * list (string * json)) :=
  ((λ r, (FILE_POSITIONS, [("customer_id", JStr (uuid_str (position_customer_id r)));
     ("security_id", JStr (uuid_str (position_security_id r))); ("quantity", JStr (q_str (position_quantity r)));
     ("as_of_date", JStr (date_str (position_as_of_date r)))]%string)) <$> file_positions files) ++
  ((λ r, (FILE_CASH, [("customer_id", JStr (uuid_str (cash_customer_id r)));
     ("settled_cash", JStr (q_str (cash_settled_cash r)));
     ("as_of_date", JStr (date_str (cash_as_of_date r)))]%string)) <$> file_cash files) ++
  ((λ r, (FILE_TRANSACTIONS, serialize_transaction_row r)) <$> file_transactions files).

(** One [CustodianFileRow(...)] added. *)
Definition persist_raw_row (is_simulated : bool) (batch : uuid) (imported_at : instant)
    (r : CustodianFileType * list (string * json)) : prog () :=
  id ← uuid4;
  add TCustodianFileRow {| file_row_id := id; file_row_file_type := r.1; file_row_raw_row := r.2;
    file_row_import_batch_id := batch; file_row_is_simulated := is_simulated; file_row_imported_at := imported_at |}.

Definition persist_raw_rows (files : CustodianFileSet) (batch : uuid) (imported_at : instant) : prog () :=
  for_each (raw_rows files) (persist_raw_row (file_is_simulated files) batch imported_at).

(** The break a draft becomes when it is added. *)
Definition open_break (batch : uuid) (opened_at : instant) (x : BreakDraft) : prog ReconciliationBreak :=
  id ← uuid4;
  let row := {| break_id := id; break_type := draft_type x; break_customer_id := draft_customer x;
                break_expected := draft_expected x; break_actual := draft_actual x; break_opened_at := opened_at;
                break_status := BREAK_OPEN; break_resolved_at := None; break_resolved_by := None;
                break_resolution_note := None; break_import_batch_id := batch |} in
  add TReconciliationBreak row ;;
  mret row.

(** The three matching loops, in the source's order. *)
Definition match_all (files : CustodianFileSet) (on : date) (d : db) : result (list BreakDraft) :=
  positions ← match_positions files on d;
  cash ← match_cash files d;
  transactions ← match_transactions files on d;
  Ok (positions ++ cash ++ transactions).

Definition run_morning_reconciliation `{TradingCalendar} (now : instant) (on : date) (files : CustodianFileSet)
    : prog (list ReconciliationBreak) :=
  if negb (is_trading_day on) then mret []
  else
    import_batch_id ← uuid4;
    persist_raw_rows files import_batch_id now ;;
    breaks ← queries (match_all files on);
    map_prog (open_break import_batch_id now) breaks.

(** ** Breaks ([ReconciliationBreakRepository], [BreakAgingService]) *)

Definition break_by_id (id : uuid) (d : db) : option ReconciliationBreak :=
  head (filter (λ b, break_id b = id) (reconciliation_breaks d)).

Definition list_open (d : db) : list ReconciliationBreak :=
  sort_by (λ a b, break_opened_at a <=? break_opened_at b) (filter (λ b, break_status b = BREAK_OPEN) (reconciliation_breaks d)).

Definition list_open_for_customer (customer : uuid) (d : db) : list ReconciliationBreak :=
  sort_by (λ a b, break_opened_at a <=? break_opened_at b)
    (filter (λ b, break_status b = BREAK_OPEN ∧ break_customer_id b = Some customer) (reconciliation_breaks d)).

Definition set_resolved (by_ : uuid) (at_ : instant) (note : string) (b : ReconciliationBreak) : ReconciliationBreak :=
  {| break_id := break_id b; break_type := break_type b; break_customer_id := break_customer_id b;
     break_expected := break_expected b; break_actual := break_actual b; break_opened_at := break_opened_at b;
     break_status := BREAK_RESOLVED; break_resolved_at := Some at_; break_resolved_by := Some by_;
     break_resolution_note := Some note; break_import_batch_id := break_import_batch_id b |}.

(** [resolve] *)
Definition resolve (b : ReconciliationBreak) (resolved_by : uuid) (resolved_at : instant) (resolution_note : string)
    : prog () :=
  require (bool_decide (break_status b = BREAK_OPEN)) AlreadyResolvedError ;;
  update TReconciliationBreak (λ x : ReconciliationBreak, break_id x =? break_id b)
    (set_resolved resolved_by resolved_at resolution_note).

(** [BreakAgingService.age] *)
Definition age (b : ReconciliationBreak) (now : instant) : Z := now - break_opened_at b.

(** ** Lemmas: dictionaries *)

Section DictLemmas.
Context {K V : Type} `{EqDecision K}.
Implicit Types (l items : list (K * V)).

Lemma dict_set_keys k (v : V) l :
  (dict_set k v l).*1 = if bool_decide (k ∈ l.*1) then l.*1 else l.*1 ++ [k].
Proof.
  unfold dict_set. case_bool_decide; [|by rewrite fmap_app].
  rewrite <- list_fmap_compose. apply list_fmap_ext. intros i x _. unfold compose. by case_bool_decide.
Qed.

Lemma dict_get_set k (v : V) l j : dict_get j (dict_set k v l) = if decide (j = k) then Some v else dict_get j l.
Proof.
  unfold dict_set, dict_get. case_bool_decide as Hin.
  - induction l as [|[a b] l IH]; [by apply elem_of_nil in Hin|]. rewrite fmap_cons. cbn [fst].
    destruct (bool_decide_reflect (a = k)) as [->|Hne].
    + rewrite !filter_cons. cbn [fst]. destruct (decide (j = k)) as [->|].
      * by rewrite decide_True by done.
      * rewrite !decide_False by congruence.
        destruct (decide (k ∈ l.*1)) as [Hk|Hk]; [by rewrite IH|].
        f_equal. f_equal. f_equal. rewrite <- (list_fmap_id l) at 2. apply list_fmap_ext. intros i [c e] Hi. cbn.
        case_bool_decide as E; [|done]. exfalso. apply Hk, list_elem_of_fmap. exists (c, e). cbn in E. subst c.
        split; [done|by eapply list_elem_of_lookup_2].
    + rewrite fmap_cons in Hin. cbn [fst] in Hin. apply elem_of_cons in Hin as [|Hin]; [congruence|].
      rewrite !filter_cons. cbn [fst]. destruct (decide (a = j)) as [<-|]; [by rewrite decide_False by done|by apply IH].
  - rewrite filter_app, filter_cons. cbn [fst]. destruct (decide (j = k)) as [->|].
    + rewrite (filter_none _ l); [by rewrite decide_True by done|].
      intros [a b] Hab E. cbn in E. subst a. apply Hin, list_elem_of_fmap. by exists (k, b).
    + rewrite (decide_False (P := k = j)) by congruence. by rewrite filter_nil, app_nil_r.
Qed.

Lemma dict_of_snoc items x : dict_of (items ++ [x]) = dict_set x.1 x.2 (dict_of items).
Proof. unfold dict_of. by rewrite foldl_app. Qed.

Lemma dict_of_get items k : dict_get k (dict_of items) = snd <$> last (filter (λ x, x.1 = k) items).
Proof.
  induction items as [|[a b] items IH] using rev_ind; [done|].
  rewrite dict_of_snoc, dict_get_set, filter_app, filter_cons. cbn [fst snd]. destruct (decide (k = a)) as [->|].
  - rewrite decide_True by done. by rewrite filter_nil, last_snoc.
  - rewrite (decide_False (P := a = k)) by congruence. by rewrite filter_nil, app_nil_r.
Qed.

Lemma dict_of_keys items : NoDup (dict_of items).*1 ∧ ∀ k, k ∈ (dict_of items).*1 ↔ k ∈ items.*1.
Proof.
  induction items as [|[a b] items [Hnd Hk]] using rev_ind; [split; [constructor|done]|].
  rewrite dict_of_snoc, dict_set_keys, fmap_app. cbn [fst fmap list_fmap]. split.
  - case_bool_decide as Ha; [done|]. apply NoDup_app. split_and!; [done| |apply NoDup_singleton].
    intros x Hx ->%list_elem_of_singleton. done.
  - intros k. case_bool_decide as Ha; rewrite !elem_of_app, Hk, ?list_elem_of_singleton; [|done].
    rewrite Hk in Ha. split; [by left|]. intros [?| ->]; done.
Qed.

Lemma dict_get_In l k v : NoDup l.*1 → (k, v) ∈ l ↔ dict_get k l = Some v.
Proof.
  unfold dict_get. induction l as [|[a b] l IH]; [intros _; split; [by intros ?%elem_of_nil|done]|].
  rewrite fmap_cons, NoDup_cons. cbn [fst]. intros [Ha Hnd].
  rewrite elem_of_cons, filter_cons. cbn [fst]. destruct (decide (a = k)) as [->|Hne].
  - cbn. split; [|by intros [= ->]; left]. intros [[= ->]|Hin]; [done|]. exfalso. apply Ha, list_elem_of_fmap. by exists (k, v).
  - rewrite <- IH by done. split; [by intros [[= -> _]|?]|by right].
Qed.

Lemma dict_get_None l k : k ∉ l.*1 → dict_get k l = None.
Proof.
  intros Hk. unfold dict_get. rewrite filter_none; [done|]. intros [a b] Hab E. cbn in E. subst a.
  apply Hk, list_elem_of_fmap. by exists (k, b).
Qed.
End DictLemmas.

(** ** The figures compared *)

(** What the ledger says a customer holds, in quanta of units. *)
Definition internal_units (d : db) (on : date) (k : uuid * uuid) : Z :=
  sum_by posting_units (filter (λ p, position_group d on p = Some (Some k.1, Some k.2)) (postings d)).

(** What the file says: its last row for the position. *)
Definition file_units (files : CustodianFileSet) (k : uuid * uuid) : Z :=
  from_option (λ r, quanta (position_quantity r)) 0
    (last (filter (λ r, (position_customer_id r, position_security_id r) = k) (file_positions files))).

Definition file_cash_of (files : CustodianFileSet) (c : uuid) : Z :=
  from_option (λ r, quanta (cash_settled_cash r)) 0 (last (filter (λ r, cash_customer_id r = c) (file_cash files))).

(** The external ids of the entries the custodian sees that day. *)
Definition internal_ids (d : db) (on : date) : list string :=
  (omap (M := list) (observed_entry d on) (journal_entries d)).*1.

Lemma qd_eta {dm} (q : qd dm) : q = QD (quanta q).
Proof. by destruct q. Qed.

Lemma omap_units_sum (l : list Posting) : sum_by (@quanta UnitsD) (omap posting_quantity_units l) = sum_by posting_units l.
Proof.
  induction l as [|p l IH]; [done|]. cbn. rewrite sum_by_cons. unfold posting_units at 1.
  destruct (posting_quantity_units p); cbn; [by rewrite sum_by_cons, IH|]. by rewrite IH.
Qed.

Lemma last_fmap_filter {A B K} `{EqDecision K} (g : A → K * B) (l : list A) k :
  snd <$> last (filter (λ x, x.1 = k) (g <$> l)) = (λ a, (g a).2) <$> last (filter (λ a, (g a).1 = k) l).
Proof.
  induction l as [|a l IH] using rev_ind; [done|]. rewrite fmap_app, !filter_app. cbn [fmap list_fmap].
  rewrite !filter_cons, !filter_nil. destruct (decide ((g a).1 = k)); [by rewrite !last_snoc|by rewrite !app_nil_r].
Qed.

Lemma positions_from_file_get files k :
  quanta (default zero (dict_get k (positions_from_file files))) = file_units files k.
Proof.
  unfold positions_from_file, file_units. rewrite dict_of_get, last_fmap_filter. cbn [fst snd].
  by destruct (last _).
Qed.

Lemma cash_from_file_get files c : quanta (default zero (dict_get c (cash_from_file files))) = file_cash_of files c.
Proof. unfold cash_from_file, file_cash_of. rewrite dict_of_get, last_fmap_filter. cbn [fst snd]. by destruct (last _). Qed.

(** [read_internal_positions] has exactly the nonzero holdings. *)
Lemma read_internal_positions_Ok on d l k :
  read_internal_positions on d = Ok l →
  quanta (default zero (dict_get k l)) = internal_units d on k ∧ NoDup l.*1 ∧ (internal_units d on k ≠ 0 → k ∈ l.*1).
Proof.
  unfold read_internal_positions. intros (rows & Hrows & [= <-])%bind_Ok. apply map_result_Forall2 in Hrows.
  set (gs := remove_dups _) in *. assert (Hnd : NoDup gs) by apply NoDup_remove_dups.
  assert (Hval : ∀ g u, (g, u) ∈ rows → g ∈ gs ∧ quanta u = sum_by posting_units (filter (λ p, position_group d on p = Some g) (postings d))).
  { intros g u Hin. apply list_elem_of_lookup in Hin as (i & Hi).
    destruct (Forall2_lookup_r _ _ _ _ _ Hrows Hi) as (g' & Hg' & Hf). apply bind_Ok in Hf as (v & Hv & [= <- <-]).
    split; [by eapply list_elem_of_lookup_2|]. unfold group_units in Hv. apply sql_sum_Ok in Hv as [_ Hv].
    by rewrite Hv, omap_units_sum. }
  assert (Hkeys : rows.*1 = gs).
  { clear Hval Hnd. induction Hrows as [|g [g' u] gs' rows' Hf _ IH]; [done|].
    apply bind_Ok in Hf as (v & _ & [= <- <-]). rewrite fmap_cons. cbn. by rewrite IH. }
  assert (Hnz : ∀ k' u, (k', u) ∈ omap (M := list) nonzero_position rows ↔
                  ((Some k'.1, Some k'.2), u) ∈ rows ∧ quanta u ≠ 0).
  { intros [c s] u. rewrite list_elem_of_omap. split.
    - intros ([[[c'|] [s'|]] u'] & Hin & E); try done. unfold nonzero_position, q_eqb in E. cbn [quanta zero] in E.
      destruct (Z.eqb_spec (quanta u') 0); [done|]. by injection E as -> -> ->.
    - intros [Hin Hu]. eexists. split; [exact Hin|]. unfold nonzero_position, q_eqb. cbn [quanta zero fst snd].
      by destruct (Z.eqb_spec (quanta u) 0). }
  assert (Hndl : NoDup (omap (M := list) nonzero_position rows).*1).
  { clear Hval Hnz. rewrite <- Hkeys in Hnd. clear gs Hrows Hkeys. induction rows as [|[[c s] u] rows IH]; [constructor|].
    rewrite fmap_cons in Hnd. cbn [fst] in Hnd. apply NoDup_cons in Hnd as [Hni Hnd]. specialize (IH Hnd). cbn.
    destruct c as [c|], s as [s|]; try done. destruct (q_eqb u zero); [done|]. cbn. constructor; [|done].
    intros ([k' u'] & E & Hin)%list_elem_of_fmap. cbn in E. subst k'. apply Hni.
    apply list_elem_of_omap in Hin as ([[[c'|] [s'|]] u2] & Hin & E); try done. cbn in E.
    destruct (q_eqb u2 zero); [done|]. injection E as -> -> ->. apply list_elem_of_fmap. by exists ((Some c, Some s), u'). }
  assert (Hget : internal_units d on k ≠ 0 → dict_get k (omap (M := list) nonzero_position rows) = Some (QD (internal_units d on k))).
  { intros Hne. apply dict_get_In; [done|]. apply Hnz. split; [|done].
    assert (Hg : (Some k.1, Some k.2) ∈ gs).
    { unfold gs. rewrite elem_of_remove_dups, list_elem_of_omap. unfold internal_units in Hne.
      destruct (filter _ (postings d)) as [|p ps] eqn:E; [by rewrite sum_by_nil in Hne|].
      assert (Hp : p ∈ p :: ps) by set_solver. rewrite <- E in Hp. apply list_elem_of_filter in Hp as [? ?]. by exists p. }
    rewrite <- Hkeys in Hg. apply list_elem_of_fmap in Hg as ([g u] & E & Hin). cbn in E. subst g.
    destruct (Hval _ _ Hin) as [_ Hq]. by rewrite (qd_eta u), Hq in Hin. }
  split_and!; [|done|].
  - destruct (Z.eq_dec (internal_units d on k) 0) as [E|Hne]; [|by rewrite Hget].
    destruct (dict_get k _) as [u|] eqn:Eg; [|by rewrite E]. apply dict_get_In in Eg; [|done].
    apply Hnz in Eg as [Hin Hu]. destruct (Hval _ _ Hin) as [_ Hq]. exfalso. apply Hu. rewrite Hq. exact E.
  - intros Hne%Hget. apply dict_get_In in Hne; [|done]. apply list_elem_of_fmap. eexists (k, _). split; [done|exact Hne].
Qed.

(** ** What the three loops report *)

Lemma omap_split {A B} (P : A → Prop) `{∀ x, Decision (P x)} (f : A → option B) (g : A → B) (l : list A) :
  (∀ x, x ∈ l → f x = if decide (P x) then Some (g x) else None) → omap f l = g <$> filter P l.
Proof.
  induction l as [|x l IH]; intros Hf; [done|]. rewrite filter_cons. cbn [omap list_omap]. rewrite Hf by set_solver.
  change (match (if decide (P x) then Some (g x) else None) with Some y => y :: omap f l | None => omap f l end = g <$> (if decide (P x) then x :: filter P l else filter P l)). rewrite IH by (intros; apply Hf; set_solver). by destruct (decide (P x)).
Qed.

Lemma match_positions_Ok files on d ds :
  match_positions files on d = Ok ds →
  ∃ ks, NoDup ks ∧ (∀ k, k ∈ ks ↔ internal_units d on k ≠ file_units files k) ∧
    ds = (λ k, position_draft k.1 k.2 (QD (internal_units d on k)) (QD (file_units files k))) <$> ks.
Proof.
  unfold match_positions. intros (l & Hl & [= <-])%bind_Ok.
  pose proof (λ k, read_internal_positions_Ok on d l k Hl) as Hint.
  eexists (filter (λ k, internal_units d on k ≠ file_units files k) _). split_and!.
  - apply NoDup_filter, NoDup_remove_dups.
  - intros k. rewrite list_elem_of_filter, elem_of_remove_dups, elem_of_app. split; [by intros [? _]|]. intros Hne. split; [done|].
    destruct (Hint k) as (_ & _ & Hin). destruct (Z.eq_dec (internal_units d on k) 0) as [E|]; [right|left; by apply Hin].
    destruct (decide (k ∈ (positions_from_file files).*1)) as [|Hni]; [done|exfalso].
    rewrite <- positions_from_file_get, (dict_get_None _ _ Hni) in Hne. by rewrite E in Hne.
  - apply omap_split. intros k _. destruct (Hint k) as (Hi & _ & _). pose proof (positions_from_file_get files k) as Hf.
    unfold q_eqb. rewrite Hi, Hf. rewrite (qd_eta (default zero (dict_get k l))), Hi, (qd_eta (default zero (dict_get k (positions_from_file files)))), Hf.
    destruct (Z.eqb_spec (internal_units d on k) (file_units files k)); case_decide; done.
Qed.

Lemma match_cash_Ok files d ds :
  match_cash files d = Ok ds →
  ∃ cs, NoDup cs ∧
    (∀ c, c ∈ cs ↔ (c ∈ customer_id <$> customers d ∨ c ∈ cash_customer_id <$> file_cash files) ∧
                   settled_quanta c d ≠ file_cash_of files c) ∧
    ds = (λ c, cash_draft c (QD (settled_quanta c d)) (QD (file_cash_of files c))) <$> cs.
Proof.
  unfold match_cash. cbn zeta. intros (found & Hfound & [= <-])%bind_Ok. set (cs := remove_dups _) in *.
  exists (filter (λ c, settled_quanta c d ≠ file_cash_of files c) cs). split_and!.
  - apply NoDup_filter, NoDup_remove_dups.
  - intros c. rewrite list_elem_of_filter. unfold cs, read_customer_ids. rewrite elem_of_remove_dups, elem_of_app, elem_of_remove_dups.
    destruct (dict_of_keys ((λ r, (cash_customer_id r, cash_settled_cash r)) <$> file_cash files)) as [_ Hk].
    unfold cash_from_file. rewrite Hk, <- list_fmap_compose. change (compose fst _) with cash_customer_id. naive_solver.
  - apply map_result_Forall2 in Hfound. clearbody cs.
    induction Hfound as [|c x cs found Hf _ IH]; [done|]. rewrite filter_cons. cbn [omap list_omap].
    unfold match_cash_of in Hf. apply bind_Ok in Hf as (m & Hm & [= <-]). apply settled_cash_Ok in Hm.
    unfold q_eqb. rewrite Hm, cash_from_file_get. rewrite (qd_eta m), Hm.
    rewrite (qd_eta (default zero (dict_get c (cash_from_file files)))), cash_from_file_get.
    destruct (Z.eqb_spec (settled_quanta c d) (file_cash_of files c)); case_decide; try done. cbn. by rewrite IH.
Qed.

Lemma internal_transactions_Ok on d l :
  read_internal_transactions on d = Ok l →
  NoDup l.*1 ∧ (∀ i, i ∈ l.*1 ↔ i ∈ internal_ids d on) ∧
  ∀ i s, (i, s) ∈ l → ∃ e, e ∈ journal_entries d ∧ observed_entry d on e = Some (i, e) ∧ transaction_snapshot d e = Ok s.
Proof.
  unfold read_internal_transactions. intros (rows & Hrows & [= <-])%bind_Ok. apply map_result_Forall2 in Hrows.
  destruct (dict_of_keys rows) as [Hnd Hk]. split_and!; [done| |].
  - intros i. rewrite Hk. unfold internal_ids.
    assert (Hkeys : rows.*1 = (omap (M := list) (observed_entry d on) (journal_entries d)).*1); [|by rewrite Hkeys].
    clear Hnd Hk. induction Hrows as [|x [i' s] xs rows' Hf _ IH]; [done|].
    apply bind_Ok in Hf as (v & _ & [= <- <-]). rewrite !fmap_cons. cbn. by rewrite IH.
  - intros i s Hin%dict_get_In; [|done]. rewrite dict_of_get in Hin.
    destruct (last (filter _ rows)) as [[i' s']|] eqn:El; [|done]. injection Hin as ->.
    apply last_Some_elem_of, list_elem_of_filter in El as [E Hin]. cbn in E. subst i'.
    apply list_elem_of_lookup in Hin as (j & Hj). destruct (Forall2_lookup_r _ _ _ _ _ Hrows Hj) as ([i' e] & He & Hf).
    apply bind_Ok in Hf as (v & Hv & [= <- <-]). apply list_elem_of_lookup_2, list_elem_of_omap in He as (e' & Hin & Hobs).
    assert (e' = e) as ->.
    { unfold observed_entry in Hobs. case_bool_decide; [|done]. destruct (head _); [|done]. by injection Hobs as _ ->. }
    by exists e.
Qed.

Lemma match_transactions_Ok files on d ds :
  match_transactions files on d = Ok ds →
  ∃ outer inner, ds =
    ((λ x, Draft UNMATCHED_CUSTODIAN_TRANSACTION (tx_customer_id x.2) None (Some (serialize_transaction_row x.2))) <$> outer) ++
    ((λ x, Draft UNMATCHED_INTERNAL_TRANSACTION (snap_customer_id x.2) (Some (serialize_internal_snapshot x.2)) None) <$> inner) ∧
    NoDup outer.*1 ∧ NoDup inner.*1 ∧
    (∀ i, i ∈ outer.*1 ↔ i ∈ tx_custodian_transaction_id <$> file_transactions files ∧ i ∉ internal_ids d on) ∧
    (∀ i, i ∈ inner.*1 ↔ i ∈ internal_ids d on ∧ i ∉ tx_custodian_transaction_id <$> file_transactions files) ∧
    (∀ i r, (i, r) ∈ outer → r ∈ file_transactions files ∧ tx_custodian_transaction_id r = i) ∧
    (∀ i s, (i, s) ∈ inner → ∃ e, e ∈ journal_entries d ∧ observed_entry d on e = Some (i, e) ∧ transaction_snapshot d e = Ok s).
Proof.
  unfold match_transactions. cbn zeta. intros (l & Hl & [= <-])%bind_Ok.
  destruct (internal_transactions_Ok _ _ _ Hl) as (Hnd & Hk & Hs).
  set (items := (λ r, (tx_custodian_transaction_id r, r)) <$> file_transactions files).
  destruct (dict_of_keys items) as [Hndf Hkf].
  assert (Hkf' : ∀ i, i ∈ (transactions_from_file files).*1 ↔ i ∈ tx_custodian_transaction_id <$> file_transactions files).
  { intros i. unfold transactions_from_file. fold items. rewrite Hkf. unfold items. by rewrite <- list_fmap_compose. }
  assert (Hfk : ∀ {V} (q : list (string * V)) (P : string → Prop) `{∀ i, Decision (P i)}, NoDup q.*1 →
    NoDup (filter (λ x, P x.1) q).*1 ∧ ∀ i, i ∈ (filter (λ x, P x.1) q).*1 ↔ i ∈ q.*1 ∧ P i).
  { intros V q P HP Hq. split.
    - apply (sublist_NoDup _ q.*1); [done|eapply fmap_sublist; apply sublist_filter].
    - intros i. rewrite !list_elem_of_fmap. setoid_rewrite list_elem_of_filter. naive_solver. }
  eexists (filter (λ x, x.1 ∉ l.*1) (transactions_from_file files)), (filter (λ x, x.1 ∉ (transactions_from_file files).*1) l).
  destruct (Hfk _ (transactions_from_file files) (λ i, i ∉ l.*1) _ Hndf) as [Hn1 Hi1].
  destruct (Hfk _ l (λ i, i ∉ (transactions_from_file files).*1) _ Hnd) as [Hn2 Hi2]. split_and!; [done..| | | |].
  - intros i. by rewrite Hi1, Hkf', Hk.
  - intros i. by rewrite Hi2, Hkf', Hk.
  - intros i r [_ Hin]%list_elem_of_filter. apply dict_get_In in Hin; [|done].
    unfold transactions_from_file in Hin. rewrite dict_of_get, last_fmap_filter in Hin. cbn [fst snd] in Hin.
    destruct (last _) as [r'|] eqn:El; [|done]. injection Hin as ->.
    by apply last_Some_elem_of, list_elem_of_filter in El as [E Hin].
  - intros i s [_ Hin]%list_elem_of_filter. by apply Hs.
Qed.

(** ** Running the reconciliation *)

Definition break_draft (b : ReconciliationBreak) : BreakDraft :=
  Draft (break_type b) (break_customer_id b) (break_expected b) (break_actual b).

Lemma open_breaks_Ok batch now ds d bs d' :
  run (map_prog (open_break batch now) ds) d = Ok (bs, d') →
  break_draft <$> bs = ds ∧ reconciliation_breaks d' = reconciliation_breaks d ++ bs ∧
  ∀ b, b ∈ bs → break_status b = BREAK_OPEN ∧ break_opened_at b = now ∧ break_import_batch_id b = batch.
Proof.
  revert d bs. induction ds as [|x ds IH]; intros d bs; cbn [map_prog].
  - intros [<- <-]%run_ret_Ok. split_and!; [done|by rewrite app_nil_r|set_solver].
  - intros (b & d1 & Hb & (bs' & d2 & Hr & [<- <-]%run_ret_Ok)%run_bind_Ok)%run_bind_Ok.
    destruct (IH _ _ Hr) as (Hd & Hrows & Hall). clear IH.
    unfold open_break in Hb. apply run_bind_Ok in Hb as (id & d3 & [-> ->]%run_uuid4_Ok & Hb). cbn zeta in Hb.
    apply run_bind_Ok in Hb as (u & d4 & [_ Hd4]%run_add_Ok & [<- <-]%run_ret_Ok).
    assert (Hrow : reconciliation_breaks d4 = reconciliation_breaks d ++
      [{| break_id := next_uuid d; break_type := draft_type x; break_customer_id := draft_customer x;
          break_expected := draft_expected x; break_actual := draft_actual x; break_opened_at := now;
          break_status := BREAK_OPEN; break_resolved_at := None; break_resolved_by := None;
          break_resolution_note := None; break_import_batch_id := batch |}]).
    { rewrite Hd4. exact (tables_set_same (H := trueup) TReconciliationBreak _ _). }
    split_and!.
    + rewrite fmap_cons, Hd. by destruct x.
    + rewrite Hrows, Hrow, <- app_assoc. done.
    + intros b [->|Hin]%elem_of_cons; [done|by apply Hall].
Qed.

Lemma persist_rows_Ok simulated batch now rs d d' :
  run (for_each rs (persist_raw_row simulated batch now)) d = Ok (tt, d') →
  ∃ rows, custodian_file_rows d' = custodian_file_rows d ++ rows ∧
    (λ r, (file_row_file_type r, file_row_raw_row r)) <$> rows = rs ∧
    ∀ r, r ∈ rows → file_row_import_batch_id r = batch ∧ file_row_is_simulated r = simulated ∧ file_row_imported_at r = now.
Proof.
  revert d. induction rs as [|[ty raw] rs IH]; intros d; cbn [for_each].
  - intros [_ <-]%run_ret_Ok. exists []. split_and!; [by rewrite app_nil_r|done|set_solver].
  - intros ([] & d1 & Hr & (rows & Hrows & Hd & Hall)%IH)%run_bind_Ok. clear IH.
    unfold persist_raw_row in Hr. apply run_bind_Ok in Hr as (id & d3 & [-> ->]%run_uuid4_Ok & [_ Hd1]%run_add_Ok).
    set (r := {| file_row_id := next_uuid d |}) in Hd1.
    assert (Hrow : custodian_file_rows d1 = custodian_file_rows d ++ [r]).
    { rewrite Hd1. exact (tables_set_same (H := trueup) TCustodianFileRow _ _). }
    exists (r :: rows). rewrite Hrows, Hrow, <- app_assoc. split_and!; [done|by rewrite fmap_cons, Hd|].
    intros x [->|Hin]%elem_of_cons; [done|by apply Hall].
Qed.

(** The readers see the raw rows as little as they see a fresh id. *)
Lemma match_all_same files on d d' :
  (∀ t, t ≠ TCustodianFileRow → tables d' t = tables d t) → match_all files on d' = match_all files on d.
Proof.
  intros H. pose proof (H TPosting ltac:(done)) as Hp. pose proof (H TAccount ltac:(done)) as Ha.
  pose proof (H TJournalEntry ltac:(done)) as He. pose proof (H TInboundEvent ltac:(done)) as Hi.
  pose proof (H TCustomer ltac:(done)) as Hc. pose proof (H TSettlementObligation ltac:(done)) as Ho. clear H.
  destruct d as [tb n w], d' as [tb' n' w']. cbn in *.
  unfold match_all, match_positions, match_cash, match_transactions, read_internal_positions, read_internal_transactions,
    read_customer_ids, match_cash_of, group_units, transaction_snapshot, snapshot_posting, settled_cash, on_cash,
    counts_as_settled, has_obligation, has_confirmed_obligation, posting_role, position_group, effective_by, posting_entry,
    for_journal_entry, observed_entry, account_by_id, postings, accounts, journal_entries, inbound_events, customers,
    settlement_obligations; cbn [tables]. rewrite Hp, Ha, He, Hi, Hc, Ho. done.
Qed.

(** The drafts are the differences between the file and the ledger, each once: a
    position whose units differ, a customer whose settled cash differs, a file
    transaction the ledger has no event for, a ledger event the file has not. *)
Definition mismatches (files : CustodianFileSet) (on : date) (d : db) (ds : list BreakDraft) : Prop :=
  ∃ positions cash outer inner,
    ds = ((λ k, position_draft k.1 k.2 (QD (internal_units d on k)) (QD (file_units files k))) <$> positions) ++
         ((λ c, cash_draft c (QD (settled_quanta c d)) (QD (file_cash_of files c))) <$> cash) ++
         ((λ x, Draft UNMATCHED_CUSTODIAN_TRANSACTION (tx_customer_id x.2) None (Some (serialize_transaction_row x.2))) <$> outer) ++
         ((λ x, Draft UNMATCHED_INTERNAL_TRANSACTION (snap_customer_id x.2) (Some (serialize_internal_snapshot x.2)) None) <$> inner) ∧
    (NoDup positions ∧ ∀ k, k ∈ positions ↔ internal_units d on k ≠ file_units files k) ∧
    (NoDup cash ∧ ∀ c, c ∈ cash ↔ (c ∈ customer_id <$> customers d ∨ c ∈ cash_customer_id <$> file_cash files) ∧
                                  settled_quanta c d ≠ file_cash_of files c) ∧
    (NoDup outer.*1 ∧
     (∀ i, i ∈ outer.*1 ↔ i ∈ tx_custodian_transaction_id <$> file_transactions files ∧ i ∉ internal_ids d on) ∧
     ∀ i r, (i, r) ∈ outer → r ∈ file_transactions files ∧ tx_custodian_transaction_id r = i) ∧
    (NoDup inner.*1 ∧
     (∀ i, i ∈ inner.*1 ↔ i ∈ internal_ids d on ∧ i ∉ tx_custodian_transaction_id <$> file_transactions files) ∧
     ∀ i s, (i, s) ∈ inner → ∃ e, e ∈ journal_entries d ∧ observed_entry d on e = Some (i, e) ∧ transaction_snapshot d e = Ok s).

Lemma match_all_Ok files on d ds : match_all files on d = Ok ds → mismatches files on d ds.
Proof.
  intros (p & Hp & (c & Hc & (t & Ht & [= <-])%bind_Ok)%bind_Ok)%bind_Ok.
  destruct (match_positions_Ok _ _ _ _ Hp) as (ks & Hk1 & Hk2 & ->).
  destruct (match_cash_Ok _ _ _ Hc) as (cs & Hc1 & Hc2 & ->).
  destruct (match_transactions_Ok _ _ _ _ Ht) as (o & i & -> & H1 & H2 & H3 & H4 & H5 & H6).
  by exists ks, cs, o, i.
Qed.

Lemma writes_persist files batch now : writes [TCustodianFileRow] (persist_raw_rows files batch now).
Proof. unfold persist_raw_rows, persist_raw_row. writes_auto. Qed.

Lemma writes_open batch now ds : writes [TReconciliationBreak] (map_prog (open_break batch now) ds).
Proof. unfold open_break. writes_auto. Qed.

(** C17. Breaks are the mismatches.  On a holiday the reconciliation writes nothing
    and reports nothing.  On a trading day it opens, in one batch stamped with the
    instant of the run, exactly one break per difference between the custodian's
    files and the ledger (positions as of the date, settled cash, the day's
    observable transactions), all of them OPEN; it keeps every row of the files
    raw, and writes no other table. *)
Theorem breaks_are_mismatches `{TradingCalendar} now on files d bs d' :
  run (run_morning_reconciliation now on files) d = Ok (bs, d') →
  if is_trading_day on then
    ∃ batch rows, mismatches files on d (break_draft <$> bs) ∧
      reconciliation_breaks d' = reconciliation_breaks d ++ bs ∧
      (∀ b, b ∈ bs → break_status b = BREAK_OPEN ∧ break_opened_at b = now ∧ break_import_batch_id b = batch) ∧
      custodian_file_rows d' = custodian_file_rows d ++ rows ∧
      (λ r, (file_row_file_type r, file_row_raw_row r)) <$> rows = raw_rows files ∧
      (∀ r, r ∈ rows → file_row_import_batch_id r = batch ∧ file_row_is_simulated r = file_is_simulated files ∧
                       file_row_imported_at r = now) ∧
      ∀ t, t ∉ [TCustodianFileRow; TReconciliationBreak] → tables d' t = tables d t
  else bs = [] ∧ d' = d.
Proof.
  unfold run_morning_reconciliation. destruct (is_trading_day on); cbn [negb]; [|by intros [<- <-]%run_ret_Ok].
  intros (batch & d1 & [-> ->]%run_uuid4_Ok & Hrun)%run_bind_Ok.
  apply run_bind_Ok in Hrun as ([] & d2 & Hrows & Hrun). apply run_bind_Ok in Hrun as (ds & d3 & [Hds <-]%run_queries_Ok & Hrun).
  pose proof (writes_persist _ _ _ _ _ _ Hrows) as Hf. pose proof (writes_open _ _ _ _ _ _ Hrun) as Hf'.
  apply persist_rows_Ok in Hrows as (rows & Hr1 & Hr2 & Hr3). apply open_breaks_Ok in Hrun as (Hb1 & Hb2 & Hb3).
  assert (Hr : custodian_file_rows d' = custodian_file_rows d2) by exact (Hf' TCustodianFileRow ltac:(set_solver)).
  assert (Hb : reconciliation_breaks d2 = reconciliation_breaks d) by exact (Hf TReconciliationBreak ltac:(set_solver)).
  exists (next_uuid d), rows. rewrite Hr, <- Hb. split_and!; try done.
  - rewrite Hb1. apply match_all_Ok. rewrite <- Hds. symmetry. apply match_all_same. intros t Ht. by rewrite Hf by set_solver.
  - intros t Ht. rewrite Hf' by set_solver. by rewrite Hf by set_solver.
Qed.

(** The custodian counts 9 units and 50.00 for customer 7, who holds 10; its file
    misses the day's deposit. *)
Definition sample_files : CustodianFileSet :=
  {| file_positions := [{| position_customer_id := 7; position_security_id := 900; position_quantity := QD 9000000;
                           position_as_of_date := 738154 |}];
     file_cash := [{| cash_customer_id := 7; cash_settled_cash := QD 500000; cash_as_of_date := 738154 |}];
     file_transactions := []; file_is_simulated := false |}.

Definition sample_reconciled : list ReconciliationBreak * db :=
  run_or (run_morning_reconciliation (H := sample_calendar) 5 738154 sample_files) sample_book [].

Lemma sample_reconciliation_runs :
  run (run_morning_reconciliation (H := sample_calendar) 5 738154 sample_files) sample_book =
    Ok (sample_reconciled.1, sample_reconciled.2).
Proof. rewrite <- surjective_pairing. apply run_or_Ok. vm_compute. reflexivity. Qed.

Lemma breaks_are_mismatches_witness :
  mismatches sample_files 738154 sample_book (break_draft <$> sample_reconciled.1) ∧
  reconciliation_breaks sample_reconciled.2 = sample_reconciled.1 ∧
  break_type <$> sample_reconciled.1 = [POSITION_MISMATCH; UNMATCHED_INTERNAL_TRANSACTION].
Proof.
  assert (Ht : break_type <$> sample_reconciled.1 = [POSITION_MISMATCH; UNMATCHED_INTERNAL_TRANSACTION])
    by (vm_compute; reflexivity).
  assert (Hd : is_trading_day (TradingCalendar := sample_calendar) 738154 = true) by (vm_compute; reflexivity).
  pose proof sample_reconciliation_runs as Hr. revert Hr Ht.
  generalize (sample_reconciled.2). generalize (sample_reconciled.1). intros bs d' Hr Ht.
  pose proof (breaks_are_mismatches (H := sample_calendar) 5 738154 sample_files sample_book bs d' Hr) as Hm.
  rewrite Hd in Hm. destruct Hm as (batch & rows & Hm & Hb & _). exact (conj Hm (conj Hb Ht)).
Defined.

(** ** The amount of a snapshot *)

Lemma snapshot_fold d ps amount units security amount' units' security' :
  foldr_result (snapshot_posting d) ps (amount, units, security) = Ok (amount', units', security') →
  quanta amount' = quanta amount + sum_by posting_money ps.
Proof.
  revert amount units security. induction ps as [|p ps IH]; intros amount units security; cbn [foldr_result].
  - intros [= -> _ _]. rewrite sum_by_nil. lia.
  - intros ([[a u] s] & Hp & ->%IH)%bind_Ok. rewrite sum_by_cons. unfold snapshot_posting in Hp.
    apply bind_Ok in Hp as (b & Hb & Hp). assert (b = a) as ->.
    { destruct (posting_quantity_units p); [|by injection Hp as ->]. apply bind_Ok in Hp as (? & _ & [= -> _ _]). done. }
    unfold posting_money at 2. destruct (posting_amount_money p) as [m|]; [|injection Hb as ->; lia].
    apply q_add_Ok in Hb as [_ ->]. lia.
Qed.

(** The snapshot of an entry carries no amount.  [read_internal_transactions]
    adds up all the legs of an entry, and in a ledger in double entry they cancel:
    whatever was deposited, traded or charged, the amount it reports is zero. *)
Theorem snapshot_amount_zero on d l i s :
  ledger_ok d → read_internal_transactions on d = Ok l → (i, s) ∈ l → quanta (snap_amount_money s) = 0.
Proof.
  intros (_ & Hbal & _) Hl Hin. destruct (internal_transactions_Ok _ _ _ Hl) as (_ & _ & Hs).
  destruct (Hs _ _ Hin) as (e & _ & _ & Hsnap). unfold transaction_snapshot in Hsnap. cbn zeta in Hsnap.
  apply bind_Ok in Hsnap as ([[amount units] security] & Hf & [= <-]). cbn [snap_amount_money].
  rewrite (snapshot_fold _ _ _ _ _ _ _ _ Hf). exact (Hbal (entry_id e)).
Qed.

(** A deposit of 50.00 reads as 0.00. *)
Definition sample_snapshot : InternalTransactionSnapshot :=
  {| snap_journal_entry_id := 100; snap_entry_type := DEPOSIT; snap_customer_id := Some 7; snap_security_id := None;
     snap_amount_money := QD 0; snap_quantity := None; snap_effective_date := 738154 |}.

Lemma snapshot_amount_zero_witness :
  read_internal_transactions 738154 sample_posted = Ok [(uuid_str 3, sample_snapshot)] ∧
  quanta (snap_amount_money sample_snapshot) = 0.
Proof.
  assert (Hl : read_internal_transactions 738154 sample_posted = Ok [(uuid_str 3, sample_snapshot)]) by (vm_compute; reflexivity).
  split; [exact Hl|]. apply (snapshot_amount_zero _ _ _ (uuid_str 3) _ (preserves_post _ _ _ _ _ _ _ _ sample_ledger_ok sample_deposit_runs) Hl).
  by left.
Defined.
