(* ===== verification/CustodianSimulator.v ===== *)
(** * The custodian-file simulator ([integrations/fake/custodian_file_adapter.py])

    The adapter the running system calls in place of a custodian: it writes the
    day's files out of the ledger's own state, with the injections queued on it.
    It is checked against the reconciliation: the breaks of a simulated morning
    are the injections, and nothing else. *)

From S2P Require Import Prelude PyDecimal MoneyTypes Dates Calendar Store Schema Ledger CashPolicy Funding Valuation Restatement Lots LotBooks Reconciliation.
From Stdlib Require Import String.
From stdpp Require Import strings.
Open Scope Z_scope.

(** ** The adapter's own state *)

Record Simulator := {
  tampered_positions : list ((uuid * uuid) * Units);
  late_dividends : list CustodianTransactionRow;
}.

Definition fresh_simulator : Simulator := {| tampered_positions := []; late_dividends := [] |}.

Definition inject_tampered_position (customer security : uuid) (wrong_quantity : Units) (s : Simulator) : Simulator :=
  {| tampered_positions := dict_set (customer, security) wrong_quantity (tampered_positions s);
     late_dividends := late_dividends s |}.

Definition clear_injections (s : Simulator) : Simulator := fresh_simulator.

(** [id] is the [uuid4()] drawn for the transaction. *)
Definition inject_late_dividend (id customer security : uuid) (amount : Money) (on : date) (s : Simulator) : Simulator :=
  {| tampered_positions := tampered_positions s;
     late_dividends := late_dividends s ++
       [{| tx_custodian_transaction_id := "simulated-dividend:" +:+ uuid_str id; tx_customer_id := Some customer;
           tx_security_id := Some security; tx_transaction_type := TX_DIVIDEND; tx_amount_money := amount;
           tx_quantity := None; tx_effective_date := on |}] |}.

(** ** Generating the files *)

(** [_ENTRY_TYPE_TO_CUSTODIAN_TRANSACTION_TYPE] *)
Definition custodian_transaction_type (t : JournalEntryType) : result CustodianTransactionType :=
  match t with
  | TRADE_BUY | TRADE_SELL => Ok TX_TRADE
  | DEPOSIT => Ok TX_DEPOSIT
  | WITHDRAWAL => Ok TX_WITHDRAWAL
  | DIVIDEND => Ok TX_DIVIDEND
  | FEE_ADJUSTMENT => Ok TX_FEE
  | _ => Raise KeyError
  end.

Definition position_row (on : date) (k : uuid * uuid) (quantity : Units) : CustodianPositionRow :=
  {| position_customer_id := k.1; position_security_id := k.2; position_quantity := quantity; position_as_of_date := on |}.

(** The dictionary [rows] of [_generate_positions]. *)
Definition position_rows (sim : Simulator) (on : date) (internal : list ((uuid * uuid) * Units))
    : list ((uuid * uuid) * CustodianPositionRow) :=
  foldl (λ rows x, dict_set x.1 (position_row on x.1 x.2) rows)
    ((λ x, (x.1, position_row on x.1 x.2)) <$> internal) (tampered_positions sim).

Definition generate_positions (sim : Simulator) (on : date) (d : db) : result (list CustodianPositionRow) :=
  internal ← read_internal_positions on d;
  Ok (position_rows sim on internal).*2.

Definition generate_cash (on : date) (d : db) : result (list CustodianCashRow) :=
  map_result (λ c, cash ← settled_cash c d;
    Ok {| cash_customer_id := c; cash_settled_cash := cash; cash_as_of_date := on |}) (read_customer_ids d).

Definition generate_transaction (x : string * InternalTransactionSnapshot) : result CustodianTransactionRow :=
  type ← custodian_transaction_type (snap_entry_type x.2);
  Ok {| tx_custodian_transaction_id := x.1; tx_customer_id := snap_customer_id x.2; tx_security_id := snap_security_id x.2;
        tx_transaction_type := type; tx_amount_money := snap_amount_money x.2; tx_quantity := snap_quantity x.2;
        tx_effective_date := snap_effective_date x.2 |}.

Definition generate_transactions (on : date) (d : db) : result (list CustodianTransactionRow) :=
  internal ← read_internal_transactions on d;
  map_result generate_transaction internal.

Definition fetch_files (sim : Simulator) (on : date) (d : db) : result CustodianFileSet :=
  positions ← generate_positions sim on d;
  cash ← generate_cash on d;
  transactions ← generate_transactions on d;
  Ok {| file_positions := positions; file_cash := cash; file_transactions := transactions ++ late_dividends sim;
        file_is_simulated := true |}.

(** [MorningReconciliationJob.perform], the simulator standing as its file port;
    the push of each break after the commit leaves the store alone. *)
Definition morning_reconciliation `{TradingCalendar} (sim : Simulator) (now : instant) (on : date)
    : prog (list ReconciliationBreak) :=
  file_set ← queries (fetch_files sim on);
  run_morning_reconciliation now on file_set.

(** [inject_corrected_price] *)
Definition inject_corrected_price (now : instant) (security : uuid) (on : date) (new_close : Price) : prog () :=
  event ← record_inbound_event MARKETDATA "simulated-corrected-close"
    [("security_id", JStr (uuid_str security)); ("market_date", JStr (date_str on));
     ("new_close", JStr (q_str new_close))]%string;
  id ← uuid4;
  add TDailyClose {| close_id := id; close_security_id := security; close_market_date := on; close_price := new_close;
                     close_source := SIMULATED; close_status := CONFIRMED; close_recorded_at := now |} ;;
  holders ← gets (λ d, list_customers_holding d security);
  for_each holders (λ customer, restate None customer on CORRECTED_CLOSE (event_id event) ;; mret tt).

(** ** Lemmas *)

(** The table of transaction types is in step with the observable entries. *)
Lemma observable_types_mapped t : t ∈ CUSTODIAN_OBSERVABLE_ENTRY_TYPES ↔ is_ok (custodian_transaction_type t) = true.
Proof. unfold CUSTODIAN_OBSERVABLE_ENTRY_TYPES. destruct t; cbn; set_solver. Qed.

Lemma dict_set_nodup {K V} `{EqDecision K} (k : K) (v : V) l : NoDup l.*1 → NoDup (dict_set k v l).*1.
Proof.
  intros Hnd. rewrite dict_set_keys. case_bool_decide; [done|]. apply NoDup_app. split_and!; [done| |apply NoDup_singleton].
  intros x Hx ->%list_elem_of_singleton. done.
Qed.

Lemma inject_nodup c s q sim :
  NoDup (tampered_positions sim).*1 → NoDup (tampered_positions (inject_tampered_position c s q sim)).*1.
Proof. apply dict_set_nodup. Qed.

Lemma position_rows_get sim on internal k :
  NoDup (tampered_positions sim).*1 →
  dict_get k (position_rows sim on internal) =
    match dict_get k (tampered_positions sim) with
    | Some q => Some (position_row on k q)
    | None => position_row on k <$> dict_get k internal
    end.
Proof.
  unfold position_rows. intros Hnd. induction (tampered_positions sim) as [|[a q] l IH] using rev_ind.
  - cbn. unfold dict_get. clear. induction internal as [|[b u] l IH]; [done|].
    rewrite fmap_cons, !filter_cons. cbn [fst snd]. destruct (decide (b = k)) as [->|]; [done|exact IH].
  - rewrite foldl_app. cbn [foldl fst snd]. rewrite dict_get_set. rewrite fmap_app in Hnd. apply NoDup_app in Hnd as (Hnd & Hd & _).
    rewrite IH by done. unfold dict_get at 3. rewrite filter_app, filter_cons, filter_nil. cbn [fst].
    destruct (decide (a = k)) as [->|Hne].
    + rewrite decide_True by done. rewrite (filter_none _ l); [done|]. intros [b u] Hb E. cbn in E. subst b.
      apply (Hd k); [|set_solver]. apply list_elem_of_fmap. by exists (k, u).
    + rewrite decide_False by congruence. by rewrite app_nil_r.
Qed.

Lemma position_rows_keys sim on internal :
  NoDup internal.*1 →
  NoDup (position_rows sim on internal).*1 ∧ ∀ k r, (k, r) ∈ position_rows sim on internal → (position_customer_id r, position_security_id r) = k.
Proof.
  unfold position_rows. intros Hnd. induction (tampered_positions sim) as [|[a q] l [IH1 IH2]] using rev_ind.
  - cbn. split; [by rewrite <- list_fmap_compose|]. intros k r ([[c s] u] & [= -> ->] & _)%list_elem_of_fmap. done.
  - rewrite foldl_app. cbn [foldl fst snd]. split; [by apply dict_set_nodup|].
    intros k r. unfold dict_set. case_bool_decide.
    + intros ([b x] & E & Hin)%list_elem_of_fmap. cbn in E. case_bool_decide; [injection E as -> ->; by destruct a|].
      injection E as -> ->. by apply IH2.
    + intros [Hin|[= -> ->]%list_elem_of_singleton]%elem_of_app; [by apply IH2|by destruct a].
Qed.

(** A table keyed by its own rows is read back by key. *)
Lemma last_by_key {K V} `{EqDecision K} (key : V → K) (rows : list (K * V)) k :
  NoDup rows.*1 → (∀ a r, (a, r) ∈ rows → key r = a) → last (filter (λ r, key r = k) rows.*2) = dict_get k rows.
Proof.
  induction rows as [|[a r] rows IH]; [done|]. rewrite fmap_cons, NoDup_cons. cbn [fst]. intros [Ha Hnd] Hkey.
  rewrite fmap_cons, filter_cons. cbn [snd]. unfold dict_get. rewrite filter_cons. cbn [fst].
  rewrite (Hkey a r) by set_solver. destruct (decide (a = k)) as [->|Hne]; [|apply IH; [done|set_solver]].
  cbn. rewrite filter_none; [done|]. intros x (p & -> & Hx)%list_elem_of_fmap E. destruct p as [b y]. cbn in E.
  rewrite (Hkey b y) in E by set_solver. subst b. apply Ha, list_elem_of_fmap. by exists (k, y).
Qed.

(** ** A simulated morning *)

(** What the simulated position file says of a key. *)
Lemma simulated_units sim on d l files k :
  NoDup (tampered_positions sim).*1 → read_internal_positions on d = Ok l →
  file_positions files = (position_rows sim on l).*2 →
  file_units files k = from_option quanta (internal_units d on k) (dict_get k (tampered_positions sim)).
Proof.
  intros Hnd Hl Hf. destruct (read_internal_positions_Ok _ _ _ k Hl) as (Hq & Hndl & _).
  destruct (position_rows_keys sim on l Hndl) as [Hk1 Hk2]. unfold file_units. rewrite Hf.
  rewrite (last_by_key (λ r, (position_customer_id r, position_security_id r)) _ k Hk1 Hk2), position_rows_get by done.
  destruct (dict_get k (tampered_positions sim)); [done|]. rewrite <- Hq. by destruct (dict_get k l).
Qed.

(** The simulated cash is the ledger's. *)
Lemma simulated_cash on d rows c :
  generate_cash on d = Ok rows →
  (cash_customer_id <$> rows) = read_customer_ids d ∧ (∀ r, r ∈ rows → quanta (cash_settled_cash r) = settled_quanta (cash_customer_id r) d) ∧
  (c ∈ customer_id <$> customers d → from_option (λ r, quanta (cash_settled_cash r)) 0
     (last (filter (λ r, cash_customer_id r = c) rows)) = settled_quanta c d).
Proof.
  intros H%map_result_Forall2.
  assert (Hk : (cash_customer_id <$> rows) = read_customer_ids d).
  { induction H as [|x r xs rows Hr _ IH]; [done|]. apply bind_Ok in Hr as (m & _ & [= <-]). by rewrite fmap_cons, IH. }
  assert (Hv : ∀ r, r ∈ rows → quanta (cash_settled_cash r) = settled_quanta (cash_customer_id r) d).
  { intros r (i & Hi)%list_elem_of_lookup. destruct (Forall2_lookup_r _ _ _ _ _ H Hi) as (x & _ & Hr).
    apply bind_Ok in Hr as (m & Hm%settled_cash_Ok & [= <-]). exact Hm. }
  split_and!; [done|done|]. intros Hc. destruct (last _) as [r|] eqn:El.
  - apply last_Some_elem_of, list_elem_of_filter in El as [<- Hin]. by apply Hv.
  - apply last_None in El. assert (Hc' : c ∈ cash_customer_id <$> rows).
    { rewrite Hk. unfold read_customer_ids. by rewrite elem_of_remove_dups. }
    apply list_elem_of_fmap in Hc' as (r & -> & Hr).
    assert (Hin : r ∈ filter (λ r', cash_customer_id r' = cash_customer_id r) rows) by by apply list_elem_of_filter.
    rewrite El in Hin. by apply not_elem_of_nil in Hin.
Qed.

Lemma generated_ids l rows :
  map_result generate_transaction l = Ok rows → (tx_custodian_transaction_id <$> rows) = l.*1.
Proof.
  intros H%map_result_Forall2. induction H as [|x r xs rows Hr _ IH]; [done|].
  apply bind_Ok in Hr as (t & _ & [= <-]). by rewrite !fmap_cons, IH.
Qed.

Lemma fetch_files_Ok sim on d files :
  fetch_files sim on d = Ok files →
  ∃ l rows, read_internal_positions on d = Ok l ∧ file_positions files = (position_rows sim on l).*2 ∧
    generate_cash on d = Ok (file_cash files) ∧
    (∃ txs, read_internal_transactions on d = Ok txs ∧ map_result generate_transaction txs = Ok rows) ∧
    file_transactions files = rows ++ late_dividends sim.
Proof.
  unfold fetch_files, generate_positions, generate_transactions.
  intros (p & (l & Hl & [= <-])%bind_Ok & (c & Hc & (rows & (txs & Htxs & Hrows)%bind_Ok & [= <-])%bind_Ok)%bind_Ok)%bind_Ok.
  exists l, rows. split_and!; try done. by exists txs.
Qed.

(** Reconciling a fetched file does not raise. *)
Lemma match_fetched sim on d files : fetch_files sim on d = Ok files → is_ok (match_all files on d) = true.
Proof.
  intros (l & rows & Hl & _ & Hc & (txs & Htxs & _) & _)%fetch_files_Ok.
  unfold match_all, match_positions. rewrite Hl. cbn [mbind result_bind].
  unfold match_transactions. rewrite Htxs. cbn [mbind result_bind].
  assert (Hcash : is_ok (match_cash files d) = true); [|by destruct (match_cash files d)].
  destruct (simulated_cash _ _ _ 0 Hc) as (Hk & _ & _).
  unfold match_cash. cbn zeta. set (cs := remove_dups _).
  assert (Hall : ∀ c, c ∈ cs → is_ok (settled_cash c d) = true).
  { intros c. unfold cs. rewrite elem_of_remove_dups, elem_of_app.
    destruct (dict_of_keys ((λ r, (cash_customer_id r, cash_settled_cash r)) <$> file_cash files)) as [_ Hk'].
    unfold cash_from_file. rewrite Hk', <- list_fmap_compose. change (compose fst _) with cash_customer_id. rewrite Hk.
    intros Hin. assert (Hin' : c ∈ read_customer_ids d) by tauto. apply list_elem_of_lookup in Hin' as (i & Hi).
    apply map_result_Forall2 in Hc. destruct (Forall2_lookup_l _ _ _ _ _ Hc Hi) as (r & _ & Hr).
    apply bind_Ok in Hr as (m & -> & _). done. }
  clearbody cs. assert (H : is_ok (map_result (match_cash_of (cash_from_file files) d) cs) = true).
  { induction cs as [|c cs IH]; [done|]. cbn [map_result].
    assert (H1 : is_ok (match_cash_of (cash_from_file files) d c) = true).
    { unfold match_cash_of. pose proof (Hall c ltac:(set_solver)) as Hm. by destruct (settled_cash c d). }
    assert (H2 : is_ok (map_result (match_cash_of (cash_from_file files) d) cs) = true) by (apply IH; intros x Hx; apply Hall; set_solver).
    destruct (match_cash_of _ d c); [|done]. by destruct (map_result _ cs). }
  by destruct (map_result _ cs).
Qed.

(** A simulated morning opens the injections, and only them.  Reconciling the
    files the simulator generates from the ledger never raises, and the breaks are
    the tampered positions whose injected quantity is not the one held, and the
    late dividends under an id the ledger has no event for: no cash break and no
    unmatched internal transaction, and none at all when nothing is injected. *)
Theorem simulated_breaks sim on d files :
  NoDup (tampered_positions sim).*1 → fetch_files sim on d = Ok files →
  ∃ wrong late,
    match_all files on d =
      Ok (((λ x, position_draft x.1.1 x.1.2 (QD (internal_units d on x.1)) x.2) <$> wrong) ++
          ((λ x, Draft UNMATCHED_CUSTODIAN_TRANSACTION (tx_customer_id x.2) None (Some (serialize_transaction_row x.2))) <$> late)) ∧
    (NoDup wrong ∧ ∀ k q, (k, q) ∈ wrong ↔ dict_get k (tampered_positions sim) = Some q ∧ quanta q ≠ internal_units d on k) ∧
    (NoDup late.*1 ∧
     (∀ i, i ∈ late.*1 ↔ i ∈ tx_custodian_transaction_id <$> late_dividends sim ∧ i ∉ internal_ids d on) ∧
     ∀ i r, (i, r) ∈ late → r ∈ late_dividends sim ∧ tx_custodian_transaction_id r = i).
Proof.
  intros Hnd Hfetch. pose proof (match_fetched _ _ _ _ Hfetch) as Hok.
  destruct (match_all files on d) as [ds|] eqn:Hm; [clear Hok|done]. apply match_all_Ok in Hm.
  destruct Hm as (ks & cs & late & inner & -> & [Hk1 Hk2] & [_ Hc] & (Hl1 & Hl2 & Hl3) & (_ & Hi & _)).
  apply fetch_files_Ok in Hfetch as (l & rows & Hl & Hfp & Hfc & (txs & Htxs & Hrows) & Hft).
  pose proof (λ k, simulated_units sim on d l files k Hnd Hl Hfp) as Hunits.
  assert (Hids : ∀ i, i ∈ tx_custodian_transaction_id <$> rows ↔ i ∈ internal_ids d on).
  { intros i. rewrite (generated_ids _ _ Hrows). apply (internal_transactions_Ok _ _ _ Htxs). }
  assert (cs = []) as ->.
  { apply elem_of_nil_inv. intros c [Hin Hne]%Hc. destruct (simulated_cash _ _ _ c Hfc) as (Hkeys & _ & Heq).
    apply Hne. symmetry. apply Heq. destruct Hin as [|Hin]; [done|]. rewrite Hkeys in Hin. exact (proj1 (elem_of_remove_dups _ _) Hin). }
  assert (inner = []) as ->.
  { apply (fmap_nil_inv fst), elem_of_nil_inv. intros i [Hin Hni]%Hi. apply Hni. rewrite Hft, fmap_app. apply elem_of_app.
    left. by apply Hids. }
  exists ((λ k, (k, QD (file_units files k))) <$> ks), late. split_and!.
  - rewrite app_nil_r, <- list_fmap_compose. done.
  - apply NoDup_fmap_2; [|done]. by intros x y [= ->].
  - intros k q. rewrite list_elem_of_fmap. split.
    + intros (k' & [= -> ->] & Hin%Hk2). rewrite (Hunits k') in Hin |- *.
      destruct (dict_get k' _) as [q|]; [|done]. cbn in Hin. split; [by destruct q|done].
    + intros [E Hne]. exists k. rewrite Hunits, E. cbn. split; [by destruct q|]. apply Hk2. rewrite Hunits, E. done.
  - done.
  - intros i. rewrite Hl2, Hft, fmap_app, elem_of_app, Hids. tauto.
  - intros i r Hin. destruct (Hl3 _ _ Hin) as [Hr E]. split; [|done]. rewrite Hft in Hr.
    apply elem_of_app in Hr as [Hr|]; [exfalso|done].
    assert (Hi' : i ∈ late.*1) by (apply list_elem_of_fmap; by exists (i, r)). apply Hl2 in Hi' as [_ Hni]. apply Hni, Hids.
    apply list_elem_of_fmap. by exists r.
Qed.

(** Customer 7's 10 units read 9 in the tampered file, and a dividend comes late. *)
Definition sample_simulator : Simulator :=
  inject_late_dividend 42 7 900 (QD 12500) 738154 (inject_tampered_position 7 900 (QD 9000000) fresh_simulator).

Lemma simulated_breaks_witness :
  ∃ files ds, fetch_files sample_simulator 738154 sample_book = Ok files ∧ match_all files 738154 sample_book = Ok ds ∧
    length (filter (λ x, draft_type x = POSITION_MISMATCH ∨ draft_type x = UNMATCHED_CUSTODIAN_TRANSACTION) ds) = length ds.
Proof.
  assert (Hok : is_ok (fetch_files sample_simulator 738154 sample_book) = true) by (vm_compute; reflexivity).
  destruct (fetch_files sample_simulator 738154 sample_book) as [files|] eqn:E; [clear Hok|discriminate Hok].
  destruct (simulated_breaks sample_simulator 738154 sample_book files ltac:(apply inject_nodup; constructor) E) as (wrong & late & Hm & _).
  exists files. eexists. split; [exact eq_refl|]. split; [exact Hm|]. clear. rewrite filter_all; [done|].
  intros x [Hx|Hx]%elem_of_app; apply list_elem_of_fmap in Hx as (y & -> & _); [left|right]; exact eq_refl.
Defined.
