(* ===== verification/Rebalance.v ===== *)
(** * Drift and rebalancing ([services/rebalance], [models/rebalance])

    A customer's holdings measured against the target weights of their model,
    the orders that bring them back (sells first, then buys within the cash
    left after the buffer), the holdings page built on the same evaluation, and
    the monthly job.  The order generator is written against two interfaces,
    the placer of orders and the provider of investable cash, which the order
    service and the cash policy implement. *)

From S2P Require Import Prelude PyDecimal MoneyTypes Dates Calendar Store Schema Ledger CashPolicy Funding Valuation Restatement Lots LotBooks Operations OrderEvents Orders OrderBooks OrderCash.
From Stdlib Require Import String.
From stdpp Require Import strings.
Open Scope Z_scope.

(** ** Models and assignments *)

Definition model_by_id (d : db) (id : uuid) : option ModelPortfolio :=
  head (filter (λ m, model_id m = id) (model_portfolios d)).

Definition model_by_name (d : db) (name : string) : option ModelPortfolio :=
  head (filter (λ m, model_name m = name) (model_portfolios d)).

(** [list_for_model] *)
Definition list_for_model (d : db) (model : uuid) : list TargetWeight :=
  filter (λ w, weight_model_portfolio_id w = model) (target_weights d).

Definition assignment_by_customer (d : db) (customer : uuid) : option CustomerModelAssignment :=
  head (filter (λ a, assignment_customer_id a = customer) (customer_model_assignments d)).

Definition set_assignment (model : uuid) (at_ : date) (a : CustomerModelAssignment) : CustomerModelAssignment :=
  {| assignment_customer_id := assignment_customer_id a; assignment_model_portfolio_id := model;
     assignment_assigned_at := at_ |}.

(** [CustomerModelAssignmentRepository.upsert] *)
Definition upsert_assignment (a : CustomerModelAssignment) : prog CustomerModelAssignment :=
  existing ← gets (λ d, assignment_by_customer d (assignment_customer_id a));
  match existing with
  | None => add TModelAssignment a ;; mret a
  | Some e =>
      update TModelAssignment (λ x : CustomerModelAssignment, assignment_customer_id x =? assignment_customer_id e)
        (set_assignment (assignment_model_portfolio_id a) (assignment_assigned_at a)) ;;
      mret (set_assignment (assignment_model_portfolio_id a) (assignment_assigned_at a) e)
  end.

(** ** Evaluating drift ([DriftEvaluationService]) *)

Inductive Direction := DIRECTION_BUY | DIRECTION_SELL.
#[export] Instance Direction_eq_dec : EqDecision Direction.
Proof. solve_decision. Defined.

Record DriftEntry := {
  drift_security_id : option uuid;
  drift_current_market_value : Money;
  drift_target_market_value : Money;
  drift_current_weight_pct : dec;
  drift_target_weight_pct : dec;
  drift_price : option Price;
  drift_is_flagged : bool;
  drift_direction : Direction;
}.

Record DriftEvaluation := {
  evaluation_customer_id : uuid;
  evaluation_model_portfolio_id : uuid;
  evaluation_as_of_date : date;
  evaluation_completeness : Completeness;
  evaluation_total_value : Money;
  evaluation_entries : list DriftEntry;
}.

(** [flagged] *)
Definition flagged (e : DriftEvaluation) : list DriftEntry := filter (λ x, drift_is_flagged x = true) (evaluation_entries e).

(** [is_out_of_band] *)
Definition is_out_of_band (current_weight_pct target_weight_pct drift_band_pct : dec) : result bool :=
  if dec_eqb target_weight_pct (dec_of_Z 0) then Ok (negb (dec_eqb current_weight_pct (dec_of_Z 0)))
  else
    relative_drift ← dec_div (dec_sub current_weight_pct target_weight_pct) target_weight_pct;
    Ok (dec_ltb drift_band_pct (dec_abs relative_drift)).

(** [_build_entry] *)
Definition build_entry (band : dec) (security : option uuid) (current_value : Money) (target_weight_pct : dec)
    (total : Money) (price : option Price) : result DriftEntry :=
  target_value ← scale_by total target_weight_pct;
  current_weight_pct ← ratio current_value total;
  is_flagged ← is_out_of_band current_weight_pct target_weight_pct band;
  Ok {| drift_security_id := security; drift_current_market_value := current_value;
        drift_target_market_value := target_value; drift_current_weight_pct := current_weight_pct;
        drift_target_weight_pct := target_weight_pct; drift_price := price; drift_is_flagged := is_flagged;
        drift_direction := if q_ltb target_value current_value then DIRECTION_SELL else DIRECTION_BUY |}.

(** The two loops over securities: [None] when a close is missing. *)
Fixpoint build_entries (band : dec) (total : Money) (on : date) (d : db) (l : list (uuid * Units * dec))
    : result (option (list DriftEntry)) :=
  match l with
  | [] => Ok (Some [])
  | (security, units_held, weight) :: l =>
      match latest_confirmed d security on with
      | None => Ok None
      | Some close =>
          current_value ← units_times_price units_held (close_price close);
          entry ← build_entry band (Some security) current_value weight total (Some (close_price close));
          rest ← build_entries band total on d l;
          Ok (option_map (cons entry) rest)
      end
  end.

(** [weight_pct] as the [Decimal] the column holds. *)
Definition weight_dec (w : TargetWeight) : dec := Dec (weight_pct w) (-4).

(** [current_units.get(security, Units("0"))] *)
Definition units_of (current_units : list (uuid * Units)) (security : uuid) : Units :=
  default zero (snd <$> head (filter (λ r, r.1 = security) current_units)).

(** What the first loop and the second loop go through. *)
Definition targeted (targets : list TargetWeight) (current_units : list (uuid * Units)) : list (uuid * Units * dec) :=
  (λ w, (weight_security_id w, units_of current_units (weight_security_id w), weight_dec w)) <$> targets.

Definition dropped (targets : list TargetWeight) (current_units : list (uuid * Units)) : list (uuid * Units * dec) :=
  (λ r, (r.1, r.2, dec_of_Z 0)) <$> filter (λ r, r.1 ∉ weight_security_id <$> targets) current_units.

(** [accounted_target_pct] *)
Definition accounted_target_pct (targets : list TargetWeight) : dec :=
  foldl (λ acc w, dec_add acc (weight_dec w)) (dec_of_Z 0) targets.

(** [evaluate] *)
Definition evaluate (drift_band_pct : dec) (customer : uuid) (on : date) (d : db) : result DriftEvaluation :=
  match assignment_by_customer d customer with
  | None => Raise NoAssignedModelError
  | Some assignment =>
      let model := assignment_model_portfolio_id assignment in
      book ← value_book customer on d;
      let evaluation c entries :=
        {| evaluation_customer_id := customer; evaluation_model_portfolio_id := model; evaluation_as_of_date := on;
           evaluation_completeness := c; evaluation_total_value := total_value book; evaluation_entries := entries |} in
      if negb (bool_decide (completeness book = Complete)) || q_eqb (total_value book) zero
      then Ok (evaluation (completeness book) [])
      else
        let targets := list_for_model d model in
        current_units ← position_units customer on d;
        cash_balance ← cash_balance_as_of customer on d;
        in_model ← build_entries drift_band_pct (total_value book) on d (targeted targets current_units);
        match in_model with
        | None => Ok (evaluation Partial [])
        | Some in_model =>
            out_of_model ← build_entries drift_band_pct (total_value book) on d (dropped targets current_units);
            match out_of_model with
            | None => Ok (evaluation Partial [])
            | Some out_of_model =>
                cash ← build_entry drift_band_pct None cash_balance
                         (dec_sub (dec_of_Z 1) (accounted_target_pct targets)) (total_value book) None;
                Ok (evaluation Complete (in_model ++ out_of_model ++ [cash]))
            end
        end
  end.

(** ** The holdings page ([PortfolioHoldingsService]) *)

Record HoldingLine := {
  line_security_id : option uuid; line_units : option Units; line_price : option Price; line_market_value : Money;
  line_current_weight_pct : dec; line_target_weight_pct : dec; line_drift_pct : dec; line_is_flagged : bool }.

(** [_to_line] *)
Definition to_line (e : DriftEntry) : result HoldingLine :=
  units ← match drift_price e with
          | Some p => u ← money_div_price (drift_current_market_value e) p; Ok (Some u)
          | None => Ok None
          end;
  Ok {| line_security_id := drift_security_id e; line_units := units; line_price := drift_price e;
        line_market_value := drift_current_market_value e; line_current_weight_pct := drift_current_weight_pct e;
        line_target_weight_pct := drift_target_weight_pct e;
        line_drift_pct := dec_sub (drift_current_weight_pct e) (drift_target_weight_pct e);
        line_is_flagged := drift_is_flagged e |}.

Record PortfolioHoldings := {
  holdings_customer_id : uuid; holdings_as_of_date : date; holdings_completeness : Completeness;
  holdings_total_value : Money; holdings_lines : list HoldingLine }.

Definition holdings (drift_band_pct : dec) (customer : uuid) (on : date) (d : db) : result PortfolioHoldings :=
  evaluation ← evaluate drift_band_pct customer on d;
  lines ← map_result to_line (evaluation_entries evaluation);
  Ok {| holdings_customer_id := evaluation_customer_id evaluation; holdings_as_of_date := evaluation_as_of_date evaluation;
        holdings_completeness := evaluation_completeness evaluation; holdings_total_value := evaluation_total_value evaluation;
        holdings_lines := lines |}.

(** ** Generating orders ([RebalanceOrderService]) *)

Class OrderPlacer := {
  place : uuid → uuid → OrderSide → Units → Price → prog Order;
}.

Class InvestableCashProvider := {
  investable_cash : uuid → db → result Money;
}.

(** [_quantity_for] *)
Definition quantity_for (notional : Money) (price : Price) : result Units := money_div_price notional price.

Section Generator.
Context `{OrderPlacer} `{InvestableCashProvider}.

(** [_place_sell] *)
Definition place_sell (customer : uuid) (entry : DriftEntry) : prog Order :=
  match drift_security_id entry, drift_price entry with
  | Some security, Some price =>
      notional ← lift (q_sub (drift_current_market_value entry) (drift_target_market_value entry));
      quantity ← lift (quantity_for notional price);
      place customer security SELL quantity price
  | _, _ => throw AssertionError
  end.

(** [_place_buy] *)
Definition place_buy (customer : uuid) (entry : DriftEntry) (notional : Money) : prog (option Order) :=
  match drift_security_id entry, drift_price entry with
  | Some security, Some price =>
      if q_leb notional zero then mret None
      else
        quantity ← lift (quantity_for notional price);
        if q_eqb quantity zero then mret None
        else
          order ← place customer security BUY quantity price;
          mret (Some order)
  | _, _ => throw AssertionError
  end.

(** The loop over the buys. *)
Fixpoint place_buys (customer : uuid) (remaining : Money) (entries : list DriftEntry) : prog (list Order) :=
  match entries with
  | [] => mret []
  | entry :: entries =>
      if q_leb remaining zero then mret []
      else
        buy_notional ← lift (q_sub (drift_target_market_value entry) (drift_current_market_value entry));
        let capped_notional := if q_ltb buy_notional remaining then buy_notional else remaining in
        placed ← place_buy customer entry capped_notional;
        match placed with
        | None => place_buys customer remaining entries
        | Some order =>
            remaining ← lift (q_sub remaining capped_notional);
            orders ← place_buys customer remaining entries;
            mret (order :: orders)
        end
  end.

Definition security_flags (e : DriftEvaluation) : list DriftEntry := filter (λ x, drift_security_id x ≠ None) (flagged e).
Definition sell_entries (e : DriftEvaluation) : list DriftEntry :=
  filter (λ x, drift_direction x = DIRECTION_SELL) (security_flags e).
Definition buy_entries (e : DriftEvaluation) : list DriftEntry :=
  filter (λ x, drift_direction x = DIRECTION_BUY) (security_flags e).

(** [generate_orders] *)
Definition generate_orders (cash_buffer_pct : dec) (e : DriftEvaluation) : prog (list Order) :=
  if bool_decide (security_flags e = []) then mret []
  else
    sells ← map_prog (place_sell (evaluation_customer_id e)) (sell_entries e);
    if bool_decide (buy_entries e = []) then mret sells
    else
      buffer ← lift (scale_by (evaluation_total_value e) cash_buffer_pct);
      cash ← queries (investable_cash (evaluation_customer_id e));
      available ← lift (q_sub cash buffer);
      if q_leb available zero then mret sells
      else
        buys ← place_buys (evaluation_customer_id e) available (buy_entries e);
        mret (sells ++ buys).
End Generator.

(** [real_order_placer] over [OrderService] *)
Definition real_order_placer (approval_threshold_usd : Money) : OrderPlacer := {|
  place := λ customer security side quantity reference_price,
    order ← create_order approval_threshold_usd
      {| request_customer_id := customer; request_security_id := security; request_side := side;
         request_quantity := quantity; request_reference_price := reference_price |};
    (if bool_decide (order_status order = APPROVED) then enqueue_submission order else mret tt) ;;
    mret order
|}.

Definition cash_policy_provider : InvestableCashProvider := {| investable_cash := investable |}.

(** ** The monthly job ([MonthlyRebalanceJob]) *)

Record RebalanceSettings := {
  setting_drift_band_pct : dec; setting_cash_buffer_pct : dec; setting_approval_threshold : Money }.

Definition not_eligible (e : exn) : bool := match e with CustomerNotEligibleError _ => true | _ => false end.

(** The body of the loop: a customer who is not eligible is skipped. *)
Definition rebalance_customer (s : RebalanceSettings) (on : date) (customer : uuid) : prog () :=
  catching not_eligible
    (evaluation ← queries (evaluate (setting_drift_band_pct s) customer on);
     generate_orders (H := real_order_placer (setting_approval_threshold s)) (H0 := cash_policy_provider)
       (setting_cash_buffer_pct s) evaluation) ;;
  mret tt.

Definition monthly_rebalance (s : RebalanceSettings) (on : date) : prog () :=
  assignments ← gets customer_model_assignments;
  for_each assignments (λ a, rebalance_customer s on (assignment_customer_id a)).

(** ** Lemmas: evaluation *)

(** Sums of a figure over two lists of distinct keys that agree where it is not zero. *)
Lemma sum_by_support {A} `{EqDecision A} (f : A → Z) (l k : list A) :
  NoDup l → NoDup k → (∀ x, f x ≠ 0 → x ∈ l ↔ x ∈ k) → sum_by f l = sum_by f k.
Proof.
  intros Hl Hk Hin. assert (Hnz : ∀ m, sum_by f m = sum_by f (filter (λ x, f x ≠ 0) m)).
  { induction m as [|x m IH]; [done|]. rewrite filter_cons, sum_by_cons. case_decide as Hx; [by rewrite sum_by_cons, IH|].
    assert (f x = 0) as -> by (destruct (Z.eq_dec (f x) 0); tauto). exact IH. }
  rewrite (Hnz l), (Hnz k). apply sum_by_perm, NoDup_Permutation; [by apply NoDup_filter..|].
  intros x. rewrite !list_elem_of_filter. specialize (Hin x). tauto.
Qed.

(** How an entry is assessed: its weight in the book, its target value, and the flag. *)
Record assessed (band : dec) (total : Money) (e : DriftEntry) : Prop := {
  assessed_target : scale_by total (drift_target_weight_pct e) = Ok (drift_target_market_value e);
  assessed_weight : ratio (drift_current_market_value e) total = Ok (drift_current_weight_pct e);
  assessed_flag : is_out_of_band (drift_current_weight_pct e) (drift_target_weight_pct e) band = Ok (drift_is_flagged e);
  assessed_direction : drift_direction e = DIRECTION_SELL ↔ quanta (drift_target_market_value e) < quanta (drift_current_market_value e);
}.

Lemma build_entry_Ok band s v w total p e :
  build_entry band s v w total p = Ok e →
  drift_security_id e = s ∧ drift_current_market_value e = v ∧ drift_target_weight_pct e = w ∧ drift_price e = p ∧
  assessed band total e.
Proof.
  intros (t & Ht & (c & Hc & (f & Hf & [= <-])%bind_Ok)%bind_Ok)%bind_Ok. split_and!; try done. constructor; try done.
  cbn [drift_direction drift_target_market_value drift_current_market_value]. unfold q_ltb.
  destruct (Z.ltb_spec (quanta t) (quanta v)); split; try done; lia.
Qed.

(** The entry of one security: priced at its latest confirmed close. *)
Definition entry_of (band : dec) (total : Money) (on : date) (d : db) (x : uuid * Units * dec) (e : DriftEntry) : Prop :=
  drift_security_id e = Some x.1.1 ∧ drift_target_weight_pct e = x.2 ∧
  (∃ close, latest_confirmed d x.1.1 on = Some close ∧ drift_price e = Some (close_price close)) ∧
  quanta (drift_current_market_value e) = worth d on x.1 ∧ assessed band total e.

Lemma build_entries_Ok band total on d l es :
  build_entries band total on d l = Ok (Some es) → Forall2 (entry_of band total on d) l es.
Proof.
  revert es. induction l as [|[[s u] w] l IH]; intros es; cbn [build_entries]; [by intros [= <-]|].
  destruct (latest_confirmed d s on) as [close|] eqn:Ec; [|done].
  intros (v & Hv & (e & He & (rest & Hr & Hes)%bind_Ok)%bind_Ok)%bind_Ok.
  destruct rest as [rest|]; [|done]. injection Hes as <-. constructor; [|by apply IH].
  destruct (build_entry_Ok _ _ _ _ _ _ _ He) as (H1 & H2 & H3 & H4 & H5).
  split_and!; [done|done|by exists close| |done]. rewrite H2. unfold worth. cbn [fst snd].
  apply units_times_price_Ok in Hv as [_ ->]. destruct (Z.eqb_spec (quanta u) 0) as [E|]; [|by rewrite Ec].
  by rewrite E, Z.mul_0_r.
Qed.

Lemma weights_NoDup model (l : list TargetWeight) :
  conflict_free (H := trueup) TTargetWeight l = true → (∀ w, w ∈ l → weight_model_portfolio_id w = model) →
  NoDup (weight_security_id <$> l).
Proof.
  induction l as [|w l IH]; intros Hc Hm; [constructor|]. cbn [conflict_free] in Hc. apply andb_true_iff in Hc as [H1 H2].
  rewrite fmap_cons. constructor; [|apply IH; [done|set_solver]]. intros (x & E & Hx)%list_elem_of_fmap.
  rewrite forallb_forall in H1. specialize (H1 x (proj1 (list_elem_of_In _ _) Hx)). cbn in H1.
  rewrite (Hm w), (Hm x), E, !Z.eqb_refl, orb_true_r in H1 by set_solver. done.
Qed.

Lemma list_for_model_NoDup d model : integrity d → NoDup (weight_security_id <$> list_for_model d model).
Proof.
  intros Hd. destruct (Hd TTargetWeight) as [_ Hc].
  apply (weights_NoDup model); [|by intros w [? _]%list_elem_of_filter].
  exact (conflict_free_filter (H := trueup) TTargetWeight (λ w : TargetWeight, weight_model_portfolio_id w = model) _ Hc).
Qed.

(** What the two loops go through: each security once, with the units held. *)
Lemma holdings_listed c on d model held :
  integrity d → position_units c on d = Ok held →
  let l := targeted (list_for_model d model) held ++ dropped (list_for_model d model) held in
  NoDup (l.*1).*1 ∧
  (∀ s, s ∈ (l.*1).*1 ↔ s ∈ weight_security_id <$> list_for_model d model ∨ units_held c s on d ≠ 0) ∧
  (∀ x, x ∈ l → quanta x.1.2 = units_held c x.1.1 on d).
Proof.
  intros Hd Hh. pose proof (list_for_model_NoDup d model Hd) as Hnt. set (ts := list_for_model d model) in *.
  apply bind_Ok in Hh as (rows & Hr & [= <-]). destruct (position_units_rows_Ok _ _ _ _ Hr) as (Hnd & Hu & Hex).
  set (held := filter _ rows).
  assert (Hheld : ∀ s u, (s, u) ∈ held ↔ (s, u) ∈ rows ∧ quanta u ≠ 0).
  { intros s u. unfold held. rewrite list_elem_of_filter. unfold q_eqb. cbn [snd quanta zero].
    destruct (Z.eqb_spec (quanta u) 0); naive_solver. }
  assert (Hndh : NoDup held.*1).
  { apply (sublist_NoDup _ rows.*1); [done|]. eapply fmap_sublist. apply sublist_filter. }
  assert (Hkeys : ∀ s, s ∈ held.*1 ↔ units_held c s on d ≠ 0).
  { intros s. rewrite list_elem_of_fmap. split.
    - intros ([s' u] & -> & [Hin Hne]%Hheld). cbn. by rewrite <- (Hu s' u Hin).
    - intros Hne. destruct (decide (s ∈ rows.*1)) as [([s' u] & -> & Hin)%list_elem_of_fmap|Hni].
      + exists (s', u). split; [done|]. apply Hheld. by rewrite (Hu s' u Hin).
      + exfalso. apply Hne. unfold units_held. rewrite filter_none; [done|].
        intros p Hp E. apply Hni, Hex. by exists p. }
  assert (Hof : ∀ s, quanta (units_of held s) = units_held c s on d).
  { intros s. unfold units_of. destruct (head (filter _ held)) as [[s' u]|] eqn:E.
    - apply head_Some_elem_of, list_elem_of_filter in E as [E [Hin _]%Hheld]. cbn in E. subst s'. exact (Hu s u Hin).
    - assert (Hn : s ∉ held.*1).
      { intros ([s' u] & -> & Hin)%list_elem_of_fmap. apply head_None in E.
        assert (Hi : (s', u) ∈ filter (λ r : uuid * Units, r.1 = (s', u).1) held) by by apply list_elem_of_filter.
        rewrite E in Hi. by apply not_elem_of_nil in Hi. }
      rewrite Hkeys in Hn. cbn. destruct (Z.eq_dec (units_held c s on d) 0); lia. }
  assert (E1 : ((targeted ts held).*1).*1 = weight_security_id <$> ts) by (unfold targeted; by rewrite <- !list_fmap_compose).
  assert (E2 : ((dropped ts held).*1).*1 = (filter (λ r, r.1 ∉ weight_security_id <$> ts) held).*1)
    by (unfold dropped; by rewrite <- !list_fmap_compose).
  cbn zeta. rewrite !fmap_app, E1, E2. split_and!.
  - apply NoDup_app. split_and!; [done| |].
    + intros s Hs ([s' u] & -> & [Hn _]%list_elem_of_filter)%list_elem_of_fmap. done.
    + apply (sublist_NoDup _ held.*1); [done|]. eapply fmap_sublist. apply sublist_filter.
  - intros s. rewrite elem_of_app, <- Hkeys, !list_elem_of_fmap. setoid_rewrite list_elem_of_filter. split; [naive_solver|].
    intros [?|(r & -> & Hin)]; [by left|]. destruct (decide (r.1 ∈ weight_security_id <$> ts)) as [Hin'|]; [left|right; naive_solver].
    by apply list_elem_of_fmap in Hin'.
  - intros x [(w & -> & _)%list_elem_of_fmap|([s u] & -> & [_ [Hin _]%Hheld]%list_elem_of_filter)%list_elem_of_fmap]%elem_of_app;
      [apply Hof|exact (Hu s u Hin)].
Qed.

(** An entry of an evaluated book: its security, priced at its close of the date
    and worth the units the ledger holds of it. *)
Definition assessed_security (band : dec) (total : Money) (c : uuid) (on : date) (d : db) (model : uuid) (e : DriftEntry) : Prop :=
  ∃ s close, drift_security_id e = Some s ∧ latest_confirmed d s on = Some close ∧ drift_price e = Some (close_price close) ∧
    quanta (drift_current_market_value e) = worth d on (s, QD (units_held c s on d)) ∧
    (drift_target_weight_pct e ∈ weight_dec <$> filter (λ w, weight_security_id w = s) (list_for_model d model) ∨
     drift_target_weight_pct e = dec_of_Z 0 ∧ s ∉ weight_security_id <$> list_for_model d model) ∧
    assessed band total e.

Lemma entry_of_assessed band total c on d model held x e :
  x ∈ targeted (list_for_model d model) held ++ dropped (list_for_model d model) held →
  quanta x.1.2 = units_held c x.1.1 on d → entry_of band total on d x e → assessed_security band total c on d model e.
Proof.
  intros Hx Hu (Hs & Hw & (close & Hcl & Hp) & Hv & Ha). exists x.1.1, close. split_and!; try done.
  - rewrite Hv. unfold worth. cbn [fst snd quanta]. by rewrite Hu.
  - rewrite Hw. apply elem_of_app in Hx as [(w & -> & Hin)%list_elem_of_fmap|(r & -> & [Hr _]%list_elem_of_filter)%list_elem_of_fmap].
    + left. apply list_elem_of_fmap. exists w. split; [done|]. by apply list_elem_of_filter.
    + by right.
Qed.

Lemma entries_keys band total on d l es :
  Forall2 (entry_of band total on d) l es → drift_security_id <$> es = Some <$> (l.*1).*1 ∧
  sum_by (λ e, quanta (drift_current_market_value e)) es = sum_by (λ x, worth d on x.1) l.
Proof.
  induction 1 as [|x e l es (Hs & _ & _ & Hv & _) _ [IH1 IH2]]; [done|].
  rewrite !fmap_cons, !sum_by_cons, Hs, IH1, Hv, IH2. done.
Qed.

(** How a list of entries comes about: the two loops, then the cash. *)
Lemma evaluate_entries band c on d ev :
  evaluate band c on d = Ok ev → evaluation_entries ev ≠ [] →
  evaluation_completeness ev = Complete ∧
  ∃ book held cash es ce, value_book c on d = Ok book ∧ total_value book = evaluation_total_value ev ∧
    position_units c on d = Ok held ∧ cash_balance_as_of c on d = Ok cash ∧ evaluation_entries ev = es ++ [ce] ∧
    Forall2 (entry_of band (evaluation_total_value ev) on d)
      (targeted (list_for_model d (evaluation_model_portfolio_id ev)) held ++
       dropped (list_for_model d (evaluation_model_portfolio_id ev)) held) es ∧
    drift_security_id ce = None ∧ drift_current_market_value ce = cash ∧ drift_price ce = None ∧
    assessed band (evaluation_total_value ev) ce.
Proof.
  intros Hev Hne. unfold evaluate in Hev. destruct (assignment_by_customer d c) as [a|]; [|done]. cbn zeta in Hev.
  apply bind_Ok in Hev as (book & Hbook & Hev). set (model := assignment_model_portfolio_id a) in *.
  destruct (_ || _) eqn:Eno; [injection Hev as <-; done|]. clear Eno.
  apply bind_Ok in Hev as (held & Hheld & Hev). apply bind_Ok in Hev as (cash & Hcash & Hev).
  apply bind_Ok in Hev as ([es1|] & H1 & Hev); [|injection Hev as <-; done].
  apply bind_Ok in Hev as ([es2|] & H2 & Hev); [|injection Hev as <-; done].
  apply bind_Ok in Hev as (ce & Hce & [= <-]). clear Hne. cbn in *. split; [done|].
  apply build_entries_Ok in H1. apply build_entries_Ok in H2.
  destruct (build_entry_Ok _ _ _ _ _ _ _ Hce) as (Hc1 & Hc2 & _ & Hc4 & Hc5).
  exists book, held, cash, (es1 ++ es2), ce. split_and!; try done; [by rewrite <- app_assoc|exact (Forall2_app H1 H2)].
Qed.

(** C22. The drift entries partition the book.  An evaluation that lists entries is
    complete; it lists every security of the model and every security held, once,
    each at its confirmed close of the date, and the cash last, so that the
    current values add up to exactly the book's total; every entry is weighed
    against that total and flagged by the relative band.  A partial evaluation
    lists nothing. *)
Theorem entries_partition_book band c on d ev :
  integrity d → evaluate band c on d = Ok ev → evaluation_entries ev ≠ [] →
  evaluation_completeness ev = Complete ∧
  ∃ es cash, evaluation_entries ev = es ++ [cash] ∧
    drift_security_id cash = None ∧ drift_price cash = None ∧ quanta (drift_current_market_value cash) = cash_held c on d ∧
    assessed band (evaluation_total_value ev) cash ∧
    NoDup (drift_security_id <$> es) ∧
    (∀ s, Some s ∈ drift_security_id <$> es ↔
       s ∈ weight_security_id <$> list_for_model d (evaluation_model_portfolio_id ev) ∨ units_held c s on d ≠ 0) ∧
    (∀ e, e ∈ es → assessed_security band (evaluation_total_value ev) c on d (evaluation_model_portfolio_id ev) e) ∧
    sum_by (λ e, quanta (drift_current_market_value e)) (es ++ [cash]) = quanta (evaluation_total_value ev).
Proof.
  intros Hd Hev Hne. destruct (evaluate_entries _ _ _ _ _ Hev Hne) as (Hcomp & book & held & cash & es & ce & Hbook &
    Htot & Hheld & Hcash & Hent & Hes & Hc1 & Hc2 & Hc4 & Hc5). set (model := evaluation_model_portfolio_id ev) in *.
  destruct (holdings_listed c on d model held Hd Hheld) as (Hnd & Hkeys & Hunits). cbn zeta in Hnd, Hkeys, Hunits.
  destruct (entries_keys _ _ _ _ _ _ Hes) as [Hids Hsum]. split; [done|]. exists es, ce. split_and!; try done.
  - rewrite Hc2. by apply cash_balance_as_of_Ok.
  - rewrite Hids. by apply NoDup_fmap_2; [intros ?? [= ->]|].
  - intros s. rewrite Hids, <- Hkeys, list_elem_of_fmap. split; [by intros (x & [= ->] & ?)|intros ?; by exists s].
  - intros e He. apply list_elem_of_lookup in He as (i & Hi). destruct (Forall2_lookup_r _ _ _ _ _ Hes Hi) as (x & Hx & Hxe).
    apply list_elem_of_lookup_2 in Hx. exact (entry_of_assessed _ _ _ _ _ _ _ _ _ Hx (Hunits x Hx) Hxe).
  - rewrite sum_by_app, Hsum, sum_by_cons, sum_by_nil, Hc2. apply cash_balance_as_of_Ok in Hcash as Hcv. rewrite Hcv.
    unfold value_book in Hbook. apply bind_Ok in Hbook as (cash' & Hcash' & Hbook). apply bind_Ok in Hbook as (rows & Hrows & Hbook).
    apply bind_Ok in Hbook as ([t f] & Hf & [= <-]). apply value_fold_Ok in Hf as [Ht _]. rewrite <- Htot. cbn [total_value].
    apply cash_balance_as_of_Ok in Hcash'. rewrite Ht, Hcash'.
    destruct (position_units_rows_Ok _ _ _ _ Hrows) as (Hndr & Hur & Hexr).
    rewrite (sum_by_ext (λ x, worth d on x.1) (λ x, worth d on (x.1.1, QD (units_held c x.1.1 on d))));
      [|intros x Hx; unfold worth; cbn [fst snd quanta]; by rewrite (Hunits x Hx)].
    rewrite (sum_by_ext (worth d on) (λ r, worth d on (r.1, QD (units_held c r.1 on d))) rows);
      [|intros [s u] Hx; unfold worth; cbn [fst snd quanta]; by rewrite (Hur s u Hx)].
    set (w := λ s, worth d on (s, QD (units_held c s on d))).
    change (sum_by (λ x, worth d on (x.1.1, QD (units_held c x.1.1 on d)))) with (sum_by (λ x : uuid * Units * dec, w x.1.1)).
    change (sum_by (λ r, worth d on (r.1, QD (units_held c r.1 on d))) rows) with (sum_by (λ r : uuid * Units, w r.1) rows).
    rewrite <- (sum_by_fmap fst w rows).
    rewrite <- (sum_by_fmap fst (λ y : uuid * Units, w y.1)), <- (sum_by_fmap fst w).
    rewrite (sum_by_support w _ rows.*1); [lia|done|done|].
    intros s Hs. rewrite Hkeys. assert (units_held c s on d ≠ 0).
    { intros E. apply Hs. unfold w, worth. cbn [snd quanta]. by rewrite E. }
    split; [|by right]. intros _. destruct (decide (s ∈ rows.*1)) as [|Hni]; [done|]. exfalso. apply H.
    unfold units_held. rewrite filter_none; [done|]. intros p Hp Ep. apply Hni, Hexr. by exists p.
Qed.

(** ** Lemmas: the orders *)

(** What the generator relies on: the order placed is the one asked for. *)
Class PlacerLaw (P : OrderPlacer) : Prop :=
  place_described c s side q p d o d' : run (place c s side q p) d = Ok (o, d') →
    order_customer_id o = c ∧ order_security_id o = s ∧ order_side o = side ∧ order_quantity_requested o = q.

(** The order service keeps it. *)
#[export] Instance real_order_placer_law threshold : PlacerLaw (real_order_placer threshold).
Proof.
  intros c s side q p d o d'. unfold place. cbn [real_order_placer].
  intros (o' & d1 & Hcreate & (u & d2 & _ & [<- _]%run_ret_Ok)%run_bind_Ok)%run_bind_Ok.
  apply create_order_Ok in Hcreate as (n & d3 & d4 & _ & _ & _ & -> & _). done.
Qed.

(** A sell of the whole excess over the target. *)
Definition sold (c : uuid) (e : DriftEntry) (o : Order) : Prop :=
  ∃ s p notional, drift_security_id e = Some s ∧ drift_price e = Some p ∧
    q_sub (drift_current_market_value e) (drift_target_market_value e) = Ok notional ∧
    quantity_for notional p = Ok (order_quantity_requested o) ∧
    order_customer_id o = c ∧ order_security_id o = s ∧ order_side o = SELL.

(** A buy of some notional within what is missing to the target. *)
Definition bought (c : uuid) (x : DriftEntry * Money) (o : Order) : Prop :=
  ∃ s p, drift_security_id x.1 = Some s ∧ drift_price x.1 = Some p ∧
    0 < quanta x.2 <= quanta (drift_target_market_value x.1) - quanta (drift_current_market_value x.1) ∧
    quantity_for x.2 p = Ok (order_quantity_requested o) ∧ quanta (order_quantity_requested o) ≠ 0 ∧
    order_customer_id o = c ∧ order_security_id o = s ∧ order_side o = BUY.

Section OrderLemmas.
Context {P : OrderPlacer} {Plaw : PlacerLaw P} {C : InvestableCashProvider}.

Lemma place_sells_Ok c l d os d' : run (map_prog (place_sell c) l) d = Ok (os, d') → Forall2 (sold c) l os.
Proof using Plaw.
  revert d os d'. induction l as [|e l IH]; intros d os d'; cbn [map_prog]; [by intros [<- _]%run_ret_Ok|].
  intros (o & d1 & Ho & (os' & d2 & Hr & [<- _]%run_ret_Ok)%run_bind_Ok)%run_bind_Ok. constructor; [|by eapply IH].
  unfold place_sell in Ho. destruct (drift_security_id e) as [s|] eqn:Es; [|done]. destruct (drift_price e) as [p|] eqn:Ep; [|done].
  apply run_bind_Ok in Ho as (n & d3 & [Hn _]%run_lift_Ok & Ho).
  apply run_bind_Ok in Ho as (q & d4 & [Hq _]%run_lift_Ok & Ho). apply place_described in Ho as (H1 & H2 & H3 & H4).
  exists s, p, n. split_and!; try done. by rewrite H4.
Qed.

Lemma place_buy_Ok c e n d o d' :
  run (place_buy c e n) d = Ok (Some o, d') →
  quanta n <= quanta (drift_target_market_value e) - quanta (drift_current_market_value e) → bought c (e, n) o.
Proof using Plaw.
  unfold place_buy. destruct (drift_security_id e) as [s|] eqn:Es; [|done]. destruct (drift_price e) as [p|] eqn:Ep; [|done].
  unfold q_leb. destruct (Z.leb_spec (quanta n) (quanta (@zero MoneyD))) as [|Hpos]; [by intros [? _]%run_ret_Ok|].
  intros (q & d1 & [Hq _]%run_lift_Ok & H)%run_bind_Ok Hle.
  destruct (q_eqb q zero) eqn:Ez; [by apply run_ret_Ok in H as [? _]|]. unfold q_eqb in Ez. zbool. cbn [quanta zero] in *.
  apply run_bind_Ok in H as (x & d2 & (H1 & H2 & H3 & H4)%place_described & [[= <-] _]%run_ret_Ok).
  exists s, p. split_and!; try done; cbn [fst snd]; try lia; by rewrite H4.
Qed.

Lemma place_buys_Ok c remaining l d os d' :
  run (place_buys c remaining l) d = Ok (os, d') →
  ∃ picks : list (DriftEntry * Money), Forall2 (bought c) picks os ∧ picks.*1 `sublist_of` l ∧
    sum_by (λ x, quanta x.2) picks <= Z.max 0 (quanta remaining).
Proof using Plaw.
  revert remaining d os d'. induction l as [|e l IH]; intros remaining d os d'; cbn [place_buys].
  { intros [<- _]%run_ret_Ok. exists []. split_and!; [done|done|]. rewrite sum_by_nil. lia. }
  unfold q_leb. destruct (Z.leb_spec (quanta remaining) (quanta (@zero MoneyD))) as [|Hpos].
  { intros [<- _]%run_ret_Ok. exists []. split_and!; [done|apply sublist_nil_l|]. rewrite sum_by_nil. lia. }
  cbn [quanta zero] in Hpos. intros (n & d1 & [[_ Hn]%q_sub_Ok _]%run_lift_Ok & H)%run_bind_Ok. cbn zeta in H.
  set (capped := if q_ltb n remaining then n else remaining) in *.
  assert (Hc : quanta capped = Z.min (quanta n) (quanta remaining)).
  { unfold capped, q_ltb. destruct (Z.ltb_spec (quanta n) (quanta remaining)); lia. }
  apply run_bind_Ok in H as ([o|] & d2 & Ho & H).
  - apply run_bind_Ok in H as (rem & d3 & [[_ Hrem]%q_sub_Ok _]%run_lift_Ok & H).
    apply run_bind_Ok in H as (os' & d4 & (picks & H1 & H2 & H3)%IH & [<- _]%run_ret_Ok).
    apply place_buy_Ok in Ho; [|lia]. exists ((e, capped) :: picks). split_and!; [by constructor|by apply sublist_skip|].
    destruct Ho as (s & p & _ & _ & Hb & _). cbn [fst snd] in Hb. rewrite sum_by_cons. cbn [snd]. lia.
  - apply IH in H as (picks & H1 & H2 & H3). exists picks. split_and!; [done|by apply sublist_cons|done].
Qed.

(** The orders of a rebalancing: the sells, then buys within the cash. *)
Definition rebalanced (pct : dec) (ev : DriftEvaluation) (d : db) (orders : list Order) : Prop :=
  ∃ sells buys (picks : list (DriftEntry * Money)), orders = sells ++ buys ∧
    Forall2 (sold (evaluation_customer_id ev)) (sell_entries ev) sells ∧
    Forall2 (bought (evaluation_customer_id ev)) picks buys ∧ picks.*1 `sublist_of` buy_entries ev ∧
    (buys = [] ∨ ∃ d1 buffer cash, run (map_prog (place_sell (evaluation_customer_id ev)) (sell_entries ev)) d = Ok (sells, d1) ∧
       scale_by (evaluation_total_value ev) pct = Ok buffer ∧ investable_cash (evaluation_customer_id ev) d1 = Ok cash ∧
       sum_by (λ x, quanta x.2) picks <= quanta cash - quanta buffer).

Lemma rebalanced_sells pct ev d sells :
  Forall2 (sold (evaluation_customer_id ev)) (sell_entries ev) sells → rebalanced pct ev d sells.
Proof. intros Hs. exists sells, [], []. split_and!; [by rewrite app_nil_r|done|done|apply sublist_nil_l|by left]. Qed.

(** C21. Rebalancing sells first and buys within the cash.  Whatever places the
    orders and whatever reports the cash, the orders generated are one sell per
    flagged overweight security, of its whole excess over the target, then buys
    of flagged underweight ones, none beyond what it is short of; the notionals
    bought add up to no more than the cash investable after the sells were
    placed, less the buffer.  Nothing unflagged is traded. *)
Theorem rebalance_within_cash pct ev d orders d' :
  run (generate_orders pct ev) d = Ok (orders, d') → rebalanced pct ev d orders.
Proof using Plaw.
  unfold generate_orders. case_bool_decide as Hnone.
  { intros [<- _]%run_ret_Ok. apply rebalanced_sells. unfold sell_entries. by rewrite Hnone. }
  intros (sells & d1 & Hsells & H)%run_bind_Ok. pose proof (place_sells_Ok _ _ _ _ _ Hsells) as Hs.
  case_bool_decide; [apply run_ret_Ok in H as [<- _]; by apply rebalanced_sells|].
  apply run_bind_Ok in H as (buffer & d2 & [Hb <-]%run_lift_Ok & H). apply run_bind_Ok in H as (cash & d2 & [Hc <-]%run_queries_Ok & H).
  apply run_bind_Ok in H as (available & d2 & [[_ Ha]%q_sub_Ok <-]%run_lift_Ok & H).
  unfold q_leb in H. destruct (Z.leb_spec (quanta available) (quanta (@zero MoneyD))) as [|Hpos];
    [apply run_ret_Ok in H as [<- _]; by apply rebalanced_sells|]. cbn [quanta zero] in Hpos.
  apply run_bind_Ok in H as (buys & d2 & (picks & H1 & H2 & H3)%place_buys_Ok & [<- _]%run_ret_Ok).
  exists sells, buys, picks. split_and!; try done. right. exists d1, buffer, cash. split_and!; try done. lia.
Qed.
End OrderLemmas.

Lemma evaluate_entry band c on d ev e s :
  integrity d → evaluate band c on d = Ok ev → e ∈ evaluation_entries ev → drift_security_id e = Some s →
  assessed_security band (evaluation_total_value ev) c on d (evaluation_model_portfolio_id ev) e.
Proof.
  intros Hd Hev He Hs. assert (Hne : evaluation_entries ev ≠ []) by (intros E; rewrite E in He; by apply not_elem_of_nil in He).
  destruct (evaluate_entries _ _ _ _ _ Hev Hne) as (_ & book & held & cash & es & ce & _ & _ & Hheld & _ & Hent & Hes & Hc1 & _).
  destruct (holdings_listed c on d (evaluation_model_portfolio_id ev) held Hd Hheld) as (_ & _ & Hunits). cbn zeta in Hunits.
  rewrite Hent in He. apply elem_of_app in He as [He| ->%list_elem_of_singleton]; [|congruence].
  apply list_elem_of_lookup in He as (i & Hi). destruct (Forall2_lookup_r _ _ _ _ _ Hes Hi) as (x & Hx & Hxe).
  apply list_elem_of_lookup_2 in Hx. exact (entry_of_assessed _ _ _ _ _ _ _ _ _ Hx (Hunits x Hx) Hxe).
Qed.

(** Above 100.00 a full exit sells exactly what is held.  For a security the
    model no longer has, priced above 100.00, dividing the rounded market value
    by the price gives back the units of the ledger, and the sell is of exactly
    those: the two roundings on the way cancel out. *)
Theorem full_exit_exact band c on d ev e o s close :
  integrity d → evaluate band c on d = Ok ev → e ∈ evaluation_entries ev → drift_security_id e = Some s → sold c e o →
  s ∉ weight_security_id <$> list_for_model d (evaluation_model_portfolio_id ev) →
  latest_confirmed d s on = Some close → 10 ^ 8 < quanta (close_price close) →
  0 < units_held c s on d → wf (@QD UnitsD (units_held c s on d)) →
  order_security_id o = s ∧ quanta (order_quantity_requested o) = units_held c s on d.
Proof.
  intros Hd Hev He Hs (s' & p' & n & Hs' & Hp' & [Hwf Hn]%q_sub_Ok & Hq & _ & Ho & _) Hout Hcl Hpr Hu Hwu.
  rewrite Hs in Hs'. injection Hs' as <-. split; [done|].
  destruct (evaluate_entry _ _ _ _ _ _ _ Hd Hev He Hs) as (s' & close' & Hs' & Hcl' & Hp & Hv & Hw & Ha).
  rewrite Hs in Hs'. injection Hs' as <-. rewrite Hcl in Hcl'. injection Hcl' as <-. rewrite Hp in Hp'. injection Hp' as <-.
  destruct Hw as [Hw|[Hw _]].
  { exfalso. apply list_elem_of_fmap in Hw as (w & _ & [<- Hin]%list_elem_of_filter). apply Hout, list_elem_of_fmap. by exists w. }
  assert (Ht : quanta (drift_target_market_value e) = 0).
  { destruct Ha as [Ht _ _ _]. rewrite Hw in Ht. apply of_dec_Ok in Ht as [_ ->].
    unfold dec_mul. cbn [coef dexp value dec_of_Z]. rewrite Z.mul_0_r.
    rewrite dec_fix_id by (by cbn [coef]). reflexivity. }
  rewrite Ht, Hv in Hn. unfold worth in Hn. cbn [fst snd quanta] in Hn.
  rewrite (proj2 (Z.eqb_neq (units_held c s on d) 0)), Hcl, Z.sub_0_r in Hn by lia.
  unfold quantity_for in Hq. rewrite (money_div_price_units (QD (units_held c s on d)) _ n) in Hq by done.
  by injection Hq as <-.
Qed.

(** ** Lemmas: customers who are not eligible *)

(** The program leaves the store alone, whether it ends or is caught. *)
Definition idle {A} (m : prog A) (d : db) : Prop :=
  ∀ x d', run (catching not_eligible m) d = Ok (x, d') → d' = d.

Lemma idle_bind {A B} (m : prog A) (f : A → prog B) d : idle m d → (∀ a, run m d = Ok (a, d) → idle (f a) d) → idle (m ≫= f) d.
Proof.
  intros Hm Hf x d'. rewrite run_catching_bind. destruct (run (catching not_eligible m) d) as [[[a|e] d1]|e'] eqn:E; [| |done].
  - pose proof (Hm _ _ E) as ->. apply Hf. by apply run_catching_Ok in E.
  - intros [= <- <-]. by eapply Hm.
Qed.

Lemma idle_ret {A} (a : A) d : idle (Ret a) d.
Proof. by intros x d' [= _ <-]. Qed.

Lemma idle_throw {A} e d : idle (@Throw _ A e) d.
Proof. intros x d'. cbn [catching]. destruct (not_eligible e); [by intros [= _ <-]|done]. Qed.

Lemma idle_lift {A} (r : result A) d : idle (lift r) d.
Proof. destruct r; [apply idle_ret|apply idle_throw]. Qed.

Lemma idle_queries {A} (f : db → result A) d : idle (queries f) d.
Proof. intros x d'. cbn [catching queries run]. apply idle_lift. Qed.

Lemma idle_map {A B} (f : A → prog B) l d : (∀ x, idle (f x) d) → idle (map_prog f l) d.
Proof.
  intros Hf. induction l as [|x l IH]; cbn [map_prog]; [apply idle_ret|].
  apply idle_bind; [apply Hf|]. intros y _. apply idle_bind; [done|]. intros ys _. apply idle_ret.
Qed.

Section Ineligible.
Context (threshold : Money) (c : uuid) (reason : string) (d : db) (Hno : ineligibility d c = Some reason).
Local Instance placer : OrderPlacer := real_order_placer threshold.
Local Instance provider : InvestableCashProvider := cash_policy_provider.

Lemma idle_place s side q p : idle (place c s side q p) d.
Proof using Hno.
  unfold place, placer, real_order_placer. apply idle_bind.
  - unfold create_order. cbn [request_customer_id]. intros x d'. rewrite run_catching_bind.
    unfold require_eligible_customer, gets. cbn [mbind prog_bind catching run]. rewrite Hno.
    cbn [throw catching not_eligible run]. by intros [= _ <-].
  - intros o (n & d2 & d3 & He & _)%create_order_Ok. cbn [request_customer_id] in He. congruence.
Qed.

Lemma idle_sell e : idle (place_sell c e) d.
Proof using Hno.
  unfold place_sell. destruct (drift_security_id e), (drift_price e); try apply idle_throw.
  apply idle_bind; [apply idle_lift|]. intros n _. apply idle_bind; [apply idle_lift|]. intros qty _. apply idle_place.
Qed.

Lemma idle_buys remaining l : idle (place_buys c remaining l) d.
Proof using Hno.
  revert remaining. induction l as [|e l IH]; intros remaining; cbn [place_buys]; [apply idle_ret|].
  destruct (q_leb remaining zero); [apply idle_ret|]. apply idle_bind; [apply idle_lift|]. intros n _. cbn zeta.
  apply idle_bind.
  - unfold place_buy. destruct (drift_security_id e), (drift_price e); try apply idle_throw.
    destruct (q_leb _ zero); [apply idle_ret|]. apply idle_bind; [apply idle_lift|]. intros qty _.
    destruct (q_eqb qty zero); [apply idle_ret|]. apply idle_bind; [apply idle_place|]. intros o _. apply idle_ret.
  - intros [o|] _; [|apply IH]. apply idle_bind; [apply idle_lift|]. intros m _. apply idle_bind; [apply IH|]. intros os _. apply idle_ret.
Qed.

Lemma idle_generate pct ev : evaluation_customer_id ev = c → idle (generate_orders pct ev) d.
Proof using Hno.
  intros E. unfold generate_orders. rewrite E. case_bool_decide; [apply idle_ret|].
  apply idle_bind; [apply idle_map; intros x; apply idle_sell|]. intros sells _. case_bool_decide; [apply idle_ret|].
  apply idle_bind; [apply idle_lift|]. intros buffer _. apply idle_bind; [apply idle_queries|]. intros cash _.
  apply idle_bind; [apply idle_lift|]. intros available _. destruct (q_leb available zero); [apply idle_ret|].
  apply idle_bind; [apply idle_buys|]. intros buys _. apply idle_ret.
Qed.
End Ineligible.

Lemma evaluate_customer band c on d ev : evaluate band c on d = Ok ev → evaluation_customer_id ev = c.
Proof.
  unfold evaluate. destruct (assignment_by_customer d c); [|done]. cbn zeta. intros (book & _ & H)%bind_Ok.
  destruct (_ || _); [by injection H as <-|]. apply bind_Ok in H as (held & _ & H). apply bind_Ok in H as (cash & _ & H).
  apply bind_Ok in H as ([es|] & _ & H); [|by injection H as <-].
  apply bind_Ok in H as ([es'|] & _ & H); [|by injection H as <-]. apply bind_Ok in H as (ce & _ & H). by injection H as <-.
Qed.

(** The monthly job places nothing for a customer who is not eligible. *)
Lemma rebalance_ineligible s on c d reason u d' :
  ineligibility d c = Some reason → run (rebalance_customer s on c) d = Ok (u, d') → d' = d.
Proof.
  intros Hno (x & d1 & H & [_ <-]%run_ret_Ok)%run_bind_Ok. revert x d1 H.
  change (idle (evaluation ← queries (evaluate (setting_drift_band_pct s) c on);
     generate_orders (H := real_order_placer (setting_approval_threshold s)) (H0 := cash_policy_provider)
       (setting_cash_buffer_pct s) evaluation) d).
  apply idle_bind; [apply idle_queries|]. intros ev [Hev _]%run_queries_Ok.
  exact (idle_generate _ c reason d Hno _ ev (evaluate_customer _ _ _ _ _ Hev)).
Qed.

(** ** A sample customer *)

(** Customer 7 of [sample_book], approved, with some units of security 900 at
    some close and a model of securities 900 and 901, the latter at 20.00. *)
Definition sample_models (units : Units) (close : Price) (weight : Z) : db :=
  let d := set_table (H := trueup) TPosting ((λ p, if posting_id p =? 500 then
      {| posting_id := 500; posting_journal_entry_id := posting_journal_entry_id p; posting_account_id := posting_account_id p;
         posting_customer_id := posting_customer_id p; posting_amount_money := None; posting_quantity_units := Some units |}
      else p) <$> postings sample_book) sample_book in
  let d := set_table (H := trueup) TTargetWeight
    (filter (λ w : TargetWeight, weight_pct w ≠ 0)
      [{| weight_id := 81; weight_model_portfolio_id := 80; weight_security_id := 900; weight_pct := weight |};
       {| weight_id := 82; weight_model_portfolio_id := 80; weight_security_id := 901; weight_pct := 10000 - weight |}]) d in
  let d := set_table (H := trueup) TModelAssignment
    [{| assignment_customer_id := 7; assignment_model_portfolio_id := 80; assignment_assigned_at := 738000 |}] d in
  let daily id security price := {| close_id := id; close_security_id := security; close_market_date := 738155;
    close_price := price; close_source := LIVE; close_status := CONFIRMED; close_recorded_at := 10 |} in
  let d := set_table (H := trueup) TDailyClose [daily 600 900 close; daily 601 901 (QD 20000000)] d in
  let listed id symbol := {| security_id := id; security_symbol := symbol; security_name := symbol;
    security_asset_class := EQUITY; security_status := SECURITY_ACTIVE; security_created_at := 0 |} in
  let d := set_table (H := trueup) TSecurity [listed 900 "ONE"; listed 901 "TWO"]%string d in
  let d := set_table (H := trueup) TCashLock [{| cash_lock_customer_id := 7 |}] d in
  set_table (H := trueup) TCustomer
    [set_account_approval APPROVAL_APPROVED (set_kyc_status APPROVAL_APPROVED (new_customer 7 "c7@x" "" 0))] d.

(** A band of 5%, a buffer of 1%, and orders above 10.00 awaiting approval. *)
Definition sample_settings : RebalanceSettings :=
  {| setting_drift_band_pct := Dec 5 (-2); setting_cash_buffer_pct := Dec 1 (-2); setting_approval_threshold := QD 100000 |}.

Definition sample_rebalance (d : db) : result (DriftEvaluation * list Order) :=
  ev ← evaluate (Dec 5 (-2)) 7 738155 d;
  placed ← run (generate_orders (H := real_order_placer (QD 100000)) (H0 := cash_policy_provider) (Dec 1 (-2)) ev) d;
  Ok (ev, placed.1).

(** The figures of the orders placed: side, security and quantity. *)
Definition sample_orders (d : db) : result (list (OrderSide * uuid * Z)) :=
  placed ← sample_rebalance d;
  Ok ((λ o, (order_side o, order_security_id o, quanta (order_quantity_requested o))) <$> (placed.2 : list Order)).

(** 10 units at 4.25 against a weight of 10%, and cash to invest in the other. *)
Definition sample_drifted : db := sample_models (QD 10000000) (QD 4250000) 1000.

Example sample_drifted_orders :
  sample_orders sample_drifted = Ok [(SELL, 900, 7823529); (BUY, 901, 791250)].
Proof. vm_compute. reflexivity. Qed.

(** A full exit can sell more than is held.  With 1.000003 units of a
    security the model dropped, at 17.33, the market value rounds up to 17.3301
    and the sell generated is of 1.000006 units, accepted as it is. *)
Theorem full_exit_oversells :
  ∃ d ev orders x d', integrity d ∧ evaluate (Dec 5 (-2)) 7 738155 d = Ok ev ∧
    run (generate_orders (H := real_order_placer (QD 100000)) (H0 := cash_policy_provider) (Dec 1 (-2)) ev) d = Ok (orders, d') ∧
    x ∈ orders ∧ order_side x = SELL ∧
    units_held 7 (order_security_id x) 738155 d < quanta (order_quantity_requested x).
Proof.
  set (d := sample_models (QD 1000003) (QD 17330000) 0).
  assert (Hd : integrity d) by (apply integrity_check; intros []; vm_compute; reflexivity).
  assert (Ho : sample_orders d = Ok [(SELL, 900, 1000006); (BUY, 901, 1599830)]) by (vm_compute; reflexivity).
  assert (Hu : units_held 7 900 738155 d = 1000003) by (vm_compute; reflexivity).
  revert Hd Ho Hu. generalize d. clear d. intros d Hd Ho Hu.
  apply bind_Ok in Ho as ([ev orders] & (ev' & Hev & ([orders' d'] & Hrun & [= -> <-])%bind_Ok)%bind_Ok & [= Ho]).
  destruct orders' as [|x rest]; [done|]. cbn in Ho. injection Ho as Hs Hsec Hq _.
  exists d, ev, (x :: rest), x, d'. split_and!; [done|done|done|by left|done|]. by rewrite Hsec, Hq, Hu.
Qed.

(** ** Witnesses *)

Lemma sample_drifted_integrity : integrity sample_drifted.
Proof. apply integrity_check; intros []; vm_compute; reflexivity. Qed.

(** The entries of the sample: 42.50 in 900, nothing in 901, 50.00 in cash. *)
Lemma entries_partition_book_witness :
  ∃ ev es cash, evaluate (Dec 5 (-2)) 7 738155 sample_drifted = Ok ev ∧ evaluation_entries ev = es ++ [cash] ∧
    quanta (evaluation_total_value ev) = 925000 ∧
    sum_by (λ e, quanta (drift_current_market_value e)) (es ++ [cash]) = 925000.
Proof.
  assert (Ht : (ev ← evaluate (Dec 5 (-2)) 7 738155 sample_drifted; Ok (quanta (evaluation_total_value ev), length (evaluation_entries ev)))
    = Ok (925000, 3%nat)) by (vm_compute; reflexivity).
  apply bind_Ok in Ht as (ev & Hev & Heq). injection Heq as Htot Hlen.
  assert (Hne : evaluation_entries ev ≠ []) by (intros E; rewrite E in Hlen; discriminate Hlen).
  destruct (entries_partition_book _ _ _ _ ev sample_drifted_integrity Hev Hne) as (_ & es & cash & He & _ & _ & _ & _ & _ & _ & _ & Hs).
  rewrite Htot in Hs. exact (ex_intro _ ev (ex_intro _ es (ex_intro _ cash (conj Hev (conj He (conj Htot Hs)))))).
Defined.

Lemma rebalance_within_cash_witness :
  ∃ ev orders d', evaluate (Dec 5 (-2)) 7 738155 sample_drifted = Ok ev ∧
    run (generate_orders (H := real_order_placer (QD 100000)) (H0 := cash_policy_provider) (Dec 1 (-2)) ev) sample_drifted = Ok (orders, d') ∧
    rebalanced (P := real_order_placer (QD 100000)) (C := cash_policy_provider) (Dec 1 (-2)) ev sample_drifted orders ∧
    length orders = 2%nat.
Proof.
  pose proof sample_drifted_orders as Ho. revert Ho. generalize sample_drifted. intros d Ho.
  apply bind_Ok in Ho as ([ev orders] & (ev' & Hev & ([orders' d'] & Hrun & Heq)%bind_Ok)%bind_Ok & Ho).
  injection Heq as -> <-. injection Ho as Ho. cbn in Ho.
  pose proof (rebalance_within_cash (P := real_order_placer (QD 100000)) (C := cash_policy_provider) _ _ _ _ _ Hrun) as Hr.
  assert (Hl : length orders' = 2%nat) by (apply (f_equal length) in Ho; rewrite length_fmap in Ho; exact Ho).
  exact (ex_intro _ ev (ex_intro _ orders' (ex_intro _ d' (conj Hev (conj Hrun (conj Hr Hl)))))).
Defined.

(** Above 100.00, 1.000003 units dropped from the model are sold to the last. *)
Lemma full_exit_exact_witness :
  ∃ d ev o d', evaluate (Dec 5 (-2)) 7 738155 d = Ok ev ∧
    run (map_prog (place_sell (H := real_order_placer (QD 100000)) 7) (sell_entries ev)) d = Ok ([o], d') ∧
    order_security_id o = 900 ∧ quanta (order_quantity_requested o) = 1000003.
Proof.
  set (d := sample_models (QD 1000003) (QD 117330000) 0).
  assert (Hd : integrity d) by (apply integrity_check; intros []; vm_compute; reflexivity).
  assert (Hu : units_held 7 900 738155 d = 1000003) by (vm_compute; reflexivity).
  assert (Hc : quanta <$> (close_price <$> latest_confirmed d 900 738155) = Some 117330000) by (vm_compute; reflexivity).
  assert (Hrun : (ev ← evaluate (Dec 5 (-2)) 7 738155 d;
      placed ← run (map_prog (place_sell (H := real_order_placer (QD 100000)) 7) (sell_entries ev)) d;
      Ok (drift_security_id <$> sell_entries ev, weight_security_id <$> list_for_model d (evaluation_model_portfolio_id ev)))
    = Ok ([Some 900], [901])) by (vm_compute; reflexivity).
  revert Hd Hu Hc Hrun. generalize d. clear d. intros d Hd Hu Hc Hrun.
  apply bind_Ok in Hrun as (ev & Hev & Hrun). apply bind_Ok in Hrun as ([os d'] & Hrun & Heq). injection Heq as Hs Hm.
  pose proof (place_sells_Ok (P := real_order_placer (QD 100000)) _ _ _ _ _ Hrun) as Hsold.
  assert (Hin : ∀ e, e ∈ sell_entries ev → e ∈ evaluation_entries ev).
  { intros e [_ [_ [_ He]%list_elem_of_filter]%list_elem_of_filter]%list_elem_of_filter. exact He. }
  destruct (sell_entries ev) as [|e [|]] eqn:Ese; [discriminate Hs| |discriminate Hs]. injection Hs as Hs.
  inversion Hsold as [|? o ? os' Ho Hnil E1 E2]; subst. inversion Hnil; subst.
  destruct (latest_confirmed d 900 738155) as [close|] eqn:Hcl; [|discriminate Hc]. injection Hc as Hc.
  destruct (full_exit_exact _ _ _ _ ev e o 900 close Hd Hev (Hin e ltac:(by left)) Hs Ho) as [H1 H2].
  - rewrite Hm. intros [E|E]%elem_of_cons; [discriminate E|by apply not_elem_of_nil in E].
  - exact Hcl.
  - rewrite Hc. reflexivity.
  - rewrite Hu. reflexivity.
  - rewrite Hu. reflexivity.
  - exists d, ev, o, d'. rewrite Ese, <- Hu. exact (conj Hev (conj Hrun (conj H1 H2))).
Defined.
