(* ===== verification/Jobs.v ===== *)
(** * Scheduled jobs and the reference-data seed

    [app/jobs]: the advisory-lock-protected base class, the eight jobs built on
    it, and the one-off seed of reference data.  The lock belongs to a database
    connection, not to a transaction, so the state is the store with the locks
    of the server; a run takes its lock on one connection and, after its
    commit, releases it on whichever connection the session's next transaction
    gets.  What a job's business operation is stays a parameter of the base
    class: it runs transactions of its own. *)

From S2P Require Import Prelude PyDecimal MoneyTypes Dates Calendar Store Schema Iso Ledger CashPolicy Valuation Restatement Operations DailyValuation Placement Fees FeeCharges Reconciliation CustodianSimulator Rebalance.
From stdpp Require Import relations.
From Stdlib Require Import String.
From stdpp Require Import strings.
Open Scope Z_scope.

(** ** Advisory locks *)

(** The store, and the locks held: (connection, key). *)
Record host := Host { store : db; advisory_locks : list (Z * Z) }.

Inductive JobOutcome := COMPLETED | SKIPPED.

(** [ScheduledJob]: [perform] reads the market date its subclass's [run] keeps,
    and runs transactions of its own. *)
Record ScheduledJob := {
  job_name : string;
  cadence : JobCadence;
  perform : date → db → result () * db;
}.

(** What one run reads from outside: the connection of its transaction, the
    connection of the transaction after the commit, and the clock. *)
Record job_process := { conn : Z; conn_after : Z; finished_at : instant }.

Section Base.
(** [hashtext], and [type(exc).__name__]. *)
Context (hashtext : string → Z) (class_name : exn → string).

(** [pg_try_advisory_lock]: refused while another connection holds the key. *)
Definition try_advisory_lock (c : Z) (name : string) (h : host) : bool * host :=
  if existsb (λ l, (l.2 =? hashtext name) && negb (l.1 =? c)) (advisory_locks h) then (false, h)
  else (true, Host (store h) ((c, hashtext name) :: advisory_locks h)).

(** The first occurrence goes. *)
Fixpoint remove_first (x : Z * Z) (l : list (Z * Z)) : list (Z * Z) :=
  match l with
  | [] => []
  | y :: l => if decide (x = y) then l else y :: remove_first x l
  end.

(** [pg_advisory_unlock]: without effect on a connection that holds no such lock. *)
Definition release_advisory_lock (c : Z) (name : string) (h : host) : host :=
  Host (store h) (remove_first (c, hashtext name) (advisory_locks h)).

(** A connection that closes gives its locks up. *)
Definition disconnect (c : Z) (h : host) : host :=
  Host (store h) (filter (λ l, l.1 ≠ c) (advisory_locks h)).

(** ** [ScheduledJob.run] *)

(** The row, staged before the work and flushed by the commit. *)
Definition job_run_row (job : ScheduledJob) (on : date) (p : job_process) (started_at : instant)
    (verdict : result ()) (id : uuid) : JobRun :=
  {| run_id := id; run_job_name := job_name job; run_cadence := cadence job; run_market_date := on;
     run_started_at := started_at; run_completed_at := Some (finished_at p);
     run_status := match verdict with Ok _ => RUN_COMPLETED | Raise _ => RUN_FAILED end;
     run_error := match verdict with Ok _ => None | Raise e => Some (class_name e) end |}.

Definition add_run (row : uuid → JobRun) : prog () := id ← uuid4; add TJobRun (row id).

(** The run from the moment it holds the lock.  When the commit is refused, the
    session is unusable until it is rolled back: the commit of the [except]
    branch and the release of the [finally] both raise. *)
Definition finish_job (job : ScheduledJob) (on : date) (p : job_process) (h : host) : result JobOutcome * host :=
  let (verdict, d1) := perform job on (store h) in
  match transact no_deferred (add_run (job_run_row job on p (db_now (store h)) verdict)) d1 with
  | (Ok _, d2) =>
      (match verdict with Ok _ => Ok COMPLETED | Raise e => Raise e end,
       release_advisory_lock (conn_after p) (job_name job) (Host d2 (advisory_locks h)))
  | (Raise _, d2) => (Raise PendingRollbackError, Host d2 (advisory_locks h))
  end.

Definition run_job (job : ScheduledJob) (on : date) (p : job_process) (h : host) : result JobOutcome * host :=
  let (locked, h1) := try_advisory_lock (conn p) (job_name job) h in
  if locked then finish_job job on p h1 else (Ok SKIPPED, h1).

(** The processes of a host, interleaved: taking the lock and finishing are two
    steps, and anything may be committed in between. *)
Inductive host_step : host → host → Prop :=
  | step_begin job p h : host_step h (try_advisory_lock (conn p) (job_name job) h).2
  | step_finish job on p h :
      (conn p, hashtext (job_name job)) ∈ advisory_locks h → host_step h (finish_job job on p h).2
  | step_disconnect c h : host_step h (disconnect c h)
  | step_commit d h : host_step h (Host d (advisory_locks h)).

(** A key is held by one connection. *)
Definition exclusive (h : host) : Prop :=
  ∀ c c' k, (c, k) ∈ advisory_locks h → (c', k) ∈ advisory_locks h → c = c'.
End Base.

(** ** The jobs *)

Definition discard {A} (r : result A * db) : result () * db :=
  (match r.1 with Ok _ => Ok tt | Raise e => Raise e end, r.2).

(** [NoopJob] *)
Definition noop_job : ScheduledJob :=
  {| job_name := "noop"; cadence := DAILY; perform := λ _ d, (Ok tt, d) |}.

(** [DailyValuationJob] *)
Definition daily_valuation_job `{MarketPorts} (now : instant) : ScheduledJob :=
  {| job_name := "daily_valuation"; cadence := DAILY;
     perform := λ on, transact no_deferred (daily_valuation now on) |}.

(** [SnapshotCrossCheckJob.perform]: the failures are collected, anything else
    propagates; a non-empty list is raised after the sweep's own transaction. *)
Definition cross_check_failed (e : exn) : bool :=
  match e with SnapshotCrossCheckFailedError => true | _ => false end.

Fixpoint cross_check_all (d : db) (l : list PublishedSnapshot) : result (list uuid) :=
  match l with
  | [] => Ok []
  | s :: l =>
      match cross_check s d with
      | Ok _ => cross_check_all d l
      | Raise e =>
          if cross_check_failed e then failures ← cross_check_all d l; Ok (snapshot_id s :: failures)
          else Raise e
      end
  end.

Definition snapshot_sweep (d : db) : result () :=
  failures ← cross_check_all d (published_snapshots d);
  ensure (bool_decide (failures = [])) SnapshotCrossCheckFailedError.

Definition snapshot_cross_check_job : ScheduledJob :=
  {| job_name := "snapshot_cross_check_sweep"; cadence := DAILY; perform := λ _ d, (snapshot_sweep d, d) |}.

(** [MorningReconciliationJob] *)
Definition morning_reconciliation_job `{TradingCalendar} (sim : Simulator) (now : instant) : ScheduledJob :=
  {| job_name := "morning_reconciliation"; cadence := DAILY;
     perform := λ on d, discard (transact no_deferred (morning_reconciliation sim now on) d) |}.

(** [MonthlyRebalanceJob] *)
Definition monthly_rebalance_job (s : RebalanceSettings) : ScheduledJob :=
  {| job_name := "monthly_rebalance"; cadence := MONTHLY;
     perform := λ on, transact ledger_balance (monthly_rebalance s on) |}.

(** [DailyFeeAccrualJob] *)
Definition daily_fee_accrual_job (fee_rate_pct : dec) (now : instant) : ScheduledJob :=
  {| job_name := "daily_fee_accrual"; cadence := DAILY;
     perform := λ on, transact ledger_balance (daily_fee_accrual fee_rate_pct now on) |}.

(** [MonthlyFeeChargeJob] *)
Definition monthly_fee_charge_job : ScheduledJob :=
  {| job_name := "monthly_fee_charge"; cadence := MONTHLY;
     perform := λ on, transact ledger_balance (monthly_fee_charge on) |}.

(** [DunningRetryJob] *)
Definition dunning_retry_job (port : charge_port) (max_attempts : Z) (now : instant) : ScheduledJob :=
  {| job_name := "dunning_retry"; cadence := CONTINUOUS; perform := λ _, dunning_retry port max_attempts now |}.

(** ** [SeedReferenceDataJob] *)

Record SecuritySpec := { spec_symbol : string; spec_name : string; spec_asset_class : SecurityAssetClass }.
Record ModelPortfolioSpec := { spec_model_name : string; spec_weights : list (string * Z) }.

Definition SECURITIES : list SecuritySpec :=
  [{| spec_symbol := "VTI"; spec_name := "Vanguard Total Stock Market ETF"; spec_asset_class := EQUITY |};
   {| spec_symbol := "VXUS"; spec_name := "Vanguard Total International Stock ETF"; spec_asset_class := EQUITY |};
   {| spec_symbol := "BND"; spec_name := "Vanguard Total Bond Market ETF"; spec_asset_class := BOND |};
   {| spec_symbol := "BIL"; spec_name := "SPDR Bloomberg 1-3 Month T-Bill ETF"; spec_asset_class := BOND |}].

(** The weights, in quanta of 0.0001. *)
Definition MODEL_PORTFOLIOS : list ModelPortfolioSpec :=
  [{| spec_model_name := "Conservative";
      spec_weights := [("VTI", 1500); ("VXUS", 500); ("BND", 6500); ("BIL", 1500)] |};
   {| spec_model_name := "Balanced";
      spec_weights := [("VTI", 3500); ("VXUS", 1500); ("BND", 4500); ("BIL", 500)] |};
   {| spec_model_name := "Growth";
      spec_weights := [("VTI", 5500); ("VXUS", 2000); ("BND", 2000); ("BIL", 500)] |};
   {| spec_model_name := "Aggressive"; spec_weights := [("VTI", 7200); ("VXUS", 2500); ("BND", 300)] |}].

Record SeedReferenceDataResult := {
  securities_created : list string;
  securities_skipped : list string;
  model_portfolios_created : list string;
  model_portfolios_skipped : list string;
}.

(** [SecurityRepository.get_by_symbol] *)
Definition security_by_symbol (d : db) (symbol : string) : option Security :=
  head (filter (λ s, security_symbol s = symbol) (securities d)).

(** The accumulator: [by_symbol], [created], [skipped]. *)
Definition seed_security (acc : list (string * Security) * list string * list string) (spec : SecuritySpec)
    : prog (list (string * Security) * list string * list string) :=
  let '(by_symbol, created, skipped) := acc in
  existing ← gets (λ d, security_by_symbol d (spec_symbol spec));
  match existing with
  | Some s => mret (by_symbol ++ [(spec_symbol spec, s)], created, skipped ++ [spec_symbol spec])
  | None =>
      id ← uuid4;
      now ← gets db_now;
      let s := {| security_id := id; security_symbol := spec_symbol spec; security_name := spec_name spec;
                  security_asset_class := spec_asset_class spec; security_status := SECURITY_ACTIVE;
                  security_created_at := now |} in
      add TSecurity s ;;
      mret (by_symbol ++ [(spec_symbol spec, s)], created ++ [spec_symbol spec], skipped)
  end.

(** [securities_by_symbol[symbol]] *)
Definition symbol_of (by_symbol : list (string * Security)) (symbol : string) : result Security :=
  match head (filter (λ e, e.1 = symbol) by_symbol) with Some e => Ok e.2 | None => Raise KeyError end.

Definition seed_weight (by_symbol : list (string * Security)) (model : uuid) (w : string * Z) : prog () :=
  s ← lift (symbol_of by_symbol w.1);
  id ← uuid4;
  add TTargetWeight {| weight_id := id; weight_model_portfolio_id := model;
                       weight_security_id := security_id s; weight_pct := w.2 |}.

Definition seed_model_portfolio (by_symbol : list (string * Security)) (acc : list string * list string)
    (spec : ModelPortfolioSpec) : prog (list string * list string) :=
  existing ← gets (λ d, model_by_name d (spec_model_name spec));
  match existing with
  | Some _ => mret (acc.1, acc.2 ++ [spec_model_name spec])
  | None =>
      id ← uuid4;
      add TModelPortfolio {| model_id := id; model_name := spec_model_name spec; model_is_active := true |} ;;
      for_each (spec_weights spec) (seed_weight by_symbol id) ;;
      mret (acc.1 ++ [spec_model_name spec], acc.2)
  end.

Definition seed_reference_data : prog SeedReferenceDataResult :=
  seeded ← fold_prog seed_security SECURITIES ([], [], []);
  let '(by_symbol, created, skipped) := seeded in
  models ← fold_prog (seed_model_portfolio by_symbol) MODEL_PORTFOLIOS ([], []);
  mret {| securities_created := created; securities_skipped := skipped;
          model_portfolios_created := models.1; model_portfolios_skipped := models.2 |}.

(** The deferred trigger [target_weight_sum], run at COMMIT for the rows
    written since [before]. *)
Definition target_weight_sum (before d : db) : bool :=
  forallb (λ w, sum_by weight_pct (list_for_model d (weight_model_portfolio_id w)) =? 10000)
          (drop (length (target_weights before)) (target_weights d)).

(** [SeedReferenceDataJob.run] *)
Definition run_seed (d : db) : result SeedReferenceDataResult * db :=
  transact (target_weight_sum d) seed_reference_data d.

(** ** Lemmas: locks *)

Section Runs.
Context (hashtext : string → Z) (class_name : exn → string).

Lemma try_lock_free c name h :
  (∀ c', (c', hashtext name) ∈ advisory_locks h → c' = c) →
  try_advisory_lock hashtext c name h = (true, Host (store h) ((c, hashtext name) :: advisory_locks h)).
Proof.
  intros Hfree. unfold try_advisory_lock. destruct (existsb _ _) eqn:E; [|done].
  apply existsb_exists in E as ([c' k] & Hin%list_elem_of_In & [Hk%Z.eqb_eq Hc%negb_true_iff]%andb_true_iff).
  cbn in Hk, Hc. subst k. apply Z.eqb_neq in Hc. by destruct Hc; apply Hfree.
Qed.

Lemma try_lock_held c c' name h :
  (c', hashtext name) ∈ advisory_locks h → c' ≠ c → try_advisory_lock hashtext c name h = (false, h).
Proof.
  intros Hin Hne. unfold try_advisory_lock. rewrite (proj2 (existsb_exists _ _)); [done|].
  exists (c', hashtext name). split; [by apply list_elem_of_In|]. cbn. rewrite Z.eqb_refl. cbn.
  by apply negb_true_iff, Z.eqb_neq.
Qed.

Lemma release_own c name d l :
  release_advisory_lock hashtext c name (Host d ((c, hashtext name) :: l)) = Host d l.
Proof. unfold release_advisory_lock. cbn. by rewrite decide_True. Qed.

Lemma remove_first_elem x y l : y ∈ remove_first x l → y ∈ l.
Proof.
  induction l as [|z l IH]; cbn; [done|]. case_decide; [by right|].
  intros [->|Hy%IH]%elem_of_cons; [by left|by right].
Qed.

Lemma remove_first_absent x l : x ∉ l → remove_first x l = l.
Proof.
  induction l as [|z l IH]; cbn; [done|]. intros [Hne Hx]%not_elem_of_cons.
  rewrite decide_False by done. by rewrite IH.
Qed.

Lemma release_locks c name h l : l ∈ advisory_locks (release_advisory_lock hashtext c name h) → l ∈ advisory_locks h.
Proof. apply remove_first_elem. Qed.

Lemma exclusive_incl h h' : (∀ l, l ∈ advisory_locks h' → l ∈ advisory_locks h) → exclusive h → exclusive h'.
Proof. intros Hin He c c' k H1%Hin H2%Hin. by apply (He c c' k). Qed.

Lemma finish_locks job on p h l :
  l ∈ advisory_locks (finish_job hashtext class_name job on p h).2 → l ∈ advisory_locks h.
Proof.
  unfold finish_job. destruct (perform job on (store h)) as [v d1].
  destruct (transact _ _ d1) as [[[]|e] d2]; cbn [snd]; [|done]. intros Hl%release_locks. exact Hl.
Qed.

(** However the processes interleave, a job's lock is held by at most one
    connection, and while one holds it a run on any other is skipped: it
    performs nothing and changes nothing. *)
Theorem one_run_at_a_time h h' :
  exclusive h → rtc (host_step hashtext class_name) h h' →
  exclusive h' ∧
  ∀ c job on p, (c, hashtext (job_name job)) ∈ advisory_locks h' → conn p ≠ c →
    run_job hashtext class_name job on p h' = (Ok SKIPPED, h').
Proof.
  intros He Hs. assert (exclusive h') as He'.
  { revert He. induction Hs as [h|h h1 h2 Hstep _ IH]; [done|]. intros He. apply IH.
    destruct Hstep as [job p h|job on p h _|c h|d h].
    - unfold try_advisory_lock. destruct (existsb _ _) eqn:E; [done|]. cbn [snd]. intros c c' k Hc Hc'. cbn in Hc, Hc'.
      assert (∀ c0, (c0, hashtext (job_name job)) ∈ advisory_locks h → c0 = conn p) as Hfree.
      { intros c0 H0. destruct (decide (c0 = conn p)) as [|Hne]; [done|].
        pose proof (try_lock_held (conn p) c0 (job_name job) h H0 Hne) as Ht.
        unfold try_advisory_lock in Ht. by rewrite E in Ht. }
      apply elem_of_cons in Hc as [Hc|Hc]; apply elem_of_cons in Hc' as [Hc'|Hc']; simplify_eq; try done.
      + symmetry. by apply Hfree.
      + by apply Hfree.
      + by apply (He c c' k).
    - eapply exclusive_incl; [|exact He]. apply finish_locks.
    - eapply exclusive_incl; [|exact He]. intros l. cbn. by intros [_ Hl]%list_elem_of_filter.
    - exact He. }
  split; [done|]. intros c job on p Hc Hne. unfold run_job. by rewrite (try_lock_held _ c).
Qed.

(** ** What one run leaves *)

Lemma run_add_run row (d d' : db) u :
  run (add_run row) d = Ok (u, d') ↔
  accepts (H := trueup) TJobRun d (row (next_uuid d)) = true ∧
  d' = insert_row (H := trueup) TJobRun (row (next_uuid d)) (Db (tables d) (next_uuid d + 1) (db_now d)).
Proof.
  destruct u. unfold add_run. rewrite run_bind_Ok. split.
  - intros (id & d1 & [-> ->]%run_uuid4_Ok & Ha). by apply run_add_Ok in Ha.
  - intros [Hacc ->]. exists (next_uuid d), (Db (tables d) (next_uuid d + 1) (db_now d)).
    split; [by apply run_uuid4_Ok|]. by apply run_add_Ok.
Qed.

(** The job's verdict, as [run] reports it. *)
Definition outcome_of (verdict : result ()) : result JobOutcome :=
  match verdict with Ok _ => Ok COMPLETED | Raise e => Raise e end.

Lemma finish_recorded job on p h v d1 :
  perform job on (store h) = (v, d1) →
  accepts (H := trueup) TJobRun d1 (job_run_row class_name job on p (db_now (store h)) v (next_uuid d1)) = true →
  finish_job hashtext class_name job on p h =
    (outcome_of v, release_advisory_lock hashtext (conn_after p) (job_name job)
       (Host (insert_row (H := trueup) TJobRun (job_run_row class_name job on p (db_now (store h)) v (next_uuid d1))
                (Db (tables d1) (next_uuid d1 + 1) (db_now d1))) (advisory_locks h))).
Proof.
  intros Hp Hacc. unfold finish_job. rewrite Hp. unfold transact.
  rewrite (proj2 (run_add_run _ d1 _ tt) (conj Hacc eq_refl)). done.
Qed.

Lemma finish_refused job on p h v d1 :
  perform job on (store h) = (v, d1) →
  accepts (H := trueup) TJobRun d1 (job_run_row class_name job on p (db_now (store h)) v (next_uuid d1)) = false →
  finish_job hashtext class_name job on p h = (Raise PendingRollbackError, Host d1 (advisory_locks h)).
Proof.
  intros Hp Hacc. unfold finish_job. rewrite Hp. unfold transact.
  destruct (run _ d1) as [[[] d2]|e] eqn:E; [|done].
  apply run_add_run in E as [E _]. rewrite Hacc in E. done.
Qed.

(** A run that takes the lock performs the job once and records it: the
    store is the one the job left with one more [job_run] row, COMPLETED or
    FAILED with the exception's class, which [run] raises again; and when the
    session gets its connection back, the lock is released. *)
Theorem job_run_recorded job on p h v d1 :
  (∀ c, (c, hashtext (job_name job)) ∈ advisory_locks h → c = conn p) →
  perform job on (store h) = (v, d1) →
  accepts (H := trueup) TJobRun d1 (job_run_row class_name job on p (db_now (store h)) v (next_uuid d1)) = true →
  ∃ h' r,
    run_job hashtext class_name job on p h = (outcome_of v, h') ∧
    job_runs (store h') = job_runs d1 ++ [r] ∧
    (∀ t : tables_, t ≠ TJobRun → tables (H := trueup) (store h') t = tables d1 t) ∧
    run_job_name r = job_name job ∧ run_market_date r = on ∧ run_completed_at r = Some (finished_at p) ∧
    match v with
    | Ok _ => run_status r = RUN_COMPLETED ∧ run_error r = None
    | Raise e => run_status r = RUN_FAILED ∧ run_error r = Some (class_name e)
    end ∧
    (conn_after p = conn p → advisory_locks h' = advisory_locks h).
Proof.
  intros Hfree Hp Hacc.
  pose proof (finish_recorded job on p (Host (store h) ((conn p, hashtext (job_name job)) :: advisory_locks h)) v d1 Hp Hacc) as Hf.
  eexists _, (job_run_row class_name job on p (db_now (store h)) v (next_uuid d1)). split.
  { unfold run_job. rewrite (try_lock_free _ _ _ Hfree). exact Hf. }
  split; [exact (tables_set_same (H := trueup) TJobRun _ (Db (tables d1) (next_uuid d1 + 1) (db_now d1)))|].
  split; [intros t Ht; exact (tables_set_ne (H := trueup) TJobRun t _ _ (not_eq_sym Ht))|].
  split_and!; [done..|by destruct v|]. intros Hc. cbn [advisory_locks store]. rewrite Hc. by rewrite release_own.
Qed.

(** Two rows of one grain: the unique indexes of [job_run]. *)
Definition same_grain (job : ScheduledJob) (on : date) (r : JobRun) : Prop :=
  run_job_name r = job_name job ∧ run_cadence r = cadence job ∧
  (cadence job = DAILY ∧ run_market_date r = on ∨
   cadence job = MONTHLY ∧ job_run_month_start (run_market_date r) = job_run_month_start on).

Lemma same_grain_refused job on p at_ v id (d : db) r :
  r ∈ job_runs d → same_grain job on r →
  accepts (H := trueup) TJobRun d (job_run_row class_name job on p at_ v id) = false.
Proof.
  intros Hr (Hn & Hc & Hg). unfold accepts. apply andb_false_iff. right. apply not_true_iff_false. intros Hall.
  rewrite forallb_forall in Hall. specialize (Hall r (proj1 (list_elem_of_In _ _) Hr)).
  apply negb_true_iff in Hall. revert Hall. cbn. apply not_false_iff_true, orb_true_iff. right.
  rewrite Hn, String.eqb_refl. cbn [andb]. rewrite !Hc.
  destruct Hg as [[-> ->]|[-> Hm]]; cbn; [by rewrite Z.eqb_refl|]. by rewrite Hm, Z.eqb_refl.
Qed.

(** Two market dates of one period of the job: the same day, or days of one
    calendar month; a continuous job has none. *)
Definition same_period (job : ScheduledJob) (on on' : date) : Prop :=
  match cadence job with
  | DAILY => on' = on
  | MONTHLY => MIN_ORDINAL <= on <= MAX_ORDINAL ∧ MIN_ORDINAL <= on' <= MAX_ORDINAL ∧
      (ymd_of_date on').1 = (ymd_of_date on).1
  | CONTINUOUS => False
  end.

(** The first of the month is determined by year and month. *)
Lemma month_start_of n y m day :
  MIN_ORDINAL <= n <= MAX_ORDINAL → ymd_of_date n = (y, m, day) →
  job_run_month_start n = days_before_year y + days_before_month (is_leap y) m + 1.
Proof.
  intros Hn Hy. destruct (ymd_spec n Hn) as (y' & m' & d' & Hy' & Hd & _).
  rewrite Hy in Hy'. injection Hy' as <- <- <-. unfold job_run_month_start. rewrite Hy. cbn [snd].
  unfold date_of_ymd in Hd. destruct (_ && _); [|done]. injection Hd as Hd. lia.
Qed.

Lemma same_period_grain job on on' r :
  same_period job on on' → run_job_name r = job_name job → run_cadence r = cadence job → run_market_date r = on →
  same_grain job on' r.
Proof.
  unfold same_period. intros Hs Hn Hc Hd. split_and!; [done|done|]. destruct (cadence job); [left|right|done].
  - split; [done|]. congruence.
  - split; [done|]. destruct Hs as (H1 & H2 & Heq). rewrite Hd.
    destruct (ymd_of_date on) as [[y m] day] eqn:E1, (ymd_of_date on') as [[y' m'] day'] eqn:E2. injection Heq as -> ->.
    by rewrite (month_start_of _ _ _ _ H1 E1), (month_start_of _ _ _ _ H2 E2).
Qed.

(** C32. A daily or monthly job that failed cannot be retried in its period.  A
    later run of the job for the same day, or for any day of the same month if it
    is monthly, performs the job again and keeps what it committed, but its row
    clashes with the FAILED one, so it adds no row, whatever its verdict: [run]
    raises [PendingRollbackError] and its lock stays with its connection. *)
Theorem retry_is_never_recorded job on on' p p' h e d1 v d2 :
  (∀ c, (c, hashtext (job_name job)) ∉ advisory_locks h) → conn_after p = conn p →
  same_period job on on' → perform job on (store h) = (Raise e, d1) →
  accepts (H := trueup) TJobRun d1 (job_run_row class_name job on p (db_now (store h)) (Raise e) (next_uuid d1)) = true →
  let h1 := (run_job hashtext class_name job on p h).2 in
  perform job on' (store h1) = (v, d2) → job_runs (store h1) ⊆ job_runs d2 →
  (run_job hashtext class_name job on p h).1 = Raise e ∧
  run_job hashtext class_name job on' p' h1 =
    (Raise PendingRollbackError, Host d2 ((conn p', hashtext (job_name job)) :: advisory_locks h)) ∧
  ∃ r, r ∈ job_runs d2 ∧ run_job_name r = job_name job ∧ run_market_date r = on ∧ run_status r = RUN_FAILED.
Proof.
  intros Hfree Hc Hcad Hp Hacc h1 Hp' Hsub.
  assert (run_job hashtext class_name job on p h =
    (Raise e, Host (insert_row (H := trueup) TJobRun (job_run_row class_name job on p (db_now (store h)) (Raise e) (next_uuid d1))
                      (Db (tables d1) (next_uuid d1 + 1) (db_now d1))) (advisory_locks h))) as Hrun.
  { unfold run_job. rewrite (try_lock_free _ _ h); [|by intros c Hin%Hfree].
    rewrite (finish_recorded job on p (Host (store h) ((conn p, hashtext (job_name job)) :: advisory_locks h)) _ _ Hp Hacc).
    cbn [advisory_locks store]. by rewrite Hc, release_own. }
  unfold h1 in *. clear h1. rewrite Hrun in *. cbn [fst snd store advisory_locks] in *.
  set (r := job_run_row class_name job on p (db_now (store h)) (Raise e) (next_uuid d1)) in *.
  assert (r ∈ job_runs d2) as Hr.
  { apply Hsub. unfold job_runs, insert_row.
    rewrite (tables_set_same (H := trueup) TJobRun _ (Db (tables d1) (next_uuid d1 + 1) (db_now d1))). apply elem_of_app. right. by left. }
  assert (same_grain job on' r) as Hg by (by apply (same_period_grain job on)).
  split_and!; [done| |by exists r].
  unfold run_job. rewrite (try_lock_free _ _ _); [|by intros c Hin%Hfree]. cbn [store advisory_locks].
  exact (finish_refused job on' p' (Host _ ((conn p', hashtext (job_name job)) :: advisory_locks h)) v d2 Hp'
    (same_grain_refused _ _ _ _ _ _ _ _ Hr Hg)).
Qed.

(** The lock a run took stays when its session continues on another connection. *)
Lemma lock_left_behind job on p h v d1 :
  (∀ c, (c, hashtext (job_name job)) ∉ advisory_locks h) → conn_after p ≠ conn p →
  perform job on (store h) = (v, d1) →
  accepts (H := trueup) TJobRun d1 (job_run_row class_name job on p (db_now (store h)) v (next_uuid d1)) = true →
  advisory_locks (run_job hashtext class_name job on p h).2 = (conn p, hashtext (job_name job)) :: advisory_locks h.
Proof.
  intros Hfree Hne Hp Hacc. unfold run_job. rewrite (try_lock_free _ _ h); [|by intros c Hin%Hfree].
  rewrite (finish_recorded job on p (Host (store h) ((conn p, hashtext (job_name job)) :: advisory_locks h)) _ _ Hp Hacc).
  unfold release_advisory_lock. cbn. rewrite decide_False by congruence.
  by rewrite remove_first_absent by apply Hfree.
Qed.
End Runs.

(** ** The sweep *)

(** The nightly sweep is silent exactly when every published snapshot still
    agrees with its derivation; a disagreement is raised, whatever its place. *)
Theorem sweep_silent_iff d :
  (snapshot_sweep d = Ok () ↔ Forall (λ s, cross_check s d = Ok ()) (published_snapshots d)) ∧
  (Forall (λ s, cross_check s d = Ok () ∨ cross_check s d = Raise SnapshotCrossCheckFailedError) (published_snapshots d) →
   Exists (λ s, cross_check s d = Raise SnapshotCrossCheckFailedError) (published_snapshots d) →
   snapshot_sweep d = Raise SnapshotCrossCheckFailedError).
Proof.
  unfold snapshot_sweep. generalize (published_snapshots d) as l. intros l. split.
  - assert (cross_check_all d l = Ok [] ↔ Forall (λ s, cross_check s d = Ok ()) l) as <-.
    { induction l as [|s l IH]; cbn [cross_check_all]; [by split|]. rewrite Forall_cons.
      destruct (cross_check s d) as [[]|e].
      { rewrite IH. split; [by split|by intros [_ ?]]. }
      split; [|by intros [? _]].
      destruct (cross_check_failed e); [|done]. by destruct (cross_check_all d l). }
    destruct (cross_check_all d l) as [k|e]; cbn; [|by split]. case_bool_decide; cbn; split; congruence.
  - intros Hall Hex. assert (∃ k, cross_check_all d l = Ok k ∧ k ≠ []) as (k & -> & Hk).
    { assert (∃ k, cross_check_all d l = Ok k) as [k Hk].
      { clear Hex. induction Hall as [|s l Hs _ [k IH]]; [by exists []|]. cbn [cross_check_all].
        destruct Hs as [-> | ->]; [by exists k|]. cbn. rewrite IH. by eexists. }
      exists k. split; [done|]. intros ->. induction Hex as [s l Hs|s l _ IH]; cbn [cross_check_all] in Hk.
      - rewrite Hs in Hk. cbn in Hk. by destruct (cross_check_all d l).
      - apply Forall_cons in Hall as [[Hs|Hs] Hall]; rewrite Hs in Hk; [by apply IH|].
        cbn in Hk. by destruct (cross_check_all d l). }
    cbn. by rewrite bool_decide_eq_false_2.
Qed.

(** ** The seed *)

Definition listed (d : db) (symbol : string) : Prop := is_Some (security_by_symbol d symbol).
Definition modelled (d : db) (name : string) : Prop := is_Some (model_by_name d name).

Lemma head_filter_some {A} (P : A → Prop) `{∀ x, Decision (P x)} (l : list A) :
  is_Some (head (filter P l)) ↔ ∃ x, x ∈ l ∧ P x.
Proof.
  split.
  - intros [x Hx]. exists x. destruct (filter P l) as [|y k] eqn:E; [done|]. injection Hx as <-.
    apply and_comm, (list_elem_of_filter P). rewrite E. by left.
  - intros (x & Hin & Hx). destruct (filter P l) as [|y k] eqn:E; [|by eexists].
    exfalso. apply (not_elem_of_nil x). rewrite <- E. by apply list_elem_of_filter.
Qed.

Lemma listed_mono d d' symbol : securities d ⊆ securities d' → listed d symbol → listed d' symbol.
Proof. unfold listed, security_by_symbol. rewrite !head_filter_some. intros Hs (x & Hx & He). exists x. split; [by apply Hs|done]. Qed.

Lemma modelled_mono d d' name : model_portfolios d ⊆ model_portfolios d' → modelled d name → modelled d' name.
Proof. unfold modelled, model_by_name. rewrite !head_filter_some. intros Hs (x & Hx & He). exists x. split; [by apply Hs|done]. Qed.

Lemma seed_security_spec acc spec d acc' d' :
  run (seed_security acc spec) d = Ok (acc', d') →
  listed d' (spec_symbol spec) ∧ securities d ⊆ securities d' ∧ model_portfolios d' = model_portfolios d.
Proof.
  destruct acc as [[by_symbol created] skipped]. unfold seed_security. rewrite run_bind_Ok.
  intros (found & d1 & [<- <-]%run_gets_Ok & Hr).
  destruct (security_by_symbol d (spec_symbol spec)) as [s|] eqn:E.
  { apply run_ret_Ok in Hr as [_ <-]. split_and!; [by eexists|done|done]. }
  apply run_bind_Ok in Hr as (id & d1 & [-> ->]%run_uuid4_Ok & Hr).
  apply run_bind_Ok in Hr as (now & d1 & [<- <-]%run_gets_Ok & Hr). cbv zeta in Hr.
  apply run_bind_Ok in Hr as ([] & d1 & [_ ->]%run_add_Ok & [_ <-]%run_ret_Ok).
  match goal with |- listed (insert_row _ ?r ?x) _ ∧ _ => set (s := r) in *; set (d2 := x) end.
  assert (securities (insert_row (H := trueup) TSecurity s d2) = securities d2 ++ [s]) as Hs
    by exact (tables_set_same (H := trueup) TSecurity _ d2).
  split_and!; [| |done].
  - apply head_filter_some. exists s. split; [|done]. rewrite Hs.
    apply elem_of_app. right. by apply list_elem_of_singleton.
  - intros x Hx. rewrite Hs. apply elem_of_app. by left.
Qed.

Lemma seed_securities_spec specs acc d acc' d' :
  run (fold_prog seed_security specs acc) d = Ok (acc', d') →
  Forall (λ spec, listed d' (spec_symbol spec)) specs ∧ securities d ⊆ securities d' ∧
  model_portfolios d' = model_portfolios d.
Proof.
  revert acc d. induction specs as [|spec specs IH]; intros acc d; cbn [fold_prog].
  { intros [_ <-]%run_ret_Ok. by split_and!; [constructor|..]. }
  intros (acc1 & d1 & (Hl & Hs & Hm)%seed_security_spec & (Hall & Hs' & Hm')%IH)%run_bind_Ok.
  split_and!; [constructor; [by apply (listed_mono d1)|done]|by etrans|congruence].
Qed.

Lemma writes_seed_weight by_symbol model w : writes (H := trueup) [TTargetWeight] (seed_weight by_symbol model w).
Proof.
  unfold seed_weight. apply writes_bind; [apply writes_lift|intros s].
  apply writes_bind; [apply writes_uuid4|intros id]. apply writes_add. by left.
Qed.

Lemma seed_model_spec by_symbol acc spec d acc' d' :
  run (seed_model_portfolio by_symbol acc spec) d = Ok (acc', d') →
  modelled d' (spec_model_name spec) ∧ model_portfolios d ⊆ model_portfolios d' ∧ securities d' = securities d.
Proof.
  unfold seed_model_portfolio. rewrite run_bind_Ok.
  intros (found & d1 & [<- <-]%run_gets_Ok & Hr).
  destruct (model_by_name d (spec_model_name spec)) as [m|] eqn:E.
  { apply run_ret_Ok in Hr as [_ <-]. split_and!; [by eexists|done|done]. }
  apply run_bind_Ok in Hr as (id & d1 & [-> ->]%run_uuid4_Ok & Hr).
  apply run_bind_Ok in Hr as ([] & d1 & [_ ->]%run_add_Ok & Hr).
  apply run_bind_Ok in Hr as ([] & d3 & Hw & [_ <-]%run_ret_Ok).
  pose proof (writes_for_each [TTargetWeight] _ _ (λ w _, writes_seed_weight by_symbol (next_uuid d) w) _ _ _ Hw) as Hf.
  match type of Hw with run _ (insert_row _ ?r ?x) = _ => set (m := r) in *; set (d2 := x) in * end.
  assert (model_portfolios (insert_row (H := trueup) TModelPortfolio m d2) = model_portfolios d2 ++ [m]) as Hs
    by exact (tables_set_same (H := trueup) TModelPortfolio _ d2).
  assert (model_portfolios d3 = model_portfolios d2 ++ [m]) as Hm3
    by (rewrite <- Hs; apply (Hf TModelPortfolio); set_solver).
  split_and!.
  - apply head_filter_some. exists m. split; [|done]. rewrite Hm3. apply elem_of_app. right. by apply list_elem_of_singleton.
  - intros x Hx. rewrite Hm3. apply elem_of_app. by left.
  - by etrans; [apply (Hf TSecurity); set_solver|].
Qed.

Lemma seed_models_spec by_symbol specs acc d acc' d' :
  run (fold_prog (seed_model_portfolio by_symbol) specs acc) d = Ok (acc', d') →
  Forall (λ spec, modelled d' (spec_model_name spec)) specs ∧ model_portfolios d ⊆ model_portfolios d' ∧
  securities d' = securities d.
Proof.
  revert acc d. induction specs as [|spec specs IH]; intros acc d; cbn [fold_prog].
  { intros [_ <-]%run_ret_Ok. by split_and!; [constructor|..]. }
  intros (acc1 & d1 & (Hl & Hs & Hm)%seed_model_spec & (Hall & Hs' & Hm')%IH)%run_bind_Ok.
  split_and!; [constructor; [by apply (modelled_mono d1)|done]|by etrans|congruence].
Qed.

(** Over a store that has them all, both loops only read. *)
Lemma seed_securities_again specs by_symbol created skipped d :
  Forall (λ spec, listed d (spec_symbol spec)) specs →
  ∃ by_symbol', run (fold_prog seed_security specs (by_symbol, created, skipped)) d =
    Ok ((by_symbol', created, skipped ++ (spec_symbol <$> specs)), d).
Proof.
  intros Hall. revert by_symbol skipped. induction Hall as [|spec specs [s Hs] _ IH]; intros by_symbol skipped; cbn [fold_prog fmap list_fmap].
  { exists by_symbol. by rewrite app_nil_r. }
  destruct (IH (by_symbol ++ [(spec_symbol spec, s)]) (skipped ++ [spec_symbol spec])) as [k Hk].
  exists k. rewrite run_bind. unfold seed_security at 1. cbn [mbind prog_bind gets run]. rewrite Hs. cbn [mret prog_ret run].
  by rewrite Hk, <- app_assoc.
Qed.

Lemma seed_models_again by_symbol specs created skipped d :
  Forall (λ spec, modelled d (spec_model_name spec)) specs →
  run (fold_prog (seed_model_portfolio by_symbol) specs (created, skipped)) d =
    Ok ((created, skipped ++ (spec_model_name <$> specs)), d).
Proof.
  intros Hall. revert skipped. induction Hall as [|spec specs [m Hm] _ IH]; intros skipped; cbn [fold_prog fmap list_fmap].
  { by rewrite app_nil_r. }
  rewrite run_bind. unfold seed_model_portfolio at 1. cbn [mbind prog_bind gets run]. rewrite Hm. cbn [mret prog_ret run fst snd].
  by rewrite IH, <- app_assoc.
Qed.

(** The seed is idempotent: after it has run, another run creates nothing,
    reports everything as already present and leaves the store as it was. *)
Theorem seed_idempotent d r d1 :
  run_seed d = (Ok r, d1) →
  run_seed d1 = (Ok {| securities_created := []; securities_skipped := spec_symbol <$> SECURITIES;
                       model_portfolios_created := []; model_portfolios_skipped := spec_model_name <$> MODEL_PORTFOLIOS |}, d1).
Proof.
  unfold run_seed at 1, transact. destruct (run _ d) as [[r' d']|e] eqn:E; [|done].
  destruct (target_weight_sum d d'); [|done]. intros [= <- <-].
  unfold seed_reference_data in E. apply run_bind_Ok in E as ([[by_symbol created] skipped] & d2 & E1 & E).
  apply run_bind_Ok in E as (models & d3 & E2 & [_ <-]%run_ret_Ok).
  apply seed_securities_spec in E1 as (Hl & _ & _). apply seed_models_spec in E2 as (Hm & _ & Hs).
  assert (Forall (λ spec, listed d3 (spec_symbol spec)) SECURITIES) as Hl'.
  { apply (Forall_impl _ _ _ Hl). intros spec. apply listed_mono. by rewrite Hs. }
  destruct (seed_securities_again SECURITIES [] [] [] d3 Hl') as [k Hk].
  unfold run_seed, transact, seed_reference_data. rewrite run_bind, Hk, run_bind, seed_models_again by done.
  cbn [run mret prog_ret fst snd app]. unfold target_weight_sum. by rewrite drop_all.
Qed.

(** ** Examples *)

Definition sample_job : ScheduledJob :=
  {| job_name := "nightly"; cadence := DAILY; perform := λ _ d, (Raise RuntimeError, d) |}.

Definition sample_host : host := Host (empty_db 0) [].
Definition sample_process : job_process := {| conn := 1; conn_after := 1; finished_at := 70 |}.
Definition sample_hashtext (s : string) : Z := Z.of_nat (String.length s).
Definition sample_class_name (_ : exn) : string := "RuntimeError".

Lemma one_run_at_a_time_witness :
  run_job sample_hashtext sample_class_name sample_job 738000 {| conn := 2; conn_after := 2; finished_at := 70 |}
    (try_advisory_lock sample_hashtext 1 "nightly" sample_host).2 =
    (Ok SKIPPED, (try_advisory_lock sample_hashtext 1 "nightly" sample_host).2).
Proof.
  assert (exclusive sample_host) as He by (intros c c' k Hc; by apply not_elem_of_nil in Hc).
  assert (rtc (host_step sample_hashtext sample_class_name) sample_host
            (try_advisory_lock sample_hashtext 1 "nightly" sample_host).2) as Hs.
  { apply rtc_once. exact (step_begin sample_hashtext sample_class_name sample_job sample_process sample_host). }
  apply (proj2 (one_run_at_a_time _ _ _ _ He Hs) 1); [by left|done].
Defined.

Lemma job_run_recorded_witness :
  ∃ h' r, run_job sample_hashtext sample_class_name noop_job 738000 sample_process sample_host = (Ok COMPLETED, h') ∧
    job_runs (store h') = [r] ∧ run_status r = RUN_COMPLETED ∧ advisory_locks h' = [].
Proof.
  destruct (job_run_recorded sample_hashtext sample_class_name noop_job 738000 sample_process sample_host (Ok tt) (empty_db 0))
    as (h' & r & Hr & Hj & _ & _ & _ & _ & [Hs _] & Hl).
  - intros c Hc. by apply not_elem_of_nil in Hc.
  - reflexivity.
  - vm_compute. reflexivity.
  - exists h', r. split_and!; [exact Hr|exact Hj|exact Hs|by apply Hl].
Defined.

(** A monthly job that fails on 26 July 2021 and is run again on the 28th. *)
Definition sample_monthly : ScheduledJob :=
  {| job_name := "charges"; cadence := MONTHLY; perform := λ on d, (if on =? 737997 then Raise RuntimeError else Ok tt, d) |}.

Lemma retry_is_never_recorded_witness :
  let h1 := (run_job sample_hashtext sample_class_name sample_monthly 737997 sample_process sample_host).2 in
  ymd_of_date 737997 = (2021, 7, 26) ∧ ymd_of_date 737999 = (2021, 7, 28) ∧
  (run_job sample_hashtext sample_class_name sample_monthly 737999 sample_process h1).1 = Raise PendingRollbackError.
Proof.
  intros h1.
  destruct (retry_is_never_recorded sample_hashtext sample_class_name sample_monthly 737997 737999 sample_process sample_process
              sample_host RuntimeError (empty_db 0) (Ok tt) (store h1)) as (_ & Hr & _).
  - intros c Hc. by apply not_elem_of_nil in Hc.
  - reflexivity.
  - unfold same_period, MIN_ORDINAL, MAX_ORDINAL. cbn [cadence sample_monthly]. split_and!; [lia..|reflexivity].
  - reflexivity.
  - vm_compute. reflexivity.
  - reflexivity.
  - done.
  - split_and!; [reflexivity..|exact (f_equal fst Hr)].
Defined.

Lemma seed_idempotent_witness :
  ∃ r d1, run_seed (empty_db 0) = (Ok r, d1) ∧ (run_seed d1).2 = d1.
Proof.
  assert (∃ r d1, run_seed (empty_db 0) = (Ok r, d1)) as (r & d1 & E).
  { assert (is_ok (run_seed (empty_db 0)).1 = true) as Hok by (vm_compute; reflexivity).
    revert Hok. generalize (run_seed (empty_db 0)). intros [[r|e] d1]; [by exists r, d1|done]. }
  exists r, d1. split; [exact E|]. exact (f_equal snd (seed_idempotent _ _ _ E)).
Defined.

Example seed_creates : length (target_weights (run_seed (empty_db 0)).2) = 15%nat.
Proof. vm_compute. reflexivity. Qed.
