(* ===== verification/Worker.v ===== *)
(** * The outbox worker's process ([jobs/__init__.py], [services/ops/outbox_task_router.py])

    The three routes the always-on process registers, the router that picks one
    by the job's task, and the composition with the intake and the worker: from
    a provider's event to the handler of its source.  The clock readings of a
    handler are those it makes at the store it finds. *)

From S2P Require Import Prelude PyDecimal MoneyTypes Calendar Store Schema Uuids Ledger CashPolicy Funding Valuation Restatement Lots LotBooks Operations Intake OrderEvents Orders OrderBooks OrderCash Fees FeeCharges.
From Stdlib Require Import String.
From stdpp Require Import strings.
Open Scope Z_scope.

(** ** [OutboxTaskRouter] *)

Abbreviation route := (list (string * string) → db → result () * db) (only parsing).

(** [self._routes.get(task)]: the keys of the dict are distinct. *)
Definition route_of (routes : list (string * (list (string * string) → db → result () * db))) (task : string)
    : option route :=
  snd <$> head (filter (λ r, r.1 = task) routes).

(** [OutboxTaskRouter.handle] *)
Definition route_task (routes : list (string * (list (string * string) → db → result () * db))) (task : string)
    (payload : list (string * string)) (d : db) : result () * db :=
  match route_of routes task with
  | None => (Raise UnregisteredOutboxTaskError, d)
  | Some route => route payload d
  end.

(** ** The routes of [outbox_worker_command] *)

(** What the process reads from outside: the provider of card charges when its
    key is configured, the settings, the schema of a trade update, the clocks. *)
Record WorkerPorts := {
  payment_port : option (string → string → Money → string → result ChargeHandle);
  dunning_max_attempts : Z;
  validate_update : list (string * json) → result TradeUpdate;
  submit_readings : db → Readings;
  fee_now : db → instant;
  update_recorded_at : db → instant;
  update_released_at : db → instant;
}.

(** [payload[key]] *)
Definition text_item (key : string) (payload : list (string * string)) : result string :=
  match payload_get key payload with Some s => Ok s | None => Raise KeyError end.

(** An outcome without its value. *)
Definition silent {A} (r : result A * db) : result () * db :=
  (match r.1 with Ok _ => Ok tt | Raise e => Raise e end, r.2).

(** [InboundEventRepository.get_by_id] of the text the payload holds: the
    database reads it as an identifier (the queue holds printed ones). *)
Definition event_by_text (d : db) (id : string) : option InboundEvent :=
  match parse_uuid id with
  | Ok id => head (filter (λ e, event_id e = id) (inbound_events d))
  | Raise _ => None
  end.

(** A table outside a closed list. *)
Ltac not_written := refine (bool_decide_eq_true_1 _ _); vm_compute; reflexivity.

(** *** What the services behind the routes write *)

Definition submit_tables : list tables_ := [TOrderEvent; TOrder; TApprovalHold].

Lemma writes_apply_new_event order event now : writes (H := trueup) submit_tables (apply_new_event order event now).
Proof. unfold apply_new_event, assign_order, submit_tables. pose proof writes_release_if_warranted. writes_auto. Qed.

Lemma writes_synthesize order type payload now :
  writes (H := trueup) submit_tables (synthesize_event order type payload now).
Proof. unfold synthesize_event. pose proof writes_apply_new_event. writes_auto. Qed.

Lemma writes_submit `{BrokerPort} id symbol now : writes (H := trueup) submit_tables (submit_to_broker id symbol now).
Proof. unfold submit_to_broker. pose proof writes_synthesize. writes_auto. Qed.

Definition charge_tables : list tables_ :=
  [TAccount; TInboundEvent; TJournalEntry; TPosting; TFeeCharge; TDunningState].

Lemma writes_charge_success now id s : writes (H := trueup) charge_tables (apply_charge_success now id s).
Proof. unfold apply_charge_success, assign_charge, charge_tables. writes_auto. Qed.

Lemma writes_charge_failure max now id : writes (H := trueup) charge_tables (apply_charge_failure max now id).
Proof. unfold apply_charge_failure, start_dunning, record_retry_failure, assign_charge, assign_dunning, charge_tables. writes_auto. Qed.

Section Routes.
Context `{BrokerPort, TradingCalendar} (utc_offset : instant → Z) (market_instant : date * Z → instant) (w : WorkerPorts).

(** [_submit_order_to_broker] *)
Definition submit_order_task (payload : list (string * string)) (d : db) : result () * db :=
  match (text ← text_item "order_id" payload;
         id ← parse_uuid text;
         symbol ← text_item "symbol" payload;
         Ok (id, symbol)) with
  | Raise e => (Raise e, d)
  | Ok (id, symbol) => silent (transact no_deferred (submit_to_broker id symbol (submit_readings w d)) d)
  end.

(** [FeeChargeOutboxHandler.handle] *)
Definition fee_handle (port : charge_port) (task : string) (payload : list (string * string)) (d : db) : result () * db :=
  if negb (String.eqb task "charge_fee") then (Raise UnregisteredFeeOutboxTaskError, d)
  else
    match (text ← text_item "fee_charge_id" payload; parse_uuid text) with
    | Raise e => (Raise e, d)
    | Ok id => charge_fee port (dunning_max_attempts w) (fee_now w d) id d
    end.

(** [_charge_fee] *)
Definition charge_fee_task (payload : list (string * string)) (d : db) : result () * db :=
  match payment_port w with
  | None => (Raise RuntimeError, d)
  | Some port => fee_handle port "charge_fee" payload d
  end.

(** The dispatcher: the trade updates have a handler, the other two providers'
    events are answered by [lambda payload: None]. *)
Definition trade_update_task (payload : list (string * json)) (d : db) : result () * db :=
  silent (handle_trade_update utc_offset market_instant (validate_update w) payload
            (update_recorded_at w d) (update_released_at w d) d).

Definition ignore_event (_ : list (string * json)) (d : db) : result () * db := (Ok tt, d).

Definition dispatcher : InboundEventSource → option (list (string * json) → db → result () * db) :=
  register_handler (register_handler (register_handler (λ _, None) ALPACA trade_update_task) STRIPE ignore_event) PLAID ignore_event.

(** [_process_inbound_event]: the transaction around the dispatcher only reads. *)
Definition process_inbound_event (payload : list (string * string)) (d : db) : result () * db :=
  dispatch dispatcher (event_by_text d) "process_inbound_event" payload d.

Definition worker_routes : list (string * (list (string * string) → db → result () * db)) :=
  [("submit_order_to_broker", submit_order_task); ("charge_fee", charge_fee_task);
   ("process_inbound_event", process_inbound_event)]%string.

Definition router : string → list (string * string) → db → result () * db := route_task worker_routes.

(** ** The routes leave the queue alone *)

(** A handler that keeps the store sound and the queue as it was. *)
Definition steady (h : db → result () * db) : Prop :=
  ∀ d, integrity d → integrity (h d).2 ∧ outbox (h d).2 = outbox d.

Lemma steady_ret (f : db → result ()) : steady (λ d, (f d, d)).
Proof. done. Qed.

Lemma transact_steady {A} c ts (m : prog A) d :
  writes ts m → TJobOutbox ∉ ts → integrity d →
  integrity (transact c m d).2 ∧ outbox (transact c m d).2 = outbox d.
Proof. intros Hm Ht Hd. split; [by apply transact_integrity|exact (transact_frame c ts m d TJobOutbox Hm Ht)]. Qed.

Definition update_tables : list tables_ := submit_tables ++ fill_tables.

Lemma writes_apply_update type payload message r1 r2 :
  writes (H := trueup) update_tables (apply_update utc_offset market_instant type payload message r1 r2).
Proof.
  assert (Hn : ∀ o e n, writes (H := trueup) update_tables (apply_new_event o e n))
    by (intros; apply (writes_weaken (H := trueup) submit_tables); [apply writes_apply_new_event|intros t Ht; apply elem_of_app; by left]).
  assert (Hl : ∀ o ex m, writes (H := trueup) update_tables (record_lot_fill utc_offset market_instant o ex m))
    by (intros; apply (writes_weaken (H := trueup) fill_tables); [apply writes_record_lot_fill|intros t Ht; apply elem_of_app; by right]).
  unfold apply_update. writes_auto.
Qed.

Lemma submit_order_steady payload : steady (submit_order_task payload).
Proof.
  intros d Hd. unfold submit_order_task. destruct (text_item _ _ ≫= _) as [[id symbol]|e]; [|done].
  apply (transact_steady _ submit_tables); [apply writes_submit|not_written|done].
Qed.

Lemma charge_fee_steady payload : steady (charge_fee_task payload).
Proof.
  intros d Hd. unfold charge_fee_task, fee_handle. destruct (payment_port w) as [port|]; [|done]. cbn [negb String.eqb].
  cbn [Ascii.eqb Bool.eqb negb]. destruct (text_item _ _ ≫= _) as [id|e]; [|done].
  unfold charge_fee. destruct (charge_request id d) as [[[[sc sm] amount]|]|e]; [|done..].
  destruct (port sc sm amount (uuid_str id)) as [h|e].
  - apply (transact_steady _ charge_tables); [apply writes_charge_success|not_written|done].
  - destruct e; try done. apply (transact_steady _ charge_tables); [apply writes_charge_failure|not_written|done].
Qed.

Lemma trade_update_steady payload : steady (trade_update_task payload).
Proof.
  intros d Hd. unfold trade_update_task, handle_trade_update. destruct (validate_update w payload) as [message|e]; [|done].
  destruct (event_type_of _) as [type|]; [|done].
  pose proof (transact_steady ledger_balance update_tables
    (apply_update utc_offset market_instant type payload message (update_recorded_at w d) (update_released_at w d)) d
    (writes_apply_update _ _ _ _ _) ltac:(not_written) Hd) as Ht.
  by destruct (transact _ _ d) as [[push|e] d'].
Qed.

Lemma dispatcher_steady source h payload : dispatcher source = Some h → steady (h payload).
Proof.
  unfold dispatcher, register_handler. repeat case_decide; intros [= <-]; [done|done|apply trade_update_steady].
Qed.

Lemma process_event_steady payload : steady (process_inbound_event payload).
Proof.
  intros d Hd. unfold process_inbound_event, dispatch. cbn [negb String.eqb Ascii.eqb Bool.eqb].
  destruct (payload_get _ _) as [id|]; [|done]. destruct (event_by_text d id) as [e|]; [|done].
  destruct (dispatcher (event_source e)) as [h|] eqn:Eh; [|done]. by apply (dispatcher_steady _ _ _ Eh).
Qed.

Lemma router_quiet : quiet router.
Proof.
  intros task payload d Hd. unfold router, route_task, route_of, worker_routes.
  rewrite !filter_cons, filter_nil. cbn [fst].
  repeat case_decide; cbn [fmap option_fmap option_map head snd];
    first [by apply submit_order_steady|by apply charge_fee_steady|by apply process_event_steady|done].
Qed.

(** ** From a provider's event to the handler of its source *)

(** What the handler of a source does with an event. *)
Definition effect_of (source : InboundEventSource) (payload : list (string * json)) (d : db) : result () * db :=
  match source with
  | ALPACA => trade_update_task payload d
  | STRIPE | PLAID => (Ok tt, d)
  | MARKETDATA | CUSTODIAN_FILE => (Raise UnregisteredSourceError, d)
  end.

Definition alike_but_queue (d d' : db) : Prop := ∀ t, t ≠ TJobOutbox → tables (H := trueup) d' t = tables d t.

Lemma event_by_printed_id d e :
  integrity d → e ∈ inbound_events d → 0 <= event_id e < 2 ^ 128 → event_by_text d (uuid_str (event_id e)) = Some e.
Proof.
  intros Hd He Hb. unfold event_by_text. rewrite parse_uuid_printed by done.
  assert (filter (λ x, event_id x = event_id e) (inbound_events d) = [e]) as ->; [|done].
  refine (filter_unique (H := trueup) TInboundEvent event_id d e _ Hd He).
  intros x y Hxy. cbn. by rewrite Hxy, Z.eqb_refl.
Qed.

Lemma hand_over_effect e r d :
  integrity d → e ∈ inbound_events d → 0 <= event_id e < 2 ^ 128 → hands_over e r →
  router (outbox_task r) (outbox_payload r) d = effect_of (event_source e) (event_payload e) d.
Proof.
  intros Hd He Hb Ho. pose proof (event_by_printed_id d e Hd He Hb) as Hget.
  transitivity (dispatch dispatcher (event_by_text d) (outbox_task r) (outbox_payload r) d).
  { destruct Ho as (-> & _). reflexivity. }
  destruct (event_source e) eqn:Es; cbn [effect_of].
  1,2,3: by rewrite (dispatch_hands_over _ _ e r _ d Ho Hget (eq_trans (f_equal dispatcher Es) eq_refl)).
  all: unfold dispatch; destruct Ho as (-> & -> & _); cbn [negb String.eqb Ascii.eqb Bool.eqb];
    change (payload_get _ _) with (Some (uuid_str (event_id e))); cbv iota beta; by rewrite Hget, Es.
Qed.

(** C11. The way of an event through the system.  Taking it in leaves a job; the
    pass of the worker that claims that job runs the handler of the event's
    source on the event's payload, over exactly the rows intake left, keeps
    what the handler committed and nothing else, and marks the job completed if
    the handler returned.  If it raised, the job waits for its next attempt or,
    with a single attempt allowed, is a dead letter.  The events of Stripe and
    Plaid change nothing here. *)
Theorem event_reaches_handler worker max_attempts t event d d1 :
  integrity d → intake_fresh d → run (take_in event) d = Ok (ACCEPTED_EVENT, d1) →
  (∀ e, e ∈ inbound_events d1 → 0 <= event_id e < 2 ^ 128) → room t d1 →
  ∃ r, outbox d1 = outbox d ++ [r] ∧
    (next_claim (locked_rows t) (claim_at t) (outbox d1) = Some r →
     ∃ dc d' r', alike_but_queue d1 dc ∧
       let (verdict, d2) := effect_of (incoming_source event) (incoming_payload event) dc in
       drain_once router worker max_attempts t d1 = (Ok true, d') ∧ alike_but_queue d2 d' ∧
       r' ∈ outbox d' ∧ same_job r r' ∧
       outbox_status r' = match verdict with
                          | Ok _ => OUTBOX_COMPLETED
                          | Raise _ => if max_attempts <=? 1 then OUTBOX_DEAD_LETTER else OUTBOX_PENDING
                          end).
Proof.
  intros Hd Hf Hr Hb Hroom. pose proof (run_integrity _ _ _ _ Hd Hr) as Hd1.
  destruct (take_in_run event d Hf) as (d0 & Hr0 & _ & Hrows). rewrite Hr in Hr0.
  case_bool_decide; [done|]. assert (d0 = d1) as -> by congruence.
  destruct Hrows as (e & r & Hev & Hq & Hk & Hp & Ho). exists r. split; [done|]. intros Hn.
  assert (He : e ∈ inbound_events d1) by (rewrite Hev; apply elem_of_app; right; by left).
  destruct (drain_once_trace router worker max_attempts router_quiet t r d1 Hd1 Hroom Hn) as (l1 & l2 & dc & Ht).
  destruct (router (outbox_task r) (outbox_payload r) dc) as [v d2] eqn:Hroute.
  destruct Ht as (Hl & Hdc & Hic & _ & Hrun & _).
  assert (Hac : alike_but_queue d1 dc).
  { intros t' Ht'. subst dc. exact (tables_set_ne (H := trueup) TJobOutbox t' _ _ (not_eq_sym Ht')). }
  rewrite (hand_over_effect e r dc Hic) in Hroute; [|unfold inbound_events; by rewrite (Hac TInboundEvent)|by apply Hb|done].
  injection Hk as Hs _. rewrite Hs, Hp in Hroute.
  exists dc, (set_table (H := trueup) TJobOutbox (l1 ++ delivered worker max_attempts v (outcome_at t) r :: l2) d2),
    (delivered worker max_attempts v (outcome_at t) r). split; [done|]. rewrite Hroute.
  split_and!; [done| | | |].
  - intros t' Ht'. exact (tables_set_ne (H := trueup) TJobOutbox t' _ _ (not_eq_sym Ht')).
  - rewrite outbox_set. apply elem_of_app. right. by left.
  - unfold delivered, same_job. by destruct v; [|destruct (_ <=? _)].
  - destruct Ho as (_ & _ & _ & Ha). unfold delivered. rewrite Ha. by destruct v; [|destruct (_ <=? _)].
Qed.
End Routes.

(** The acceptance of a submitted order: its event is taken in, and one pass of
    the worker, the older jobs being locked, applies it. *)
Definition sample_update : TradeUpdate :=
  {| update_event := "new"; update_execution_id := None;
     update_client_order_id := order_client_order_id sample_order; update_timestamp := 1793620800000010;
     update_price := None; update_qty := None |}.

Definition sample_ports : WorkerPorts :=
  {| payment_port := None; dunning_max_attempts := 4; validate_update := λ _, Ok sample_update;
     submit_readings := λ _, sample_readings; fee_now := λ _, 0; update_recorded_at := λ _, 1793620800000011;
     update_released_at := λ _, 1793620800000012 |}.

Definition sample_alpaca : IncomingEvent :=
  {| incoming_source := ALPACA; incoming_source_event_id := "alpaca-1"; incoming_payload := [] |}.

Definition sample_event_in : IntakeResult * db := run_or (take_in sample_alpaca) sample_submitted.2 DUPLICATE_EVENT.

Definition sample_pass : tick :=
  {| claim_at := 1793620800000020; outcome_at := 1793620800000030;
     locked_rows := λ id, bool_decide (id ∈ outbox_id <$> outbox sample_submitted.2) |}.

Abbreviation sample_effect :=
  (effect_of (H0 := sample_calendar) (λ _, 0) (λ t, noon t.1) sample_ports) (only parsing).
Abbreviation sample_router :=
  (router (H := sample_broker) (H0 := sample_calendar) (λ _, 0) (λ t, noon t.1) sample_ports) (only parsing).

Lemma sample_fresh : intake_fresh sample_submitted.2.
Proof.
  split; intros x Hx.
  - assert (forallb (λ e, event_id e <? next_uuid sample_submitted.2) (inbound_events sample_submitted.2) = true) as Hf
      by (vm_compute; reflexivity).
    rewrite forallb_forall in Hf. apply list_elem_of_In, Hf in Hx. by apply Z.ltb_lt.
  - assert (forallb (λ r, outbox_id r <? next_uuid sample_submitted.2) (outbox sample_submitted.2) = true) as Hf
      by (vm_compute; reflexivity).
    rewrite forallb_forall in Hf. apply list_elem_of_In, Hf in Hx. by apply Z.ltb_lt.
Qed.

Lemma event_reaches_handler_witness :
  ∃ r dc d' r', alike_but_queue sample_event_in.2 dc ∧
    let (verdict, d2) := sample_effect ALPACA [] dc in
    drain_once sample_router "w1" 5 sample_pass sample_event_in.2 = (Ok true, d') ∧ alike_but_queue d2 d' ∧
    r' ∈ outbox d' ∧ same_job r r' ∧
    outbox_status r' = match verdict with Ok _ => OUTBOX_COMPLETED | Raise _ => OUTBOX_PENDING end.
Proof.
  assert (Hd : integrity sample_submitted.2) by exact (run_integrity _ _ _ _ (proj1 sample_placed_ok) sample_submit_runs).
  assert (Hr : run (take_in sample_alpaca) sample_submitted.2 = Ok sample_event_in)
    by (apply run_or_Ok; vm_compute; reflexivity).
  assert (Ha : sample_event_in.1 = ACCEPTED_EVENT) by (vm_compute; reflexivity).
  assert (Hb : forallb (λ e, (0 <=? event_id e) && (event_id e <? 2 ^ 128)) (inbound_events sample_event_in.2) = true)
    by (vm_compute; reflexivity).
  assert (Hm : forallb (λ r, outcome_at sample_pass + 2 ^ outbox_attempts r * 1000000 <=? MAX_INSTANT)
                 (outbox sample_event_in.2) = true) by (vm_compute; reflexivity).
  assert (Hn : next_claim (locked_rows sample_pass) (claim_at sample_pass) (outbox sample_event_in.2) =
               last (outbox sample_event_in.2)) by (vm_compute; reflexivity).
  revert Hr Ha Hb Hm Hn. generalize sample_event_in. intros [a d1]. cbn [fst snd]. intros Hr -> Hb Hm Hn.
  rewrite forallb_forall in Hb, Hm.
  destruct (event_reaches_handler (H := sample_broker) (H0 := sample_calendar) (λ _, 0) (λ t, noon t.1) sample_ports
              "w1" 5 sample_pass sample_alpaca sample_submitted.2 d1 Hd sample_fresh Hr) as (r & Hq & Hpass).
  - intros e He%list_elem_of_In%Hb. zbool. lia.
  - intros r Hr' _. apply list_elem_of_In, Hm, Z.leb_le in Hr'. exact Hr'.
  - exists r. rewrite Hn in Hpass. apply Hpass. by rewrite Hq, last_snoc.
Defined.
