(* ===== verification/Access.v ===== *)
(** * Who is asking ([core/security.py], [services/ops/audit_sink.py])

    The principals of the system, the decorators in front of the staff and
    customer routes, and the audit row every privileged action leaves.  A
    request is what the handlers read of it: the caller, the JSON body with the
    digest of its canonical text, and the query parameters. *)

From S2P Require Import Prelude PyDecimal MoneyTypes Calendar Store Schema Uuids Ledger CashPolicy Funding.
From Stdlib Require Import String Ascii.
From stdpp Require Import strings.
Open Scope Z_scope.

(** ** Texts *)

(** [str.isspace] of an ASCII character. *)
Definition py_isspace (c : ascii) : bool := is_space c || ((28 <=? code c) && (code c <=? 31)).

(** [text.strip()] *)
Definition str_strip (s : string) : string := string_of_list_ascii (strip py_isspace (chars s)).

Definition lower_ascii (c : ascii) : ascii :=
  if (65 <=? code c) && (code c <=? 90) then ascii_of_N (Z.to_N (code c + 32)) else c.

(** [text.lower()] *)
Definition str_lower (s : string) : string := string_of_list_ascii (lower_ascii <$> chars s).

(** [bool(v)] of a JSON value. *)
Definition json_truthy (v : json) : bool :=
  match v with
  | JNull => false
  | JBool b => b
  | JInt n => negb (n =? 0)
  | JFloat r => negb (String.eqb r "0.0" || String.eqb r "-0.0")
  | JStr s => negb (String.eqb s "")
  | JList l => negb (bool_decide (length l = 0%nat))
  | JObj l => negb (bool_decide (length l = 0%nat))
  end.

(** ** Principals ([AuthPrincipal]) *)

Inductive Principal := PCustomer (c : Customer) | PStaff (s : Staff).

Definition principal_id (p : Principal) : uuid :=
  match p with PCustomer c => customer_id c | PStaff s => staff_id s end.

Definition principal_password_hash (p : Principal) : string :=
  match p with PCustomer c => customer_password_hash c | PStaff s => staff_password_hash s end.

Definition staff_role_value (r : StaffRole) : string :=
  match r with ADVISER => "adviser" | ADMIN => "admin" end.

(** [role] *)
Definition principal_role (p : Principal) : string :=
  match p with PCustomer _ => "customer" | PStaff s => staff_role_value (staff_role s) end.

Definition customer_by_email (d : db) (email : string) : option Customer :=
  head (filter (λ c, customer_email c = email) (customers d)).

Definition staff_by_email (d : db) (email : string) : option Staff :=
  head (filter (λ s, staff_email s = email) (staff_members d)).

Definition staff_by_id (d : db) (id : uuid) : option Staff :=
  head (filter (λ s, staff_id s = id) (staff_members d)).

(** [find_principal_by_email] *)
Definition find_principal_by_email (d : db) (email : string) : option Principal :=
  match customer_by_email d email with
  | Some c => Some (PCustomer c)
  | None => PStaff <$> staff_by_email d email
  end.

(** [find_principal_by_id] on a parsed identifier *)
Definition principal_by_id (d : db) (id : uuid) : option Principal :=
  match customer_by_id d id with
  | Some c => Some (PCustomer c)
  | None => PStaff <$> staff_by_id d id
  end.

(** [find_principal_by_id] on the text a session holds *)
Definition find_principal_by_id (d : db) (user_id : string) : result (option Principal) :=
  parsed_id ← parse_uuid user_id;
  Ok (principal_by_id d parsed_id).

(** ** Requests *)

(** [current_user], and the [_user_id] of the session it came from. *)
Record Caller := { caller_id : uuid; caller_role : string; caller_user_id : option string }.

Record HttpRequest := {
  req_caller : option Caller;
  req_json : json;
  req_digest : string;
  req_form_customer_id : option string;
}.

Definition STAFF_ROLES : list string := ["adviser"; "admin"].

(** [requires_role] *)
Definition requires_role (roles : list string) (r : HttpRequest) : result Caller :=
  match req_caller r with
  | None => Raise UnauthenticatedError
  | Some u => if bool_decide (caller_role u ∈ roles) then Ok u else Raise ForbiddenError
  end.

(** [request.is_json and request.json], then [.get(key)] *)
Definition body_field (r : HttpRequest) (key : string) : result (option json) :=
  if json_truthy (req_json r)
  then match req_json r with
       | JObj fields => Ok (match json_get key fields with Some JNull => None | v => v end)
       | _ => Raise AttributeError
       end
  else Ok None.

(** [requires_ownership]: [kwarg] is the route's own parameter. *)
Definition requires_ownership (key : string) (kwarg : option uuid) (r : HttpRequest) : result () :=
  match req_caller r with
  | None => Raise UnauthenticatedError
  | Some u =>
      target ← match kwarg with
               | Some id => Ok (Some (JStr (uuid_str id)))
               | None =>
                   if json_truthy (req_json r) then body_field r key
                   else Ok (JStr <$> req_form_customer_id r)
               end;
      match target with
      | None => Raise ForbiddenError
      | Some v =>
          if negb (json_truthy v) then Raise ForbiddenError
          else if bool_decide (caller_role u ∈ STAFF_ROLES) then Ok tt
          else if String.eqb (caller_role u) "customer"
          then ensure (String.eqb (uuid_str (caller_id u)) (json_str v)) ForbiddenError
          else Raise ForbiddenError
      end
  end.

(** ** The audit trail *)

(** [SqlAuditSink.record] *)
Definition record_audit (actor : uuid) (action : string) (target : option uuid) (payload_hash : string) : prog () :=
  id ← uuid4;
  now ← gets db_now;
  add TAuditLog {| audit_id := id; audit_actor_id := actor; audit_action := action;
                   audit_target_customer_id := target; audit_payload_hash := payload_hash; audit_recorded_at := now |}.

(** The customer an audited action is recorded against. *)
Definition audit_target (r : HttpRequest) (key : string) (kwarg : option uuid) : result (option uuid) :=
  raw ← match kwarg with Some id => Ok (Some (JStr (uuid_str id))) | None => body_field r key end;
  match raw with
  | None => Ok None
  | Some v => id ← parse_uuid (json_str v); Ok (Some id)
  end.

(** [audited]: the row first, then the action, in the action's transaction. *)
Definition audited {A} (action key : string) (kwarg : option uuid) (r : HttpRequest) (f : prog A) : prog A :=
  match req_caller r with
  | None => throw UnauthenticatedError
  | Some u =>
      target ← lift (audit_target r key kwarg);
      record_audit (caller_id u) action target (req_digest r) ;;
      f
  end.

(** ** Whose account a route is about ([funding.py], [identity.py], [portfolios.py]) *)

(** [_authorize_customer_id] *)
Definition authorize_customer_id (target : uuid) (r : HttpRequest) : result () :=
  match req_caller r with
  | None => Raise UnauthenticatedError
  | Some u =>
      if String.eqb (caller_role u) "customer" then
        match caller_user_id u with
        | None => Raise ForbiddenError
        | Some raw => if String.eqb raw "" then Raise ForbiddenError
                      else id ← parse_uuid raw; ensure (id =? target) ForbiddenError
        end
      else ensure (bool_decide (caller_role u ∈ STAFF_ROLES)) ForbiddenError
  end.

(** [_resolve_customer_id_for_get] *)
Definition resolve_customer_id_for_get (raw_query_customer_id : option string) (r : HttpRequest) : result uuid :=
  match req_caller r with
  | None => Raise UnauthenticatedError
  | Some u =>
      if String.eqb (caller_role u) "customer" then
        match caller_user_id u with
        | None => Raise UnauthenticatedError
        | Some raw => if String.eqb raw "" then Raise UnauthenticatedError else parse_uuid raw
        end
      else match raw_query_customer_id with
           | None => Raise ValidationError
           | Some raw =>
               if String.eqb raw "" then Raise ValidationError
               else match parse_uuid raw with Ok id => Ok id | Raise ValueError => Raise ValidationError | Raise e => Raise e end
           end
  end.

(** [_current_customer_id] of the chat and profile routes *)
Definition current_customer_id (r : HttpRequest) : result uuid :=
  match req_caller r with
  | None => Raise UnauthenticatedError
  | Some u =>
      if negb (String.eqb (caller_role u) "customer") then Raise ForbiddenError
      else match caller_user_id u with
           | None => Raise UnauthenticatedError
           | Some raw => if String.eqb raw "" then Raise UnauthenticatedError else parse_uuid raw
           end
  end.

(** ** Lemmas *)

(** The row an audited action adds. *)
Definition audit_row (r : HttpRequest) (u : Caller) (action : string) (target : option uuid) (d : db) : AdminAuditLog :=
  {| audit_id := next_uuid d; audit_actor_id := caller_id u; audit_action := action;
     audit_target_customer_id := target; audit_payload_hash := req_digest r; audit_recorded_at := db_now d |}.

Lemma audited_Ok {A} action key kwarg r (f : prog A) d a d' :
  run (audited action key kwarg r f) d = Ok (a, d') →
  ∃ u target, req_caller r = Some u ∧ audit_target r key kwarg = Ok target ∧
    let d1 := insert_row (H := trueup) TAuditLog (audit_row r u action target d) (Db (tables d) (next_uuid d + 1) (db_now d)) in
    run f d1 = Ok (a, d').
Proof.
  unfold audited. destruct (req_caller r) as [u|]; [|done].
  intros (target & d1 & [Ht <-]%run_lift_Ok & ([] & d2 & Hrec & Hf)%run_bind_Ok)%run_bind_Ok.
  exists u, target. split_and!; [done|done|]. cbn zeta. unfold record_audit in Hrec.
  apply run_bind_Ok in Hrec as (id & d3 & [-> ->]%run_uuid4_Ok & Hrec).
  apply run_bind_Ok in Hrec as (now & d4 & [<- <-]%run_gets_Ok & [_ ->]%run_add_Ok). exact Hf.
Qed.

Lemma writes_record_audit ts actor action target hash :
  TAuditLog ∈ ts → writes (H := trueup) ts (record_audit actor action target hash).
Proof.
  intros Hts. unfold record_audit. apply writes_bind; [apply writes_uuid4|intros id].
  apply writes_bind; [apply writes_gets|intros now]. by apply writes_add.
Qed.

Lemma writes_audited {A} ts action key kwarg r (f : prog A) :
  TAuditLog ∈ ts → writes (H := trueup) ts f → writes (H := trueup) ts (audited action key kwarg r f).
Proof.
  intros Hts Hf. unfold audited. destruct (req_caller r); [|apply writes_throw].
  apply writes_bind; [apply writes_lift|intros target]. apply writes_bind; [by apply writes_record_audit|done].
Qed.

Lemma requires_role_Ok roles r u : requires_role roles r = Ok u → req_caller r = Some u ∧ caller_role u ∈ roles.
Proof.
  unfold requires_role. destruct (req_caller r) as [v|]; [|done]. case_bool_decide; [|done]. by intros [= <-].
Qed.

(** A customer only ever reaches their own account; the three gates agree. *)
Lemma gates_customer r u id target :
  req_caller r = Some u → caller_role u = "customer"%string → caller_user_id u = Some (uuid_str id) → 0 <= id < 2 ^ 128 →
  (authorize_customer_id target r = Ok tt ↔ target = id) ∧
  resolve_customer_id_for_get (Some (uuid_str target)) r = Ok id ∧ current_customer_id r = Ok id.
Proof.
  intros Hu Hr Hid Hb. unfold authorize_customer_id, resolve_customer_id_for_get, current_customer_id.
  rewrite Hu, Hr, Hid, String.eqb_refl. cbn [negb].
  assert (Hne : String.eqb (uuid_str id) "" = false).
  { apply String.eqb_neq. intros E. apply (f_equal (λ s, length (chars s))) in E. unfold uuid_str in E.
    rewrite !chars_app, !length_app, !hex_length in E. cbn in E. lia. }
  rewrite Hne, parse_uuid_printed by done. cbn. split_and!; [|done|done]. rewrite ensure_Ok, Z.eqb_eq. done.
Qed.
