(* ===== verification/FundingRoutes.v ===== *)
(** * Money and identity routes ([controllers/api/funding.py], [identity.py], [fees.py])

    A handler is a function of the request and the store: what it answers or
    raises, and the store it leaves.  The schema library's reading of a UUID is
    a parameter; amounts are read by [Money] itself.  Row-level security narrows
    a customer's transaction to the rows of that customer, which every query of
    these handlers already names. *)

From S2P Require Import Prelude PyDecimal MoneyTypes Dates Calendar Store Schema Uuids Ledger CashPolicy Funding Fees FeeCharges Orders Placement Access.
From Stdlib Require Import String.
From stdpp Require Import strings.
Open Scope Z_scope.

(** ** Bodies *)

(** [request.get_json(silent=True) or {}] *)
Definition json_body (r : HttpRequest) : json := if json_truthy (req_json r) then req_json r else JObj [].

(** A JSON value as [Money]'s constructor sees it. *)
Definition pyval_of_json (v : json) : pyval :=
  match v with
  | JStr s => VStr s
  | JInt n => VInt n
  | JBool b => VBool b
  | JFloat _ => VFloat
  | _ => VOther
  end.

(** [__get_pydantic_core_schema__]'s [validate]: a [TypeError] becomes a
    [ValueError], which the schema library reports; anything else escapes. *)
Definition typed_field (dm : dim) (v : json) : result (qd dm) :=
  match init dm (pyval_of_json v) with
  | Raise TypeError | Raise ValueError => Raise ValidationError
  | r => r
  end.

(** [DepositRequest] and [WithdrawalRequest]: both fields are read, in order. *)
Definition funding_body (parse_id : json → option uuid) (r : HttpRequest) : result (uuid * Money) :=
  match json_body r with
  | JObj fields =>
      let id := json_get "customer_id" fields ≫= parse_id in
      match match json_get "amount" fields with Some v => typed_field MoneyD v | None => Raise ValidationError end with
      | Raise e => Raise e
      | Ok amount => match id with Some id => Ok (id, amount) | None => Raise ValidationError end
      end
  | _ => Raise ValidationError
  end.

(** [{"customer_id": ..., name: <text>}] *)
Definition text_body (parse_id : json → option uuid) (name : string) (r : HttpRequest) : result (uuid * string) :=
  match json_body r with
  | JObj fields =>
      match json_get "customer_id" fields ≫= parse_id, json_get name fields with
      | Some id, Some (JStr s) => Ok (id, s)
      | _, _ => Raise ValidationError
      end
  | _ => Raise ValidationError
  end.

(** ** Requests under an idempotency key *)

(** The request, its [Idempotency-Key] header, the digest of its raw body and
    the clock. *)
Record KeyedRequest := {
  keyed_http : HttpRequest;
  keyed_key : option string;
  keyed_hash : string;
  keyed_now : instant;
}.

Definition idempotency_key (k : KeyedRequest) : result string :=
  match keyed_key k with
  | Some s => if String.eqb s "" then Raise ValidationError else Ok s
  | None => Raise ValidationError
  end.

(** [_save_idempotency_record] *)
Definition save_idempotency_record (customer : uuid) (key hash : string) (now : instant) (status : Z) (body : json)
    : prog () :=
  id ← uuid4;
  add TIdempotencyKey {| idem_id := id; idem_customer_id := customer; idem_key := key; idem_request_hash := hash;
    idem_response_status := status; idem_response_body := body; idem_created_at := now |}.

(** [resolve_replay], its refusal turned into a 409 *)
Definition replay (record : IdempotencyKey) (hash : string) : result (Z * json) :=
  match resolve_replay record hash with
  | Raise IdempotencyConflictError => Raise ConflictError
  | r => r
  end.

(** The common body of the two POST routes: [serve] is the service's call with
    the rendering of its result, [error] the mapping of its exceptions.  A
    replayed answer is returned without a commit. *)
Definition keyed_post (parse_id : json → option uuid) (serve : uuid → Money → prog json) (error : exn → exn)
    (k : KeyedRequest) (d : db) : result (Z * json) * db :=
  match (key ← idempotency_key k;
         data ← funding_body parse_id (keyed_http k);
         authorize_customer_id data.1 (keyed_http k) ;;
         existing ← find_key d data.1 key;
         Ok (key, data, existing)) with
  | Raise e => (Raise e, d)
  | Ok (_, _, Some record) => (replay record (keyed_hash k), d)
  | Ok (key, (customer, amount), None) =>
      match transact ledger_balance
              (body ← serve customer amount;
               save_idempotency_record customer key (keyed_hash k) (keyed_now k) 201 body ;;
               mret (201, body)) d with
      | (Ok answer, d') => (Ok answer, d')
      | (Raise e, d') => (Raise (error e), d')
      end
  end.

(** ** Deposits and withdrawals *)

Record FundingSettings := {
  deposit_cap_per_transaction : Money;
  deposit_cap_per_day : Money;
}.

Definition deposit_view (r : DepositResult) : json :=
  JObj [("journal_entry_id", JStr (uuid_str (deposit_journal_entry_id r)));
        ("settlement_obligation_id", JStr (uuid_str (deposit_settlement_obligation_id r)));
        ("expected_settlement_date", JStr (date_str (deposit_expected_settlement_date r)))]%string.

Definition withdrawal_view (r : WithdrawalResult) : json :=
  JObj [("journal_entry_id", JStr (uuid_str (withdrawal_journal_entry_id r)));
        ("destination_bank_link_id", JStr (uuid_str (withdrawal_destination_bank_link_id r)))]%string.

(** The [except] clauses: a 422 with a code of its own. *)
Definition funding_error (e : exn) : exn :=
  match e with
  | FundingNotEligibleError reason => CodedError 422 reason
  | NoActiveBankLinkError => CodedError 422 "no_active_bank_link"
  | BankReauthRequiredError => CodedError 422 "bank_reauth_required"
  | DepositCapExceededError cap => CodedError 422 ("deposit_cap_exceeded_" +:+ cap)
  | InsufficientWithdrawableCashError => CodedError 422 "insufficient_withdrawable_cash"
  | e => e
  end.

Definition serve_deposit (s : FundingSettings) (now : instant) (customer : uuid) (amount : Money) : prog json :=
  r ← initiate_deposit (deposit_cap_per_transaction s) (deposit_cap_per_day s) now customer amount;
  mret (deposit_view r).

Definition serve_withdrawal (now : instant) (customer : uuid) (amount : Money) : prog json :=
  r ← initiate_withdrawal now customer amount;
  mret (withdrawal_view r).

Definition create_deposit (parse_id : json → option uuid) (s : FundingSettings) (k : KeyedRequest)
    : db → result (Z * json) * db :=
  keyed_post parse_id (serve_deposit s (keyed_now k)) funding_error k.

Definition create_withdrawal (parse_id : json → option uuid) (k : KeyedRequest) : db → result (Z * json) * db :=
  keyed_post parse_id (serve_withdrawal (keyed_now k)) funding_error k.

(** ** The cash page and the bank link *)

Record FundingCashSummary := {
  cash_withdrawable : Money;
  cash_investable : Money;
  cash_outstanding_receivable : Money;
  cash_deposited_today : Money;
}.

(** [FundingSummaryService.summarize]; the caps are the settings'. *)
Definition cash_summary (now : instant) (customer : uuid) (d : db) : result FundingCashSummary :=
  withdrawable ← withdrawable customer d;
  investable ← investable customer d;
  deposited_today ← deposited_on customer (date_of_local now) d;
  outstanding ← outstanding_receivable customer d;
  Ok {| cash_withdrawable := withdrawable; cash_investable := investable;
        cash_outstanding_receivable := outstanding; cash_deposited_today := deposited_today |}.

(** [get_cash_summary] *)
Definition get_cash_summary (raw_customer_id : option string) (now : instant) (r : HttpRequest) (d : db)
    : result FundingCashSummary :=
  customer ← resolve_customer_id_for_get raw_customer_id r;
  cash_summary now customer d.

(** [get_current_bank_link] *)
Definition get_current_bank_link (raw_customer_id : option string) (r : HttpRequest) (d : db) : result (option BankLink) :=
  customer ← resolve_customer_id_for_get raw_customer_id r;
  current_link d customer.

(** [create_link_token]: the provider's handle, no state of its own *)
Definition create_link_token {A} (parse_id : json → option uuid) (plaid : option (string → result A)) (r : HttpRequest)
    : result A :=
  customer ← match json_body r with
             | JObj fields => match json_get "customer_id" fields ≫= parse_id with
                              | Some id => Ok id | None => Raise ValidationError end
             | _ => Raise ValidationError
             end;
  authorize_customer_id customer r ;;
  match plaid with None => Raise RuntimeError | Some create => create (uuid_str customer) end.

(** [create_bank_link]: [plaid] is the configured adapter. *)
Definition create_bank_link (parse_id : json → option uuid) (plaid : option (string → string * string))
    (r : HttpRequest) (d : db) : result BankLink * db :=
  match (data ← text_body parse_id "plaid_public_token" r;
         authorize_customer_id data.1 r ;;
         exchange ← match plaid with None => Raise RuntimeError | Some x => Ok x end;
         Ok (data, exchange)) with
  | Raise e => (Raise e, d)
  | Ok ((customer, token), exchange) => transact ledger_balance (create_link (Some exchange) customer token) d
  end.

(** ** Identity ([identity.py]) *)

(** [start_kyc_session]: [stripe] is the configured adapter. *)
Definition start_kyc_session (parse_id : json → option uuid) (stripe : option (uuid → string)) (max_attempts : Z)
    (r : HttpRequest) (d : db) : result string * db :=
  match (customer ← match json_body r with
                    | JObj fields => match json_get "customer_id" fields ≫= parse_id with
                                     | Some id => Ok id | None => Raise ValidationError end
                    | _ => Raise ValidationError
                    end;
         authorize_customer_id customer r ;;
         port ← match stripe with None => Raise RuntimeError | Some p => Ok p end;
         Ok (customer, port)) with
  | Raise e => (Raise e, d)
  | Ok (customer, port) =>
      match transact ledger_balance (start_verification (Some port) max_attempts customer) d with
      | (Raise KycLockedError, d') => (Raise (CodedError 422 "kyc_locked"), d')
      | out => out
      end
  end.

(** The self-healing read: a pending customer's latest session is looked up at
    the provider when there is one configured. *)
Definition heal_status (stripe : option (string → string)) (max_attempts : Z) (now : instant) (customer : uuid)
    : prog () :=
  match stripe with
  | None => mret tt
  | Some retrieve =>
      verified ← sync_latest_verification (Some retrieve) max_attempts now customer;
      match verified with
      | Some verified_customer => approve_if_eligible verified_customer ;; mret tt
      | None => mret tt
      end
  end.

Definition identity_status (stripe : option (string → string)) (max_attempts : Z) (now : instant) (customer : uuid)
    : prog (Approval * Approval) :=
  found ← gets (λ d, customer_by_id d customer);
  match found with
  | None => throw ValidationError
  | Some c =>
      (if bool_decide (customer_kyc_status c = APPROVAL_PENDING)
       then heal_status stripe max_attempts now customer else mret tt) ;;
      shown ← gets (λ d, default c (customer_by_id d customer));
      mret (customer_kyc_status shown, customer_account_approval_status shown)
  end.

(** [get_identity_status] *)
Definition get_identity_status (stripe : option (string → string)) (max_attempts : Z) (now : instant) (customer : uuid)
    (r : HttpRequest) (d : db) : result (Approval * Approval) * db :=
  match authorize_customer_id customer r with
  | Raise e => (Raise e, d)
  | Ok _ => transact ledger_balance (identity_status stripe max_attempts now customer) d
  end.

(** ** Fees ([fees.py]) *)

Definition get_fees (raw_customer_id : option string) (today : date) (r : HttpRequest) (d : db) : result FeeSummary :=
  customer ← resolve_customer_id_for_get raw_customer_id r;
  summarize today customer d.

Definition attach_payment_method (parse_id : json → option uuid)
    (stripe : option (option string → string → string → result (string * string))) (now : instant) (r : HttpRequest)
    (d : db) : result PaymentMethod * db :=
  match (data ← text_body parse_id "payment_method_id" r;
         authorize_customer_id data.1 r ;;
         port ← match stripe with None => Raise RuntimeError | Some p => Ok p end;
         Ok (data, port)) with
  | Raise e => (Raise e, d)
  | Ok ((customer, method), port) =>
      match transact ledger_balance (attach port now customer method) d with
      | (Raise CustomerNotFoundError, d') => (Raise ValidationError, d')
      | out => out
      end
  end.

(** ** One key, one movement *)

Inductive FundingRoute := DepositRoute | WithdrawalRoute.

Definition post_funding (parse_id : json → option uuid) (s : FundingSettings) (route : FundingRoute) (k : KeyedRequest)
    : db → result (Z * json) * db :=
  match route with
  | DepositRoute => create_deposit parse_id s k
  | WithdrawalRoute => create_withdrawal parse_id k
  end.

Definition serve_funding (s : FundingSettings) (route : FundingRoute) (k : KeyedRequest) : uuid → Money → prog json :=
  match route with
  | DepositRoute => serve_deposit s (keyed_now k)
  | WithdrawalRoute => serve_withdrawal (keyed_now k)
  end.

Lemma post_funding_keyed parse_id s route k :
  post_funding parse_id s route k = keyed_post parse_id (serve_funding s route k) funding_error k.
Proof. by destruct route. Qed.

(** The request is well formed: its key, and whose account it is about. *)
Definition asks_for (parse_id : json → option uuid) (k : KeyedRequest) (key : string) (customer : uuid) : Prop :=
  idempotency_key k = Ok key ∧ authorize_customer_id customer (keyed_http k) = Ok tt ∧
  ∃ amount, funding_body parse_id (keyed_http k) = Ok (customer, amount).

(** The row that answers a key. *)
Definition answered (customer : uuid) (key hash : string) (r : Z * json) (x : IdempotencyKey) : Prop :=
  idem_customer_id x = customer ∧ idem_key x = key ∧ idem_request_hash x = hash ∧
  (idem_response_status x, idem_response_body x) = r.

Lemma replay_eq x hash :
  replay x hash = if String.eqb (idem_request_hash x) hash then Ok (idem_response_status x, idem_response_body x)
                  else Raise ConflictError.
Proof. unfold replay, resolve_replay. by destruct (String.eqb _ _). Qed.

Lemma keyed_post_replays parse_id serve error k d key customer hash r x :
  integrity d → asks_for parse_id k key customer → x ∈ idempotency_keys d → answered customer key hash r x →
  keyed_post parse_id serve error k d =
    (if String.eqb hash (keyed_hash k) then Ok r else Raise ConflictError, d).
Proof.
  intros Hd (Hk & Ha & amount & Hb) Hx (Hc & Hkey & Hh & <-). unfold keyed_post. rewrite Hk. cbn [mbind result_bind].
  rewrite Hb. cbn [mbind result_bind fst]. rewrite Ha. cbn [mbind result_bind]. rewrite <- Hc, <- Hkey, (find_key_unique d x Hd Hx).
  cbn [mbind result_bind]. by rewrite replay_eq, Hh.
Qed.

Lemma keyed_post_Ok parse_id serve error k d r d' :
  keyed_post parse_id serve error k d = (Ok r, d') →
  ∃ key customer amount, idempotency_key k = Ok key ∧ authorize_customer_id customer (keyed_http k) = Ok tt ∧
    funding_body parse_id (keyed_http k) = Ok (customer, amount) ∧
    ((d' = d ∧ ∃ x, x ∈ idempotency_keys d ∧ answered customer key (keyed_hash k) r x) ∨
     (find_key d customer key = Ok None ∧ ∃ body d1 x, run (serve customer amount) d = Ok (body, d1) ∧ r = (201, body) ∧
        answered customer key (keyed_hash k) r x ∧ ledger_balance d' = true ∧
        tables (H := trueup) d' TIdempotencyKey = idempotency_keys d1 ++ [x] ∧
        ∀ t, t ≠ TIdempotencyKey → tables (H := trueup) d' t = tables d1 t)).
Proof.
  unfold keyed_post. destruct (idempotency_key k) as [key|] eqn:Hk; [|done]. cbn [mbind result_bind].
  destruct (funding_body parse_id (keyed_http k)) as [[customer amount]|] eqn:Hb; [|done]. cbn [mbind result_bind fst].
  destruct (authorize_customer_id customer (keyed_http k)) as [[]|] eqn:Ha; [|done].
  destruct (find_key d customer key) as [[x|]|] eqn:Hf; [| |done]; intros H; exists key, customer, amount; split_and!; try done.
  - left. cbn [mbind result_bind] in H. rewrite replay_eq in H.
    destruct (String.eqb (idem_request_hash x) (keyed_hash k)) eqn:Eh; [|done]. injection H as <- <-.
    split; [done|]. exists x. unfold find_key in Hf. apply scalar_one_or_none_Some in Hf.
    assert (x ∈ filter (λ k, idem_customer_id k = customer ∧ idem_key k = key) (idempotency_keys d)) as Hin
      by (rewrite Hf; by left).
    apply list_elem_of_filter in Hin as [[Hc Hkk] Hin]. split; [done|]. by split_and!; [..|apply String.eqb_eq|].
  - right. split; [done|]. cbn [mbind result_bind] in H. unfold transact in H.
    destruct (run _ d) as [[a dd]|e] eqn:Hr; [|done]. destruct (ledger_balance dd) eqn:Hl; [|done]. injection H as -> ->.
    apply run_bind_Ok in Hr as (body & d1 & Hs & Hr). apply run_bind_Ok in Hr as ([] & d2 & Hsave & Hr).
    apply run_ret_Ok in Hr as [Ea Ed]. subst. unfold save_idempotency_record in Hsave.
    apply run_bind_Ok in Hsave as (id & d3 & [-> ->]%run_uuid4_Ok & [_ ->]%run_add_Ok).
    eexists body, d1, _. split_and!; [done|done| |done|exact (tables_set_same (H := trueup) TIdempotencyKey _ _)|];
      [by repeat split|].
    intros t Ht. exact (tables_set_ne (H := trueup) TIdempotencyKey t _ _ (not_eq_sym Ht)).
Qed.

Lemma keyed_post_integrity parse_id serve error k d :
  integrity d → integrity (keyed_post parse_id serve error k d).2.
Proof.
  intros Hd. unfold keyed_post. destruct (idempotency_key k ≫= _) as [[[key [c amount]] [x|]]|e]; [done| |done].
  pose proof (transact_integrity ledger_balance (body ← serve c amount;
    save_idempotency_record c key (keyed_hash k) (keyed_now k) 201 body ;; mret (201, body)) d Hd) as Ht.
  by destruct (transact _ _ d) as [[r|e] d'].
Qed.

(** What the body of a funding request says. *)
Definition requests_amount (parse_id : json → option uuid) (k : KeyedRequest) (customer : uuid) (amount : Money) : Prop :=
  ∃ fields v, json_body (keyed_http k) = JObj fields ∧ json_get "customer_id" fields ≫= parse_id = Some customer ∧
    json_get "amount" fields = Some v ∧ init MoneyD (pyval_of_json v) = Ok amount.

Lemma typed_field_Ok dm v (q : qd dm) : typed_field dm v = Ok q → init dm (pyval_of_json v) = Ok q.
Proof. unfold typed_field. by destruct (init dm (pyval_of_json v)) as [x|[]]. Qed.

Lemma funding_body_Ok parse_id k customer amount :
  funding_body parse_id (keyed_http k) = Ok (customer, amount) → requests_amount parse_id k customer amount.
Proof.
  unfold funding_body, requests_amount. destruct (json_body _) as [| | | | | |fields]; try done.
  destruct (json_get "amount" fields) as [v|] eqn:Hv; [|done].
  destruct (typed_field MoneyD v) as [q|] eqn:Hq; [|done]. apply typed_field_Ok in Hq.
  destruct (json_get "customer_id" fields ≫= parse_id) as [id|] eqn:Hid; [|done]. intros [= -> ->]. by exists fields, v.
Qed.

(** C9. One key moves money at most once.  A deposit or withdrawal answered with
    success either found its key answered, for a body of the same digest, and
    changed nothing; or its key was on file nowhere, and it was made then, by one
    call of the route's service for the customer and the very amount its body
    names, whose rows are all the store gained besides one row that keeps the
    answer under the key.  From then on every request of that customer under the
    key, from whoever may ask for that customer and on whichever of the two
    routes, gets the same answer again if its body has the same digest and a
    conflict if not, and changes nothing. *)
Theorem funding_request_once parse_id s route k d r d' :
  integrity d → post_funding parse_id s route k d = (Ok r, d') →
  ∃ key customer amount, asks_for parse_id k key customer ∧ requests_amount parse_id k customer amount ∧
    ((d' = d ∧ ∃ x, x ∈ idempotency_keys d ∧ answered customer key (keyed_hash k) r x) ∨
     ((∀ x, x ∈ idempotency_keys d → idem_customer_id x = customer → idem_key x ≠ key) ∧
      ∃ body d1 x, run (serve_funding s route k customer amount) d = Ok (body, d1) ∧ r = (201, body) ∧
        answered customer key (keyed_hash k) r x ∧ idempotency_keys d' = idempotency_keys d1 ++ [x] ∧
        ∀ t, t ≠ TIdempotencyKey → tables (H := trueup) d' t = tables d1 t)) ∧
    ∀ s' route' k' d'', integrity d'' → idempotency_keys d' ⊆ idempotency_keys d'' → asks_for parse_id k' key customer →
      post_funding parse_id s' route' k' d'' =
        (if String.eqb (keyed_hash k) (keyed_hash k') then Ok r else Raise ConflictError, d'').
Proof.
  intros Hd. rewrite post_funding_keyed.
  intros (key & customer & amount & Hk & Ha & Hb & Hcase)%keyed_post_Ok. exists key, customer, amount.
  split; [split_and!; [done|done|by exists amount]|]. split; [by apply funding_body_Ok|].
  assert (∃ x, x ∈ idempotency_keys d' ∧ answered customer key (keyed_hash k) r x) as (x & Hx & Hans).
  { destruct Hcase as [[-> ?]|(_ & body & d1 & x & _ & _ & Hx & _ & Hkeys & _)]; [done|]. exists x. split; [|done].
    unfold idempotency_keys. rewrite Hkeys. apply elem_of_app. right. by left. }
  split.
  - destruct Hcase as [?|(Hf & body & d1 & x' & Hs & Hr & Hx' & _ & Hkeys & Ht)]; [by left|right]. split.
    + intros y Hy <- <-. by rewrite (find_key_unique d y Hd Hy) in Hf.
    + by exists body, d1, x'.
  - intros s' route' k' d'' Hd'' Hsub Hask. rewrite post_funding_keyed.
    by apply (keyed_post_replays _ _ _ _ _ key customer (keyed_hash k) r x); [|done|apply Hsub|].
Qed.

(** A withdrawal of 10 under a key, then a deposit and another body under it. *)
Definition sample_parse_id (v : json) : option uuid :=
  match v with JStr s => match parse_uuid s with Ok id => Some id | Raise _ => None end | _ => None end.

Definition sample_keyed (hash : string) : KeyedRequest :=
  {| keyed_http := {| req_caller := Some {| caller_id := 7; caller_role := "customer"; caller_user_id := Some (uuid_str 7) |};
                      req_json := JObj [("customer_id", JStr (uuid_str 7)); ("amount", JStr "10.00")];
                      req_digest := ""; req_form_customer_id := None |};
     keyed_key := Some "k"%string; keyed_hash := hash; keyed_now := 0 |}.

Definition sample_settings : FundingSettings :=
  {| deposit_cap_per_transaction := QD 1000000; deposit_cap_per_day := QD 1000000 |}.

Lemma funding_request_once_witness :
  ∃ r d', post_funding sample_parse_id sample_settings WithdrawalRoute (sample_keyed "h") sample_funded = (Ok r, d') ∧
    post_funding sample_parse_id sample_settings DepositRoute (sample_keyed "h") d' = (Ok r, d') ∧
    post_funding sample_parse_id sample_settings WithdrawalRoute (sample_keyed "other") d' = (Raise ConflictError, d').
Proof.
  assert (Ho : is_ok (post_funding sample_parse_id sample_settings WithdrawalRoute (sample_keyed "h") sample_funded).1 = true)
    by (vm_compute; reflexivity).
  assert (Hi : integrity (post_funding sample_parse_id sample_settings WithdrawalRoute (sample_keyed "h") sample_funded).2)
    by apply (keyed_post_integrity _ _ _ _ _ sample_funded_integrity).
  destruct (post_funding _ _ _ _ sample_funded) as [[r|e] d'] eqn:E; [|done]. exists r, d'. split; [done|]. cbn [snd] in Hi.
  destruct (funding_request_once sample_parse_id sample_settings WithdrawalRoute (sample_keyed "h") sample_funded r d'
              sample_funded_integrity E) as (key & customer & amount & Hask & _ & _ & Hagain).
  split; [exact (Hagain sample_settings DepositRoute (sample_keyed "h") d' Hi (reflexivity _) Hask)
         |exact (Hagain sample_settings WithdrawalRoute (sample_keyed "other") d' Hi (reflexivity _) Hask)].
Defined.
