(* ===== verification/OrderRoutes.v ===== *)
(** * Order, portfolio and break routes ([controllers/api/orders.py], [portfolios.py], [breaks.py])

    The handlers of the customer's orders up to the rendering of their views,
    with the mapping of the services' exceptions, and what they guarantee
    together with the worker: an order is handed to the broker's queue once, when
    it is approved, and never before, and over any history of attempts one
    submission of it commits, after which the broker gets no request.  Row-level security hides another
    customer's orders from a customer's transaction. *)

From S2P Require Import Prelude PyDecimal MoneyTypes Dates Calendar Store Schema Uuids Ledger CashPolicy Funding Valuation Restatement Lots LotBooks Operations Intake OrderEvents Orders OrderBooks OrderCash Placement Reconciliation Rebalance FeeCharges Worker Access FundingRoutes.
From stdpp Require Import relations.
From Stdlib Require Import String.
From stdpp Require Import strings.
Open Scope Z_scope.

(** ** Who may ask *)

(** [current_user.role != "customer"], then [_resolve_customer_id] of a customer *)
Definition require_customer (r : HttpRequest) : result uuid :=
  match req_caller r with
  | None => Raise UnauthenticatedError
  | Some u =>
      if negb (String.eqb (caller_role u) "customer") then Raise ForbiddenError
      else match caller_user_id u with
           | None => Raise UnauthenticatedError
           | Some raw => if String.eqb raw "" then Raise UnauthenticatedError else parse_uuid raw
           end
  end.

(** [_resolve_customer_id] behind the role gate of the two reads *)
Definition reader_customer (raw_customer_id : option string) (r : HttpRequest) : result uuid :=
  requires_role ("customer" :: STAFF_ROLES)%string r ;;
  resolve_customer_id_for_get raw_customer_id r.

(** ** Placing an order *)

(** [CreateOrderRequest] *)
Record OrderBody := {
  body_security_id : uuid;
  body_side : OrderSide;
  body_quantity : Units;
  body_reference_price : Price;
  body_lot_ids : option (list uuid);
}.

Definition side_of (v : json) : option OrderSide :=
  match v with
  | JStr s => if String.eqb s "buy" then Some BUY else if String.eqb s "sell" then Some SELL else None
  | _ => None
  end.

Definition lot_ids_of (parse_id : json → option uuid) (v : option json) : option (option (list uuid)) :=
  match v with
  | None | Some JNull => Some None
  | Some (JList l) => match mapM parse_id l with Some ids => Some (Some ids) | None => None end
  | Some _ => None
  end.

(** The schema: the two amounts are [Units] and [Price] and may let an
    exception of their own escape; everything else that is wrong is a 422. *)
Definition order_body (parse_id : json → option uuid) (r : HttpRequest) : result OrderBody :=
  match json_body r with
  | JObj fields =>
      match match json_get "quantity" fields with Some v => typed_field UnitsD v | None => Raise ValidationError end,
            match json_get "reference_price" fields with Some v => typed_field PriceD v | None => Raise ValidationError end,
            json_get "security_id" fields ≫= parse_id, json_get "side" fields ≫= side_of,
            lot_ids_of parse_id (json_get "lot_ids" fields) with
      | Ok quantity, Ok price, Some security, Some side, Some lots =>
          Ok {| body_security_id := security; body_side := side; body_quantity := quantity;
                body_reference_price := price; body_lot_ids := lots |}
      | Raise e, Ok _, _, _, _ => Raise e
      | Raise ValidationError, Raise e, _, _, _ => Raise e
      | Raise e, Raise _, _, _, _ => Raise e
      | _, Raise e, _, _, _ => Raise e
      | _, _, _, _, _ => Raise ValidationError
      end
  | _ => Raise ValidationError
  end.

(** [_CUSTOMER_SAFE_INELIGIBILITY_CODES], [_ineligibility_code] *)
Definition ineligibility_code (reason : string) : string :=
  if String.eqb reason "kyc_status_pending" then "kyc_verification_pending"
  else if String.eqb reason "kyc_status_rejected" then "kyc_verification_rejected"
  else if String.eqb reason "account_approval_status_pending" then "account_approval_pending"
  else if String.eqb reason "account_approval_status_rejected" then "account_approval_rejected"
  else "customer_not_eligible".

(** The [except] clauses of [create_order]. *)
Definition order_error (e : exn) : exn :=
  match e with
  | CustomerNotEligibleError reason => CodedError 403 (ineligibility_code reason)
  | InsufficientInvestableCashError => CodedError 422 "insufficient_investable_cash"
  | LotDesignationNotAllowedForBuyError => CodedError 422 "lot_designation_not_allowed_for_buy"
  | EmptyLotDesignationError => CodedError 422 "empty_lot_designation"
  | DuplicateLotDesignationError => CodedError 422 "duplicate_lot_id"
  | TooManyDesignatedLotsError => CodedError 422 "too_many_designated_lots"
  | UnknownTaxLotError => CodedError 422 "unknown_tax_lot"
  | InsufficientDesignatedLotsError => CodedError 422 "insufficient_designated_lots"
  | e => e
  end.

Definition order_request (customer : uuid) (b : OrderBody) : OrderCreationRequest :=
  {| request_customer_id := customer; request_security_id := body_security_id b; request_side := body_side b;
     request_quantity := body_quantity b; request_reference_price := body_reference_price b |}.

Definition order_call (k : KeyedRequest) (key : string) (render : Order → json) : OrderCall :=
  {| call_key := key; call_request_hash := keyed_hash k; call_now := keyed_now k; call_render := render |}.

(** [create_order]; [render] is the view of the new order. *)
Definition post_order (parse_id : json → option uuid) (threshold : Money) (render : Order → json) (k : KeyedRequest)
    (d : db) : result (Z * json) * db :=
  match (requires_role ["customer"%string] (keyed_http k) ;;
         key ← idempotency_key k;
         body ← order_body parse_id (keyed_http k);
         customer ← require_customer (keyed_http k);
         existing ← find_key d customer key;
         Ok (key, body, customer, existing)) with
  | Raise e => (Raise e, d)
  | Ok (_, _, _, Some record) => (replay record (keyed_hash k), d)
  | Ok (key, body, customer, None) =>
      match transact ledger_balance
              (place_order threshold (order_call k key render) (order_request customer body) (body_lot_ids body)) d with
      | (Ok answer, d') => (Ok answer, d')
      | (Raise e, d') => (Raise (order_error e), d')
      end
  end.

(** ** Approving, cancelling, reading *)

(** The order as a customer's transaction sees it. *)
Definition visible_order (d : db) (customer id : uuid) : option Order :=
  head (filter (λ o, order_id o = id ∧ order_customer_id o = customer) (orders d)).

Definition require_visible (customer id : uuid) : prog () :=
  found ← gets (λ d, visible_order d customer id);
  match found with Some _ => mret tt | None => throw OrderNotFoundError end.

Definition approve_and_enqueue (id : uuid) : prog Order :=
  order ← approve_order id;
  enqueue_submission order ;;
  mret order.

Definition transition_error (e : exn) : exn :=
  match e with
  | OrderNotFoundError => NotFoundError
  | InvalidOrderTransitionError | OrderNotCancellableError => ConflictError
  | e => e
  end.

(** [approve_order] *)
Definition post_approve (id : uuid) (r : HttpRequest) (d : db) : result Order * db :=
  match require_customer r with
  | Raise e => (Raise e, d)
  | Ok customer =>
      match transact no_deferred (require_visible customer id ;; approve_and_enqueue id) d with
      | (Raise e, d') => (Raise (transition_error e), d')
      | out => out
      end
  end.

(** [cancel_order]: [broker] is the configured adapter. *)
Definition post_cancel (broker : option BrokerPort) (id : uuid) (r : HttpRequest) (d : db) : result Order * db :=
  match (customer ← require_customer r;
         port ← match broker with None => Raise RuntimeError | Some b => Ok b end;
         Ok (customer, port)) with
  | Raise e => (Raise e, d)
  | Ok (customer, port) =>
      match transact no_deferred
              (audited "orders.cancel_requested" "customer_id" (Some customer) r
                 (require_visible customer id ;; request_cancel (H := port) id)) d with
      | (Raise e, d') => (Raise (transition_error e), d')
      | out => out
      end
  end.

(** [list_by_opening_execution_ids], [list_by_closing_execution_ids] *)
Definition lots_opened_by (d : db) (executions : list string) : list TaxLot :=
  filter (λ l, lot_opening_fill_execution_id l ∈ executions) (tax_lots d).
Definition lots_consumed_by (d : db) (executions : list string) : list LotConsumption :=
  filter (λ c, consumption_closing_fill_execution_id c ∈ executions) (lot_consumptions d).

Record OrderDetail := {
  detail_order : Order;
  detail_events : list OrderEvent;
  detail_opened_lots : list TaxLot;
  detail_consumed_lots : list LotConsumption;
}.

(** [get_order] *)
Definition get_order (raw_customer_id : option string) (id : uuid) (r : HttpRequest) (d : db) : result OrderDetail :=
  customer ← reader_customer raw_customer_id r;
  match order_by_id d id with
  | None => Raise NotFoundError
  | Some o =>
      ensure (order_customer_id o =? customer) NotFoundError ;;
      let events := list_for_order d id in
      let executions := omap order_event_execution_id events in
      Ok {| detail_order := o; detail_events := events;
            detail_opened_lots := if bool_decide (order_side o = BUY) then lots_opened_by d executions else [];
            detail_consumed_lots := if bool_decide (order_side o = BUY) then [] else lots_consumed_by d executions |}
  end.

(** ** Model portfolios ([portfolios.py]) *)

(** [list_active]: by name *)
Definition active_models (d : db) : list ModelPortfolio :=
  sort_by (λ a b, bool_decide (String.leb (model_name a) (model_name b) = true))
    (filter (λ m, model_is_active m = true) (model_portfolios d)).

(** [_symbol_for] *)
Definition symbol_for (d : db) (security : uuid) : string :=
  match head (filter (λ s, security_id s = security) (securities d)) with Some s => security_symbol s | None => "" end.

(** [list_models] *)
Definition list_models (r : HttpRequest) (d : db) : result (list (ModelPortfolio * list (string * TargetWeight))) :=
  requires_role ("customer" :: STAFF_ROLES)%string r ;;
  Ok ((λ m, (m, (λ w, (symbol_for d (weight_security_id w), w)) <$> list_for_model d (model_id m))) <$> active_models d).

(** [portfolios.py] reads [current_user.id] itself. *)
Definition portfolio_customer (raw_customer_id : option string) (r : HttpRequest) : result uuid :=
  u ← requires_role ("customer" :: STAFF_ROLES)%string r;
  if String.eqb (caller_role u) "customer" then Ok (caller_id u)
  else match raw_customer_id with
       | None => Raise ValidationError
       | Some raw =>
           if String.eqb raw "" then Raise ValidationError
           else match parse_uuid raw with Ok id => Ok id | Raise ValueError => Raise ValidationError | Raise e => Raise e end
       end.

Definition authorize_portfolio (target : uuid) (r : HttpRequest) : result () :=
  match req_caller r with
  | None => Raise UnauthenticatedError
  | Some u =>
      if String.eqb (caller_role u) "customer" then ensure (caller_id u =? target) ForbiddenError
      else ensure (bool_decide (caller_role u ∈ STAFF_ROLES)) ForbiddenError
  end.

(** [get_assignment] *)
Definition get_assignment (raw_customer_id : option string) (r : HttpRequest) (d : db)
    : result (option CustomerModelAssignment) :=
  customer ← portfolio_customer raw_customer_id r;
  Ok (assignment_by_customer d customer).

Definition assign_model (customer model : uuid) (on : date) : prog CustomerModelAssignment :=
  found ← gets (λ d, model_by_id d model);
  match found with
  | Some m =>
      require (model_is_active m) (CodedError 422 "model_portfolio_not_found") ;;
      upsert_assignment {| assignment_customer_id := customer; assignment_model_portfolio_id := model;
                           assignment_assigned_at := on |}
  | None => throw (CodedError 422 "model_portfolio_not_found")
  end.

(** [create_assignment]: [today] is the market date of the clock. *)
Definition create_assignment (parse_id : json → option uuid) (today : date) (r : HttpRequest) (d : db)
    : result CustomerModelAssignment * db :=
  match (ensure (bool_decide (is_Some (req_caller r))) UnauthenticatedError ;;
         data ← match json_body r with
                | JObj fields =>
                    match json_get "customer_id" fields ≫= parse_id, json_get "model_portfolio_id" fields ≫= parse_id with
                    | Some c, Some m => Ok (c, m)
                    | _, _ => Raise ValidationError
                    end
                | _ => Raise ValidationError
                end;
         authorize_portfolio data.1 r ;;
         Ok data) with
  | Raise e => (Raise e, d)
  | Ok (customer, model) => transact no_deferred (assign_model customer model today) d
  end.

(** [holdings] *)
Definition get_holdings (drift_band_pct : dec) (raw_customer_id : option string) (today : date) (r : HttpRequest) (d : db)
    : result PortfolioHoldings :=
  customer ← portfolio_customer raw_customer_id r;
  match holdings drift_band_pct customer today d with
  | Raise NoAssignedModelError => Raise (CodedError 404 "no_model_assigned")
  | out => out
  end.

(** ** Breaks ([breaks.py]) *)

Definition list_breaks (status : option string) (r : HttpRequest) (d : db) : result (list ReconciliationBreak) :=
  requires_role STAFF_ROLES r ;;
  ensure (String.eqb (default "open"%string status) "open") ValidationError ;;
  Ok (list_open d).

(** [resolve]: the note is the body's; nothing maps [AlreadyResolvedError]. *)
Definition resolve_break (id : uuid) (note : option string) (now : instant) (r : HttpRequest) (d : db)
    : result () * db :=
  match (u ← requires_role STAFF_ROLES r;
         note ← match note with Some s => if String.eqb s "" then Raise ValidationError else Ok s | None => Raise ValidationError end;
         b ← match break_by_id id d with Some b => Ok b | None => Raise NotFoundError end;
         Ok (u, note, b)) with
  | Raise e => (Raise e, d)
  | Ok (u, note, b) =>
      transact no_deferred
        (audited "reconciliation.break.resolve" "customer_id" (break_customer_id b) r
           (resolve b (caller_id u) now note)) d
  end.

(** ** Handed over once *)

(** The order a job submits, as its payload spells it. *)
Definition submit_text (r : JobOutbox) : option string :=
  if String.eqb (outbox_task r) "submit_order_to_broker" then payload_get "order_id" (outbox_payload r) else None.

Definition queued_orders (d : db) : list string := omap submit_text (outbox d).

(** What matters of an order: its number, its status and its name at the broker. *)
Definition look (o : Order) : uuid * OrderStatus * string := (order_id o, order_status o, order_client_order_id o).
Definition looks (d : db) : list (uuid * OrderStatus * string) := look <$> orders d.

(** Every submission queued is one of a known order past its approval, no order
    is queued twice, and an approved order is queued. *)
Record queue_ok (d : db) : Prop := {
  queue_orders : orders_ok d;
  queue_names : ∀ id st c, (id, st, c) ∈ looks d → c = derive_client_order_id id;
  queue_once : NoDup (queued_orders d);
  queue_known : ∀ text, text ∈ queued_orders d →
    ∃ id st c, (id, st, c) ∈ looks d ∧ st ≠ AWAITING_APPROVAL ∧ uuid_str id = text;
  queue_complete : ∀ id c, (id, APPROVED, c) ∈ looks d → uuid_str id ∈ queued_orders d;
}.

Lemma elem_of_looks d id st c :
  (id, st, c) ∈ looks d ↔ (∃ o, o ∈ orders d ∧ order_id o = id ∧ order_status o = st ∧ order_client_order_id o = c).
Proof.
  unfold looks. rewrite list_elem_of_fmap. split.
  - intros (o & [= -> -> ->] & Ho). by exists o.
  - intros (o & Ho & <- & <- & <-). by exists o.
Qed.

Lemma queue_ok_empty d : orders_ok d → looks d = [] → queued_orders d = [] → queue_ok d.
Proof.
  intros Hd Hl Hq. split; rewrite ?Hl, ?Hq; [exact Hd| | | |]; intros; [set_solver|constructor|set_solver..].
Qed.

(** A step that queues the orders [new] and moves no order back. *)
Lemma queue_ok_grow d d' new :
  queue_ok d → orders_ok d' → queued_orders d' = queued_orders d ++ new → NoDup new →
  (∀ text, text ∈ new → (text ∉ queued_orders d) ∧
     ∃ id st c, (id, st, c) ∈ looks d' ∧ st ≠ AWAITING_APPROVAL ∧ uuid_str id = text) →
  (∀ id st c, (id, st, c) ∈ looks d → st ≠ AWAITING_APPROVAL → ∃ st', (id, st', c) ∈ looks d' ∧ st' ≠ AWAITING_APPROVAL) →
  (∀ id c, (id, APPROVED, c) ∈ looks d' → uuid_str id ∈ new ∨ (id, APPROVED, c) ∈ looks d) →
  (∀ id st c, (id, st, c) ∈ looks d' → c = derive_client_order_id id) →
  queue_ok d'.
Proof.
  intros [Hok Hn Ho Hk Hc] Hok' Hq Hnd Hnew Hkeep Happ Hnames. split; [done|exact Hnames| | |].
  - rewrite Hq. apply NoDup_app. split_and!; [done| |done]. intros text Ht Hin. by apply Hnew in Hin as [? _].
  - intros text. rewrite Hq, elem_of_app. intros [Ht|Ht]; [|by apply Hnew in Ht as [_ ?]].
    destruct (Hk text Ht) as (id & st & c & Hl & Hs & <-). destruct (Hkeep _ _ _ Hl Hs) as (st' & Hl' & Hs').
    by exists id, st', c.
  - intros id c Hl. rewrite Hq, elem_of_app. apply Happ in Hl as [Hl|Hl]; [by right|left; by apply (Hc id c)].
Qed.

(** Neither orders nor submissions change. *)
Lemma queue_ok_still d d' :
  queue_ok d → orders_ok d' → queued_orders d' = queued_orders d → looks d' = looks d → queue_ok d'.
Proof.
  intros Hd Hok' Hq Hl. apply (queue_ok_grow d d' []); [done|done|by rewrite Hq, app_nil_r|apply NoDup_nil_2|..]; rewrite ?Hl.
  - by intros text ?%elem_of_nil.
  - intros id st c Hin Hs. by exists st.
  - intros id c Hin. by right.
  - apply (queue_names _ Hd).
Qed.

Lemma queue_ok_frame {A} ts (m : prog A) d a d' :
  writes (H := trueup) ts m → forallb (λ t, bool_decide (t ∉ [TOrder; TOrderEvent; TJobOutbox])) ts = true →
  queue_ok d → run m d = Ok (a, d') → queue_ok d'.
Proof.
  intros Hw Hts Hd Hr.
  assert (Hn : ∀ t, t ∈ [TOrder; TOrderEvent; TJobOutbox] → tables (H := trueup) d' t = tables d t).
  { intros t Ht. refine (Hw d a d' Hr t _). intros Hin. rewrite forallb_forall in Hts.
    apply list_elem_of_In in Hin. specialize (Hts t Hin). by apply bool_decide_eq_true in Hts. }
  apply (queue_ok_still d); [done| | |].
  - refine (orders_ok_frame ts m d a d' Hw _ (queue_orders _ Hd) Hr). apply forallb_forall. intros t Ht.
    rewrite forallb_forall in Hts. specialize (Hts t Ht). apply bool_decide_eq_true in Hts. apply bool_decide_eq_true. set_solver.
  - unfold queued_orders, outbox. by rewrite (Hn TJobOutbox) by set_solver.
  - unfold looks, orders. by rewrite (Hn TOrder) by set_solver.
Qed.

(** *** Queueing *)

Lemma enqueue_Ok task payload d r d' :
  run (enqueue task payload) d = Ok (r, d') →
  outbox d' = outbox d ++ [r] ∧ outbox_task r = task ∧ outbox_payload r = payload.
Proof.
  unfold enqueue. intros (id & d1 & [-> ->]%run_uuid4_Ok & Hr)%run_bind_Ok.
  apply run_bind_Ok in Hr as (now & d1 & [<- <-]%run_gets_Ok & Hr).
  apply run_bind_Ok in Hr as (u & d1 & [_ ->]%run_add_Ok & [<- <-]%run_ret_Ok). by split_and!.
Qed.

Lemma enqueue_submission_Ok o d u d' :
  run (enqueue_submission o) d = Ok (u, d') → queued_orders d' = queued_orders d ++ [uuid_str (order_id o)].
Proof.
  unfold enqueue_submission. intros (s & d1 & [<- <-]%run_gets_Ok & Hr)%run_bind_Ok. destruct (head _) as [s|]; [|done].
  apply run_bind_Ok in Hr as (r & d1 & (Hq & Ht & Hp)%enqueue_Ok & [_ <-]%run_ret_Ok).
  unfold queued_orders. rewrite Hq, omap_app. f_equal. cbn [omap list_omap]. unfold submit_text. rewrite Ht, Hp. reflexivity.
Qed.

Lemma enqueue_submission_keeps o d u d' :
  run (enqueue_submission o) d = Ok (u, d') → looks d' = looks d ∧ (orders_ok d → orders_ok d').
Proof.
  intros Hr. split.
  - unfold looks, orders. by rewrite (writes_enqueue_submission o d u d' Hr TOrder ltac:(set_solver)).
  - intros Hok. exact (orders_ok_frame _ _ _ _ _ (writes_enqueue_submission _) eq_refl Hok Hr).
Qed.

(** *** Creating and approving *)

Lemma order_name_fresh d d1 o :
  queue_ok d → orders_ok d1 → orders d1 = orders d ++ [o] → order_client_order_id o = derive_client_order_id (order_id o) →
  (∀ x, x ∈ orders d → order_id x ≠ order_id o) → uuid_str (order_id o) ∉ queued_orders d.
Proof.
  intros Hd (Hi & _) Ho Hn Hfresh Hq.
  destruct (queue_known _ Hd _ Hq) as (id & st & c & Hin & _ & Ht). pose proof (queue_names _ Hd _ _ _ Hin) as Hc0.
  apply elem_of_looks in Hin as (x & Hx & _ & _ & Hc).
  assert (order_client_order_id x = order_client_order_id o) as Heq.
  { rewrite Hc, Hc0, Hn. unfold derive_client_order_id. by rewrite Ht. }
  destruct (Hi TOrder) as [_ Hcf]. unfold orders in Ho. rewrite Ho in Hcf.
  apply (conflict_free_split (H := trueup) TOrder (orders d) o []) in Hcf as [Hcf _].
  specialize (Hcf x Hx). cbn in Hcf. by rewrite Heq, String.eqb_refl, orb_true_r in Hcf.
Qed.

Lemma create_order_looks threshold req d o d' :
  queue_ok d → run (create_order threshold req) d = Ok (o, d') →
  orders_ok d' ∧ looks d' = looks d ++ [look o] ∧ outbox d' = outbox d ∧
  order_client_order_id o = derive_client_order_id (order_id o) ∧
  (order_status o = AWAITING_APPROVAL ∨ order_status o = APPROVED) ∧ uuid_str (order_id o) ∉ queued_orders d.
Proof.
  intros Hd Hr. destruct (create_keeps _ _ _ _ _ (queue_orders _ Hd) Hr) as [Hok' _].
  pose proof (writes_create_order _ _ _ _ _ Hr TJobOutbox ltac:(set_solver)) as Hq.
  destruct (create_order_Ok _ _ _ _ _ Hr) as (notional & d2 & d3 & _ & _ & _ & Ho & -> & [_ ->]%run_add_Ok & h & Hh).
  assert (orders d' = orders d ++ [o]) as Hos by exact (writes_open_hold _ _ _ _ _ _ Hh TOrder ltac:(set_solver)).
  split_and!; [done|unfold looks; by rewrite Hos, fmap_app|exact Hq|by rewrite Ho| |].
  - rewrite Ho. cbn. destruct (q_ltb _ _); [by left|by right].
  - apply (order_name_fresh d d' o); [done|done|done|by rewrite Ho|].
    intros x Hx. destruct (queue_orders _ Hd) as (_ & Hlt & _). specialize (Hlt x Hx). rewrite Ho. cbn. lia.
Qed.

(** A new order, queued exactly if it needs no approval. *)
Lemma queue_ok_created d d' o :
  queue_ok d → orders_ok d' → looks d' = looks d ++ [look o] →
  queued_orders d' = queued_orders d ++ (if bool_decide (order_status o = APPROVED) then [uuid_str (order_id o)] else []) →
  order_client_order_id o = derive_client_order_id (order_id o) → uuid_str (order_id o) ∉ queued_orders d → queue_ok d'.
Proof.
  intros Hd Hok' Hl Hq Hn Hfresh.
  assert (Hmine : (order_id o, order_status o, order_client_order_id o) ∈ looks d') by (rewrite Hl; set_solver).
  apply (queue_ok_grow d d' _ Hd Hok' Hq).
  - case_bool_decide; [apply NoDup_singleton|apply NoDup_nil_2].
  - case_bool_decide as Ha; [|by intros ? ?%elem_of_nil]. intros text ->%list_elem_of_singleton. split; [done|].
    eexists _, _, _. split_and!; [exact Hmine|by rewrite Ha|done].
  - intros id st c Hin Hs. exists st. rewrite Hl. set_solver.
  - intros id c. rewrite Hl, elem_of_app. intros [?|[= -> Hs ->]%list_elem_of_singleton]; [by right|left].
    rewrite bool_decide_eq_true_2 by done. by left.
  - intros id st c. rewrite Hl, elem_of_app. intros [?|[= -> -> ->]%list_elem_of_singleton]; [by eapply queue_names|done].
Qed.

Lemma queue_ok_enqueued d d1 d2 o u :
  queue_ok d → orders_ok d1 → looks d1 = looks d ++ [look o] → outbox d1 = outbox d →
  order_client_order_id o = derive_client_order_id (order_id o) → uuid_str (order_id o) ∉ queued_orders d →
  run (if bool_decide (order_status o = APPROVED) then enqueue_submission o else mret u) d1 = Ok (u, d2) → queue_ok d2.
Proof.
  intros Hd Hok1 Hl Hq Hn Hfresh Hr.
  assert (Hq1 : queued_orders d1 = queued_orders d) by (unfold queued_orders; by rewrite Hq).
  apply (queue_ok_created d d2 o); [done|..|done|done].
  - case_bool_decide; [|by apply run_ret_Ok in Hr as [_ <-]]. by apply (enqueue_submission_keeps _ _ _ _ Hr).
  - case_bool_decide; [|by apply run_ret_Ok in Hr as [_ <-]]. by rewrite (proj1 (enqueue_submission_keeps _ _ _ _ Hr)).
  - rewrite <- Hq1. case_bool_decide; [exact (enqueue_submission_Ok _ _ _ _ Hr)|].
    apply run_ret_Ok in Hr as [_ <-]. by rewrite app_nil_r.
Qed.

Lemma rebalance_ok threshold customer security side quantity price d o d' :
  queue_ok d → run (@place (real_order_placer threshold) customer security side quantity price) d = Ok (o, d') →
  queue_ok d'.
Proof.
  intros Hd (x & d1 & Hc & Hr)%run_bind_Ok. apply run_bind_Ok in Hr as ([] & d2 & He & [_ <-]%run_ret_Ok).
  destruct (create_order_looks _ _ _ _ _ Hd Hc) as (Hok1 & Hl & Hq & Hn & _ & Hf). by eapply queue_ok_enqueued.
Qed.

Lemma place_ok threshold call req ids d res d' :
  queue_ok d → run (place_order threshold call req ids) d = Ok (res, d') → queue_ok d'.
Proof.
  intros Hd [(k & _ & _ & _ & ->)|(_ & des & o & d1 & d2 & d3 & [] & k & d4 & _ & Hc & Hu & He & -> & _ & _ & _ & _ & Ha)]%place_order_Ok;
    [done|].
  destruct (create_order_looks _ _ _ _ _ Hd Hc) as (Hok1 & Hl & Hq & Hn & _ & Hf).
  assert (Hok2 : orders_ok d2).
  { refine (orders_ok_assign _ _ _ _ _ (orders_ok_weaken _ _ Hok1) Hu _). intros x Hx Hid.
    split; [exact Hid|]. destruct Hok1 as (_ & _ & _ & Hp). rewrite <- Hid. exact (Hp x Hx). }
  assert (Hl2 : looks d2 = looks d1).
  { apply run_update_Ok in Hu as (_ & _ & _ & _ & ->). unfold looks, orders.
    rewrite (tables_set_same (H := trueup) TOrder). unfold update_table. rewrite <- list_fmap_compose.
    apply list_fmap_ext. intros i x _. unfold compose. by destruct (order_id x =? order_id o). }
  assert (Hd3 : queue_ok d3).
  { eapply queue_ok_enqueued; [exact Hd|exact Hok2|by rewrite Hl2| |exact Hn|exact Hf|exact He].
    rewrite <- Hq. apply run_update_Ok in Hu as (_ & _ & _ & _ & ->).
    exact (tables_set_ne (H := trueup) TOrder TJobOutbox _ _ ltac:(done)). }
  refine (queue_ok_frame [TIdempotencyKey] (id ← uuid4; add TIdempotencyKey k) d3 () d' _ eq_refl Hd3 _).
  - apply writes_bind; [apply writes_uuid4|intros ?]. apply writes_add. by left.
  - rewrite run_bind. cbn [uuid4 run]. exact Ha.
Qed.

(** Orders of one name are one order. *)
Lemma looks_inj d id st c id' st' c' :
  queue_ok d → (id, st, c) ∈ looks d → (id', st', c') ∈ looks d → uuid_str id = uuid_str id' →
  (id, st, c) = (id', st', c').
Proof.
  intros Hd H1 H2 Ht. pose proof (queue_names _ Hd _ _ _ H1) as N1. pose proof (queue_names _ Hd _ _ _ H2) as N2.
  apply elem_of_looks in H1 as (x & Hx & <- & <- & <-). apply elem_of_looks in H2 as (y & Hy & <- & <- & <-).
  assert (x = y) as ->; [|done]. destruct (queue_orders _ Hd) as (Hi & _).
  assert (y ∈ filter (λ o, order_client_order_id o = order_client_order_id x) (orders d)) as Hin.
  { apply list_elem_of_filter. split; [|done]. rewrite N1, N2. unfold derive_client_order_id. by rewrite Ht. }
  rewrite (filter_unique_key (H := trueup) TOrder order_client_order_id d x) in Hin; [| |exact Hi|exact Hx].
  - by apply list_elem_of_singleton in Hin as ->.
  - intros a b Hab. cbn. by rewrite Hab, String.eqb_refl, orb_true_r.
Qed.

Definition approve_look (id : uuid) (l : uuid * OrderStatus * string) : uuid * OrderStatus * string :=
  if l.1.1 =? id then (l.1.1, APPROVED, l.2) else l.

Lemma approve_order_looks id d o d1 :
  run (approve_order id) d = Ok (o, d1) →
  order_id o = id ∧ outbox d1 = outbox d ∧ looks d1 = approve_look id <$> looks d ∧
  ∃ c, (id, AWAITING_APPROVAL, c) ∈ looks d.
Proof.
  intros (found & d0 & [<- <-]%run_gets_Ok & Hap)%run_bind_Ok.
  destruct (order_by_id d id) as [w|] eqn:Hw; [|done]. apply order_by_id_Some in Hw as [Hw Hid].
  apply run_bind_Ok in Hap as ([] & d0 & [Hs%bool_decide_eq_true <-]%run_require_Ok & Hap).
  apply run_bind_Ok in Hap as ([] & d0 & Hu & Hap). apply run_bind_Ok in Hap as (n & d3 & [<- <-]%run_gets_Ok & [<- <-]%run_ret_Ok).
  unfold assign_order in Hu. apply run_bind_Ok in Hu as (now & d3 & [<- <-]%run_gets_Ok & Hu).
  assert (Hset : ∀ y at_ f a, order_id (set_order at_ APPROVED f a y) = order_id y ∧
                  look (set_order at_ APPROVED f a y) = (order_id y, APPROVED, order_client_order_id y)).
  { intros y at_ f a. unfold look, set_order. destruct (bool_decide (APPROVED = order_status y) && _ && _) eqn:E; [|done].
    apply andb_true_iff in E as [[E _]%andb_true_iff _]. apply bool_decide_eq_true in E. by rewrite <- E. }
  apply run_update_Ok in Hu as (_ & _ & _ & _ & ->). split_and!.
  - by rewrite (proj1 (Hset _ _ _ _)).
  - exact (tables_set_ne (H := trueup) TOrder TJobOutbox _ _ ltac:(done)).
  - unfold looks, orders. rewrite (tables_set_same (H := trueup) TOrder). unfold update_table.
    rewrite <- !list_fmap_compose. apply list_fmap_ext. intros i y _. unfold compose, approve_look. cbn [look fst snd].
    destruct (order_id y =? id); [exact (proj2 (Hset _ _ _ _))|done].
  - exists (order_client_order_id w). apply elem_of_looks. by exists w.
Qed.

Lemma approve_ok id d o d' : queue_ok d → run (approve_and_enqueue id) d = Ok (o, d') → queue_ok d'.
Proof.
  intros Hd (x & d1 & Hap & Hr)%run_bind_Ok. apply run_bind_Ok in Hr as (u & d2 & He & [_ <-]%run_ret_Ok).
  pose proof (approve_keeps _ _ _ _ (queue_orders _ Hd) Hap) as Hok1.
  destruct (enqueue_submission_keeps _ _ _ _ He) as [Hl2 Hok2]. specialize (Hok2 Hok1). apply enqueue_submission_Ok in He.
  destruct (approve_order_looks _ _ _ _ Hap) as (Hid & Hq & Hl & c0 & Hw). rewrite Hl in Hl2.
  assert (Hq2 : queued_orders d2 = queued_orders d ++ [uuid_str id]).
  { rewrite He, Hid. f_equal. unfold queued_orders. by rewrite Hq. }
  apply (queue_ok_grow d d2 _ Hd Hok2 Hq2); rewrite ?Hl2.
  - apply NoDup_singleton.
  - intros text ->%list_elem_of_singleton. split.
    + intros Hin. destruct (queue_known _ Hd _ Hin) as (id' & st & c & Hk & Hst & Ht).
      by pose proof (looks_inj d _ _ _ _ _ _ Hd Hk Hw Ht) as [= _ -> _].
    + exists id, APPROVED, c0. split_and!; [|done|done]. apply list_elem_of_fmap.
      exists (id, AWAITING_APPROVAL, c0). unfold approve_look. cbn [fst snd]. by rewrite Z.eqb_refl.
  - intros id' st c Hin Hst. exists st. split; [|done]. apply list_elem_of_fmap. exists (id', st, c). split; [|done].
    unfold approve_look. cbn [fst snd]. destruct (Z.eqb_spec id' id) as [->|]; [|done].
    by pose proof (looks_inj d _ _ _ _ _ _ Hd Hin Hw eq_refl) as [= -> _].
  - intros id' c ([[i st] c'] & Hy & Hin)%list_elem_of_fmap. unfold approve_look in Hy. cbn [fst snd] in Hy.
    destruct (Z.eqb_spec i id) as [->|]; injection Hy; intros; subst; [left; by left|by right].
  - intros id' st c ([[i st'] c'] & Hy & Hin)%list_elem_of_fmap. unfold approve_look in Hy. cbn [fst snd] in Hy.
    apply (queue_names _ Hd _ st'). destruct (Z.eqb_spec i id); injection Hy; intros; by subst.
Qed.

(** *** The broker's events *)

(** An order left as it was, or one that has events by now. *)
Definition moved (d' : db) (o o' : Order) : Prop :=
  order_id o' = order_id o ∧ order_client_order_id o' = order_client_order_id o ∧
  (o' = o ∨ list_for_order d' (order_id o) ≠ []).

Lemma moved_refl d l : Forall2 (moved d) l l.
Proof. induction l; constructor; [|done]. by split_and!; [..|left]. Qed.

Lemma queue_ok_moved d d' :
  queue_ok d → orders_ok d' → outbox d' = outbox d → Forall2 (moved d') (orders d) (orders d') → queue_ok d'.
Proof.
  intros Hd Hok' Hq Hm.
  assert (Hlate : ∀ o o', o' ∈ orders d' → moved d' o o' → order_status o' = AWAITING_APPROVAL ∨ order_status o' = APPROVED → o' = o).
  { intros o o' Ho' (Hid & _ & [->|Hev]) Hs; [done|].
    destruct (waiting_no_events d' o' Hok' Ho' Hs) as [He _]. by rewrite Hid in He. }
  apply (queue_ok_grow d d' []); [done|done|unfold queued_orders; by rewrite Hq, app_nil_r|apply NoDup_nil_2|..].
  - by intros text ?%elem_of_nil.
  - intros id st c (o & Ho & <- & <- & <-)%elem_of_looks Hs. apply list_elem_of_lookup in Ho as [i Hi].
    destruct (Forall2_lookup_l _ _ _ _ _ Hm Hi) as (o' & Hi' & Hmo). apply list_elem_of_lookup_2 in Hi'.
    exists (order_status o'). split.
    + apply elem_of_looks. exists o'. destruct Hmo as (-> & -> & _). by split_and!.
    + intros Haw. apply Hs. by rewrite <- (Hlate o o' Hi' Hmo (or_introl Haw)).
  - intros id c (o' & Ho' & <- & Hs & <-)%elem_of_looks. right. apply list_elem_of_lookup in Ho' as [i Hi].
    destruct (Forall2_lookup_r _ _ _ _ _ Hm Hi) as (o & Hi' & Hmo).
    pose proof (Hlate o o' (list_elem_of_lookup_2 _ _ _ Hi) Hmo (or_intror Hs)). subst o'.
    apply elem_of_looks. exists o. split_and!; [by eapply list_elem_of_lookup_2|done..].
  - intros id st c (o' & Ho' & <- & <- & <-)%elem_of_looks. apply list_elem_of_lookup in Ho' as [i Hi].
    destruct (Forall2_lookup_r _ _ _ _ _ Hm Hi) as (o & Hi' & (-> & -> & _)).
    apply (queue_names _ Hd _ (order_status o)). apply elem_of_looks. exists o.
    split_and!; [by eapply list_elem_of_lookup_2|done..].
Qed.

Lemma apply_new_event_listed order e now d st d' :
  order_event_order_id e = order_id order → run (apply_new_event order e now) d = Ok (st, d') →
  list_for_order d' (order_id order) ≠ [].
Proof.
  intros He (d1 & d2 & [_ ->]%run_add_Ok & _ & Hu & Hrel)%apply_new_event_Ok.
  apply run_update_Ok in Hu as (_ & _ & _ & _ & ->).
  assert (order_events d' = order_events d ++ [e]) as Hes.
  { unfold order_events. by rewrite (writes_release_if_warranted _ _ _ _ _ _ Hrel TOrderEvent ltac:(set_solver)). }
  unfold list_for_order. rewrite Hes. intros Hn%(f_equal length).
  rewrite (Permutation_length (sort_by_perm _ _)), filter_app, (filter_cons_True _ e), length_app in Hn by done. cbn in Hn. lia.
Qed.

Lemma apply_new_event_moved order e now d st d' :
  order_event_order_id e = order_id order → run (apply_new_event order e now) d = Ok (st, d') →
  Forall2 (moved d') (orders d) (orders d').
Proof.
  intros He Hr. pose proof (apply_new_event_listed _ _ _ _ _ _ He Hr) as Hev. revert Hr.
  intros (d1 & d2 & [_ ->]%run_add_Ok & _ & Hu & Hrel)%apply_new_event_Ok.
  assert (∀ t, t ≠ TApprovalHold → tables (H := trueup) d' t = tables d2 t) as Hframe.
  { intros t Ht. apply (writes_release_if_warranted _ _ _ _ _ _ Hrel). set_solver. }
  apply run_update_Ok in Hu as (_ & _ & _ & _ & ->).
  assert (orders d' = (λ o, if order_id o =? order_id order then
            set_order (db_now d) (state_status st) (state_filled_quantity st) (state_average_fill_price st) o else o) <$> orders d) as ->.
  { unfold orders. rewrite (Hframe TOrder) by done. rewrite (tables_set_same (H := trueup) TOrder). reflexivity. }
  generalize (orders d) as l. intros l. induction l as [|o l IH]; constructor; [|done].
  destruct (Z.eqb_spec (order_id o) (order_id order)) as [E|E]; [|by split_and!; [..|left]].
  destruct (set_order_projection (db_now d) (state_status st) (state_filled_quantity st) (state_average_fill_price st) o) as (_ & Hid & _).
  split_and!; [done| |right; by rewrite E]. unfold set_order. by destruct (_ && _).
Qed.

Lemma synthesize_moved order type payload now d u d' :
  run (synthesize_event order type payload now) d = Ok (u, d') → Forall2 (moved d') (orders d) (orders d').
Proof.
  intros (id & d1 & [-> ->]%run_uuid4_Ok & Hr)%run_bind_Ok. apply run_bind_Ok in Hr as (st & d2 & Hr & [_ <-]%run_ret_Ok).
  by apply apply_new_event_moved in Hr.
Qed.

Lemma submit_ok `{BrokerPort} id symbol now d calls d' :
  queue_ok d → run (submit_to_broker id symbol now) d = Ok (calls, d') → queue_ok d'.
Proof.
  intros Hd Hr. pose proof (submit_keeps _ _ _ _ _ _ (queue_orders _ Hd) Hr) as Hok'.
  pose proof (writes_submit _ _ _ _ _ _ Hr TJobOutbox ltac:(set_solver)) as Hq.
  apply (queue_ok_moved d d' Hd Hok' Hq). unfold submit_to_broker in Hr.
  apply run_bind_Ok in Hr as (found & d1 & [<- <-]%run_gets_Ok & Hr).
  destruct (order_by_id d id) as [x|]; [|apply run_ret_Ok in Hr as [_ <-]; apply moved_refl].
  destruct (negb _); [apply run_ret_Ok in Hr as [_ <-]; apply moved_refl|].
  apply run_bind_Ok in Hr as (reason & d1 & [<- <-]%run_gets_Ok & Hr). destruct (ineligibility d _) as [r|].
  - apply run_bind_Ok in Hr as (u & d1 & Hr & [_ <-]%run_ret_Ok). exact (synthesize_moved _ _ _ _ _ _ _ Hr).
  - apply run_bind_Ok in Hr as (h & d1 & [_ <-]%run_lift_Ok & Hr).
    apply run_bind_Ok in Hr as (u & d1 & Hr & [_ <-]%run_ret_Ok). exact (synthesize_moved _ _ _ _ _ _ _ Hr).
Qed.

Lemma update_ok `{TradingCalendar} utc_offset market_instant type payload message r1 r2 d push d' :
  queue_ok d → run (apply_update utc_offset market_instant type payload message r1 r2) d = Ok (push, d') → queue_ok d'.
Proof.
  intros Hd Hr. pose proof (update_keeps _ _ _ _ _ _ _ _ _ _ (queue_orders _ Hd) Hr) as Hok'.
  assert (outbox d' = outbox d) as Hq.
  { refine (writes_apply_update _ _ _ _ _ _ _ _ _ _ Hr TJobOutbox _). not_written. }
  apply (queue_ok_moved d d' Hd Hok' Hq). unfold apply_update in Hr.
  apply run_bind_Ok in Hr as (found & d1 & [<- <-]%run_gets_Ok & Hr).
  destruct (order_by_client_order_id d _) as [o|]; [|done].
  apply run_bind_Ok in Hr as (id & d1 & [-> ->]%run_uuid4_Ok & Hr).
  apply run_bind_Ok in Hr as (st & d2 & Hev & Hr). apply apply_new_event_moved in Hev; [|done].
  apply run_bind_Ok in Hr as (u & d3 & Hl & [_ <-]%run_ret_Ok).
  destruct (bool_decide (type = EV_FILL)); [|by apply run_ret_Ok in Hl as [_ <-]].
  assert (∀ t, t ∈ [TOrder; TOrderEvent] → tables (H := trueup) d3 t = tables d2 t) as Hframe.
  { intros t Ht. apply (writes_record_lot_fill _ _ _ _ _ _ _ _ Hl).
    apply elem_of_cons in Ht as [Ht|Ht%list_elem_of_singleton]; rewrite Ht; not_written. }
  unfold orders at 2. rewrite (Hframe TOrder) by set_solver.
  refine (Forall2_impl _ _ _ _ Hev _). intros x y (H1 & H2 & H3). split_and!; [done|done|].
  unfold list_for_order, order_events in *. by rewrite (Hframe TOrderEvent) by set_solver.
Qed.

(** *** The queue of submissions *)

(** One committed transaction: of the customer's routes, of the rebalancer, of
    the worker's handlers or its bookkeeping, or of anything that keeps to other
    tables. *)
Inductive queue_step `{BrokerPort, TradingCalendar} (utc_offset : instant → Z) (market_instant : date * Z → instant)
    : db → db → Prop :=
  | queue_place threshold call req ids d res d' :
      run (place_order threshold call req ids) d = Ok (res, d') → queue_step utc_offset market_instant d d'
  | queue_rebalance threshold customer security side quantity price d o d' :
      run (@place (real_order_placer threshold) customer security side quantity price) d = Ok (o, d') →
      queue_step utc_offset market_instant d d'
  | queue_approve id d o d' :
      run (approve_and_enqueue id) d = Ok (o, d') → queue_step utc_offset market_instant d d'
  | queue_submit id symbol now d calls d' :
      run (submit_to_broker id symbol now) d = Ok (calls, d') → queue_step utc_offset market_instant d d'
  | queue_update type payload message r1 r2 d push d' :
      run (apply_update utc_offset market_instant type payload message r1 r2) d = Ok (push, d') →
      queue_step utc_offset market_instant d d'
  | queue_enqueue task payload d r d' :
      task ≠ "submit_order_to_broker"%string → run (enqueue task payload) d = Ok (r, d') →
      queue_step utc_offset market_instant d d'
  | queue_worker f p d u d' :
      (∀ r, outbox_task (f r) = outbox_task r ∧ outbox_payload (f r) = outbox_payload r) →
      run (update TJobOutbox p f) d = Ok (u, d') → queue_step utc_offset market_instant d d'
  | queue_elsewhere {A} ts (m : prog A) d a d' :
      writes (H := trueup) ts m → TOrder ∉ ts → TOrderEvent ∉ ts → TJobOutbox ∉ ts → run m d = Ok (a, d') →
      queue_step utc_offset market_instant d d'.

Lemma enqueue_other_ok task payload d r d' :
  queue_ok d → task ≠ "submit_order_to_broker"%string → run (enqueue task payload) d = Ok (r, d') → queue_ok d'.
Proof.
  intros Hd Ht Hr. assert (writes (H := trueup) [TJobOutbox] (enqueue task payload)) as Hw by (unfold enqueue; writes_auto).
  apply (queue_ok_still d d' Hd).
  - exact (orders_ok_frame _ _ _ _ _ Hw eq_refl (queue_orders _ Hd) Hr).
  - destruct (enqueue_Ok _ _ _ _ _ Hr) as (Hq & Htask & _). unfold queued_orders. rewrite Hq, omap_app.
    cbn [omap list_omap]. unfold submit_text at 2. apply String.eqb_neq in Ht. by rewrite Htask, Ht, app_nil_r.
  - unfold looks, orders. by rewrite (Hw _ _ _ Hr TOrder ltac:(set_solver)).
Qed.

Lemma submit_texts_kept (p : JobOutbox → bool) f (l : list JobOutbox) :
  (∀ r, outbox_task (f r) = outbox_task r ∧ outbox_payload (f r) = outbox_payload r) →
  omap submit_text ((λ r, if p r then f r else r) <$> l) = omap submit_text l.
Proof.
  intros Hf. induction l as [|r l IH]; csimpl; [done|]. rewrite IH. destruct (p r); [|done].
  unfold submit_text. by destruct (Hf r) as [-> ->].
Qed.

Lemma worker_update_ok f p d u d' :
  queue_ok d → (∀ r, outbox_task (f r) = outbox_task r ∧ outbox_payload (f r) = outbox_payload r) →
  run (update TJobOutbox p f) d = Ok (u, d') → queue_ok d'.
Proof.
  intros Hd Hf Hr. assert (writes (H := trueup) [TJobOutbox] (update TJobOutbox p f)) as Hw by (apply writes_update; by left).
  apply (queue_ok_still d d' Hd).
  - exact (orders_ok_frame _ _ _ _ _ Hw eq_refl (queue_orders _ Hd) Hr).
  - apply run_update_Ok in Hr as (_ & _ & _ & _ & ->). unfold queued_orders, outbox.
    rewrite (tables_set_same (H := trueup) TJobOutbox). by apply submit_texts_kept.
  - unfold looks, orders. by rewrite (Hw _ _ _ Hr TOrder ltac:(set_solver)).
Qed.

Lemma queue_step_ok `{BrokerPort, TradingCalendar} utc_offset market_instant d d' :
  queue_ok d → queue_step utc_offset market_instant d d' → queue_ok d'.
Proof.
  intros Hd H1. destruct H1.
  - by eapply place_ok.
  - by eapply rebalance_ok.
  - by eapply approve_ok.
  - by eapply submit_ok.
  - by eapply update_ok.
  - by eapply enqueue_other_ok.
  - by eapply worker_update_ok.
  - eapply (queue_ok_frame ts m); [done| |done|done]. apply forallb_forall. intros t Ht%list_elem_of_In.
    apply bool_decide_eq_true. set_solver.
Qed.

(** C5. An order is handed to the broker's queue once and only after its
    approval.  Whatever the routes, the rebalancer, the worker and the rest of
    the system do, in any order: the submissions ever queued name distinct
    orders, each of them past its approval, and an order that stands approved
    is among them; so a step that finds the order awaiting approval finds
    nothing queued for it. *)
Theorem queued_once_after_approval `{BrokerPort, TradingCalendar} utc_offset market_instant d d' :
  queue_ok d → rtc (queue_step utc_offset market_instant) d d' →
  NoDup (queued_orders d') ∧
  (∀ o, o ∈ orders d' → order_status o = APPROVED → uuid_str (order_id o) ∈ queued_orders d') ∧
  (∀ o, o ∈ orders d' → order_status o = AWAITING_APPROVAL → uuid_str (order_id o) ∉ queued_orders d') ∧
  ∀ text, text ∈ queued_orders d' → ∃ o, o ∈ orders d' ∧ order_status o ≠ AWAITING_APPROVAL ∧ uuid_str (order_id o) = text.
Proof.
  intros Hd Hs. assert (Hd' : queue_ok d').
  { induction Hs as [|d d1 d2 H1 _ IH]; [done|]. by eapply IH, queue_step_ok. }
  split_and!; [apply (queue_once _ Hd')| | |].
  - intros o Ho Hst. apply (queue_complete _ Hd' _ (order_client_order_id o)). apply elem_of_looks. by exists o.
  - intros o Ho Hst Hin. destruct (queue_known _ Hd' _ Hin) as (id & st & c & Hl & Hne & Ht).
    assert (Hme : (order_id o, AWAITING_APPROVAL, order_client_order_id o) ∈ looks d') by (apply elem_of_looks; by exists o).
    by pose proof (looks_inj d' _ _ _ _ _ _ Hd' Hl Hme Ht) as [= _ -> _].
  - intros text Hin. destruct (queue_known _ Hd' _ Hin) as (id & st & c & (o & Ho & <- & <- & _)%elem_of_looks & Hne & Ht).
    by exists o.
Qed.

Lemma sample_desk_queue : queue_ok sample_desk.
Proof. apply queue_ok_empty; [exact sample_desk_ok|vm_compute; reflexivity..]. Qed.

Lemma order_texts d l : (λ o, uuid_str (order_id o)) <$> orders d = l → ∀ o, o ∈ orders d → uuid_str (order_id o) ∈ l.
Proof. intros <- o Ho. apply list_elem_of_fmap. by exists o. Qed.

Lemma sample_order_texts :
  (λ o, uuid_str (order_id o)) <$> orders sample_submitted.2 = ["00000000-0000-0000-0000-000000000067"%string].
Proof. vm_compute. reflexivity. Qed.

(** An order under the approval threshold is queued as it is placed, and still
    is, once, after the broker has it. *)
Lemma queued_once_after_approval_witness :
  queued_orders sample_submitted.2 = ["00000000-0000-0000-0000-000000000067"%string] ∧
  ∀ o, o ∈ orders sample_submitted.2 → order_status o ≠ AWAITING_APPROVAL.
Proof.
  destruct (queued_once_after_approval (H0 := sample_calendar) (λ _, 0) (λ t, noon t.1) sample_desk sample_submitted.2
    sample_desk_queue) as (_ & _ & Ha & _).
  { eapply rtc_l; [exact (queue_place _ _ _ _ _ _ _ _ _ sample_place_runs)|].
    apply rtc_once. exact (queue_submit _ _ _ _ _ _ _ _ sample_submit_runs). }
  assert (Hq : queued_orders sample_submitted.2 = ["00000000-0000-0000-0000-000000000067"%string]) by (vm_compute; reflexivity).
  split; [exact Hq|]. intros o Ho Hst. apply (Ha o Ho Hst). rewrite Hq.
  apply (order_texts _ _ sample_order_texts). exact Ho.
Defined.

(** ** Offered once *)

(** What an attempt to submit the order sends to the broker: the request under
    the order's name, if the order stands approved and its customer is eligible. *)
Definition broker_requests (id : uuid) (d : db) : list string :=
  match order_by_id d id with
  | None => []
  | Some order =>
      if bool_decide (order_status order = APPROVED) && bool_decide (ineligibility d (order_customer_id order) = None)
      then [order_client_order_id order] else []
  end.

(** The broker is asked for nothing else: without a request its answers do not
    matter, with one its refusal is the attempt's, and what a committed attempt
    returns are its requests. *)
Lemma broker_requests_made id d symbol now :
  (broker_requests id d = [] → ∀ b1 b2 : BrokerPort,
     run (@submit_to_broker b1 id symbol now) d = run (@submit_to_broker b2 id symbol now) d) ∧
  (∀ name e, broker_requests id d = [name] → ∀ b : BrokerPort,
     (∀ side quantity, @submit_order b name symbol side quantity = Raise e) →
     run (@submit_to_broker b id symbol now) d = Raise e) ∧
  ∀ (b : BrokerPort) calls d', run (@submit_to_broker b id symbol now) d = Ok (calls, d') → calls = broker_requests id d.
Proof.
  unfold broker_requests, submit_to_broker. split_and!.
  - intros Hn b1 b2. rewrite !run_bind. cbn [run gets]. destruct (order_by_id d id) as [o|]; [|done].
    destruct (bool_decide _); [|done]. cbn [negb andb] in *. rewrite !run_bind. cbn [run gets].
    by destruct (ineligibility d _).
  - intros name e Hn b Hb. rewrite !run_bind. cbn [run gets]. destruct (order_by_id d id) as [o|]; [|done].
    destruct (bool_decide _); [|done]. cbn [negb andb] in *. rewrite !run_bind. cbn [run gets].
    destruct (ineligibility d _); [done|]. injection Hn as ->. rewrite run_bind, Hb. done.
  - intros b calls d' (found & d1 & [<- <-]%run_gets_Ok & Hr)%run_bind_Ok.
    destruct (order_by_id d id) as [o|]; [|by apply run_ret_Ok in Hr as [<- _]].
    destruct (bool_decide _); [|by apply run_ret_Ok in Hr as [<- _]]. cbn [negb andb] in *.
    apply run_bind_Ok in Hr as (r & d1 & [<- <-]%run_gets_Ok & Hr). destruct (ineligibility d _) as [r|].
    + by apply run_bind_Ok in Hr as (u & d1 & _ & [<- _]%run_ret_Ok).
    + apply run_bind_Ok in Hr as (h & d1 & _ & Hr). by apply run_bind_Ok in Hr as (u & d2 & _ & [<- _]%run_ret_Ok).
Qed.

(** An attempt of the worker to submit an order. *)
Record Attempt := { attempt_order : uuid; attempt_requests : list string; attempt_committed : bool }.

(** A broker that answers nobody: the steps of a system that submits nothing. *)
Definition closed_broker : BrokerPort :=
  {| submit_order := λ _ _ _ _, Raise NotImplementedError; cancel_order := λ _, Raise NotImplementedError |}.

(** A history of the system with its attempts to submit.  An attempt commits, or
    it fails - the broker raised or answered too late, a constraint, the
    connection or the worker gave way before the commit - and its transaction
    leaves the store as it was, whether or not the request had been sent. *)
Inductive submission_history `{TradingCalendar} (utc_offset : instant → Z) (market_instant : date * Z → instant)
    : db → list Attempt → db → Prop :=
  | history_start d : submission_history utc_offset market_instant d [] d
  | history_commits (broker : BrokerPort) id symbol now d calls d1 l d2 :
      run (@submit_to_broker broker id symbol now) d = Ok (calls, d1) → submission_history utc_offset market_instant d1 l d2 →
      submission_history utc_offset market_instant d
        ({| attempt_order := id; attempt_requests := calls; attempt_committed := true |} :: l) d2
  | history_fails id d l d2 :
      submission_history utc_offset market_instant d l d2 →
      submission_history utc_offset market_instant d
        ({| attempt_order := id; attempt_requests := broker_requests id d; attempt_committed := false |} :: l) d2
  | history_elsewhere d d1 l d2 :
      @queue_step closed_broker _ utc_offset market_instant d d1 → submission_history utc_offset market_instant d1 l d2 →
      submission_history utc_offset market_instant d l d2.

Lemma queue_step_extends `{BrokerPort, TradingCalendar} utc_offset market_instant d d' :
  queue_step utc_offset market_instant d d' → extends (H := trueup) d d'.
Proof. intros H1. destruct H1; eapply run_extends; eassumption. Qed.

Lemma events_kept d d' id :
  extends (H := trueup) d d' → list_for_order d id ≠ [] → list_for_order d' id ≠ [].
Proof.
  intros (_ & _ & Hp) Hne Hn. specialize (Hp TOrderEvent eq_refl) as [l Hl].
  assert (order_events d' = order_events d ++ l) as He by exact Hl. apply Hne. revert Hn.
  unfold list_for_order. rewrite He, filter_app. intros Hn%(f_equal length).
  rewrite (Permutation_length (sort_by_perm _ _)), length_app in Hn. cbn in Hn.
  by destruct (filter _ (order_events d)).
Qed.

(** Without events an order is known to the broker under no name; with them it is past its approval. *)
Lemma broker_requests_fresh id d :
  queue_ok d → broker_requests id d = [] ∨ broker_requests id d = [derive_client_order_id id] ∧ list_for_order d id = [].
Proof.
  intros Hd. unfold broker_requests. destruct (order_by_id d id) as [o|] eqn:Ho; [|by left].
  apply order_by_id_Some in Ho as [Ho <-]. case_bool_decide as Hs; [|by left]. case_bool_decide; [|by left]. cbn [andb].
  right. split; [|exact (proj1 (waiting_no_events d o (queue_orders _ Hd) Ho (or_intror Hs)))]. f_equal.
  apply (queue_names _ Hd _ (order_status o)), elem_of_looks. by exists o.
Qed.

Lemma submit_listed `{BrokerPort} id symbol now d calls d' :
  run (submit_to_broker id symbol now) d = Ok (calls, d') → calls ≠ [] → list_for_order d' id ≠ [].
Proof.
  intros (found & d1 & [<- <-]%run_gets_Ok & Hr)%run_bind_Ok Hne.
  destruct (order_by_id d id) as [o|] eqn:Ho; [|by apply run_ret_Ok in Hr as [<- _]].
  apply order_by_id_Some in Ho as [_ <-]. destruct (negb _); [by apply run_ret_Ok in Hr as [<- _]|].
  apply run_bind_Ok in Hr as (r & d1 & [<- <-]%run_gets_Ok & Hr). destruct (ineligibility d _) as [r|].
  - by apply run_bind_Ok in Hr as (u & d1 & _ & [<- _]%run_ret_Ok).
  - apply run_bind_Ok in Hr as (hd & d1 & [_ <-]%run_lift_Ok & Hr). apply run_bind_Ok in Hr as (u & d1 & Hr & [_ <-]%run_ret_Ok).
    apply run_bind_Ok in Hr as (n & d2 & [-> ->]%run_uuid4_Ok & Hr).
    apply run_bind_Ok in Hr as (st & d2 & Hr & [_ <-]%run_ret_Ok). by apply apply_new_event_listed in Hr.
Qed.

(** What an attempt of a history may have sent: the name derived from the order's
    number or nothing; nothing once the order has events, as it does after a
    committed request. *)
Lemma history_attempts `{TradingCalendar} utc_offset market_instant d l d' :
  queue_ok d → submission_history utc_offset market_instant d l d' →
  queue_ok d' ∧ extends (H := trueup) d d' ∧ ∀ a, a ∈ l →
    (attempt_requests a = [] ∨ attempt_requests a = [derive_client_order_id (attempt_order a)]) ∧
    (list_for_order d (attempt_order a) ≠ [] → attempt_requests a = []) ∧
    (attempt_committed a = true → attempt_requests a ≠ [] → list_for_order d' (attempt_order a) ≠ []).
Proof.
  intros Hd Hl. induction Hl as [d|broker id symbol now d calls d1 l d2 Hr _ IH|id d l d2 _ IH|d d1 l d2 Hs _ IH].
  - split_and!; [done|done|]. by intros a ?%elem_of_nil.
  - pose proof (run_extends _ _ _ _ Hr) as He. destruct (IH (submit_ok _ _ _ _ _ _ Hd Hr)) as (Hd2 & He2 & Ha).
    split_and!; [done|by etrans|]. intros a [->|Hin]%elem_of_cons; cbn [attempt_order attempt_requests attempt_committed].
    + pose proof (proj2 (proj2 (broker_requests_made id d symbol now)) _ _ _ Hr) as ->.
      split_and!; [destruct (broker_requests_fresh id d Hd) as [|[]]; auto| |].
      * intros Hev. by destruct (broker_requests_fresh id d Hd) as [|[]].
      * intros _ Hne. apply (events_kept d1 d2); [done|]. by apply (submit_listed _ _ _ _ _ _ Hr).
    + destruct (Ha a Hin) as (H1 & H2 & H3). split_and!; [done| |done]. intros Hev. by apply H2, (events_kept d d1).
  - destruct (IH Hd) as (Hd2 & He2 & Ha). split_and!; [done|done|].
    intros a [->|Hin]%elem_of_cons; [|by apply Ha]. cbn [attempt_order attempt_requests attempt_committed].
    split_and!; [destruct (broker_requests_fresh id d Hd) as [|[]]; auto| |done].
    intros Hev. by destruct (broker_requests_fresh id d Hd) as [|[]].
  - pose proof (queue_step_extends _ _ _ _ Hs) as He. destruct (IH (queue_step_ok _ _ _ _ Hd Hs)) as (Hd2 & He2 & Ha).
    split_and!; [done|by etrans|]. intros a Hin. destruct (Ha a Hin) as (H1 & H2 & H3). split_and!; [done| |done].
    intros Hev. by apply H2, (events_kept d d1).
Qed.

(** C6. One committed submission, and no request after it.  An attempt that fails
    is retried, and the retry may offer the order again - under the same name,
    by which the broker can tell - but in any history of the system a submission
    of an approved order that commits is the only one to commit a request: every
    request before it was a failed attempt's, and no attempt after it makes one.
    It asks the broker exactly when the customer is still eligible and leaves the
    order submitted, or rejected when not.  The cash stays where it is for a buy,
    whose hold becomes a commitment of the same amount, while a sell or a
    rejection gives the hold back; nobody else's investable cash moves. *)
Theorem submit_once `{TradingCalendar} utc_offset market_instant `{BrokerPort} d0 before_ d after_ d'' id symbol now calls d' o h :
  queue_ok d0 → submission_history utc_offset market_instant d0 before_ d →
  order_by_id d id = Some o → order_status o = APPROVED →
  hold_by_order d id = Some h → hold_status h = HOLD_ACTIVE → hold_customer_id h = order_customer_id o →
  run (submit_to_broker id symbol now) d = Ok (calls, d') → submission_history utc_offset market_instant d' after_ d'' →
  let refused := bool_decide (is_Some (ineligibility d (order_customer_id o))) in
  calls = (if refused then [] else [order_client_order_id o]) ∧
  (∀ a, a ∈ before_ → attempt_order a = id →
     attempt_requests a = [] ∨ attempt_committed a = false ∧ attempt_requests a = [order_client_order_id o]) ∧
  (∀ a, a ∈ after_ → attempt_order a = id → attempt_requests a = []) ∧
  (∃ o', order_by_id d' id = Some o' ∧ order_status o' = if refused then REJECTED else SUBMITTED) ∧
  ∀ c i i', investable c d = Ok i → investable c d' = Ok i' →
    quanta i' = quanta i + if bool_decide (c = order_customer_id o) && (refused || bool_decide (order_side o = SELL))
                           then hold_money h else 0.
Proof.
  intros Hd0 Hbefore Hid Hs Hh Ha Hhc Hr Hafter refused.
  destruct (history_attempts _ _ _ _ _ Hd0 Hbefore) as (Hd & _ & Hb).
  destruct (history_attempts _ _ _ _ _ (submit_ok _ _ _ _ _ _ Hd Hr) Hafter) as (_ & _ & Hf).
  destruct (submission_settles _ _ _ _ _ _ _ _ (queue_orders _ Hd) Hid Hs Hh Ha Hhc Hr) as (Hc & Hst & Hev & Hi).
  destruct (order_by_id_Some _ _ _ Hid) as [Ho Hoid].
  assert (order_client_order_id o = derive_client_order_id id) as Hname.
  { apply (queue_names _ Hd _ (order_status o)), elem_of_looks. by exists o. }
  pose proof (proj1 (waiting_no_events d o (queue_orders _ Hd) Ho (or_intror Hs))) as Hnone. rewrite Hoid in Hnone.
  split_and!; [done| | |done|done].
  - intros a Hin Ea. destruct (Hb a Hin) as ([Hn|Hn] & _ & Hcom); [by left|right]. rewrite Hname, <- Ea.
    split; [|done]. destruct (attempt_committed a); [|done]. exfalso. rewrite Ea in Hcom. apply Hcom; [done| |done]. by rewrite Hn.
  - intros a Hin Ea. destruct (Hf a Hin) as (_ & Hn & _). apply Hn. by rewrite Ea.
Qed.

(** An attempt whose commit is lost after the broker had the request, the retry
    that commits, and one more attempt: the order is submitted once, and the 21 it
    reserved are still reserved. *)
Lemma submit_once_witness :
  let request := derive_client_order_id (order_id sample_order) in
  ∃ lost late, attempt_requests lost = [request] ∧ sample_submitted.1 = [request] ∧ attempt_requests late = [] ∧
  ∀ i i', investable 7 sample_placed.2 = Ok i → investable 7 sample_submitted.2 = Ok i' → quanta i' = quanta i.
Proof.
  pose (h := default (Build_ApprovalHold 0 0 0 zero HOLD_RELEASED None None) (head (approval_holds sample_placed.2))).
  pose (again := {| attempt_order := order_id sample_order;
                    attempt_requests := broker_requests (order_id sample_order) sample_submitted.2; attempt_committed := false |}).
  pose (lost := {| attempt_order := order_id sample_order;
                   attempt_requests := broker_requests (order_id sample_order) sample_placed.2; attempt_committed := false |}).
  destruct (submit_once (H := sample_calendar) (λ _, 0) (λ t, noon t.1) sample_desk [lost] sample_placed.2 [again]
    sample_submitted.2 (order_id sample_order) "ACME" sample_readings sample_submitted.1 sample_submitted.2 sample_order h
    sample_desk_queue) as (Hc & _ & Hlate & _ & Hi).
  { eapply history_elsewhere; [exact (queue_place (H := closed_broker) _ _ _ _ _ _ _ _ _ sample_place_runs)|].
    apply history_fails, history_start. }
  1-5: vm_compute; reflexivity.
  { exact sample_submit_runs. }
  { apply history_fails, history_start. }
  exists lost, again. split_and!; [vm_compute; reflexivity|rewrite Hc; vm_compute; reflexivity| |].
  { apply Hlate; [by left|done]. }
  intros i i' H1 H2. rewrite (Hi 7 i i' H1 H2).
  match goal with |- _ + ?x = _ => assert (x = 0) as -> by (vm_compute; reflexivity) end. lia.
Defined.
