(* ===== verification/Pagination.v ===== *)
(** * Cursor pagination ([core/pagination.py])

    Page sizes, the cursor codec, [paginate], the keyset query the repositories
    share, and a client that follows [next_cursor].  SHA-256 and the decoding
    of documents that are not plain ASCII are arguments. *)

From S2P Require Import Prelude PyDecimal MoneyTypes Dates Calendar Store Schema Uuids Cursors Iso Access.
From Stdlib Require Import String Ascii.
From stdpp Require Import strings sorting.
Open Scope Z_scope.

(** ** [int(text)] *)

Fixpoint digits10 (l : list ascii) (acc : Z) (after_digit : bool) : option Z :=
  match l with
  | [] => if after_digit then Some acc else None
  | c :: l =>
      if Ascii.eqb c "_" then if after_digit then digits10 l acc false else None
      else if is_dec c then digits10 l (acc * 10 + (code c - 48)) true else None
  end.

Definition int10 (s : string) : option Z :=
  match strip py_isspace (chars s) with
  | c :: l =>
      if Ascii.eqb c "+" then digits10 l 0 false
      else if Ascii.eqb c "-" then Z.opp <$> digits10 l 0 false
      else digits10 (c :: l) 0 false
  | [] => None
  end.

(** ** Page sizes *)

Definition DEFAULT_PAGE_SIZE : Z := 50.
Definition MAX_PAGE_SIZE : Z := 200.

(** [normalize_limit] *)
Definition normalize_limit (limit : option Z) : result Z :=
  match limit with
  | None => Ok DEFAULT_PAGE_SIZE
  | Some limit =>
      if limit <=? 0 then Raise ValidationError
      else if MAX_PAGE_SIZE <? limit then Raise ValidationError
      else Ok limit
  end.

(** [_parse_optional_limit], the same in every controller *)
Definition parse_optional_limit (raw : option string) : result (option Z) :=
  match raw with
  | None => Ok None
  | Some raw => match int10 raw with Some n => Ok (Some n) | None => Raise ValidationError end
  end.

(** ** The cursor codec *)

Definition MAX_CURSOR_LENGTH : Z := 2048.
Definition CHECKSUM_BYTES : nat := 16.

(** [hashlib.sha256(...).digest()]; the text of a payload that is not plain ASCII; [chr] beyond ASCII. *)
Record CursorPackages := {
  sha256 : list byte → list byte;
  decode_other : list byte → result (list ascii);
  unicode_char : Z → list ascii;
}.

(** A digest is 32 bytes. *)
Class CursorPackagesLaw (p : CursorPackages) : Prop :=
  { sha256_length l : length (sha256 p l) = 32%nat; sha256_bytes l : Forall is_byte (sha256 p l) }.

Section Codec.
Context (p : CursorPackages).

Definition checksum (payload : list byte) : list byte := take CHECKSUM_BYTES (sha256 p payload).

(** The text of a payload and its checksum. *)
Definition sealed (payload : list byte) : string :=
  string_of_list_ascii (rstrip_pad (b64encode (payload ++ checksum payload))).

(** [encode_cursor] *)
Definition encode_cursor (values : list json) : result string :=
  match values with
  | [] => Raise ValueError
  | _ => Ok (sealed (code <$> dump_list values))
  end.

(** [json.loads] of bytes: plain ASCII reads as it is. *)
Definition payload_text (payload : list byte) : result (list ascii) :=
  if forallb (λ b, (0 <? b) && (b <? 128)) payload then Ok (char_of <$> payload) else decode_other p payload.

Definition is_scalar (v : json) : bool := match v with JList _ | JObj _ => false | _ => true end.

(** What a payload says, once its checksum is verified. *)
Definition read_payload (payload : list byte) : result (list json) :=
  text ← payload_text payload;
  match read_document (unicode_char p) text with
  | Some (JList (v :: vs)) => if forallb is_scalar (v :: vs) then Ok (v :: vs) else Raise ValidationError
  | _ => Raise ValidationError
  end.

(** [decode_cursor] *)
Definition decode_cursor (cursor : string) : result (list json) :=
  let l := chars cursor in
  if bool_decide (l = []) || (MAX_CURSOR_LENGTH <? Z.of_nat (length l)) then Raise ValidationError
  else if negb (forallb (λ c, code c <? 128) l) then Raise ValidationError
  else
    match b64decode (l ++ replicate (Z.to_nat ((- Z.of_nat (length l)) mod 4)) "="%char) with
    | None => Raise ValidationError
    | Some raw =>
        if (length raw <=? CHECKSUM_BYTES)%nat then Raise ValidationError
        else
          let payload := take (length raw - CHECKSUM_BYTES) raw in
          if negb (bool_decide (drop (length raw - CHECKSUM_BYTES) raw = checksum payload)) then Raise ValidationError
          else read_payload payload
    end.

(** ** Pages *)

Record Page (A : Type) := { page_items : list A; next_cursor : option string }.
#[global] Arguments page_items {A}. #[global] Arguments next_cursor {A}.

Definition has_more {A} (x : Page A) : bool := match next_cursor x with Some _ => true | None => false end.

(** [paginate] *)
Definition paginate {A} (rows : list A) (limit : Z) (cursor_key : A → list json) : result (Page A) :=
  if limit <? Z.of_nat (length rows) then
    let items := take (Z.to_nat limit) rows in
    match last items with
    | None => Raise IndexError
    | Some x => c ← encode_cursor (cursor_key x); Ok {| page_items := items; next_cursor := Some c |}
    end
  else Ok {| page_items := rows; next_cursor := None |}.

(** *** The codec's round trip *)

Definition plain_char (c : ascii) : bool := negb (code c =? 0) && (code c <? 128).

Lemma dump_char_plain c : forallb plain_char (dump_char c) = true.
Proof. destruct c as [[] [] [] [] [] [] [] []]; reflexivity. Qed.

Lemma dump_scalar_plain v : plain_scalar v = true → forallb plain_char (dump_scalar v) = true.
Proof.
  destruct v as [|[]| | |s| |]; try done. intros _. cbn [dump_scalar]. unfold dump_string. cbn [forallb].
  assert (Hc : ∀ l, forallb plain_char (concat (dump_char <$> l)) = true).
  { induction l as [|c l IH]; [done|]. rewrite fmap_cons. cbn [concat]. by rewrite forallb_app, dump_char_plain. }
  rewrite forallb_app, Hc. done.
Qed.

Lemma dump_list_plain vs : forallb plain_scalar vs = true → forallb plain_char (dump_list vs) = true.
Proof.
  intros Hvs. unfold dump_list. cbn [forallb]. rewrite forallb_app. apply andb_true_iff. split; [done|]. apply andb_true_iff. split; [|done].
  revert Hvs. induction vs as [|v [|w vs] IH]; intros Hvs; [done| |].
  - cbn [forallb] in Hvs. cbn [fmap list_fmap join]. apply andb_true_iff in Hvs as [Hv _]. by apply dump_scalar_plain.
  - change (Cursors.join "," (dump_scalar <$> v :: w :: vs)) with (dump_scalar v ++ ","%char :: Cursors.join "," (dump_scalar <$> w :: vs)).
    cbn [forallb] in Hvs. apply andb_true_iff in Hvs as [Hv Hvs]. rewrite forallb_app, dump_scalar_plain by done.
    cbn [forallb andb]. by rewrite IH.
Qed.

Lemma plain_payload l : forallb plain_char l = true →
  char_of <$> (code <$> l) = l ∧ Forall is_byte (code <$> l) ∧ forallb (λ b, (0 <? b) && (b <? 128)) (code <$> l) = true.
Proof.
  induction l as [|c l IH]; [done|]. cbn [fmap list_fmap forallb]. intros [Hc (IH1 & IH2 & IH3)%IH]%andb_true_iff.
  unfold plain_char in Hc. apply andb_true_iff in Hc as [Hz Hc].
  assert (Hb : 0 < code c < 256) by (unfold code in *; pose proof (N_ascii_bounded c); zbool; lia).
  split_and!.
  - f_equal; [|exact IH1]. unfold char_of, code. by rewrite N2Z.id, ascii_N_embedding.
  - constructor; [unfold is_byte; lia|exact IH2].
  - rewrite Hc, andb_true_r. apply andb_true_iff. split; [apply Z.ltb_lt; lia|exact IH3].
Qed.

Lemma b64_char_ascii n : 0 <= n < 64 → (code (b64_char n) <? 128) = true.
Proof.
  intros Hn. assert (Hall : forallb (λ n, code (b64_char n) <? 128) (seqZ 0 64) = true) by (vm_compute; reflexivity).
  rewrite forallb_forall in Hall. apply Hall, list_elem_of_In, elem_of_seqZ. lia.
Qed.

Lemma b64_ascii l : Forall is_byte l → forallb (λ c, code c <? 128) (b64encode l) = true.
Proof.
  induction l as [|a|a b|a b c l IH] using list_triple_ind; intros Hl; rewrite ?Forall_cons in Hl; unfold is_byte in Hl; cbn [b64encode forallb].
  - done.
  - destruct Hl as [Ha _]. rewrite !b64_char_ascii by b64_bounds. done.
  - destruct Hl as (Ha & Hb & _). rewrite !b64_char_ascii by b64_bounds. done.
  - destruct Hl as (Ha & Hb & Hc & Hl). rewrite !b64_char_ascii by b64_bounds. cbn [andb]. by apply IH.
Qed.

(** The longest payload whose cursor the decoder accepts. *)
Definition MAX_PAYLOAD : Z := 1519.

Definition encodable (values : list json) : Prop :=
  values ≠ [] ∧ forallb plain_scalar values = true ∧ Z.of_nat (length (dump_list values)) <= MAX_PAYLOAD.

(** A sealed payload opens. *)
Lemma decode_sealed `{!CursorPackagesLaw p} payload :
  payload ≠ [] → Forall is_byte payload → Z.of_nat (length payload) <= MAX_PAYLOAD →
  sealed payload ≠ ""%string ∧ decode_cursor (sealed payload) = read_payload payload.
Proof.
  intros Hne Hbytes Hlen. unfold sealed.
  assert (Hck : length (checksum payload) = CHECKSUM_BYTES ∧ Forall is_byte (checksum payload)).
  { unfold checksum. rewrite length_take, sha256_length. split; [done|]. apply Forall_take, sha256_bytes. }
  destruct Hck as [Hcl Hcb]. set (raw := payload ++ checksum payload).
  assert (Hraw : Forall is_byte raw) by (by apply Forall_app).
  assert (Hrl : length raw = (length payload + CHECKSUM_BYTES)%nat) by (unfold raw; rewrite length_app; lia).
  assert (Hpos : (0 < length payload)%nat) by (destruct payload; [done|cbn; lia]).
  destruct (b64_shape raw Hraw) as (u & q & Henc & Hu & Hq & Hul). rewrite Henc, rstrip_pad_app by done.
  assert (Hu0 : u ≠ []).
  { intros ->. change (Z.of_nat q = 0) in Hq. assert (q = 0%nat) as -> by lia.
    assert (Hnil : ∀ l, b64encode l = [] → l = []) by (by intros [|? [|? [|? ?]]]).
    apply Hnil in Henc. rewrite Henc in Hrl. cbn in Hrl. lia. }
  assert (Hchars_u : chars (string_of_list_ascii u) = u) by apply list_ascii_of_string_of_list_ascii.
  split. { intros E. apply (f_equal chars) in E. rewrite Hchars_u in E. done. }
  unfold decode_cursor. rewrite Hchars_u. cbn zeta. rewrite bool_decide_false by done. cbn [orb].
  unfold MAX_PAYLOAD, MAX_CURSOR_LENGTH, CHECKSUM_BYTES in *.
  rewrite (proj2 (Z.ltb_ge _ _)) by lia.
  pose proof (b64_ascii raw Hraw) as Hasc. rewrite Henc, forallb_app in Hasc. apply andb_true_iff in Hasc as [Hasc _].
  rewrite Hasc. cbn [negb]. rewrite <- Hq, Nat2Z.id, <- Henc, b64_roundtrip by done.
  rewrite (proj2 (Nat.leb_gt _ _)) by lia.
  replace (length raw - 16)%nat with (length payload) by lia. unfold raw. rewrite take_app_length, drop_app_length.
  by rewrite bool_decide_true by done.
Qed.

Lemma decode_encode `{!CursorPackagesLaw p} values :
  encodable values → ∃ cursor, encode_cursor values = Ok cursor ∧ cursor ≠ ""%string ∧ decode_cursor cursor = Ok values.
Proof.
  intros (Hne & Hp & Hlen). destruct (plain_payload _ (dump_list_plain _ Hp)) as (Hchars & Hbytes & Hplain).
  destruct (decode_sealed (code <$> dump_list values)) as [Hs Hd]; [by unfold dump_list|done|by rewrite length_fmap|].
  exists (sealed (code <$> dump_list values)). split_and!; [by destruct values|done|]. rewrite Hd.
  unfold read_payload, payload_text. rewrite Hplain, Hchars. cbn [mbind result_bind]. rewrite read_dumped by done.
  destruct values as [|v vs]; [done|].
  assert (Hsc : forallb is_scalar (v :: vs) = true).
  { revert Hp. clear. generalize (v :: vs) as l. induction l as [|x l IH]; [done|]. cbn [forallb].
    intros [Hx Hl]%andb_true_iff. rewrite IH by done. destruct x; done. }
  by rewrite Hsc.
Qed.

(** The bytes of a cursor's text, the padding it was stripped of put back. *)
Definition cursor_bytes (cursor : string) : option (list byte) :=
  let l := chars cursor in b64decode (l ++ replicate (Z.to_nat ((- Z.of_nat (length l)) mod 4)) "="%char).

(** The cursor is a text of at most 2048 ASCII characters that spells the
    payload followed by the first 16 bytes of its digest. *)
Definition opens (cursor : string) (payload : list byte) : Prop :=
  chars cursor ≠ [] ∧ Z.of_nat (length (chars cursor)) <= 2048 ∧ forallb (λ c, code c <? 128) (chars cursor) = true ∧
  payload ≠ [] ∧ cursor_bytes cursor = Some (payload ++ take 16 (sha256 p payload)).

Lemma decode_cases `{!CursorPackagesLaw p} cursor :
  decode_cursor cursor = Raise ValidationError ∧ (∀ payload, ¬ opens cursor payload) ∨
  ∃ payload, opens cursor payload ∧ decode_cursor cursor = read_payload payload.
Proof.
  assert (Hlen : ∀ l, length (checksum l) = 16%nat).
  { intros l. unfold checksum. by rewrite length_take, sha256_length. }
  unfold decode_cursor, opens, cursor_bytes. cbn zeta. set (l := chars cursor).
  destruct (bool_decide_reflect (l = [])) as [|Hne]; [left; split; [done|by intros ? (? & _)]|]. cbn [orb].
  destruct (Z.ltb_spec MAX_CURSOR_LENGTH (Z.of_nat (length l))) as [Hlong|Hshort];
    [left; split; [done|intros ? (_ & ? & _); unfold MAX_CURSOR_LENGTH in *; lia]|].
  destruct (forallb (λ c, code c <? 128) l) eqn:Hascii; cbn [negb]; [|left; split; [done|by intros ? (_ & _ & ? & _)]].
  destruct (b64decode _) as [raw|]; [|left; split; [done|by intros ? (_ & _ & _ & _ & ?)]].
  destruct (Nat.leb_spec (length raw) CHECKSUM_BYTES) as [Hsmall|Hbig].
  { left. split; [done|]. intros payload (_ & _ & _ & Hp & [= ->]). change (take 16 _) with (checksum payload) in Hsmall.
    rewrite length_app, Hlen in Hsmall. unfold CHECKSUM_BYTES in Hsmall. destruct payload; [done|]. cbn in Hsmall. lia. }
  destruct (bool_decide_reflect (drop (length raw - CHECKSUM_BYTES) raw = checksum (take (length raw - CHECKSUM_BYTES) raw)))
    as [Hsum|Hsum]; cbn [negb].
  - right. exists (take (length raw - CHECKSUM_BYTES) raw). split; [|done]. unfold CHECKSUM_BYTES, MAX_CURSOR_LENGTH in *.
    split_and!; [done..| |].
    + intros Hnil%(f_equal length). rewrite length_take in Hnil. cbn in Hnil. lia.
    + f_equal. rewrite <- (take_drop (length raw - 16) raw) at 1. by rewrite Hsum.
  - left. split; [done|]. intros payload (_ & _ & _ & _ & [= ->]). apply Hsum.
    change (take 16 (sha256 p payload)) with (checksum payload). unfold CHECKSUM_BYTES. rewrite length_app, Hlen.
    replace (length payload + 16 - 16)%nat with (length payload) by lia. by rewrite drop_app_length, take_app_length.
Qed.

(** C37. The cursor codec.  [encode_cursor] writes a list of texts, booleans and
    nulls (of at most 1519 bytes of JSON, which keeps the cursor within 2048
    characters) as a cursor that decodes to that list.  What decodes is the
    non-empty list of scalars that a payload reads as, of a cursor that carries
    this payload with the first 16 bytes of its digest.  A cursor that is empty,
    too long, not base64, or whose last 16 bytes are not the digest of the bytes
    before them - so one whose payload or checksum was changed alone - is refused
    with [ValidationError]; and so is any payload that is not such a list, unless
    it is not plain ASCII and the decoding of those bytes itself raises. *)
Theorem cursor_codec `{!CursorPackagesLaw p} :
  (∀ values, encodable values → ∃ cursor, encode_cursor values = Ok cursor ∧ decode_cursor cursor = Ok values) ∧
  (∀ cursor values, decode_cursor cursor = Ok values →
     values ≠ [] ∧ forallb is_scalar values = true ∧ ∃ payload, opens cursor payload ∧ read_payload payload = Ok values) ∧
  (∀ cursor, (∀ payload, ¬ opens cursor payload) → decode_cursor cursor = Raise ValidationError) ∧
  (∀ cursor payload sum, cursor_bytes cursor = Some (payload ++ sum) → length sum = 16%nat →
     sum ≠ take 16 (sha256 p payload) → decode_cursor cursor = Raise ValidationError) ∧
  (∀ cursor e, decode_cursor cursor = Raise e →
     e = ValidationError ∨
     ∃ payload, opens cursor payload ∧ forallb (λ b, (0 <? b) && (b <? 128)) payload = false ∧
       decode_other p payload = Raise e).
Proof.
  split_and!.
  - intros values Hv. destruct (decode_encode values Hv) as (c & He & _ & Hd). by exists c.
  - intros cursor values Hd. destruct (decode_cases cursor) as [[Hr _]|(payload & Ho & Hr)]; rewrite Hr in Hd; [done|].
    assert (values ≠ [] ∧ forallb is_scalar values = true) as [Hne Hs]; [|by eauto].
    unfold read_payload in Hd. apply bind_Ok in Hd as (text & _ & Hd). repeat case_match; simplify_eq; done.
  - intros cursor Hno. destruct (decode_cases cursor) as [[Hr _]|(payload & Ho & _)]; [done|by destruct (Hno payload)].
  - intros cursor payload sum Hb Hl Hne. destruct (decode_cases cursor) as [[Hr _]|(payload' & (_ & _ & _ & _ & Ho) & _)]; [done|].
    rewrite Hb in Ho. injection Ho as Ho. apply app_inj_2 in Ho as [-> ->]; [done|]. by rewrite length_take, sha256_length.
  - intros cursor e Hd. destruct (decode_cases cursor) as [[Hr _]|(payload & Ho & Hr)]; rewrite Hr in Hd; [left; congruence|].
    unfold read_payload in Hd. destruct (payload_text payload) as [text|e'] eqn:Ht; cbn [mbind result_bind] in Hd.
    + left. repeat case_match; by simplify_eq.
    + simplify_eq. unfold payload_text in Ht. case_match eqn:Hb; [done|]. right. eauto.
Qed.

(** The checksum has no key: a caller seals any payload, and bytes that are not
    a text raise [UnicodeDecodeError] through [decode_cursor]. *)
Lemma forged_cursor `{!CursorPackagesLaw p} payload :
  payload ≠ [] → Forall is_byte payload → Z.of_nat (length payload) <= MAX_PAYLOAD →
  forallb (λ b, (0 <? b) && (b <? 128)) payload = false → decode_other p payload = Raise UnicodeDecodeError →
  decode_cursor (sealed payload) = Raise UnicodeDecodeError.
Proof.
  intros Hne Hb Hl Hp Hd. rewrite (proj2 (decode_sealed payload Hne Hb Hl)). unfold read_payload, payload_text. by rewrite Hp, Hd.
Qed.
End Codec.

(** ** Sort keys *)

(** A strict total order: what [ORDER BY] and the comparison of tuples need. *)
Class KeyOrder (K : Type) := {
  before : K → K → bool;
  before_irrefl x : before x x = false;
  before_trans x y z : before x y = true → before y z = true → before x z = true;
  before_total x y : x = y ∨ before x y = true ∨ before y x = true;
}.

(** Integers, dates, instants and identifiers ascending. *)
#[export] Program Instance z_order : KeyOrder Z := { before := Z.ltb }.
Next Obligation. intros. apply Z.ltb_irrefl. Qed.
Next Obligation. intros x y z ?%Z.ltb_lt ?%Z.ltb_lt. apply Z.ltb_lt. lia. Qed.
Next Obligation. intros. rewrite !Z.ltb_lt. lia. Qed.

(** The comparison of tuples. *)
#[export] Program Instance pair_order {A B} `{KeyOrder A, KeyOrder B, EqDecision A} : KeyOrder (A * B) :=
  { before x y := before x.1 y.1 || bool_decide (x.1 = y.1) && before x.2 y.2 }.
Next Obligation. intros A B ? ? ? [a b]. cbn. by rewrite !before_irrefl, andb_false_r. Qed.
Next Obligation.
  intros A B ? ? ? [a1 b1] [a2 b2] [a3 b3]. cbn. rewrite !orb_true_iff, !andb_true_iff, !bool_decide_eq_true.
  intros [H12|[-> H12]] [H23|[-> H23]]; eauto using before_trans.
Qed.
Next Obligation.
  intros A B ? ? ? [a1 b1] [a2 b2]. cbn. rewrite !orb_true_iff, !andb_true_iff, !bool_decide_eq_true.
  destruct (before_total a1 a2) as [->|[?|?]]; [|auto..]. destruct (before_total b1 b2) as [->|[?|?]]; auto.
Qed.

(** [ORDER BY ... DESC] and [key < ...] *)
Record desc (K : Type) := Desc { ascending : K }.
#[global] Arguments Desc {K}. #[global] Arguments ascending {K}.
#[export] Program Instance desc_order {K} `{KeyOrder K} : KeyOrder (desc K) :=
  { before x y := before (ascending y) (ascending x) }.
Next Obligation. intros. apply before_irrefl. Qed.
Next Obligation. intros K ? x y z Hxy Hyz. cbn in *. exact (before_trans _ _ _ Hyz Hxy). Qed.
Next Obligation. intros K ? [x] [y]. cbn. destruct (before_total x y) as [->|[?|?]]; [by left|by right; right|by right; left]. Qed.

(** ** The keyset query *)

Section Keyset.
Context {A K : Type} `{KeyOrder K}.
Context (key : A → K).

Definition row_le (x y : A) : bool := negb (before (key y) (key x)).

(** [WHERE key > after ORDER BY key LIMIT limit + 1] *)
Definition keyset (limit : Z) (after : option K) (rows : list A) : list A :=
  take (Z.to_nat (limit + 1))
    (sort_by row_le (filter (λ x, match after with Some k => before k (key x) | None => true end = true) rows)).

Lemma row_le_total x y : row_le x y = true ∨ row_le y x = true.
Proof.
  unfold row_le. rewrite !negb_true_iff. destruct (before (key y) (key x)) eqn:E1; [|by left].
  right. destruct (before (key x) (key y)) eqn:E2; [|done]. rewrite <- (before_irrefl (key x)). symmetry. by eapply before_trans.
Qed.

Lemma row_le_trans x y z : row_le x y = true → row_le y z = true → row_le x z = true.
Proof.
  unfold row_le. rewrite !negb_true_iff. intros Hxy Hyz. destruct (before (key z) (key x)) eqn:E; [|done].
  destruct (before_total (key x) (key y)) as [Exy|[Hb|Hb]]; [|  |congruence].
  - rewrite Exy in E. congruence.
  - rewrite <- Hyz. symmetry. by eapply before_trans.
Qed.

Lemma row_le_key x y : row_le x y = true → row_le y x = true → key x = key y.
Proof.
  unfold row_le. rewrite !negb_true_iff. intros Hxy Hyx. destruct (before_total (key x) (key y)) as [?|[?|?]]; congruence.
Qed.

(** Distinct keys order the rows in one way only. *)
Lemma sorted_unique l1 l2 :
  NoDup (key <$> l1) → l1 ≡ₚ l2 → StronglySorted (le_of row_le) l1 → StronglySorted (le_of row_le) l2 → l1 = l2.
Proof.
  intros Hnd Hp H1 H2. apply (StronglySorted_unique_strong (le_of row_le)); [|done..].
  intros x y Hx Hy Hxy Hyx. rewrite <- Hp in Hy. apply row_le_key in Hxy; [|done].
  apply list_elem_of_lookup in Hx as [i Hi], Hy as [j Hj].
  assert (i = j) as ->; [|congruence].
  apply (NoDup_lookup _ i j (key x) Hnd); rewrite list_lookup_fmap; [by rewrite Hi|rewrite Hj; cbn; congruence].
Qed.

Lemma sorted_filter (P : A → Prop) `{∀ x, Decision (P x)} (R : A → A → Prop) l :
  StronglySorted R l → StronglySorted R (filter P l).
Proof.
  induction 1 as [|x l Hl IH Hx]; [constructor|]. rewrite filter_cons. destruct (decide (P x)); [|done].
  constructor; [done|]. apply Forall_forall. intros y [_ Hy]%list_elem_of_filter. rewrite Forall_forall in Hx. by apply Hx.
Qed.

Lemma sort_filter (P : A → Prop) `{∀ x, Decision (P x)} rows :
  NoDup (key <$> rows) → sort_by row_le (filter P rows) = filter P (sort_by row_le rows).
Proof.
  intros Hnd. apply sorted_unique.
  - rewrite sort_by_perm. eapply sublist_NoDup; [exact Hnd|apply fmap_sublist, sublist_filter].
  - by rewrite sort_by_perm, sort_by_perm.
  - apply sort_by_sorted; [apply row_le_total|apply row_le_trans].
  - apply sorted_filter, sort_by_sorted; [apply row_le_total|apply row_le_trans].
Qed.

(** After a row of a sorted list come exactly the rows that follow it. *)
Lemma filter_after l1 x l2 :
  NoDup (key <$> l1 ++ x :: l2) → StronglySorted (le_of row_le) (l1 ++ x :: l2) →
  filter (λ y, before (key x) (key y) = true) (l1 ++ x :: l2) = l2.
Proof.
  intros Hnd Hs. rewrite fmap_app, fmap_cons, NoDup_app, NoDup_cons in Hnd. destruct Hnd as (_ & Hdis & Hx & Hnd2).
  rewrite filter_app.
  assert (E1 : filter (λ y, before (key x) (key y) = true) l1 = []).
  { clear -Hs H. induction l1 as [|y l1 IH]; [done|].
    apply StronglySorted_inv in Hs as [Hs Hy]. rewrite filter_cons, decide_False; [by apply IH|].
    rewrite Forall_app, Forall_cons in Hy. destruct Hy as (_ & Hyx & _). unfold le_of, row_le in Hyx.
    apply negb_true_iff in Hyx. by rewrite Hyx. }
  rewrite E1. cbn [app]. rewrite filter_cons, decide_False by (by rewrite before_irrefl).
  assert (Hs2 : StronglySorted (le_of row_le) (x :: l2)).
  { clear -Hs. induction l1 as [|y l1 IH]; [done|]. apply StronglySorted_inv in Hs as [Hs _]. by apply IH. }
  apply StronglySorted_inv in Hs2 as [_ Hf]. clear -Hf Hx H.
  induction l2 as [|y l2 IH]; [done|]. rewrite Forall_cons in Hf. destruct Hf as [Hy Hf].
  rewrite fmap_cons, elem_of_cons in Hx. rewrite filter_cons, decide_True; [f_equal; apply IH; tauto|].
  unfold le_of, row_le in Hy. apply negb_true_iff in Hy. destruct (before_total (key x) (key y)) as [?|[?|?]]; [tauto|done|congruence].
Qed.
End Keyset.

(** ** A list endpoint, and a client that follows its cursors *)

(** What every list route does once its limit is validated: [if raw_cursor:]
    decode it, fetch one row more than the page, and cut the page. *)
Definition list_page (p : CursorPackages) {A K} `{KeyOrder K} (key : A → K) (cursor_key : A → list json)
    (decode : string → result K) (rows : list A) (limit : Z) (raw_cursor : option string) : result (Page A) :=
  after ← match raw_cursor with
          | None => Ok None
          | Some raw => if String.eqb raw "" then Ok None else k ← decode raw; Ok (Some k)
          end;
  paginate p (keyset key limit after rows) limit cursor_key.

(** The pages a client sees that asks again while there is a [next_cursor]. *)
Fixpoint walk {A} (fuel : nat) (get : option string → result (Page A)) (cursor : option string) : result (list (list A)) :=
  match fuel with
  | O => Raise RuntimeError
  | S fuel =>
      page ← get cursor;
      match next_cursor page with
      | None => Ok [page_items page]
      | Some c => rest ← walk fuel get (Some c); Ok (page_items page :: rest)
      end
  end.

Section Walk.
Context (p : CursorPackages) {A K : Type} `{KeyOrder K}.
Context (key : A → K) (cursor_key : A → list json) (decode : string → result K).

(** The cursor of a row names its key. *)
Definition names_key (x : A) : Prop :=
  ∃ cursor, encode_cursor p (cursor_key x) = Ok cursor ∧ cursor ≠ ""%string ∧ decode cursor = Ok (key x).

Lemma walk_from fuel rows limit cursor after l1 l2 :
  0 < limit → NoDup (key <$> rows) → Forall names_key rows →
  sort_by (row_le key) rows = l1 ++ l2 →
  (match cursor with
   | None => after = None ∧ l1 = []
   | Some c => c ≠ ""%string ∧ ∃ l0 x, l1 = l0 ++ [x] ∧ decode c = Ok (key x) ∧ after = Some (key x)
   end) →
  (length l2 < fuel)%nat →
  ∃ pages, walk fuel (list_page p key cursor_key decode rows limit) cursor = Ok pages ∧ concat pages = l2 ∧
    Forall (λ page, Z.of_nat (length page) <= limit) pages.
Proof.
  intros Hlim Hnd Hk Hsort. 
  assert (Hss : StronglySorted (le_of (row_le key)) (l1 ++ l2)).
  { rewrite <- Hsort. apply sort_by_sorted; [apply row_le_total|apply row_le_trans]. }
  assert (Hnd2 : NoDup (key <$> l1 ++ l2)) by (by rewrite <- Hsort, sort_by_perm).
  revert cursor after l1 l2 Hsort Hss Hnd2. induction fuel as [|fuel IH]; intros cursor after l1 l2 Hsort Hss Hnd2 Hc Hf; [lia|].
  assert (Hget : list_page p key cursor_key decode rows limit cursor = paginate p (take (Z.to_nat (limit + 1)) l2) limit cursor_key).
  { unfold list_page. destruct cursor as [c|].
    - destruct Hc as (Hc & l0 & x & -> & Hd & ->). rewrite (proj2 (String.eqb_neq _ _) Hc), Hd. cbn [mbind result_bind].
      unfold keyset. rewrite sort_filter by done. rewrite Hsort. rewrite <- app_assoc in *. cbn [app] in *.
      pose proof (filter_after key l0 x l2 Hnd2 Hss) as Hfa. 
      refine (f_equal (λ l, paginate p (take (Z.to_nat (limit + 1)) l) limit cursor_key) _). exact Hfa.
    - destruct Hc as [-> ->]. cbn [mbind result_bind]. unfold keyset.
      assert (Ef : filter (λ _ : A, true = true) rows = rows) by (clear; induction rows; [done|]; rewrite filter_cons, decide_True by done; by f_equal).
      rewrite Ef, Hsort. done. }
  cbn [walk]. rewrite Hget. unfold paginate.
  destruct (Z.ltb_spec limit (Z.of_nat (length (take (Z.to_nat (limit + 1)) l2)))) as [Hlt|Hge]; rewrite length_take in *.
  - rewrite take_take, Nat.min_l by lia. 
    assert (Hcut : l2 = take (Z.to_nat limit) l2 ++ drop (Z.to_nat limit) l2) by (by rewrite take_drop).
    set (items := take (Z.to_nat limit) l2) in *. assert (Hil : length items = Z.to_nat limit) by (unfold items; rewrite length_take; lia).
    destruct (last items) as [x|] eqn:Hx; [|apply last_None in Hx; rewrite Hx in Hil; cbn in Hil; lia].
    apply last_Some in Hx as [l3 Hx].
    assert (Hin : x ∈ rows) by (rewrite <- (sort_by_perm (row_le key)), Hsort, Hcut, Hx; set_solver).
    rewrite Forall_forall in Hk. destruct (Hk x Hin) as (c & Henc & Hcne & Hdec). rewrite Henc. cbn [mbind result_bind next_cursor page_items].
    destruct (IH (Some c) (Some (key x)) (l1 ++ items) (drop (Z.to_nat limit) l2)) as (pages & Hw & Hcat & Hall).
    + by rewrite Hsort, <- app_assoc, <- Hcut.
    + by rewrite <- app_assoc, <- Hcut.
    + by rewrite <- app_assoc, <- Hcut.
    + split; [done|]. exists (l1 ++ l3), x. split_and!; [by rewrite Hx, app_assoc|done|done].
    + rewrite length_drop. lia.
    + rewrite Hw. cbn [mbind result_bind]. exists (items :: pages). split_and!; [done| |].
      * cbn [concat]. by rewrite Hcat, <- Hcut.
      * constructor; [lia|done].
  - cbn [mbind result_bind next_cursor page_items]. rewrite take_ge by lia. exists [l2].
    split_and!; [done|cbn; by rewrite app_nil_r|]. constructor; [lia|done].
Qed.

Lemma walk_all fuel rows limit :
  0 < limit → NoDup (key <$> rows) → Forall names_key rows → (length rows < fuel)%nat →
  ∃ pages, walk fuel (list_page p key cursor_key decode rows limit) None = Ok pages ∧
    concat pages = sort_by (row_le key) rows ∧ Forall (λ page, Z.of_nat (length page) <= limit) pages.
Proof.
  intros Hlim Hnd Hk Hf. apply (walk_from fuel rows limit None None [] (sort_by (row_le key) rows)); try done.
  by rewrite (Permutation_length (sort_by_perm _ _)).
Qed.
End Walk.

(** ** What the parameters of a list request may be *)

Lemma normalize_limit_Ok n limit : normalize_limit n = Ok limit → 1 <= limit <= MAX_PAGE_SIZE.
Proof.
  unfold normalize_limit, MAX_PAGE_SIZE, DEFAULT_PAGE_SIZE. destruct n as [n|]; [|intros [= <-]; lia].
  destruct (n <=? 0) eqn:E1; [done|]. destruct (200 <? n) eqn:E2; [done|]. intros [= <-]. zbool. lia.
Qed.

Definition zero_packages : CursorPackages :=
  {| sha256 := λ _, replicate 32 0; decode_other := λ _, Raise UnicodeDecodeError; unicode_char := λ _, [] |}.

#[export] Instance zero_packages_law : CursorPackagesLaw zero_packages.
Proof. split; intros l; [apply length_replicate|]. apply Forall_replicate. unfold is_byte. lia. Qed.

(** A digest that depends on the payload. *)
Definition summing_packages : CursorPackages :=
  {| sha256 := λ l, replicate 32 (foldr Z.add 0 l mod 256); decode_other := λ _, Raise UnicodeDecodeError;
     unicode_char := λ _, [] |}.

#[export] Instance summing_packages_law : CursorPackagesLaw summing_packages.
Proof.
  split; intros l; cbn [sha256 summing_packages]; [apply length_replicate|].
  apply Forall_replicate. unfold is_byte. apply Z.mod_pos_bound. lia.
Qed.

(** A cursor reads back; the same bytes with one changed are refused. *)
Lemma cursor_codec_witness :
  (∃ cursor, encode_cursor summing_packages [JStr "2026-01-02"; JNull] = Ok cursor ∧
     decode_cursor summing_packages cursor = Ok [JStr "2026-01-02"; JNull]) ∧
  decode_cursor summing_packages (string_of_list_ascii (rstrip_pad (b64encode (replicate 3 91 ++ replicate 16 0)))) =
    Raise ValidationError.
Proof.
  split.
  - apply (proj1 (cursor_codec summing_packages)). split_and!; [done|reflexivity|vm_compute; discriminate].
  - apply (proj1 (proj2 (proj2 (proj2 (cursor_codec summing_packages)))) _ (replicate 3 91) (replicate 16 0));
      vm_compute; [reflexivity|reflexivity|discriminate].
Defined.
