(* ===== verification/Identity.v ===== *)
(** * Accounts and logins ([controllers/api/auth.py], [services/identity/auth.py], [jobs/create_staff.py])

    Registration, the two-step login of staff, MFA enrolment, the operator's
    staff provisioning, the staff's API tokens with the resolution of a bearer
    header, the profile and the KYC override.  The password hasher, the TOTP
    algorithm, the token digest and the email validator are third-party code:
    parameters.  Rate limits, CSRF and the session store are not modelled; a
    session is the two keys the routes read and write. *)

From S2P Require Import Prelude PyDecimal MoneyTypes Calendar Store Schema Uuids Ledger CashPolicy Funding Operations Access.
From Stdlib Require Import String Ascii.
From stdpp Require Import strings.
Open Scope Z_scope.

(** ** What the routes use of other packages *)

(** [argon2.PasswordHasher]: the salt is drawn by [hash]. *)
Class PasswordHasher := {
  ph_hash : Z → string → string;
  ph_verify : string → string → bool;
}.

(** A hash verifies the password it was made of. *)
Class PasswordHasherLaw `(PasswordHasher) : Prop :=
  ph_verify_hash : ∀ salt password, ph_verify (ph_hash salt password) password = true.

(** [EmailStr] (the validated, normalised address) and [pyotp.TOTP(secret).verify]. *)
Class AuthPackages := {
  email_str : string → option string;
  totp_verify : string → string → bool;
}.

(** ** The session *)

Record WebSession := { pending_mfa_user_id : option string; session_user_id : option string }.

Definition empty_session : WebSession := {| pending_mfa_user_id := None; session_user_id := None |}.

(** [login_user] *)
Definition login_user (p : Principal) (s : WebSession) : WebSession :=
  {| pending_mfa_user_id := pending_mfa_user_id s; session_user_id := Some (uuid_str (principal_id p)) |}.

Section Auth.
Context `{PasswordHasher} `{AuthPackages}.

(** [authenticate] *)
Definition authenticate (d : db) (email password : string) : option Principal :=
  match find_principal_by_email d email with
  | None => None
  | Some p => if ph_verify (principal_password_hash p) password then Some p else None
  end.

(** [load_user], for [current_user] *)
Definition current_user (d : db) (s : WebSession) : result (option Principal) :=
  match session_user_id s with
  | None => Ok None
  | Some raw => find_principal_by_id d raw
  end.

(** [register] *)
Definition register (email password : string) (salt : Z) : prog Customer :=
  match email_str email with
  | None => throw ValidationError
  | Some email =>
      require (8 <=? Z.of_nat (String.length password)) ValidationError ;;
      existing ← gets (λ d, customer_by_email d email);
      match existing with
      | Some _ => throw ValidationError
      | None =>
          id ← uuid4;
          now ← gets db_now;
          let customer := new_customer id email (ph_hash salt password) now in
          add TCustomer customer ;;
          mret customer
      end
  end.

(** [login] *)
Definition login (email password : string) (s : WebSession) : prog WebSession :=
  match email_str email with
  | None => throw ValidationError
  | Some email =>
      principal ← gets (λ d, authenticate d email password);
      match principal with
      | None => throw UnauthenticatedError
      | Some (PStaff st) =>
          mret {| pending_mfa_user_id := Some (uuid_str (staff_id st)); session_user_id := session_user_id s |}
      | Some p => mret (login_user p s)
      end
  end.

Definition set_totp_secret (secret : string) (s : Staff) : Staff :=
  {| staff_id := staff_id s; staff_email := staff_email s; staff_password_hash := staff_password_hash s;
     staff_role := staff_role s; staff_totp_secret := Some secret; staff_created_at := staff_created_at s |}.

(** [mfa_enroll]: [secret] is the one [generate_totp_secret] draws. *)
Definition mfa_enroll (password : option string) (secret : string) (s : WebSession) : prog Staff :=
  let is_reset := match pending_mfa_user_id s with None => true | Some _ => false end in
  user_id ← match pending_mfa_user_id s with
            | Some raw => mret raw
            | None =>
                user ← queries (λ d, current_user d s);
                match user with
                | Some p => if bool_decide (principal_role p ∈ STAFF_ROLES) then mret (uuid_str (principal_id p))
                            else throw UnauthenticatedError
                | None => throw UnauthenticatedError
                end
            end;
  principal ← queries (λ d, find_principal_by_id d user_id);
  match principal with
  | Some (PStaff st) =>
      let already_enrolled := bool_decide (staff_totp_secret st ≠ None) in
      (if is_reset then
         match password with
         | None => throw ForbiddenError
         | Some password => require (ph_verify (staff_password_hash st) password) ForbiddenError
         end
       else require (negb already_enrolled) ConflictError) ;;
      update TStaff (λ x : Staff, staff_id x =? staff_id st) (set_totp_secret secret) ;;
      mret (set_totp_secret secret st)
  | _ => throw ForbiddenError
  end.

(** [mfa_verify] *)
Definition mfa_verify (code : string) (s : WebSession) : prog WebSession :=
  match pending_mfa_user_id s with
  | None => throw UnauthenticatedError
  | Some user_id =>
      require (negb (String.eqb user_id "")) UnauthenticatedError ;;
      principal ← queries (λ d, find_principal_by_id d user_id);
      match principal with
      | Some (PStaff st) =>
          match staff_totp_secret st with
          | None => throw ForbiddenError
          | Some secret =>
              require (negb (String.eqb secret "")) ForbiddenError ;;
              require (totp_verify secret code) UnauthenticatedError ;;
              mret (login_user (PStaff st) {| pending_mfa_user_id := None; session_user_id := session_user_id s |})
          end
      | _ => throw ForbiddenError
      end
  end.

(** ** A browser's requests, one after the other *)

Inductive AuthRequest :=
  | Register (email password : string) (salt : Z)
  | Login (email password : string)
  | Logout
  | MfaEnroll (password : option string) (secret : string)
  | MfaVerify (code : string).

Definition auth_handler (r : AuthRequest) (s : WebSession) : prog WebSession :=
  match r with
  | Register email password salt => register email password salt ;; mret s
  | Login email password => login email password s
  | Logout => mret empty_session
  | MfaEnroll password secret => mfa_enroll password secret s ;; mret s
  | MfaVerify code => mfa_verify code s
  end.

(** One request: its transaction, and the session as the response leaves it. *)
Definition serve (r : AuthRequest) (st : db * WebSession) : db * WebSession :=
  match transact no_deferred (auth_handler r st.2) st.1 with
  | (Ok s, d) => (d, s)
  | (Raise _, d) => (d, st.2)
  end.

Definition serve_all (rs : list AuthRequest) (st : db * WebSession) : db * WebSession :=
  foldl (λ st r, serve r st) st rs.

(** ** Staff accounts ([CreateStaffJob]) *)

Definition create_staff (email password : string) (role : StaffRole) (salt : Z) : prog Staff :=
  let normalized_email := str_lower (str_strip email) in
  require (negb (String.eqb normalized_email "")) ValueError ;;
  require (negb (String.eqb password "")) ValueError ;;
  as_customer ← gets (λ d, customer_by_email d normalized_email);
  require (bool_decide (as_customer = None)) EmailAlreadyRegisteredError ;;
  as_staff ← gets (λ d, staff_by_email d normalized_email);
  require (bool_decide (as_staff = None)) EmailAlreadyRegisteredError ;;
  id ← uuid4;
  now ← gets db_now;
  let staff := {| staff_id := id; staff_email := normalized_email; staff_password_hash := ph_hash salt password;
                  staff_role := role; staff_totp_secret := None; staff_created_at := now |} in
  add TStaff staff ;;
  mret staff.
End Auth.

(** ** API tokens ([models/identity/staff_api_token.py], [controllers/admin/staff_api_tokens.py], [mcp/auth.py]) *)

Definition token_by_id (d : db) (id : uuid) : option StaffApiToken :=
  head (filter (λ t, token_id t = id) (staff_api_tokens d)).

Definition token_by_hash (d : db) (hash : string) : option StaffApiToken :=
  head (filter (λ t, token_hash t = hash) (staff_api_tokens d)).

(** [list_for_staff] *)
Definition list_for_staff (d : db) (staff : uuid) : list StaffApiToken :=
  sort_by (λ a b, token_created_at b <=? token_created_at a) (filter (λ t, token_staff_id t = staff) (staff_api_tokens d)).

Definition set_revoked (at_ : instant) (t : StaffApiToken) : StaffApiToken :=
  match token_revoked_at t with
  | Some _ => t
  | None =>
      {| token_id := token_id t; token_staff_id := token_staff_id t; token_label := token_label t;
         token_hash := token_hash t; token_created_at := token_created_at t; token_revoked_at := Some at_ |}
  end.

(** [revoke]: the first revocation stands. *)
Definition revoke (t : StaffApiToken) (revoked_at : instant) : prog StaffApiToken :=
  match token_revoked_at t with
  | Some _ => mret t
  | None => update TStaffApiToken (λ x : StaffApiToken, token_id x =? token_id t) (set_revoked revoked_at) ;;
            mret (set_revoked revoked_at t)
  end.

Section Tokens.
(** [hash_staff_api_token]: SHA-256 of the token. *)
Context (sha256_hex : string → string).

(** [issue_token], with [_issue_token]: [raw_token] is the one drawn. *)
Definition issue_token (r : HttpRequest) (label raw_token : string) : prog StaffApiToken :=
  u ← lift (requires_role STAFF_ROLES r);
  require (negb (String.eqb label "")) ValidationError ;;
  audited "identity.staff_api_token.issue" "customer_id" None r
    (id ← uuid4;
     now ← gets db_now;
     let token := {| token_id := id; token_staff_id := caller_id u; token_label := label;
                     token_hash := sha256_hex raw_token; token_created_at := now; token_revoked_at := None |} in
     add TStaffApiToken token ;;
     mret token).

(** [list_tokens] *)
Definition list_tokens (r : HttpRequest) (d : db) : result (list StaffApiToken) :=
  u ← requires_role STAFF_ROLES r;
  Ok (list_for_staff d (caller_id u)).

(** [revoke_token] *)
Definition revoke_token (r : HttpRequest) (id : uuid) (now : instant) : prog StaffApiToken :=
  u ← lift (requires_role STAFF_ROLES r);
  token ← gets (λ d, token_by_id d id);
  match token with
  | None => throw NotFoundError
  | Some token =>
      require (token_staff_id token =? caller_id u) ForbiddenError ;;
      revoke token now
  end.

Record ResolvedStaff := { resolved_staff_id : uuid; resolved_role : StaffRole; resolved_label : string }.

Definition header_get (key : string) (headers : list (string * string)) : option string :=
  snd <$> head (filter (λ h, h.1 = key) headers).

(** [_extract_bearer] *)
Definition extract_bearer (headers : option (list (string * string))) : result string :=
  match headers with
  | None | Some [] => Raise McpAuthenticationError
  | Some hs =>
      let lower := default "" (header_get "authorization" hs) in
      let raw := if String.eqb lower "" then default "" (header_get "Authorization" hs) else lower in
      ensure (String.prefix "bearer " (str_lower raw)) McpAuthenticationError ;;
      let token := str_strip (String.substring 7 (String.length raw - 7) raw) in
      ensure (negb (String.eqb token "")) McpAuthenticationError ;;
      Ok token
  end.

(** [resolve_staff] *)
Definition resolve_staff (headers : option (list (string * string))) (d : db) : result ResolvedStaff :=
  token ← extract_bearer headers;
  match token_by_hash d (sha256_hex token) with
  | None => Raise McpAuthenticationError
  | Some row =>
      ensure (bool_decide (token_revoked_at row = None)) McpAuthenticationError ;;
      match staff_by_id d (token_staff_id row) with
      | None => Raise McpAuthenticationError
      | Some staff =>
          Ok {| resolved_staff_id := staff_id staff; resolved_role := staff_role staff;
                resolved_label := staff_email staff +:+ " (" +:+ token_label row +:+ ")" |}
      end
  end.
End Tokens.

(** ** The customer's profile ([services/identity/profile_service.py], [controllers/api/profile.py]) *)

Inductive ProfileField := DISPLAY_NAME | PHONE | MAILING_ADDRESS.
#[export] Instance ProfileField_eq_dec : EqDecision ProfileField.
Proof. solve_decision. Defined.

Definition MAX_DISPLAY_NAME_LENGTH : Z := 200.
Definition MAX_MAILING_ADDRESS_LENGTH : Z := 500.

(** [_validate_text_field] of a text *)
Definition validate_text_field (max_length : Z) (value : string) : option string :=
  let stripped := str_strip value in
  if String.eqb stripped "" || (max_length <? Z.of_nat (String.length stripped)) then None else Some stripped.

Definition is_digit (c : ascii) : bool := (48 <=? code c) && (code c <=? 57).

(** [_PHONE_PATTERN.match]: a plus, a digit from 1 to 9, then 7 to 14 digits. *)
Definition is_e164 (s : string) : bool :=
  match chars s with
  | plus :: d :: rest =>
      Ascii.eqb plus "+" && is_digit d && negb (Ascii.eqb d "0") && forallb is_digit rest &&
      (7 <=? Z.of_nat (length rest)) && (Z.of_nat (length rest) <=? 14)
  | _ => false
  end.

(** [_check_phone] of a text *)
Definition check_phone (value : string) : option string :=
  let stripped := str_strip value in if is_e164 stripped then Some stripped else None.

(** The fields a request names, with the values they come with: [ProfileUpdate]. *)
Definition ProfileUpdate : Type := list (ProfileField * option string).

Definition check_field (f : ProfileField) (value : option string) : result (ProfileField * option string) :=
  match value with
  | None => Ok (f, None)
  | Some v =>
      match match f with
            | DISPLAY_NAME => validate_text_field MAX_DISPLAY_NAME_LENGTH v
            | PHONE => check_phone v
            | MAILING_ADDRESS => validate_text_field MAX_MAILING_ADDRESS_LENGTH v
            end with
      | Some v => Ok (f, Some v)
      | None => Raise ValidationError
      end
  end.

(** [ProfileUpdateRequest] *)
Definition validate_update (fields : ProfileUpdate) : result ProfileUpdate :=
  map_result (λ f, check_field f.1 f.2) fields.

Definition update_get (f : ProfileField) (u : ProfileUpdate) : option (option string) :=
  snd <$> last (filter (λ x, x.1 = f) u).

(** [apply_update] on the loaded row *)
Definition set_profile (u : ProfileUpdate) (c : Customer) : Customer :=
  {| customer_id := customer_id c; customer_email := customer_email c;
     customer_password_hash := customer_password_hash c; customer_kyc_status := customer_kyc_status c;
     customer_account_approval_status := customer_account_approval_status c; customer_created_at := customer_created_at c;
     customer_display_name := default (customer_display_name c) (update_get DISPLAY_NAME u);
     customer_phone := default (customer_phone c) (update_get PHONE u);
     customer_mailing_address := default (customer_mailing_address c) (update_get MAILING_ADDRESS u) |}.

(** [ProfileService.get] *)
Definition get_profile_customer (d : db) (customer : uuid) : result Customer :=
  match customer_by_id d customer with None => Raise NotFoundError | Some c => Ok c end.

(** [get_profile] *)
Definition get_profile (r : HttpRequest) (d : db) : result (option string * option string * option string) :=
  customer ← current_customer_id r;
  c ← get_profile_customer d customer;
  Ok (customer_display_name c, customer_phone c, customer_mailing_address c).

(** [update_profile] *)
Definition update_profile (r : HttpRequest) (fields : ProfileUpdate) : prog Customer :=
  customer ← lift (current_customer_id r);
  u ← lift (validate_update fields);
  c ← queries (λ d, get_profile_customer d customer);
  audited "identity.profile.update" "customer_id" (Some customer) r
    (update TCustomer (λ x : Customer, customer_id x =? customer) (set_profile u)) ;;
  mret (set_profile u c).

(** ** The KYC override ([controllers/admin/kyc_overrides.py]) *)

Definition override_kyc_lock (r : HttpRequest) (customer : uuid) (reason : string) : prog Customer :=
  lift (requires_role STAFF_ROLES r) ;;
  require (negb (String.eqb reason "")) ValidationError ;;
  found ← gets (λ d, customer_by_id d customer);
  match found with
  | None => throw NotFoundError
  | Some c =>
      audited "identity.kyc.override" "customer_id" (Some customer) r
        (update TCustomer (λ x : Customer, customer_id x =? customer) (set_kyc_status APPROVAL_PENDING)) ;;
      mret (set_kyc_status APPROVAL_PENDING c)
  end.

(** ** Lemmas: what a request does to the session *)

Section AuthLemmas.
Context `{PasswordHasher} `{AuthPackages}.

(** Request [i] was a login whose password [p]'s hash verified. *)
Definition password_proved (rs : list AuthRequest) (st : db * WebSession) (raw : string) (i : nat) (p : Principal) : Prop :=
  ∃ email address password, rs !! i = Some (Login email password) ∧ email_str email = Some address ∧
    authenticate (serve_all (take i rs) st).1 address password = Some p ∧ uuid_str (principal_id p) = raw.

(** Request [j] was a code that verified against the enrolled secret of the staff member [raw] names. *)
Definition code_proved (rs : list AuthRequest) (st : db * WebSession) (raw : string) (j : nat) : Prop :=
  ∃ code staff secret, rs !! j = Some (MfaVerify code) ∧
    find_principal_by_id (serve_all (take j rs) st).1 raw = Ok (Some (PStaff staff)) ∧
    staff_totp_secret staff = Some secret ∧ totp_verify secret code = true ∧ uuid_str (staff_id staff) = raw.

Lemma password_proved_snoc rs r st raw i p : password_proved rs st raw i p → password_proved (rs ++ [r]) st raw i p.
Proof.
  intros (e & a & pw & Hi & He & Ha & Hr). exists e, a, pw.
  rewrite take_app_le by (apply lookup_lt_Some in Hi; lia). split_and!; try done. by apply lookup_app_l_Some.
Qed.

Lemma code_proved_snoc rs r st raw j : code_proved rs st raw j → code_proved (rs ++ [r]) st raw j.
Proof.
  intros (c & s & x & Hj & Hrest). exists c, s, x.
  rewrite take_app_le by (apply lookup_lt_Some in Hj; lia). split; [by apply lookup_app_l_Some|done].
Qed.

Lemma serve_all_snoc rs r st : serve_all (rs ++ [r]) st = serve r (serve_all rs st).
Proof. unfold serve_all. by rewrite foldl_app. Qed.

(** A request leaves the session as it was, or is one of the three that change it. *)
Lemma serve_session r d s :
  (serve r (d, s)).2 = s ∨ r = Logout ∧ (serve r (d, s)).2 = empty_session ∨
  (∃ email address password p, r = Login email password ∧ email_str email = Some address ∧
     authenticate d address password = Some p ∧
     (serve r (d, s)).2 = match p with
                          | PStaff st => {| pending_mfa_user_id := Some (uuid_str (staff_id st)); session_user_id := session_user_id s |}
                          | PCustomer _ => login_user p s
                          end) ∨
  (∃ code raw staff secret, r = MfaVerify code ∧ pending_mfa_user_id s = Some raw ∧
     find_principal_by_id d raw = Ok (Some (PStaff staff)) ∧ staff_totp_secret staff = Some secret ∧
     totp_verify secret code = true ∧
     (serve r (d, s)).2 = {| pending_mfa_user_id := None; session_user_id := Some (uuid_str (staff_id staff)) |}).
Proof.
  unfold serve, transact. cbn [fst snd]. destruct (run (auth_handler r s) d) as [[s' d']|e] eqn:E; [|by left].
  unfold no_deferred. cbn [snd]. destruct r as [email pw salt|email pw| |pw secret|code]; cbn [auth_handler] in E.
  - apply run_bind_Ok in E as (? & ? & _ & [<- _]%run_ret_Ok). by left.
  - unfold login in E. destruct (email_str email) as [address|] eqn:Ea; [|done].
    apply run_bind_Ok in E as (p & d1 & [Hp <-]%run_gets_Ok & E). right; right; left.
    destruct p as [p|]; [|done]. exists email, address, pw, p. split_and!; try done.
    destruct p; apply run_ret_Ok in E as [<- _]; done.
  - apply run_ret_Ok in E as [<- _]. right; by left.
  - apply run_bind_Ok in E as (? & ? & _ & [<- _]%run_ret_Ok). by left.
  - unfold mfa_verify in E. destruct (pending_mfa_user_id s) as [raw|] eqn:Ep; [|done].
    inv_run. destruct x1 as [[c|staff]|]; [done| |done]. destruct (staff_totp_secret staff) as [secret|] eqn:Es; [|done].
    inv_run. right; right; right. by exists code, raw, staff, secret.
Qed.

Lemma find_principal_staff_id d raw staff :
  find_principal_by_id d raw = Ok (Some (PStaff staff)) → parse_uuid raw = Ok (staff_id staff).
Proof.
  intros (id & Hid & [= Hp])%bind_Ok. rewrite Hid. f_equal. unfold principal_by_id in Hp.
  destruct (customer_by_id d id); [done|]. destruct (staff_by_id d id) as [x|] eqn:E; [|done]. injection Hp as ->.
  apply head_Some_elem_of, list_elem_of_filter in E as [? _]. done.
Qed.

(** The identifiers of the staff are 128-bit. *)
Definition staff_ids_ok (d : db) : Prop := Forall (λ s, 0 <= staff_id s < 2 ^ 128) (staff_members d).

Lemma serve_staff_ids r st : staff_ids_ok st.1 → staff_ids_ok (serve r st).1.
Proof.
  destruct st as [d s]. unfold serve, transact. cbn [fst snd]. intros Hd.
  destruct (run (auth_handler r s) d) as [[s' d']|e] eqn:E; [|done]. unfold no_deferred. cbn [fst].
  assert (Hsame : tables d' TStaff = tables d TStaff → staff_ids_ok d') by (intros Ht; unfold staff_ids_ok, staff_members; by rewrite Ht).
  destruct r as [email pw salt|email pw| |pw secret|code]; cbn [auth_handler] in E.
  - apply Hsame. refine ((_ : writes (H := trueup) [TCustomer] (register email pw salt ;; mret s)) d s' d' E TStaff _); [|set_solver].
    unfold register. destruct (email_str email); [|apply writes_bind; [apply writes_throw|intros; apply writes_ret]]. writes_auto.
  - apply Hsame. refine ((_ : writes (H := trueup) [] (login email pw s)) d s' d' E TStaff _); [|set_solver]. unfold login. writes_auto.
  - apply run_ret_Ok in E as [_ <-]. done.
  - apply run_bind_Ok in E as (x & d1 & E & [_ <-]%run_ret_Ok). unfold mfa_enroll in E.
    apply run_bind_Ok in E as (raw & d2 & E0 & E).
    assert (d2 = d) as ->.
    { destruct (pending_mfa_user_id s); [by apply run_ret_Ok in E0 as [_ <-]|]. apply run_bind_Ok in E0 as (p & d3 & [_ <-]%run_queries_Ok & E0).
      destruct p as [p|]; [|done]. case_bool_decide; [|done]. by apply run_ret_Ok in E0 as [_ <-]. }
    apply run_bind_Ok in E as (p & d3 & [_ <-]%run_queries_Ok & E). destruct p as [[c|staff]|]; [done| |done].
    apply run_bind_Ok in E as ([] & d3 & E1 & E).
    assert (d3 = d) as ->.
    { destruct (pending_mfa_user_id s); [by apply run_require_Ok in E1 as [_ <-]|]. destruct pw; [|done]. by apply run_require_Ok in E1 as [_ <-]. }
    apply run_bind_Ok in E as ([] & d4 & (_ & _ & _ & _ & ->)%run_update_Ok & [_ <-]%run_ret_Ok).
    unfold staff_ids_ok, staff_members. rewrite (tables_set_same (H := trueup) TStaff). unfold update_table.
    apply Forall_fmap, (Forall_impl _ _ _ Hd). intros y Hy. cbn. by destruct (staff_id y =? staff_id staff).
  - unfold mfa_verify in E. apply Hsame. destruct (pending_mfa_user_id s); [|done]. inv_run.
    destruct x1 as [[c|staff]|]; [done| |done]. destruct (staff_totp_secret staff); [|done]. by inv_run.
Qed.

Lemma serve_all_ids rs st : staff_ids_ok st.1 → staff_ids_ok (serve_all rs st).1.
Proof. induction rs as [|r rs IH] using rev_ind; [done|]. intros Hd. rewrite serve_all_snoc. by apply serve_staff_ids, IH. Qed.

Lemma authenticate_staff d address password x :
  staff_ids_ok d → authenticate d address password = Some (PStaff x) → 0 <= staff_id x < 2 ^ 128.
Proof.
  unfold authenticate, find_principal_by_email. intros Hd. destruct (customer_by_email d address); [by case_match|].
  destruct (staff_by_email d address) as [y|] eqn:E; [|done]. cbn. case_match; [|done]. intros [= ->].
  apply head_Some_elem_of, list_elem_of_filter in E as [_ Hin]. unfold staff_ids_ok in Hd. rewrite Forall_forall in Hd. by apply Hd.
Qed.

(** C35. Both factors.  Whatever requests a browser sends, a session that is logged
    in was opened by a password that verified for that very principal; and when
    the principal is a member of staff, by a code that verified, later, against
    the secret enrolled for them. *)
Theorem staff_session_two_factors rs d raw :
  staff_ids_ok d →
  session_user_id (serve_all rs (d, empty_session)).2 = Some raw →
  ∃ i p, password_proved rs (d, empty_session) raw i p ∧
    match p with
    | PCustomer _ => True
    | PStaff _ => ∃ j, (i < j)%nat ∧ code_proved rs (d, empty_session) raw j
    end.
Proof.
  intros Hids. set (st := (d, empty_session)).
  enough (Hinv : (∀ raw, session_user_id (serve_all rs st).2 = Some raw → ∃ i p, password_proved rs st raw i p ∧
      match p with PCustomer _ => True | PStaff _ => ∃ j, (i < j)%nat ∧ code_proved rs st raw j end) ∧
    (∀ raw, pending_mfa_user_id (serve_all rs st).2 = Some raw →
      ∃ i x, (i < length rs)%nat ∧ password_proved rs st raw i (PStaff x))) by apply Hinv.
  clear raw. induction rs as [|r rs [IH1 IH2]] using rev_ind; [done|].
  assert (K1 : ∀ raw, session_user_id (serve_all rs st).2 = Some raw → ∃ i p, password_proved (rs ++ [r]) st raw i p ∧
      match p with PCustomer _ => True | PStaff _ => ∃ j, (i < j)%nat ∧ code_proved (rs ++ [r]) st raw j end).
  { intros raw Hraw. destruct (IH1 raw Hraw) as (i & p & Hp & Hm). exists i, p. split; [by apply password_proved_snoc|].
    destruct p; [done|]. destruct Hm as (j & Hj & Hc). exists j. split; [done|by apply code_proved_snoc]. }
  assert (K2 : ∀ raw, pending_mfa_user_id (serve_all rs st).2 = Some raw →
      ∃ i x, (i < length rs)%nat ∧ password_proved (rs ++ [r]) st raw i (PStaff x)).
  { intros raw Hraw. destruct (IH2 raw Hraw) as (i & x & Hi & Hp). exists i, x. split; [done|by apply password_proved_snoc]. }
  assert (K2' : ∀ raw, pending_mfa_user_id (serve_all rs st).2 = Some raw →
      ∃ i x, (i < length (rs ++ [r]))%nat ∧ password_proved (rs ++ [r]) st raw i (PStaff x)).
  { intros raw Hraw. destruct (K2 raw Hraw) as (i & x & Hi & Hp). exists i, x. rewrite length_app. cbn. split; [lia|done]. }
  assert (Hnow : take (length rs) (rs ++ [r]) = rs) by (by rewrite take_app_length).
  assert (Hlast : (rs ++ [r]) !! length rs = Some r) by (by rewrite list_lookup_middle).
  rewrite serve_all_snoc. destruct (serve_all rs st) as [d1 s1] eqn:E. cbn [snd] in *.
  destruct (serve_session r d1 s1) as [->|[[_ ->]|[(e & a & pw & p & -> & Ha & Hau & ->)|(c & raw & x & k & -> & Hpe & Hf & Hk & Hc & ->)]]].
  - done.
  - done.
  - assert (Hpr : password_proved (rs ++ [Login e pw]) st (uuid_str (principal_id p)) (length rs) p).
    { exists e, a, pw. rewrite Hnow, E. done. }
    destruct p as [c|x]; cbn [login_user pending_mfa_user_id session_user_id principal_id] in *.
    + split; [|exact K2']. intros raw [= <-]. by exists (length rs), (PCustomer c).
    + split; [exact K1|]. intros raw [= <-]. exists (length rs), x. rewrite length_app. cbn. split; [lia|done].
  - cbn [pending_mfa_user_id session_user_id]. split; [|done]. intros raw' [= <-].
    destruct (K2 raw Hpe) as (i & y & Hi & Hp). pose proof (find_principal_staff_id _ _ _ Hf) as Hid.
    assert (Hraw : uuid_str (staff_id x) = raw).
    { destruct Hp as (e & a & pw & _ & _ & Hau & <-). cbn [principal_id] in *.
      apply authenticate_staff in Hau; [|by apply serve_all_ids]. rewrite parse_uuid_printed in Hid by done. by injection Hid as ->. }
    rewrite Hraw. exists i, (PStaff y). split; [done|]. exists (length rs). split; [done|].
    exists c, x, k. rewrite Hnow, E. done.
Qed.
(** A filter that found nothing, over one more row. *)
Lemma head_filter_snoc {A} (P : A → Prop) `{∀ x, Decision (P x)} l x :
  head (filter P l) = None → P x → head (filter P (l ++ [x])) = Some x.
Proof. intros Hl Hx. apply head_None in Hl. by rewrite filter_app, Hl, filter_cons_True. Qed.

Lemma create_staff_Ok `{!PasswordHasherLaw H} email password role salt d st d' :
  run (create_staff email password role salt) d = Ok (st, d') →
  customer_by_email d' (staff_email st) = None ∧ staff_by_email d' (staff_email st) = Some st ∧
  ph_verify (staff_password_hash st) password = true.
Proof.
  unfold create_staff. cbn zeta. intros Hr. inv_run. zbool.
  repeat match goal with Hx : bool_decide _ = true |- _ => apply bool_decide_eq_true in Hx end.
  cbn [staff_email staff_password_hash]. split_and!; [|by apply head_filter_snoc|by apply ph_verify_hash].
  match goal with Hc : customer_by_email _ _ = None |- _ => exact Hc end.
Qed.

Lemma register_Ok email password salt d c d' :
  run (register email password salt) d = Ok (c, d') →
  ∃ address, email_str email = Some address ∧ customer_email c = address ∧ customer_by_email d' address = Some c.
Proof.
  unfold register. destruct (email_str email) as [address|]; [|done]. intros Hr.
  apply run_bind_Ok in Hr as ([] & d1 & [_ <-]%run_require_Ok & Hr). apply run_bind_Ok in Hr as (e & d1 & [He <-]%run_gets_Ok & Hr).
  destruct e; [done|]. inv_run. exists address. split_and!; [done|done|]. by apply head_filter_snoc.
Qed.

(** A staff address can be taken.  The operator's command refuses an address a
    customer already has, and the new member of staff can log in; but the public
    registration only looks among customers: whoever registers that address
    afterwards takes every login with it, and the member of staff is never
    authenticated again, whatever password is sent. *)
Theorem register_shadows_staff `{!PasswordHasherLaw H} email password role salt d st d1 email2 password2 salt2 c d2 :
  run (create_staff email password role salt) d = Ok (st, d1) →
  email_str email2 = Some (staff_email st) →
  run (register email2 password2 salt2) d1 = Ok (c, d2) →
  authenticate d1 (staff_email st) password = Some (PStaff st) ∧
  find_principal_by_email d2 (staff_email st) = Some (PCustomer c) ∧
  ∀ pw x, authenticate d2 (staff_email st) pw ≠ Some (PStaff x).
Proof.
  intros (Hc & Hs & Hv)%create_staff_Ok He (address & He' & _ & Hc2)%register_Ok. rewrite He in He'. injection He' as <-.
  unfold authenticate, find_principal_by_email. rewrite Hc, Hs, Hc2. cbn. rewrite Hv. split_and!; [done|done|].
  intros pw x. by case_match.
Qed.
End AuthLemmas.

(** ** Lemmas: tokens *)

Lemma token_unique d t :
  integrity d → t ∈ staff_api_tokens d → token_by_hash d (token_hash t) = Some t ∧ token_by_id d (token_id t) = Some t.
Proof.
  intros Hd Ht. unfold token_by_hash, token_by_id, staff_api_tokens. split.
  - rewrite (filter_unique_key (H := trueup) TStaffApiToken token_hash d t); try done.
    intros a b E. cbn. by rewrite E, String.eqb_refl, orb_true_r.
  - rewrite (filter_unique_key (H := trueup) TStaffApiToken token_id d t); try done.
    intros a b E. cbn. by rewrite E, Z.eqb_refl.
Qed.

(** The header an MCP client sends. *)
Definition bearer (token : string) : option (list (string * string)) := Some [("Authorization", "Bearer " +:+ token)]%string.

Lemma substring_all s : String.substring 0 (String.length s) s = s.
Proof. induction s as [|c s IH]; cbn; [done|by rewrite IH]. Qed.

Lemma extract_bearer_Ok token : str_strip token = token → token ≠ ""%string → extract_bearer (bearer token) = Ok token.
Proof.
  intros Hs Hne. set (raw := ("Bearer " +:+ token)%string).
  assert (Hsub : String.substring 7 (String.length raw - 7) raw = token).
  { transitivity (String.substring 0 (String.length token - 0) token); [reflexivity|]. rewrite Nat.sub_0_r. apply substring_all. }
  assert (Hpre : String.prefix "bearer " (str_lower raw) = true) by (by destruct token).
  transitivity (ensure (String.prefix "bearer " (str_lower raw)) McpAuthenticationError ;;
                let tok := str_strip (String.substring 7 (String.length raw - 7) raw) in
                ensure (negb (String.eqb tok "")) McpAuthenticationError ;; Ok tok); [reflexivity|].
  rewrite Hpre, Hsub, Hs. cbn. by destruct (String.eqb_spec token "").
Qed.

Section TokenLemmas.
Context (sha256_hex : string → string).

Lemma issue_token_Ok r label raw d t d1 :
  run (issue_token sha256_hex r label raw) d = Ok (t, d1) →
  ∃ u, req_caller r = Some u ∧ caller_role u ∈ STAFF_ROLES ∧
    staff_api_tokens d1 = staff_api_tokens d ++ [t] ∧ tables d1 TStaff = tables d TStaff ∧
    token_staff_id t = caller_id u ∧ token_label t = label ∧ token_hash t = sha256_hex raw ∧ token_revoked_at t = None.
Proof.
  unfold issue_token. intros (u & d0 & [[Hu Hrole]%requires_role_Ok <-]%run_lift_Ok & Hr)%run_bind_Ok.
  apply run_bind_Ok in Hr as ([] & d0 & [_ <-]%run_require_Ok & Hr).
  apply audited_Ok in Hr as (u' & target & _ & _ & Hr). cbn zeta in Hr. inv_run. exists u.
  split_and!; try done.
Qed.

(** A revocation touches the row of its number, in one field, for good. *)
Lemma revoke_row r id now d t' d2 x :
  integrity d → run (revoke_token r id now) d = Ok (t', d2) → x ∈ staff_api_tokens d →
  (if token_id x =? id then set_revoked now x else x) ∈ staff_api_tokens d2.
Proof.
  intros Hd (u & d0 & [_ <-]%run_lift_Ok & Hr)%run_bind_Ok Hx.
  apply run_bind_Ok in Hr as (t & d0 & [Ht <-]%run_gets_Ok & Hr). destruct t as [t|]; [|done].
  apply run_bind_Ok in Hr as ([] & d0 & [_ <-]%run_require_Ok & Hr).
  assert (token_id t = id ∧ t ∈ staff_api_tokens d) as [Hid _] by (by apply head_Some_elem_of, list_elem_of_filter in Ht as [? ?]).
  unfold revoke in Hr. destruct (token_revoked_at t) as [w|] eqn:Er.
  - apply run_ret_Ok in Hr as [_ <-]. destruct (Z.eqb_spec (token_id x) id) as [E|]; [|done].
    destruct (token_unique d x Hd Hx) as [_ Hxi]. rewrite E, Ht in Hxi. injection Hxi as ->.
    unfold set_revoked. by rewrite Er.
  - apply run_bind_Ok in Hr as ([] & d3 & (_ & _ & _ & _ & ->)%run_update_Ok & [_ <-]%run_ret_Ok).
    unfold staff_api_tokens. rewrite (tables_set_same (H := trueup) TStaffApiToken). unfold update_table.
    apply list_elem_of_fmap. exists x. by rewrite Hid.
Qed.

(** A committed transaction of anyone, with the token it revokes: an issue, a
    revocation, or anything that keeps to other tables. *)
Inductive token_step : option uuid → db → db → Prop :=
  | token_issue r label raw d t d' : run (issue_token sha256_hex r label raw) d = Ok (t, d') → token_step None d d'
  | token_revoke r id now d t d' : run (revoke_token r id now) d = Ok (t, d') → token_step (Some id) d d'
  | token_elsewhere {A} ts (m : prog A) d a d' :
      writes (H := trueup) ts m → TStaffApiToken ∉ ts → run m d = Ok (a, d') → token_step None d d'.

Inductive token_history : list (option uuid) → db → db → Prop :=
  | token_start d : token_history [] d d
  | token_next o l d d1 d2 : token_step o d d1 → token_history l d1 d2 → token_history (o :: l) d d2.

(** A row of the token's; whether it is revoked is all that may change. *)
Definition row_of (t x : StaffApiToken) : Prop :=
  token_id x = token_id t ∧ token_staff_id x = token_staff_id t ∧ token_label x = token_label t ∧ token_hash x = token_hash t.

Lemma token_history_row t l d d' x :
  token_history l d d' → integrity d → x ∈ staff_api_tokens d → row_of t x →
  integrity d' ∧ ∃ x', x' ∈ staff_api_tokens d' ∧ row_of t x' ∧
    (token_revoked_at x' = None ↔ token_revoked_at x = None ∧ Some (token_id t) ∉ l).
Proof.
  intros Hh. revert x. induction Hh as [d|o l d d1 d2 Hs _ IH]; intros x Hd Hx Ht.
  { split; [done|]. exists x. split_and!; [done..|]. set_solver. }
  assert (integrity d1 ∧ ∃ x1, x1 ∈ staff_api_tokens d1 ∧ row_of t x1 ∧
    (token_revoked_at x1 = None ↔ token_revoked_at x = None ∧ Some (token_id t) ≠ o)) as (Hd1 & x1 & Hx1 & Ht1 & Hr1).
  { destruct Hs as [r label raw d t' d' Hr|r id now d t' d' Hr|A ts m d a d' Hw Hts Hr];
      (split; [exact (run_integrity _ _ _ _ Hd Hr)|]).
    - destruct (issue_token_Ok _ _ _ _ _ _ Hr) as (_ & _ & _ & Hl & _). exists x. rewrite Hl. set_solver.
    - pose proof (revoke_row _ _ _ _ _ _ _ Hd Hr Hx) as Hx'. destruct Ht as (Hid & Hrow).
      eexists. split; [exact Hx'|]. destruct (Z.eqb_spec (token_id x) id) as [E|E].
      + assert (token_revoked_at (set_revoked now x) ≠ None) as Hne
          by (unfold set_revoked; destruct (token_revoked_at x) eqn:Er; cbn; congruence).
        split; [unfold row_of, set_revoked; by destruct (token_revoked_at x)|]. split; [by intros ?|].
        intros [_ Hno]. destruct Hno. by rewrite <- Hid, E.
      + split; [done|]. split; [intros ?; split; [done|congruence]|by intros [? _]].
    - exists x. unfold staff_api_tokens in *. rewrite (Hw _ _ _ Hr TStaffApiToken Hts). set_solver. }
  destruct (IH x1 Hd1 Hx1 Ht1) as (Hd2 & x2 & Hx2 & Ht2 & Hr2). split; [done|]. exists x2. split_and!; [done..|].
  rewrite Hr2, Hr1, not_elem_of_cons. tauto.
Qed.

(** C36. The life of an API token.  After a token was issued to a member of staff,
    over any history of committed transactions - tokens issued, tokens revoked,
    anything done elsewhere: as long as none of them revoked it, the header that
    carries it resolves to that member, with the role they have now and the label
    the proposals are filed under; once one of them did, no call gets through with
    it, at any later time; and nobody but its owner can revoke it. *)
Theorem token_lifecycle r u label raw d t d1 history d2 :
  integrity d → req_caller r = Some u → str_strip raw = raw → raw ≠ ""%string →
  run (issue_token sha256_hex r label raw) d = Ok (t, d1) → token_history history d1 d2 →
  (Some (token_id t) ∉ history → ∀ st, staff_by_id d2 (caller_id u) = Some st →
     resolve_staff sha256_hex (bearer raw) d2 =
       Ok {| resolved_staff_id := staff_id st; resolved_role := staff_role st;
             resolved_label := staff_email st +:+ " (" +:+ label +:+ ")" |}) ∧
  (Some (token_id t) ∈ history → resolve_staff sha256_hex (bearer raw) d2 = Raise McpAuthenticationError) ∧
  (∀ r' u' now, req_caller r' = Some u' → caller_role u' ∈ STAFF_ROLES → caller_id u' ≠ caller_id u →
     run (revoke_token r' (token_id t) now) d2 = Raise ForbiddenError).
Proof.
  intros Hd Hu Hs Hne Hi Hh. pose proof (run_integrity _ _ _ _ Hd Hi) as Hd1.
  destruct (issue_token_Ok _ _ _ _ _ _ Hi) as (u0 & Hu0 & _ & Htok & _ & Hid & Hlab & Hhash & Hrev).
  rewrite Hu in Hu0. injection Hu0 as <-.
  destruct (token_history_row t _ _ _ t Hh Hd1) as (Hd2 & x & Hx & (Hxi & Hxs & Hxl & Hxh) & Hxr); [rewrite Htok; set_solver|done|].
  destruct (token_unique d2 x Hd2 Hx) as [Hbh Hbi].
  assert (Hres : resolve_staff sha256_hex (bearer raw) d2 =
      (ensure (bool_decide (token_revoked_at x = None)) McpAuthenticationError ;;
       match staff_by_id d2 (token_staff_id x) with
       | None => Raise McpAuthenticationError
       | Some staff => Ok {| resolved_staff_id := staff_id staff; resolved_role := staff_role staff;
                             resolved_label := staff_email staff +:+ " (" +:+ token_label x +:+ ")" |}
       end)).
  { unfold resolve_staff. rewrite extract_bearer_Ok by done. cbn [mbind result_bind]. by rewrite <- Hhash, <- Hxh, Hbh. }
  split_and!.
  - intros Hno st Hst. rewrite Hres, bool_decide_true by (by apply Hxr). cbn [ensure mbind result_bind].
    by rewrite Hxs, Hid, Hst, Hxl, Hlab.
  - intros Hin. rewrite Hres, bool_decide_false; [done|]. rewrite Hxr. by intros [_ ?].
  - intros r' u' now Hu' Hrole Hother. unfold revoke_token, requires_role. rewrite Hu', bool_decide_true by done.
    rewrite run_bind. cbn [run lift]. rewrite run_bind. cbn [run gets]. rewrite <- Hxi, Hbi, run_bind, Hxs, Hid.
    destruct (Z.eqb_spec (caller_id u) (caller_id u')); [congruence|done].
Qed.
End TokenLemmas.

(** ** A small store, for the examples *)

Definition sample_hasher : PasswordHasher := {| ph_hash := λ _ p, p; ph_verify := String.eqb |}.

#[local] Instance sample_hasher_law : PasswordHasherLaw sample_hasher.
Proof. intros salt p. apply String.eqb_refl. Qed.

Definition sample_packages : AuthPackages := {| email_str := Some; totp_verify := String.eqb |}.

Definition sample_adviser : Staff :=
  {| staff_id := 5; staff_email := "eve@trueup"; staff_password_hash := "correct horse"; staff_role := ADVISER;
     staff_totp_secret := None; staff_created_at := 0 |}.

Definition sample_office : db := set_table (H := trueup) TStaff [sample_adviser] (empty_db 0).

Definition sample_logins : list AuthRequest :=
  [Login "eve@trueup" "wrong"; Login "eve@trueup" "correct horse"; MfaEnroll None "123456"; MfaVerify "123456"].

Lemma staff_session_two_factors_witness :
  session_user_id (serve_all (H := sample_hasher) (H0 := sample_packages) sample_logins (sample_office, empty_session)).2
    = Some (uuid_str 5) ∧
  ∃ i p, password_proved (H := sample_hasher) (H0 := sample_packages) sample_logins (sample_office, empty_session) (uuid_str 5) i p ∧
    match p with
    | PCustomer _ => True
    | PStaff _ => ∃ j, (i < j)%nat ∧
        code_proved (H := sample_hasher) (H0 := sample_packages) sample_logins (sample_office, empty_session) (uuid_str 5) j
    end.
Proof.
  assert (Hs : session_user_id (serve_all (H := sample_hasher) (H0 := sample_packages) sample_logins
    (sample_office, empty_session)).2 = Some (uuid_str 5)) by (vm_compute; reflexivity).
  split; [exact Hs|]. apply (staff_session_two_factors (H := sample_hasher) (H0 := sample_packages)); [|exact Hs].
  constructor; [split; vm_compute; congruence|constructor].
Defined.

Definition sample_created : Staff * db :=
  run_or (create_staff (H := sample_hasher) " Eve@Trueup" "correct horse" ADVISER 0) (empty_db 0) sample_adviser.

Definition sample_intruder : Customer * db :=
  run_or (register (H := sample_hasher) (H0 := sample_packages) "eve@trueup" "hunter22" 1) sample_created.2
    (new_customer 0 "" "" 0).

Lemma register_shadows_staff_witness :
  authenticate (H := sample_hasher) sample_created.2 (staff_email sample_created.1) "correct horse" = Some (PStaff sample_created.1) ∧
  find_principal_by_email sample_intruder.2 (staff_email sample_created.1) = Some (PCustomer sample_intruder.1) ∧
  ∀ pw x, authenticate (H := sample_hasher) sample_intruder.2 (staff_email sample_created.1) pw ≠ Some (PStaff x).
Proof.
  assert (H1 : run (create_staff (H := sample_hasher) " Eve@Trueup" "correct horse" ADVISER 0) (empty_db 0) = Ok sample_created)
    by (apply run_or_Ok; vm_compute; reflexivity).
  assert (H2 : run (register (H := sample_hasher) (H0 := sample_packages) "eve@trueup" "hunter22" 1) sample_created.2 = Ok sample_intruder)
    by (apply run_or_Ok; vm_compute; reflexivity).
  assert (H3 : staff_email sample_created.1 = "eve@trueup"%string) by (vm_compute; reflexivity).
  revert H1 H2 H3. generalize sample_created sample_intruder. intros [st d1] [c d2]. cbn [fst snd]. intros H1 H2 H3.
  apply (register_shadows_staff (H := sample_hasher) (H0 := sample_packages) " Eve@Trueup" "correct horse" ADVISER 0 (empty_db 0)
    st d1 "eve@trueup" "hunter22" 1 c d2 H1 ltac:(by rewrite H3) H2).
Defined.

Definition sample_request : HttpRequest :=
  {| req_caller := Some {| caller_id := 5; caller_role := "adviser"; caller_user_id := Some (uuid_str 5) |};
     req_json := JObj [("label", JStr "laptop")]%string; req_digest := "d1"; req_form_customer_id := None |}.

Definition sample_issued : StaffApiToken * db :=
  run_or (issue_token id sample_request "laptop" "t0ken") sample_office
    {| token_id := 0; token_staff_id := 0; token_label := ""; token_hash := ""; token_created_at := 0; token_revoked_at := None |}.

Definition sample_revoked : StaffApiToken * db :=
  run_or (revoke_token sample_request (token_id sample_issued.1) 9) sample_issued.2 sample_issued.1.

Definition sample_later : StaffApiToken * db :=
  run_or (issue_token id sample_request "desktop" "t1ken") sample_revoked.2 sample_issued.1.

(** Issued; then revoked; and after one more token was issued, still revoked. *)
Lemma token_lifecycle_witness :
  resolve_staff id (bearer "t0ken") sample_issued.2 =
    Ok {| resolved_staff_id := 5; resolved_role := ADVISER; resolved_label := "eve@trueup (laptop)" |} ∧
  resolve_staff id (bearer "t0ken") sample_later.2 = Raise McpAuthenticationError.
Proof.
  assert (H1 : run (issue_token id sample_request "laptop" "t0ken") sample_office = Ok sample_issued)
    by (apply run_or_Ok; vm_compute; reflexivity).
  assert (H2 : run (revoke_token sample_request (token_id sample_issued.1) 9) sample_issued.2 = Ok sample_revoked)
    by (apply run_or_Ok; vm_compute; reflexivity).
  assert (H3 : run (issue_token id sample_request "desktop" "t1ken") sample_revoked.2 = Ok sample_later)
    by (apply run_or_Ok; vm_compute; reflexivity).
  assert (Hd : integrity sample_office) by (apply integrity_check; intros []; vm_compute; reflexivity).
  assert (Hst : staff_by_id sample_issued.2 5 = Some sample_adviser) by (vm_compute; reflexivity).
  revert H1 H2 H3 Hst. generalize sample_issued sample_revoked sample_later. intros [t d1] [t' d2] [t'' d3] H1 H2 H3 Hst. cbn [fst snd] in *.
  split.
  - destruct (token_lifecycle id sample_request _ "laptop" "t0ken" sample_office t d1 [] d1 Hd eq_refl
      ltac:(vm_compute; reflexivity) ltac:(done) H1 (token_start _ _)) as [Hres _].
    exact (Hres (not_elem_of_nil _) sample_adviser Hst).
  - destruct (token_lifecycle id sample_request _ "laptop" "t0ken" sample_office t d1 [Some (token_id t); None] d3 Hd eq_refl
      ltac:(vm_compute; reflexivity) ltac:(done) H1) as (_ & Hres & _).
    + eapply token_next; [exact (token_revoke _ _ _ _ _ _ _ H2)|].
      eapply token_next; [exact (token_issue _ _ _ _ _ _ _ H3)|constructor].
    + apply Hres. by left.
Defined.
