(* ===== verification/AgentActions.v ===== *)
(** * The approval queue of the agent surface
      ([models/ops/agent_action_request.py], [mcp/write_tools.py], [controllers/admin/agent_requests.py])

    An MCP client proposes; a proposal is one pending row.  A member of staff
    approves or rejects it; an approval executes the proposed call inside a
    savepoint, so that an expected failure leaves the row [execution_failed] and
    nothing else, while any other exception undoes the approval too. *)

From S2P Require Import Prelude PyDecimal MoneyTypes Dates Calendar Store Schema Uuids Ledger CashPolicy Funding Valuation Restatement Lots LotBooks Operations OrderEvents Orders OrderBooks OrderCash Reconciliation Rebalance Access Identity.
From Stdlib Require Import String.
From stdpp Require Import strings.
Open Scope Z_scope.

(** ** The repository *)

Definition action_type_value (t : AgentActionType) : string :=
  match t with RESOLVE_BREAK => "resolve_break" | KYC_OVERRIDE => "kyc_override" | REBALANCE => "rebalance" end.

(** [create] *)
Definition create_action (action : AgentActionType) (arguments : list (string * json)) (agent justification : string)
    : prog uuid :=
  id ← uuid4;
  now ← gets db_now;
  add TAgentAction {| action_id := id; action_action := action; action_arguments := arguments;
    action_requesting_agent := agent; action_justification := justification; action_status := ACTION_PENDING;
    action_reviewed_by := None; action_reviewed_at := None; action_review_note := None;
    action_execution_error := None; action_executed_at := None; action_created_at := now |} ;;
  mret id.

(** [get_by_id] *)
Definition action_by_id (d : db) (id : uuid) : option AgentActionRequest :=
  head (filter (λ a, action_id a = id) (agent_action_requests d)).

(** [get_for_update]: the lock makes two reviews of one row follow each other. *)
Definition get_for_update (id : uuid) (d : db) : result (option AgentActionRequest) :=
  scalar_one_or_none (filter (λ a, action_id a = id) (agent_action_requests d)).

Definition set_review (s : AgentActionStatus) (by_ : uuid) (at_ : instant) (note : option string)
    (a : AgentActionRequest) : AgentActionRequest :=
  {| action_id := action_id a; action_action := action_action a; action_arguments := action_arguments a;
     action_requesting_agent := action_requesting_agent a; action_justification := action_justification a;
     action_status := s; action_reviewed_by := Some by_; action_reviewed_at := Some at_; action_review_note := note;
     action_execution_error := action_execution_error a; action_executed_at := action_executed_at a;
     action_created_at := action_created_at a |}.

Definition set_outcome (s : AgentActionStatus) (error : option string) (executed_at : option instant)
    (a : AgentActionRequest) : AgentActionRequest :=
  {| action_id := action_id a; action_action := action_action a; action_arguments := action_arguments a;
     action_requesting_agent := action_requesting_agent a; action_justification := action_justification a;
     action_status := s; action_reviewed_by := action_reviewed_by a; action_reviewed_at := action_reviewed_at a;
     action_review_note := action_review_note a; action_execution_error := error; action_executed_at := executed_at;
     action_created_at := action_created_at a |}.

(** The row, changed in place: the object and its table. *)
Definition put_action (f : AgentActionRequest → AgentActionRequest) (a : AgentActionRequest) : prog AgentActionRequest :=
  update TAgentAction (λ x : AgentActionRequest, action_id x =? action_id a) f ;;
  mret (f a).

(** [approve] *)
Definition approve (a : AgentActionRequest) (by_ : uuid) (at_ : instant) (note : option string) : prog AgentActionRequest :=
  require (bool_decide (action_status a = ACTION_PENDING)) InvalidAgentActionTransitionError ;;
  put_action (set_review ACTION_APPROVED by_ at_ note) a.

(** [reject] *)
Definition reject (a : AgentActionRequest) (by_ : uuid) (at_ : instant) (note : string) : prog AgentActionRequest :=
  require (bool_decide (action_status a = ACTION_PENDING)) InvalidAgentActionTransitionError ;;
  put_action (set_review ACTION_REJECTED by_ at_ (Some note)) a.

(** [mark_executed] *)
Definition mark_executed (a : AgentActionRequest) (executed_at : instant) : prog AgentActionRequest :=
  require (bool_decide (action_status a = ACTION_APPROVED)) InvalidAgentActionTransitionError ;;
  put_action (λ x, set_outcome ACTION_EXECUTED (action_execution_error x) (Some executed_at) x) a.

(** [mark_execution_failed] *)
Definition mark_execution_failed (a : AgentActionRequest) (execution_error : string) : prog AgentActionRequest :=
  require (bool_decide (action_status a = ACTION_APPROVED)) InvalidAgentActionTransitionError ;;
  put_action (λ x, set_outcome ACTION_EXECUTION_FAILED (Some execution_error) (action_executed_at x) x) a.

(** ** Proposing ([mcp/write_tools.py]) *)

(** [_require_text] *)
Definition require_text (raw : string) : result string :=
  ensure (negb (String.eqb (str_strip raw) "")) ValueError ;; Ok raw.

Section Propose.
Context (sha256_hex : string → string) (headers : option (list (string * string))).

(** [propose_reconciliation_break_resolution] *)
Definition propose_break_resolution (break_id_ resolution_note : string) : prog uuid :=
  staff ← queries (resolve_staff sha256_hex headers);
  break_uuid ← lift (parse_uuid break_id_);
  resolution_note ← lift (require_text resolution_note);
  found ← gets (break_by_id break_uuid);
  require (bool_decide (is_Some found)) ValueError ;;
  create_action RESOLVE_BREAK [("break_id", JStr break_id_); ("resolution_note", JStr resolution_note)]
    (resolved_label staff) resolution_note.

(** [propose_kyc_override] *)
Definition propose_kyc_override (customer_id_ reason : string) : prog uuid :=
  staff ← queries (resolve_staff sha256_hex headers);
  customer_uuid ← lift (parse_uuid customer_id_);
  reason ← lift (require_text reason);
  found ← gets (λ d, customer_by_id d customer_uuid);
  require (bool_decide (is_Some found)) ValueError ;;
  create_action KYC_OVERRIDE [("customer_id", JStr customer_id_); ("reason", JStr reason)]
    (resolved_label staff) reason.

(** [propose_rebalance] *)
Definition propose_rebalance (customer_id_ : string) : prog uuid :=
  staff ← queries (resolve_staff sha256_hex headers);
  customer_uuid ← lift (parse_uuid customer_id_);
  found ← gets (λ d, customer_by_id d customer_uuid);
  require (bool_decide (is_Some found)) ValueError ;;
  create_action REBALANCE [("customer_id", JStr customer_id_)] (resolved_label staff)
    ("ad-hoc rebalance evaluation requested via the MCP agent surface for customer " +:+ customer_id_).
End Propose.

(** ** Executing *)

(** [row.arguments[key]] *)
Definition argument (key : string) (a : AgentActionRequest) : result json :=
  match json_get key (action_arguments a) with None => Raise KeyError | Some v => Ok v end.

(** [uuid.UUID(v)] of a JSON value *)
Definition uuid_argument (key : string) (a : AgentActionRequest) : result uuid :=
  v ← argument key a; parse_uuid_json v.

(** [_EXPECTED_EXECUTION_ERRORS] *)
Definition expected_execution_error (e : exn) : bool :=
  match e with
  | AlreadyResolvedError | NoAssignedModelError | CustomerNotEligibleError _ | MarketCalendarCacheMissError => true
  | _ => false
  end.

(** [_execute_resolve_break] *)
Definition execute_resolve_break (a : AgentActionRequest) (reviewed_by : uuid) (reviewed_at : instant) : prog () :=
  break_id_ ← lift (uuid_argument "break_id" a);
  found ← gets (break_by_id break_id_);
  match found with
  | None => throw ExecutionFailedError
  | Some b =>
      note ← lift (argument "resolution_note" a);
      resolve b reviewed_by reviewed_at (json_str note)
  end.

(** [_execute_kyc_override] *)
Definition execute_kyc_override (a : AgentActionRequest) : prog () :=
  customer ← lift (uuid_argument "customer_id" a);
  found ← gets (λ d, customer_by_id d customer);
  match found with
  | None => throw ExecutionFailedError
  | Some c => update TCustomer (λ x : Customer, customer_id x =? customer_id c) (set_kyc_status APPROVAL_PENDING)
  end.

Section Execute.
Context (s : RebalanceSettings) (utc_offset : instant → Z) (clock : instant).

(** [_execute_rebalance]: [clock] is the instant of its own [datetime.now]. *)
Definition execute_rebalance (a : AgentActionRequest) : prog () :=
  customer ← lift (uuid_argument "customer_id" a);
  found ← gets (λ d, customer_by_id d customer);
  match found with
  | None => throw ExecutionFailedError
  | Some _ =>
      as_of_date ← lift (market_date utc_offset (Aware clock));
      evaluation ← queries (evaluate (setting_drift_band_pct s) customer as_of_date);
      generate_orders (H := real_order_placer (setting_approval_threshold s)) (H0 := cash_policy_provider)
        (setting_cash_buffer_pct s) evaluation ;;
      mret tt
  end.

(** [_EXECUTORS] *)
Definition executor (t : AgentActionType) (a : AgentActionRequest) (reviewed_by : uuid) (reviewed_at : instant) : prog () :=
  match t with
  | RESOLVE_BREAK => execute_resolve_break a reviewed_by reviewed_at
  | KYC_OVERRIDE => execute_kyc_override a
  | REBALANCE => execute_rebalance a
  end.

(** ** Reviewing *)

(** [str(exc)] *)
Context (exn_text : exn → string).

(** An [InvalidAgentActionTransitionError] answered with a conflict. *)
Definition or_conflict {A} (m : prog A) : prog A :=
  r ← catching (λ e, bool_decide (e = InvalidAgentActionTransitionError)) m;
  match r with Ok a => mret a | Raise _ => throw ConflictError end.

(** The body of [_approve_request]. *)
Definition approve_and_execute (a : AgentActionRequest) (reviewed_by : uuid) (reviewed_at : instant) (note : option string)
    : prog AgentActionRequest :=
  a ← or_conflict (approve a reviewed_by reviewed_at note);
  outcome ← savepoint expected_execution_error (executor (action_action a) a reviewed_by reviewed_at);
  match outcome with
  | Raise e => mark_execution_failed a (exn_text e)
  | Ok _ => mark_executed a reviewed_at
  end.

(** [_target_customer_id] *)
Definition target_customer_id (a : AgentActionRequest) : result (option uuid) :=
  match json_get "customer_id" (action_arguments a) with
  | None | Some JNull => Ok None
  | Some v => id ← parse_uuid_json v; Ok (Some id)
  end.

(** The route [approve]. *)
Definition approve_request (r : HttpRequest) (request_id : uuid) (note : option string) (now : instant)
    : prog AgentActionRequest :=
  u ← lift (requires_role STAFF_ROLES r);
  row ← queries (get_for_update request_id);
  match row with
  | None => throw NotFoundError
  | Some a =>
      target ← lift (target_customer_id a);
      audited "agent_action_request.approve" "target_customer_id" target r
        (approve_and_execute a (caller_id u) now note)
  end.

(** The route [reject]. *)
Definition reject_request (r : HttpRequest) (request_id : uuid) (note : string) (now : instant)
    : prog AgentActionRequest :=
  u ← lift (requires_role STAFF_ROLES r);
  require (negb (String.eqb note "")) ValidationError ;;
  row ← queries (get_for_update request_id);
  match row with
  | None => throw NotFoundError
  | Some a =>
      target ← lift (target_customer_id a);
      audited "agent_action_request.reject" "target_customer_id" target r
        (or_conflict (reject a (caller_id u) now note))
  end.
End Execute.

(** The route [get_request]. *)
Definition get_request (r : HttpRequest) (request_id : uuid) (d : db) : result AgentActionRequest :=
  requires_role STAFF_ROLES r ;;
  match action_by_id d request_id with None => Raise NotFoundError | Some a => Ok a end.

(** ** Lemmas: the tables an execution writes *)

Lemma writes_place threshold c s side q p :
  writes (H := trueup) [TOrder; TApprovalHold; TJobOutbox] (place (OrderPlacer := real_order_placer threshold) c s side q p).
Proof.
  cbn [place real_order_placer]. apply writes_bind; [|intros o; apply writes_bind; [|intros; apply writes_ret]].
  - eapply writes_weaken; [apply writes_create_order|set_solver].
  - destruct (bool_decide _); [|apply writes_ret]. eapply writes_weaken; [apply writes_enqueue_submission|set_solver].
Qed.

Lemma writes_generate threshold pct ev :
  writes (H := trueup) [TOrder; TApprovalHold; TJobOutbox]
    (generate_orders (H := real_order_placer threshold) (H0 := cash_policy_provider) pct ev).
Proof.
  set (P := real_order_placer threshold).
  assert (Hbuy : ∀ c e n, writes (H := trueup) [TOrder; TApprovalHold; TJobOutbox] (place_buy (H := P) c e n)).
  { intros c e n. unfold place_buy. destruct (drift_security_id e), (drift_price e); try apply writes_throw.
    destruct (q_leb n zero); [apply writes_ret|]. apply writes_bind; [apply writes_lift|intros qty].
    destruct (q_eqb qty zero); [apply writes_ret|]. apply writes_bind; [apply writes_place|intros o; apply writes_ret]. }
  assert (Hbuys : ∀ es c rem, writes (H := trueup) [TOrder; TApprovalHold; TJobOutbox] (place_buys (H := P) c rem es)).
  { induction es as [|e es IH]; intros c rem; cbn [place_buys]; [apply writes_ret|].
    destruct (q_leb rem zero); [apply writes_ret|]. apply writes_bind; [apply writes_lift|intros n].
    apply writes_bind; [apply Hbuy|intros [o|]; [|apply IH]].
    apply writes_bind; [apply writes_lift|intros r]. apply writes_bind; [apply IH|intros os; apply writes_ret]. }
  unfold generate_orders. destruct (bool_decide _); [apply writes_ret|]. apply writes_bind.
  { apply writes_map. intros e. unfold place_sell. destruct (drift_security_id e), (drift_price e); try apply writes_throw.
    apply writes_bind; [apply writes_lift|intros n]. apply writes_bind; [apply writes_lift|intros qty; apply writes_place]. }
  intros sells. destruct (bool_decide _); [apply writes_ret|]. apply writes_bind; [apply writes_lift|intros b].
  apply writes_bind; [apply writes_queries|intros cash]. apply writes_bind; [apply writes_lift|intros av].
  destruct (q_leb av zero); [apply writes_ret|]. apply writes_bind; [apply Hbuys|intros bs; apply writes_ret].
Qed.

Definition execution_tables : list tables_ := [TReconciliationBreak; TCustomer; TOrder; TApprovalHold; TJobOutbox].

Lemma writes_executor s off clock t a by_ at_ : writes (H := trueup) execution_tables (executor s off clock t a by_ at_).
Proof.
  unfold executor. destruct t.
  - unfold execute_resolve_break, resolve. writes_auto.
  - unfold execute_kyc_override. writes_auto.
  - unfold execute_rebalance. apply writes_bind; [apply writes_lift|intros c]. apply writes_bind; [apply writes_gets|intros [x|]]; [|apply writes_throw].
    apply writes_bind; [apply writes_lift|intros on]. apply writes_bind; [apply writes_queries|intros ev].
    apply writes_bind; [|intros; apply writes_ret]. eapply writes_weaken; [apply writes_generate|unfold execution_tables; set_solver].
Qed.

(** ** Lemmas: one row of the queue *)

Lemma put_action_store f a d b d' l1 l2 :
  integrity d → agent_action_requests d = l1 ++ a :: l2 → run (put_action f a) d = Ok (b, d') →
  b = f a ∧ d' = set_table (H := trueup) TAgentAction (l1 ++ f a :: l2) d.
Proof.
  intros Hd Ha ([] & d1 & (_ & _ & _ & _ & ->)%run_update_Ok & [<- <-]%run_ret_Ok)%run_bind_Ok.
  destruct (update_one_split (H := trueup) TAgentAction action_id f d l1 a l2) as [Hu _]; [|done|exact Ha|].
  { intros x y E. cbn. by rewrite E, Z.eqb_refl. }
  split; [done|]. exact (f_equal (λ l, set_table (H := trueup) TAgentAction l d) Hu).
Qed.

Lemma put_action_Ok f a d b d' l1 l2 :
  integrity d → agent_action_requests d = l1 ++ a :: l2 → run (put_action f a) d = Ok (b, d') →
  b = f a ∧ agent_action_requests d' = l1 ++ f a :: l2 ∧ ∀ t, t ≠ TAgentAction → tables d' t = tables d t.
Proof.
  intros Hd Ha [-> ->]%(put_action_store f a d b d' l1 l2 Hd Ha). split_and!; [done| |].
  - exact (tables_set_same (H := trueup) TAgentAction _ d).
  - intros t Ht. exact (tables_set_ne (H := trueup) TAgentAction t _ d (not_eq_sym Ht)).
Qed.

Lemma action_unique d a :
  integrity d → a ∈ agent_action_requests d → filter (λ x, action_id x = action_id a) (agent_action_requests d) = [a].
Proof.
  intros Hd Ha. apply (filter_unique_key (H := trueup) TAgentAction action_id d a); [|done|done].
  intros x y E. cbn. by rewrite E, Z.eqb_refl.
Qed.

Lemma or_conflict_Ok {A} (m : prog A) d a d' : run (or_conflict m) d = Ok (a, d') → run m d = Ok (a, d').
Proof.
  unfold or_conflict. intros (r & d1 & Hc & Hr)%run_bind_Ok. destruct r as [x|e]; [|done].
  apply run_ret_Ok in Hr as [-> ->]. by apply run_catching_Ok in Hc.
Qed.

Lemma get_for_update_Some id d a : get_for_update id d = Ok (Some a) → action_id a = id ∧ a ∈ agent_action_requests d.
Proof.
  unfold get_for_update. intros Hs%scalar_one_or_none_Some.
  assert (Hin : a ∈ filter (λ a, action_id a = id) (agent_action_requests d)) by (rewrite Hs; set_solver).
  by apply list_elem_of_filter in Hin.
Qed.

(** The approved row, and how its execution leaves it. *)
Definition executed_row (at_ : instant) (a : AgentActionRequest) : AgentActionRequest :=
  set_outcome ACTION_EXECUTED (action_execution_error a) (Some at_) a.
Definition failed_row (text : string) (a : AgentActionRequest) : AgentActionRequest :=
  set_outcome ACTION_EXECUTION_FAILED (Some text) (action_executed_at a) a.

Lemma approve_and_execute_Ok s off clock txt a by_ at_ note d a' d' l1 l2 :
  integrity d → agent_action_requests d = l1 ++ a :: l2 →
  run (approve_and_execute s off clock txt a by_ at_ note) d = Ok (a', d') →
  action_status a = ACTION_PENDING ∧ agent_action_requests d' = l1 ++ a' :: l2 ∧
  let approved := set_review ACTION_APPROVED by_ at_ note a in
  let d1 := set_table (H := trueup) TAgentAction (l1 ++ approved :: l2) d in
  ∃ d2, d' = set_table (H := trueup) TAgentAction (l1 ++ a' :: l2) d2 ∧
    (run (executor s off clock (action_action a) approved by_ at_) d1 = Ok (tt, d2) ∧ a' = executed_row at_ approved ∨
     ∃ e, run (executor s off clock (action_action a) approved by_ at_) d1 = Raise e ∧
       expected_execution_error e = true ∧ d2 = d1 ∧ a' = failed_row (txt e) approved).
Proof.
  intros Hd Ha Hr. unfold approve_and_execute in Hr. apply run_bind_Ok in Hr as (b & d1 & Hap%or_conflict_Ok & Hr).
  pose proof (run_integrity _ _ _ _ Hd Hap) as Hd1. unfold approve in Hap.
  apply run_bind_Ok in Hap as ([] & d0 & [Hp <-]%run_require_Ok & Hap). apply bool_decide_eq_true in Hp. split; [done|].
  destruct (put_action_store _ _ _ _ _ _ _ Hd Ha Hap) as (-> & ->). cbn zeta in *.
  set (approved := set_review ACTION_APPROVED by_ at_ note a) in *. change (action_action approved) with (action_action a) in Hr.
  set (d1 := set_table (H := trueup) TAgentAction (l1 ++ approved :: l2) d) in *.
  assert (Hl1 : agent_action_requests d1 = l1 ++ approved :: l2) by exact (tables_set_same (H := trueup) TAgentAction _ d).
  apply run_bind_Ok in Hr as (o & d2 & Hs & Hr). rewrite run_savepoint in Hs.
  destruct (run (executor s off clock (action_action a) approved by_ at_) d1) as [[[] d3]|e] eqn:E.
  - injection Hs as <- <-. pose proof (run_integrity _ _ _ _ Hd1 E) as Hd2.
    assert (Hl2 : agent_action_requests d3 = l1 ++ approved :: l2).
    { rewrite <- Hl1. refine (writes_executor _ _ _ _ _ _ _ _ _ _ E TAgentAction _). unfold execution_tables. set_solver. }
    apply run_bind_Ok in Hr as ([] & d0 & [_ <-]%run_require_Ok & Hr).
    destruct (put_action_store _ _ _ _ _ _ _ Hd2 Hl2 Hr) as (-> & ->).
    split; [exact (tables_set_same (H := trueup) TAgentAction _ d3)|]. exists d3. split; [done|by left].
  - destruct (expected_execution_error e) eqn:Ee; [|done]. injection Hs as <- <-.
    apply run_bind_Ok in Hr as ([] & d0 & [_ <-]%run_require_Ok & Hr).
    destruct (put_action_store _ _ _ _ _ _ _ Hd1 Hl1 Hr) as (-> & ->).
    split; [exact (tables_set_same (H := trueup) TAgentAction _ d1)|]. exists d1. split; [done|]. right. by exists e.
Qed.

(** What a successful review found and did: the caller, the row, the audit row. *)
Record reviewed (r : HttpRequest) (action : string) (id : uuid) (d d0 : db) (u : Caller) (a : AgentActionRequest)
    (l1 l2 : list AgentActionRequest) : Prop := {
  reviewed_caller : req_caller r = Some u ∧ caller_role u ∈ STAFF_ROLES;
  reviewed_row : action_id a = id;
  reviewed_queue : agent_action_requests d = l1 ++ a :: l2 ∧ agent_action_requests d0 = l1 ++ a :: l2;
  reviewed_audit : ∃ target, tables d0 TAuditLog = tables d TAuditLog ++ [audit_row r u action target d];
  reviewed_frame : ∀ t, t ≠ TAuditLog → tables d0 t = tables d t;
}.

Lemma review_Ok {A} r action id d (f : Caller → AgentActionRequest → prog A) b d' :
  integrity d →
  run (u ← lift (requires_role STAFF_ROLES r);
       row ← queries (get_for_update id);
       match row with
       | None => throw NotFoundError
       | Some a =>
           target ← lift (target_customer_id a);
           audited action "target_customer_id" target r (f u a)
       end) d = Ok (b, d') →
  ∃ u a d0 l1 l2, reviewed r action id d d0 u a l1 l2 ∧ integrity d0 ∧ run (f u a) d0 = Ok (b, d').
Proof.
  intros Hd (u & d0 & [[Hu Hrole]%requires_role_Ok <-]%run_lift_Ok & Hr)%run_bind_Ok.
  apply run_bind_Ok in Hr as (row & d0 & [Hrow <-]%run_queries_Ok & Hr). destruct row as [a|]; [|done].
  apply get_for_update_Some in Hrow as [Hid Ha]. apply run_bind_Ok in Hr as (target & d0 & [_ <-]%run_lift_Ok & Hr).
  unfold audited in Hr. rewrite Hu in Hr. apply run_bind_Ok in Hr as (tg & d0 & [_ <-]%run_lift_Ok & Hr).
  apply run_bind_Ok in Hr as ([] & d0 & Hrec & Hr). pose proof (run_integrity _ _ _ _ Hd Hrec) as Hd0.
  pose proof (writes_record_audit [TAuditLog] (caller_id u) action tg (req_digest r) ltac:(set_solver) _ _ _ Hrec) as Hw.
  apply list_elem_of_split in Ha as (l1 & l2 & Hl). exists u, a, d0, l1, l2. split_and!; [|done|done].
  constructor; try done.
  - split; [done|]. rewrite <- Hl. refine (Hw TAgentAction _). set_solver.
  - exists tg. unfold record_audit in Hrec. inv_run. cbn [fst]. 
    match goal with |- tables (insert_row _ _ ?x) _ = _ => unfold insert_row; exact (tables_set_same (H := trueup) TAuditLog _ x) end.
  - intros t Ht. apply Hw. set_solver.
Qed.

Lemma reject_Ok a by_ at_ note d a' d' l1 l2 :
  integrity d → agent_action_requests d = l1 ++ a :: l2 → run (or_conflict (reject a by_ at_ note)) d = Ok (a', d') →
  action_status a = ACTION_PENDING ∧ a' = set_review ACTION_REJECTED by_ at_ (Some note) a ∧
  agent_action_requests d' = l1 ++ a' :: l2 ∧ ∀ t, t ≠ TAgentAction → tables d' t = tables d t.
Proof.
  intros Hd Hl Hr%or_conflict_Ok. apply run_bind_Ok in Hr as ([] & d0 & [Hp <-]%run_require_Ok & Hr).
  apply bool_decide_eq_true in Hp. by destruct (put_action_Ok _ _ _ _ _ _ _ Hd Hl Hr) as (-> & Hl' & Hne).
Qed.

(** A committed approval, step by step. *)
Lemma approve_request_Ok s off clock txt r id note now d a' d' :
  integrity d → run (approve_request s off clock txt r id note now) d = Ok (a', d') →
  ∃ u a d0 l1 l2, reviewed r "agent_action_request.approve" id d d0 u a l1 l2 ∧ integrity d0 ∧
    run (approve_and_execute s off clock txt a (caller_id u) now note) d0 = Ok (a', d').
Proof.
  intros Hd Hr. exact (review_Ok r _ id d (λ u a, approve_and_execute s off clock txt a (caller_id u) now note) a' d' Hd Hr).
Qed.

(** C33. An approval is all or nothing.  An approval that commits was given by a
    member of staff to a pending proposal, leaves one audit row in their name, and
    ran the proposed call once, on the store of the audit with the row approved.
    Either the call returned, and the store is the one it left, whole, with the
    row executed; or the call raised one of the expected errors, and then the
    store is the one it started from, but for the row, which holds the text of
    that error: nothing else has changed but the audit log. *)
Theorem approval_all_or_nothing s off clock txt r id note now d a' d' :
  integrity d → run (approve_request s off clock txt r id note now) d = Ok (a', d') →
  ∃ u a d0 l1 l2, reviewed r "agent_action_request.approve" id d d0 u a l1 l2 ∧
    action_status a = ACTION_PENDING ∧ tables d' TAuditLog = tables d0 TAuditLog ∧
    let approved := set_review ACTION_APPROVED (caller_id u) now note a in
    let d1 := set_table (H := trueup) TAgentAction (l1 ++ approved :: l2) d0 in
    (∃ d2, run (executor s off clock (action_action a) approved (caller_id u) now) d1 = Ok (tt, d2) ∧
       d' = set_table (H := trueup) TAgentAction (l1 ++ a' :: l2) d2 ∧
       a' = executed_row now approved ∧ action_status a' = ACTION_EXECUTED ∧ action_executed_at a' = Some now) ∨
    (∃ e, run (executor s off clock (action_action a) approved (caller_id u) now) d1 = Raise e ∧
       expected_execution_error e = true ∧ d' = set_table (H := trueup) TAgentAction (l1 ++ a' :: l2) d1 ∧
       a' = failed_row (txt e) approved ∧ action_status a' = ACTION_EXECUTION_FAILED ∧
       action_execution_error a' = Some (txt e) ∧ ∀ t, t ∉ [TAgentAction; TAuditLog] → tables d' t = tables d t).
Proof.
  intros Hd (u & a & d0 & l1 & l2 & Hrev & Hd0 & Hr)%approve_request_Ok; [|done].
  destruct (reviewed_queue _ _ _ _ _ _ _ _ _ Hrev) as [_ Hl0].
  destruct (approve_and_execute_Ok _ _ _ _ _ _ _ _ _ _ _ _ _ Hd0 Hl0 Hr) as (Hp & _ & d2 & -> & Hor). cbn zeta in *.
  set (d1 := set_table (H := trueup) TAgentAction _ d0) in Hor |- *.
  assert (Hset : ∀ l d t, t ≠ TAgentAction → tables (set_table (H := trueup) TAgentAction l d) t = tables d t).
  { intros l x t Ht. exact (tables_set_ne (H := trueup) TAgentAction t l x (not_eq_sym Ht)). }
  exists u, a, d0, l1, l2. split_and!; [done|done| |].
  - rewrite Hset by done. transitivity (tables d1 TAuditLog); [|by apply Hset].
    destruct Hor as [[Hex _]|(e & _ & _ & -> & _)]; [|done].
    refine (writes_executor _ _ _ _ _ _ _ _ _ _ Hex TAuditLog _). unfold execution_tables. set_solver.
  - destruct Hor as [[Hex ->]|(e & Hex & He & -> & ->)]; [left|right].
    + by exists d2.
    + exists e. split_and!; [done..|]. intros t Ht. rewrite Hset by set_solver. unfold d1. rewrite Hset by set_solver.
      apply (reviewed_frame _ _ _ _ _ _ _ _ _ Hrev). set_solver.
Qed.

(** ** The queue as a system *)

Inductive Proposal :=
  | ProposeBreakResolution (break_id_ note : string)
  | ProposeKycOverride (customer reason : string)
  | ProposeRebalance (customer : string).

Definition propose (sha : string → string) (headers : option (list (string * string))) (p : Proposal) : prog uuid :=
  match p with
  | ProposeBreakResolution b n => propose_break_resolution sha headers b n
  | ProposeKycOverride c r => propose_kyc_override sha headers c r
  | ProposeRebalance c => propose_rebalance sha headers c
  end.

(** A transaction of anyone: an agent's proposal, a review, or any service that
    does not write the queue. *)
Inductive queue_step : db → db → Prop :=
  | step_propose sha headers p d : queue_step d (transact no_deferred (propose sha headers p) d).2
  | step_approve s off clock txt r id note now d :
      queue_step d (transact ledger_balance (approve_request s off clock txt r id note now) d).2
  | step_reject r id note now d : queue_step d (transact no_deferred (reject_request r id note now) d).2
  | step_service {A} (m : prog A) ts c d :
      TAgentAction ∉ ts → writes (H := trueup) ts m → queue_step d (transact c m d).2.

Lemma propose_Ok sha headers p d id d' :
  run (propose sha headers p) d = Ok (id, d') → ∃ a, agent_action_requests d' = agent_action_requests d ++ [a].
Proof.
  assert (Hc : ∀ t args ag j d, run (create_action t args ag j) d = Ok (id, d') →
    ∃ a, agent_action_requests d' = agent_action_requests d ++ [a]).
  { intros t args ag j d1 Hr. unfold create_action in Hr. inv_run.
    match goal with |- context [insert_row _ ?a _] => exists a end. unfold agent_action_requests, insert_row.
    exact (tables_set_same (H := trueup) TAgentAction _ _). }
  destruct p; cbn [propose]; unfold propose_break_resolution, propose_kyc_override, propose_rebalance; intros Hr;
    repeat (apply run_bind_Ok in Hr as (? & ? & Hs & Hr);
            first [apply run_queries_Ok in Hs as [_ <-]|apply run_lift_Ok in Hs as [_ <-]
                  |apply run_gets_Ok in Hs as [_ <-]|apply run_require_Ok in Hs as [_ <-]]); by apply Hc in Hr.
Qed.

(** A committed transaction, or nothing. *)
Lemma transact_cases {A} c (m : prog A) d (P : db → Prop) :
  P d → (∀ a d', run m d = Ok (a, d') → P d') → P (transact c m d).2.
Proof. intros HP Hm. unfold transact. destruct (run m d) as [[a d']|e] eqn:E; [|done]. destruct (c d'); [|done]. by eapply Hm. Qed.

Lemma reject_request_Ok r id note now d a' d' :
  integrity d → run (reject_request r id note now) d = Ok (a', d') →
  ∃ u a d0 l1 l2, reviewed r "agent_action_request.reject" id d d0 u a l1 l2 ∧ action_status a = ACTION_PENDING ∧
    a' = set_review ACTION_REJECTED (caller_id u) now (Some note) a ∧ agent_action_requests d' = l1 ++ a' :: l2.
Proof.
  intros Hd Hr. unfold reject_request in Hr. apply run_bind_Ok in Hr as (u & d0 & Hu & Hr).
  apply run_bind_Ok in Hr as ([] & d1 & [_ <-]%run_require_Ok & Hr).
  assert (Hr' : run (u ← lift (requires_role STAFF_ROLES r);
       row ← queries (get_for_update id);
       match row with
       | None => throw NotFoundError
       | Some a =>
           target ← lift (target_customer_id a);
           audited "agent_action_request.reject" "target_customer_id" target r
             ((λ (u : Caller) a, or_conflict (reject a (caller_id u) now note)) u a)
       end) d = Ok (a', d')) by (apply run_bind_Ok; by exists u, d0).
  destruct (review_Ok r _ id d (λ u a, or_conflict (reject a (caller_id u) now note)) a' d' Hd Hr') as (u' & a & d2 & l1 & l2 & Hrev & Hd2 & Hrun).
  destruct (reviewed_queue _ _ _ _ _ _ _ _ _ Hrev) as [_ Hl0].
  destruct (reject_Ok _ _ _ _ _ _ _ _ _ Hd2 Hl0 Hrun) as (Hp & -> & Hl' & _). exists u', a, d2, l1, l2. done.
Qed.

(** C34. A proposal is reviewed once.  Once a proposal has been approved or rejected
    its row never changes again, whatever proposals, reviews and services follow in
    whatever order, and every later review of it is refused. *)
Theorem reviewed_once d d' a :
  integrity d → rtc queue_step d d' → a ∈ agent_action_requests d → action_status a ≠ ACTION_PENDING →
  action_by_id d' (action_id a) = Some a ∧
  (∀ s off clock txt r note now o, run (approve_request s off clock txt r (action_id a) note now) d' ≠ Ok o) ∧
  (∀ r note now o, run (reject_request r (action_id a) note now) d' ≠ Ok o).
Proof.
  intros Hd Hsteps Ha Hp.
  assert (Hin : integrity d' ∧ a ∈ agent_action_requests d').
  { induction Hsteps as [d|d d1 d' Hstep _ IH]; [done|]. apply IH; clear IH.
    - destruct Hstep; apply transact_cases; try done; intros ? ? Hr; by apply run_integrity in Hr.
    - destruct Hstep as [sha headers p d|s off clock txt r id note now d|r id note now d|A m ts c d Hts Hw];
        apply transact_cases; try done.
      + intros x d1 Hr. apply propose_Ok in Hr as [b ->]. set_solver.
      + intros b d1 (u & x & d0 & l1 & l2 & [_ _ [Hl Hl0] _ _] & Hd0 & Hr)%approve_request_Ok; [|done].
        destruct (approve_and_execute_Ok _ _ _ _ _ _ _ _ _ _ _ _ _ Hd0 Hl0 Hr) as (Hx & Hl' & _).
        rewrite Hl' in *. rewrite Hl in Ha. apply elem_of_app in Ha as [|[->|]%elem_of_cons]; [set_solver|done|set_solver].
      + intros b d1 (u & x & d0 & l1 & l2 & [_ _ [Hl _] _ _] & Hx & _ & Hl')%reject_request_Ok; [|done].
        rewrite Hl' in *. rewrite Hl in Ha. apply elem_of_app in Ha as [|[->|]%elem_of_cons]; [set_solver|done|set_solver].
      + intros x d1 Hr. pose proof (Hw _ _ _ Hr TAgentAction Hts) as E. unfold agent_action_requests in *. by rewrite E. }
  destruct Hin as [Hd' Ha'].
  assert (Huniq : ∀ l1 l2 b, agent_action_requests d' = l1 ++ b :: l2 → action_id b = action_id a → b = a).
  { intros l1 l2 b Hl Hid.
    assert (Hb : b ∈ filter (λ x, action_id x = action_id a) (agent_action_requests d')) by (apply list_elem_of_filter; split; [done|rewrite Hl; set_solver]).
    rewrite action_unique in Hb by done. by apply list_elem_of_singleton in Hb. }
  split_and!.
  - unfold action_by_id. by rewrite action_unique.
  - intros s off clock txt r note now [b d1] (u & x & d0 & l1 & l2 & Hrev & Hd0 & Hr)%approve_request_Ok; [|done].
    destruct Hrev as [_ Hid [Hl Hl0] _ _]. rewrite (Huniq _ _ _ Hl Hid) in *.
    by destruct (approve_and_execute_Ok _ _ _ _ _ _ _ _ _ _ _ _ _ Hd0 Hl0 Hr) as (? & _).
  - intros r note now [b d1] (u & x & d0 & l1 & l2 & [_ Hid [Hl _] _ _] & Hx & _)%reject_request_Ok; [|done].
    by rewrite (Huniq _ _ _ Hl Hid) in Hx.
Qed.

(** ** A small store, for the examples *)

Definition sample_desk : db :=
  set_table (H := trueup) TCustomer [set_kyc_status APPROVAL_REJECTED (new_customer 7 "ada@example.com" "" 0)] sample_issued.2.

Definition sample_headers : option (list (string * string)) := bearer "t0ken".

(** Two proposals of the adviser's agent: a KYC override and a rebalance. *)
Definition sample_proposed : uuid * db :=
  run_or (propose_kyc_override id sample_headers (uuid_str 7) "documents received" ;;
          propose_rebalance id sample_headers (uuid_str 7)) sample_desk 0.

Definition sample_rebalance_settings : RebalanceSettings :=
  {| setting_drift_band_pct := Dec 5 (-2); setting_cash_buffer_pct := Dec 2 (-2); setting_approval_threshold := QD 100000000 |}.

Definition sample_no_action : AgentActionRequest :=
  {| action_id := 0; action_action := REBALANCE; action_arguments := []; action_requesting_agent := "";
     action_justification := ""; action_status := ACTION_PENDING; action_reviewed_by := None; action_reviewed_at := None;
     action_review_note := None; action_execution_error := None; action_executed_at := None; action_created_at := 0 |}.

Definition sample_approve (id : uuid) : prog AgentActionRequest :=
  approve_request sample_rebalance_settings (λ _, 0) 0 (λ _, "no model"%string) sample_request id None 50.

Definition sample_first_id : uuid := from_option action_id 0 (head (agent_action_requests sample_proposed.2)).

Definition sample_overridden : AgentActionRequest * db := run_or (sample_approve sample_first_id) sample_proposed.2 sample_no_action.

(** The override is executed; the rebalance of a customer without a model is
    an expected failure, kept on the row. *)
Lemma sample_outcomes :
  action_status sample_overridden.1 = ACTION_EXECUTED ∧
  customer_kyc_status <$> customers sample_overridden.2 = [APPROVAL_PENDING] ∧
  (let r := run_or (sample_approve sample_proposed.1) sample_overridden.2 sample_no_action in
   action_status r.1 = ACTION_EXECUTION_FAILED ∧ action_execution_error r.1 = Some "no model"%string ∧
   length (audit_log r.2) = 3%nat).
Proof. by vm_compute. Qed.

Lemma sample_proposed_integrity : integrity sample_proposed.2.
Proof. apply integrity_check. intros []; vm_compute; reflexivity. Qed.

Lemma sample_approve_runs : run (sample_approve sample_first_id) sample_proposed.2 = Ok sample_overridden.
Proof. apply run_or_Ok. vm_compute. reflexivity. Qed.

(** The override ran on the approved row and its effect is in the store; the
    rebalance raised, and its row says so. *)
Lemma approval_all_or_nothing_witness :
  (∃ u a d0 d1 d2 l1 l2, reviewed sample_request "agent_action_request.approve" sample_first_id sample_proposed.2 d0 u a l1 l2 ∧
     action_status a = ACTION_PENDING ∧
     run (executor sample_rebalance_settings (λ _, 0) 0 (action_action a)
            (set_review ACTION_APPROVED (caller_id u) 50 None a) (caller_id u) 50) d1 = Ok (tt, d2) ∧
     sample_overridden.2 = set_table (H := trueup) TAgentAction (l1 ++ sample_overridden.1 :: l2) d2) ∧
  customer_kyc_status <$> customers sample_overridden.2 = [APPROVAL_PENDING].
Proof.
  split; [|by vm_compute].
  pose proof sample_approve_runs as H1. pose proof sample_proposed_integrity as Hd. unfold sample_approve in H1.
  assert (Hs : action_status sample_overridden.1 = ACTION_EXECUTED) by (vm_compute; reflexivity).
  revert H1 Hd Hs. generalize sample_proposed sample_overridden sample_first_id. intros [i d] [a' d'] id H1 Hd Hs. cbn [fst snd] in *.
  destruct (approval_all_or_nothing _ _ _ _ _ _ _ _ d a' d' Hd H1)
    as (u & a & d0 & l1 & l2 & Hrev & Hp & _ & [(d2 & Hex & Hd' & _)|(e & _ & _ & _ & _ & Hf & _)]); [|by rewrite Hf in Hs].
  eexists u, a, d0, _, d2, l1, l2. exact (conj Hrev (conj Hp (conj Hex Hd'))).
Defined.

Lemma reviewed_once_witness :
  action_by_id (transact no_deferred (reject_request sample_request sample_first_id "too late" 60) sample_overridden.2).2
    sample_first_id = Some sample_overridden.1.
Proof.
  pose proof sample_approve_runs as H1. pose proof sample_proposed_integrity as Hd.
  pose proof (run_integrity_snd (H := trueup) _ _ sample_overridden Hd H1) as Hd'. clear H1 Hd.
  assert (H2 : action_id sample_overridden.1 = sample_first_id ∧ action_status sample_overridden.1 = ACTION_EXECUTED ∧
    head (agent_action_requests sample_overridden.2) = Some sample_overridden.1) by (vm_compute; done).
  revert Hd' H2. generalize sample_first_id sample_overridden. intros id [a d] Hd' (<- & Hs & Hin). cbn [fst snd] in *.
  refine (proj1 (reviewed_once d _ a Hd' _ _ _)).
  - apply rtc_once, step_reject.
  - by apply head_Some_elem_of.
  - by rewrite Hs.
Defined.
