(* ===== verification/Listings.v ===== *)
(** * The list endpoints and their read models

    The eight paginated routes: the repository query of each ([keyset] over the
    rows its [WHERE] selects), its cursor reader, and the enrichment its read
    model adds ([LotsSummaryService], [FundingHistoryService], [HistoryService],
    [SecurityCatalogService]).  The ISO shapes no printer of the program writes
    and the collation of texts are arguments. *)

From S2P Require Import Prelude PyDecimal MoneyTypes Dates Calendar Store Schema Uuids Cursors Iso Ledger CashPolicy Funding Valuation Restatement Orders Access Pagination AgentActions.
From Stdlib Require Import String Ascii.
From stdpp Require Import strings sorting.
Open Scope Z_scope.

(** ** Reading a sort key back from a cursor *)

Section Cursors.
Context (p : CursorPackages).

(** [except ValueError: raise ValidationError] around the components *)
Definition or_invalid {A} (r : result A) : result A :=
  match r with Raise ValueError => Raise ValidationError | r => r end.

Definition decode_key2 {A B} (first : string → result A) (second : string → result B) (raw : string) : result (A * B) :=
  decoded ← decode_cursor p raw;
  match decoded with
  | [JStr a; JStr b] => or_invalid (x ← first a; y ← second b; Ok (x, y))
  | _ => Raise ValidationError
  end.

Definition decode_key3 {A B C} (first : string → result A) (second : string → result B) (third : string → result C)
    (raw : string) : result (A * B * C) :=
  decoded ← decode_cursor p raw;
  match decoded with
  | [JStr a; JStr b; JStr c] => or_invalid (x ← first a; y ← second b; z ← third c; Ok (x, y, z))
  | _ => Raise ValidationError
  end.
End Cursors.

(** ** [ILIKE] *)

Definition lower_eq (a b : ascii) : bool := Ascii.eqb (lower_ascii a) (lower_ascii b).

Fixpoint ilike (pattern : list ascii) : list ascii → bool :=
  match pattern with
  | [] => λ t, bool_decide (t = [])
  | c :: rest =>
      if Ascii.eqb c "%" then
        fix any (t : list ascii) : bool := ilike rest t || match t with [] => false | _ :: t => any t end
      else if Ascii.eqb c "_" then λ t, match t with [] => false | _ :: t => ilike rest t end
      else if Ascii.eqb c BACKSLASH then
        match rest with
        | [] => λ _, false
        | e :: rest => λ t, match t with [] => false | x :: t => lower_eq e x && ilike rest t end
        end
      else λ t, match t with [] => false | x :: t => lower_eq c x && ilike rest t end
  end.

(** ** The listings *)

Section Listings.
Context (p : CursorPackages).
Context (other_date : string → result date) (other_datetime : string → result instant).
Context {collation : KeyOrder string}.

Definition fromiso_date : string → result date := date_fromisoformat other_date.
Definition fromiso_datetime : string → result instant := datetime_fromisoformat other_datetime.

Definition parse_limit (raw_limit : option string) : result Z := limit ← parse_optional_limit raw_limit; normalize_limit limit.

(** [_resolve_customer_id], behind [requires_role("customer", *_STAFF_ROLES)] *)
Definition customer_of (r : HttpRequest) (raw_customer_id : option string) : result uuid :=
  requires_role ("customer"%string :: STAFF_ROLES) r ;;
  resolve_customer_id_for_get raw_customer_id r.

(** *** Agent action requests ([GET /admin/agent-requests]) *)

Definition request_key (a : AgentActionRequest) : instant * uuid := (action_created_at a, action_id a).
Definition request_cursor_key (a : AgentActionRequest) : list json :=
  [JStr (datetime_iso (action_created_at a)); JStr (uuid_str (action_id a))].
Definition decode_request_cursor : string → result (instant * uuid) := decode_key2 p fromiso_datetime parse_uuid.

Definition agent_status_of (raw : option string) : result AgentActionStatus :=
  match raw with
  | None => Ok ACTION_PENDING
  | Some raw =>
      if String.eqb raw "pending" then Ok ACTION_PENDING
      else if String.eqb raw "approved" then Ok ACTION_APPROVED
      else if String.eqb raw "rejected" then Ok ACTION_REJECTED
      else if String.eqb raw "executed" then Ok ACTION_EXECUTED
      else if String.eqb raw "execution_failed" then Ok ACTION_EXECUTION_FAILED
      else Raise ValidationError
  end.

(** [int(raw_limit)] raises its own [ValueError] here. *)
Definition request_limit (raw_limit : option string) : result Z :=
  match raw_limit with
  | None => normalize_limit None
  | Some raw => match int10 raw with Some n => normalize_limit (Some n) | None => Raise ValueError end
  end.

(** The rows of [list_by_status] *)
Definition requests_with_status (d : db) (status : AgentActionStatus) : list AgentActionRequest :=
  filter (λ a, action_status a = status) (agent_action_requests d).

Definition list_requests (r : HttpRequest) (raw_status raw_limit raw_cursor : option string) (d : db)
    : result (Page AgentActionRequest) :=
  requires_role STAFF_ROLES r ;;
  status ← agent_status_of raw_status;
  limit ← request_limit raw_limit;
  list_page p request_key request_cursor_key decode_request_cursor (requests_with_status d status) limit raw_cursor.

(** *** Customers ([GET /admin/customers]) *)

Definition customer_key (c : Customer) : string * uuid := (customer_email c, customer_id c).
Definition customer_cursor_key (c : Customer) : list json := [JStr (customer_email c); JStr (uuid_str (customer_id c))].
Definition decode_customer_cursor : string → result (string * uuid) := decode_key2 p Ok parse_uuid.

(** The rows of [CustomerRepository.search] *)
Definition customers_matching (d : db) (query : string) : list Customer :=
  filter (λ c, ilike ("%"%char :: chars query ++ ["%"%char]) (chars (customer_email c)) = true) (customers d).

Definition list_customers (r : HttpRequest) (raw_query raw_limit raw_cursor : option string) (d : db) : result (Page Customer) :=
  requires_role STAFF_ROLES r ;;
  let query := str_strip (default "" raw_query) in
  ensure (negb (String.eqb query "")) ValidationError ;;
  limit ← parse_limit raw_limit;
  list_page p customer_key customer_cursor_key decode_customer_cursor (customers_matching d query) limit raw_cursor.

(** *** Securities ([SecurityCatalogService], [GET /securities]) *)

Definition security_key (s : Security) : string * uuid := (security_symbol s, security_id s).
Definition security_cursor_key (s : Security) : list json := [JStr (security_symbol s); JStr (uuid_str (security_id s))].
Definition decode_security_cursor : string → result (string * uuid) := decode_key2 p Ok parse_uuid.

Definition active_securities (d : db) : list Security := filter (λ s, security_status s = SECURITY_ACTIVE) (securities d).

(** [DISTINCT ON (security_id) ... market_date DESC, recorded_at DESC] *)
Definition newer_close (a b : DailyClose) : bool :=
  negb (before (close_market_date a, close_recorded_at a) (close_market_date b, close_recorded_at b)).
Definition closes_of (d : db) (security : uuid) : list DailyClose :=
  sort_by newer_close (filter (λ c, close_security_id c = security) (daily_closes d)).

Definition latest_for_security (d : db) (security : uuid) : option DailyClose := head (closes_of d security).

(** The first row of the second market day. *)
Definition previous_close_for_security (d : db) (security : uuid) : option DailyClose :=
  match closes_of d security with
  | [] => None
  | c :: rest => head (filter (λ x, close_market_date x ≠ close_market_date c) rest)
  end.

(** Unlike the other routes, an [after] that is empty is decoded too. *)
Definition list_active (limit : Z) (after : option string) (d : db)
    : result (list (Security * option DailyClose * option DailyClose) * option string) :=
  cursor ← match after with None => Ok None | Some raw => k ← decode_security_cursor raw; Ok (Some k) end;
  page ← paginate p (keyset security_key limit cursor (active_securities d)) limit security_cursor_key;
  Ok ((λ s, (s, latest_for_security d (security_id s), previous_close_for_security d (security_id s))) <$> page_items page,
      next_cursor page).

Definition list_securities (r : HttpRequest) (raw_limit raw_after : option string) (d : db)
    : result (list (Security * option DailyClose * option DailyClose) * option string) :=
  match req_caller r with
  | None => Raise UnauthenticatedError
  | Some _ => limit ← parse_limit raw_limit; list_active limit raw_after d
  end.

(** *** Orders ([GET /orders]) *)

Definition order_sort_key (o : Order) : desc (instant * uuid) := Desc (order_created_at o, order_id o).
Definition order_cursor_key (o : Order) : list json := [JStr (datetime_iso (order_created_at o)); JStr (uuid_str (order_id o))].
Definition decode_order_cursor (raw : string) : result (desc (instant * uuid)) :=
  k ← decode_key2 p fromiso_datetime parse_uuid raw; Ok (Desc k).

Definition orders_of_customer (d : db) (customer : uuid) : list Order :=
  filter (λ o, order_customer_id o = customer) (orders d).

Definition list_orders (r : HttpRequest) (raw_customer_id raw_limit raw_cursor : option string) (d : db) : result (Page Order) :=
  customer ← customer_of r raw_customer_id;
  limit ← parse_limit raw_limit;
  list_page p order_sort_key order_cursor_key decode_order_cursor (orders_of_customer d customer) limit raw_cursor.

(** *** Lots ([LotsSummaryService], [GET /lots]) *)

Record LotSummary := {
  summary_lot : TaxLot;
  summary_symbol : string;
  summary_realized_gain_loss : Money;
  summary_is_provisional : bool;
  summary_current_price : option Price;
  summary_market_value : option Money;
  summary_unrealized_gain_loss : option Money;
  summary_wash_sale_disallowed : Money;
  summary_consumptions : list LotConsumption;
}.

Definition lot_page_key (l : TaxLot) : date * uuid := (lot_acquired_at l, lot_id l).
Definition lot_cursor_key (s : LotSummary) : list json :=
  [JStr (date_iso (lot_acquired_at (summary_lot s))); JStr (uuid_str (lot_id (summary_lot s)))].
Definition decode_lot_cursor : string → result (date * uuid) := decode_key2 p fromiso_date parse_uuid.

Definition lots_of_customer (d : db) (customer : uuid) : list TaxLot := filter (λ l, lot_customer_id l = customer) (tax_lots d).

(** [list_for_lots]: the newest sale first *)
Definition consumptions_of_lot (d : db) (lot : uuid) : list LotConsumption :=
  sort_by (λ a b, negb (before (consumption_sale_date a, consumption_id a) (consumption_sale_date b, consumption_id b)))
    (filter (λ c, consumption_tax_lot_id c = lot) (lot_consumptions d)).

(** [open_security_ids]: the page's own lots decide which securities are priced. *)
Definition is_open (l : TaxLot) : bool := q_ltb MoneyTypes.zero (lot_quantity_remaining l).
Definition price_by_security (d : db) (as_of : date) (page : list TaxLot) (security : uuid) : option Price :=
  if existsb (λ l, is_open l && (lot_security_id l =? security)) page
  then close_price <$> latest_confirmed d security as_of else None.

Definition lot_summary (d : db) (as_of : date) (page : list TaxLot) (lot : TaxLot) : result LotSummary :=
  let consumptions := consumptions_of_lot d (lot_id lot) in
  realized ← q_sum (consumption_realized_gain_loss <$> consumptions);
  wash ← q_sum (wash_disallowed_amount <$>
           filter (λ w, wash_replacement_tax_lot_id w = lot_id lot) (wash_sale_adjustments d));
  let price := price_by_security d as_of page (lot_security_id lot) in
  values ← match price with
           | Some x =>
               if is_open lot then
                 market_value ← units_times_price (lot_quantity_remaining lot) x;
                 unrealized ← q_sub market_value (lot_adjusted_basis lot);
                 Ok (Some market_value, Some unrealized)
               else Ok (None, None)
           | None => Ok (None, None)
           end;
  Ok {| summary_lot := lot;
        summary_symbol := from_option security_symbol "" (security_by_id d (lot_security_id lot));
        summary_realized_gain_loss := realized;
        summary_is_provisional := existsb consumption_is_provisional consumptions;
        summary_current_price := price;
        summary_market_value := values.1; summary_unrealized_gain_loss := values.2;
        summary_wash_sale_disallowed := wash; summary_consumptions := consumptions |}.

(** [LotsSummaryService.summarize] *)
Definition summarize_lots (customer : uuid) (as_of : date) (limit : Z) (after : option (date * uuid)) (d : db) : result (list LotSummary) :=
  let page := keyset lot_page_key limit after (lots_of_customer d customer) in
  map_result (lot_summary d as_of page) page.

(** [if raw_cursor:] *)
Definition after_of {K} (decode : string → result K) (raw_cursor : option string) : result (option K) :=
  match raw_cursor with
  | None => Ok None
  | Some raw => if String.eqb raw "" then Ok None else k ← decode raw; Ok (Some k)
  end.

Definition list_lots `{TradingCalendar} (utc_offset : instant → Z) (now : instant)
    (r : HttpRequest) (raw_customer_id raw_limit raw_cursor : option string) (d : db) : result (Page LotSummary) :=
  customer ← customer_of r raw_customer_id;
  limit ← parse_limit raw_limit;
  after ← after_of decode_lot_cursor raw_cursor;
  as_of ← market_date utc_offset (Aware now);
  lots ← summarize_lots customer as_of limit after d;
  paginate p lots limit lot_cursor_key.

(** *** Ledger history ([HistoryService], [GET /valuation/history]) *)

Record HistoryEntry := {
  history_entry_type : JournalEntryType;
  history_effective_date : date;
  history_recorded_at : instant;
  history_amount_money : option Money;
  history_quantity_units : option Units;
  history_memo : option string;
  history_posting_id : uuid;
}.

Definition history_entry (e : JournalEntry) (x : Posting) : HistoryEntry :=
  {| history_entry_type := entry_type e; history_effective_date := entry_effective_date e;
     history_recorded_at := entry_recorded_at e; history_amount_money := posting_amount_money x;
     history_quantity_units := posting_quantity_units x; history_memo := entry_memo e; history_posting_id := posting_id x |}.

(** The join of the postings with their entries, up to the watermark. *)
Definition history_rows (d : db) (customer : uuid) (cutoff : instant) : list (JournalEntry * Posting) :=
  x ← filter (λ x, posting_customer_id x = Some customer) (postings d);
  e ← filter (λ e, entry_id e = posting_journal_entry_id x ∧ entry_recorded_at e <= cutoff) (journal_entries d);
  [(e, x)].

Definition history_key (h : HistoryEntry) : desc (date * instant * uuid) :=
  Desc (history_effective_date h, history_recorded_at h, history_posting_id h).
Definition history_cursor_key (h : HistoryEntry) : list json :=
  [JStr (date_iso (history_effective_date h)); JStr (datetime_iso (history_recorded_at h)); JStr (uuid_str (history_posting_id h))].
Definition decode_history_cursor (raw : string) : result (desc (date * instant * uuid)) :=
  k ← decode_key3 p fromiso_date fromiso_datetime parse_uuid raw; Ok (Desc k).

(** [cutoff] is [Watermark.live()]'s. *)
Definition history (cutoff : instant) (r : HttpRequest) (raw_customer_id raw_limit raw_cursor : option string) (d : db)
    : result (Page HistoryEntry) :=
  customer ← customer_of r raw_customer_id;
  limit ← parse_limit raw_limit;
  list_page p history_key history_cursor_key decode_history_cursor
    ((λ ex, history_entry ex.1 ex.2) <$> history_rows d customer cutoff) limit raw_cursor.

(** *** Funding history ([FundingHistoryService], [GET /funding/history]) *)

Record FundingHistoryEntry := {
  funding_journal_entry_id : uuid;
  funding_entry_type : JournalEntryType;
  funding_effective_date : date;
  funding_recorded_at : instant;
  funding_amount : option Money;
  funding_settlement_status : option SettlementObligationStatus;
  funding_expected_settlement_date : option date;
  funding_failure_reason : option string;
}.

Definition is_funding_row (d : db) (ex : JournalEntry * Posting) : bool :=
  bool_decide (posting_role d ex.2 = Some CASH) && bool_decide (entry_type ex.1 ∈ [DEPOSIT; WITHDRAWAL]).

(** [SettlementObligationRepository.list_for_customer] *)
Definition obligations_of_customer (d : db) (customer : uuid) : list SettlementObligation :=
  sort_by (λ a b, obligation_expected_settlement_date b <=? obligation_expected_settlement_date a)
    (filter (λ o, obligation_owner d o = Some customer) (settlement_obligations d)).

(** [obligations_by_entry]: the last obligation of an entry. *)
Definition obligation_of_entry (d : db) (customer entry : uuid) : option SettlementObligation :=
  last (filter (λ o, obligation_journal_entry_id o = entry) (obligations_of_customer d customer)).

Definition funding_entry (d : db) (customer : uuid) (ex : JournalEntry * Posting) : FundingHistoryEntry :=
  let o := obligation_of_entry d customer (entry_id ex.1) in
  {| funding_journal_entry_id := entry_id ex.1; funding_entry_type := entry_type ex.1;
     funding_effective_date := entry_effective_date ex.1; funding_recorded_at := entry_recorded_at ex.1;
     funding_amount := posting_amount_money ex.2; funding_settlement_status := obligation_status <$> o;
     funding_expected_settlement_date := obligation_expected_settlement_date <$> o;
     funding_failure_reason := o ≫= obligation_failure_reason |}.

Definition funding_key (h : FundingHistoryEntry) : desc (date * instant * uuid) :=
  Desc (funding_effective_date h, funding_recorded_at h, funding_journal_entry_id h).
Definition funding_cursor_key (h : FundingHistoryEntry) : list json :=
  [JStr (date_iso (funding_effective_date h)); JStr (datetime_iso (funding_recorded_at h)); JStr (uuid_str (funding_journal_entry_id h))].

Definition funding_rows (d : db) (customer : uuid) (cutoff : instant) : list FundingHistoryEntry :=
  funding_entry d customer <$> filter (λ ex, is_funding_row d ex = true) (history_rows d customer cutoff).

Definition get_funding_history (cutoff : instant) (r : HttpRequest) (raw_customer_id raw_limit raw_cursor : option string) (d : db)
    : result (Page FundingHistoryEntry) :=
  customer ← resolve_customer_id_for_get raw_customer_id r;
  limit ← parse_limit raw_limit;
  list_page p funding_key funding_cursor_key decode_history_cursor (funding_rows d customer cutoff) limit raw_cursor.

(** *** Published statements ([GET /statements]) *)

Definition statement_key (s : PublishedSnapshot) : desc (date * instant * uuid) :=
  Desc (snapshot_period_start s, snapshot_publish_watermark s, snapshot_id s).
Definition statement_cursor_key (s : PublishedSnapshot) : list json :=
  [JStr (date_iso (snapshot_period_start s)); JStr (datetime_iso (snapshot_publish_watermark s)); JStr (uuid_str (snapshot_id s))].

Definition statements_of_customer (d : db) (customer : uuid) : list PublishedSnapshot :=
  filter (λ s, snapshot_customer_id s = customer) (published_snapshots d).

Definition list_statements (r : HttpRequest) (raw_customer_id raw_limit raw_cursor : option string) (d : db)
    : result (Page PublishedSnapshot) :=
  customer ← customer_of r raw_customer_id;
  limit ← parse_limit raw_limit;
  list_page p statement_key statement_cursor_key decode_history_cursor (statements_of_customer d customer) limit raw_cursor.
End Listings.

(** ** Lemmas: keys *)

Section Keys.
Context (p : CursorPackages) `{!CursorPackagesLaw p}.
Context (other_date : string → result date) (other_datetime : string → result instant).

Definition is_uuid (u : uuid) : Prop := 0 <= u < 2 ^ 128.
Definition is_date (n : date) : Prop := MIN_ORDINAL <= n <= MAX_ORDINAL.

Lemma short_uuid u : short_text 36 (uuid_str u).
Proof.
  assert (Hhex : ∀ n z, short_text n (hex n z)).
  { intros n z. split; [|by rewrite hex_length]. revert z. unfold ascii_text. induction n as [|n IH]; intros z; [done|].
    rewrite hex_S, forallb_app, IH. cbn [forallb]. rewrite andb_true_r. pose proof (Z.mod_pos_bound z 16 ltac:(lia)) as Hm.
    assert (Hall : forallb (λ d, code (hex_digit d) <? 128) (seqZ 0 16) = true) by (vm_compute; reflexivity).
    rewrite forallb_forall in Hall. apply Hall, list_elem_of_In, elem_of_seqZ. lia. }
  unfold uuid_str. repeat first [apply Hhex | done | match goal with |- short_text ?n (?a +:+ ?b) =>
    match a with hex ?k _ => apply (short_app k (n - k)) | _ => apply (short_app 1 (n - 1)) end end].
Qed.

Lemma dump_short n s : short_text n s → (length (dump_scalar (JStr s)) <= 6 * n + 2)%nat.
Proof.
  intros [_ Hl]. cbn [dump_scalar]. unfold dump_string. cbn [length]. rewrite length_app. cbn [length].
  assert (Hc : ∀ c, (length (dump_char c) <= 6)%nat) by (intros c; destruct c as [[] [] [] [] [] [] [] []]; vm_compute; lia).
  enough (length (concat (dump_char <$> chars s)) <= 6 * length (chars s))%nat by lia.
  generalize (chars s) as l. induction l as [|c l IH]; [done|]. rewrite fmap_cons. cbn [concat length]. rewrite length_app. specialize (Hc c). lia.
Qed.

Lemma encodable2 a b : short_text 40 a → short_text 40 b → encodable [JStr a; JStr b].
Proof.
  intros Ha Hb. pose proof (dump_short 40 a Ha). pose proof (dump_short 40 b Hb). destruct Ha as [Ha _], Hb as [Hb _].
  split_and!; [done|cbn; by rewrite Ha, Hb|]. unfold dump_list, MAX_PAYLOAD. cbn [fmap list_fmap Cursors.join length].
  rewrite length_app. cbn [length]. rewrite length_app. cbn [length]. lia.
Qed.

Lemma encodable3 a b c : short_text 40 a → short_text 40 b → short_text 40 c → encodable [JStr a; JStr b; JStr c].
Proof.
  intros Ha Hb Hc. pose proof (dump_short 40 a Ha). pose proof (dump_short 40 b Hb). pose proof (dump_short 40 c Hc).
  destruct Ha as [Ha _], Hb as [Hb _], Hc as [Hc _].
  split_and!; [done|cbn; by rewrite Ha, Hb, Hc|]. unfold dump_list, MAX_PAYLOAD. cbn [fmap list_fmap Cursors.join length].
  rewrite length_app. cbn [length]. rewrite length_app. cbn [length]. rewrite length_app. cbn [length]. lia.
Qed.

Lemma short_weaken n m s : short_text n s → (n <= m)%nat → short_text m s.
Proof. intros [? ?] ?. split; [done|lia]. Qed.

(** A cursor made of two or three printed components reads back. *)
Lemma names_key2 {A X Y} (cursor_key : A → list json) (f : string → result X) (g : string → result Y) (x : A) a b k1 k2 :
  cursor_key x = [JStr a; JStr b] → short_text 40 a → short_text 40 b → f a = Ok k1 → g b = Ok k2 →
  ∃ cursor, encode_cursor p (cursor_key x) = Ok cursor ∧ cursor ≠ ""%string ∧ decode_key2 p f g cursor = Ok (k1, k2).
Proof using CursorPackagesLaw0.
  intros Hx Ha Hb Hf Hg. rewrite Hx. destruct (decode_encode p [JStr a; JStr b]) as (c & He & Hc & Hd); [by apply encodable2|].
  exists c. split_and!; [done..|]. unfold decode_key2. rewrite Hd. cbn [mbind result_bind]. by rewrite Hf, Hg.
Qed.

Lemma names_key3 {A X Y Z} (cursor_key : A → list json) (f : string → result X) (g : string → result Y) (h : string → result Z)
    (x : A) a b c k1 k2 k3 :
  cursor_key x = [JStr a; JStr b; JStr c] → short_text 40 a → short_text 40 b → short_text 40 c →
  f a = Ok k1 → g b = Ok k2 → h c = Ok k3 →
  ∃ cursor, encode_cursor p (cursor_key x) = Ok cursor ∧ cursor ≠ ""%string ∧ decode_key3 p f g h cursor = Ok (k1, k2, k3).
Proof using CursorPackagesLaw0.
  intros Hx Ha Hb Hc Hf Hg Hh. rewrite Hx. destruct (decode_encode p [JStr a; JStr b; JStr c]) as (cur & He & Hne & Hd); [by apply encodable3|].
  exists cur. split_and!; [done..|]. unfold decode_key3. rewrite Hd. cbn [mbind result_bind]. by rewrite Hf, Hg, Hh.
Qed.

Lemma names_instant_uuid {A} (key : A → instant * uuid) (cursor_key : A → list json) x t u :
  cursor_key x = [JStr (datetime_iso t); JStr (uuid_str u)] → key x = (t, u) → is_datetime t = true → is_uuid u →
  names_key p key cursor_key (decode_key2 p (fromiso_datetime other_datetime) parse_uuid) x.
Proof using CursorPackagesLaw0.
  intros Hx Hk Ht Hu. unfold names_key. rewrite Hk. eapply names_key2; [exact Hx| | | |].
  - eapply short_weaken; [by apply short_datetime_iso|lia].
  - eapply short_weaken; [apply short_uuid|lia].
  - by apply datetime_iso_read.
  - by apply parse_uuid_printed.
Qed.

Lemma names_date_instant_uuid {A} (cursor_key : A → list json) x n t u :
  cursor_key x = [JStr (date_iso n); JStr (datetime_iso t); JStr (uuid_str u)] → is_date n → is_datetime t = true → is_uuid u →
  ∃ cursor, encode_cursor p (cursor_key x) = Ok cursor ∧ cursor ≠ ""%string ∧
    decode_key3 p (fromiso_date other_date) (fromiso_datetime other_datetime) parse_uuid cursor = Ok (n, t, u).
Proof using CursorPackagesLaw0.
  intros Hx Hn Ht Hu. eapply names_key3; [exact Hx| | | | | |].
  - eapply short_weaken; [by apply short_date_iso|lia].
  - eapply short_weaken; [by apply short_datetime_iso|lia].
  - eapply short_weaken; [apply short_uuid|lia].
  - by apply date_iso_read.
  - by apply datetime_iso_read.
  - by apply parse_uuid_printed.
Qed.
End Keys.

(** Distinct identifiers make distinct keys. *)
Lemma NoDup_finer {A B C} (f : A → B) (g : A → C) l : (∀ x y, g x = g y → f x = f y) → NoDup (f <$> l) → NoDup (g <$> l).
Proof.
  intros Hfg. induction l as [|x l IH]; rewrite ?fmap_nil, ?fmap_cons; [constructor|].
  intros [Hx Hl]%NoDup_cons. constructor; [|by apply IH].
  intros (y & Hy & Hin)%list_elem_of_fmap. apply Hx, list_elem_of_fmap. exists y. split; [by apply Hfg|done].
Qed.

Lemma NoDup_filter_key {A B} (f : A → B) (P : A → Prop) `{∀ x, Decision (P x)} l : NoDup (f <$> l) → NoDup (f <$> filter P l).
Proof. intros Hnd. eapply sublist_NoDup; [exact Hnd|apply fmap_sublist, sublist_filter]. Qed.

Lemma integrity_NoDup t (key : row t → uuid) d :
  (∀ a b, key a = key b → conflicts t a b = true) → integrity d → NoDup (key <$> tables d t).
Proof.
  intros Hkey Hd. destruct (Hd t) as [_ Hc]. revert Hc. generalize (tables d t) as l.
  induction l as [|x l IH]; [constructor|]. cbn. intros [Hx Hl]%andb_true_iff. constructor; [|by apply IH].
  intros (y & E & Hin)%list_elem_of_fmap. rewrite forallb_forall in Hx.
  specialize (Hx y (proj1 (list_elem_of_In _ _) Hin)). rewrite Hkey in Hx; [done|exact E].
Qed.

Lemma walk_ext {A} fuel (get get' : option string → result (Page A)) cursor :
  (∀ c, get c = get' c) → walk fuel get cursor = walk fuel get' cursor.
Proof.
  intros Hg. revert cursor. induction fuel as [|fuel IH]; intros cursor; [done|]. cbn [walk]. rewrite Hg.
  destruct (get' cursor) as [page|e]; [|done]. cbn. destruct (next_cursor page) as [c|]; [|done]. by rewrite IH.
Qed.

(** ** The walks *)

Definition request_ok (a : AgentActionRequest) : Prop := is_datetime (action_created_at a) = true ∧ is_uuid (action_id a).

(** The adviser's queue is listed completely: whatever the page size, a
    client that follows [next_cursor] through [GET /admin/agent-requests]
    receives after finitely many pages exactly the requests with the status it
    asked for, each once, the oldest first and ties by identifier, and no page
    is longer than the limit. *)
Theorem request_queue_walk (p : CursorPackages) `{!CursorPackagesLaw p} (other_datetime : string → result instant)
    (r : HttpRequest) (u : Caller) (raw_status raw_limit : option string) (status : AgentActionStatus) (limit : Z) (d : db) :
  integrity d → Forall request_ok (agent_action_requests d) →
  req_caller r = Some u → caller_role u ∈ STAFF_ROLES →
  agent_status_of raw_status = Ok status → request_limit raw_limit = Ok limit →
  ∃ pages,
    walk (S (length (agent_action_requests d))) (λ cursor, list_requests p other_datetime r raw_status raw_limit cursor d) None = Ok pages ∧
    concat pages = sort_by (row_le request_key) (requests_with_status d status) ∧
    Forall (λ page, Z.of_nat (length page) <= limit) pages.
Proof.
  intros Hd Hrows Hu Hrole Hst Hlim.
  assert (Hl : 1 <= limit <= MAX_PAGE_SIZE).
  { unfold request_limit in Hlim. destruct raw_limit as [raw|]; [destruct (int10 raw); [|done]|]; by apply normalize_limit_Ok in Hlim. }
  assert (Hget : ∀ c, list_requests p other_datetime r raw_status raw_limit c d =
    list_page p request_key request_cursor_key (decode_request_cursor p other_datetime) (requests_with_status d status) limit c).
  { intros c. unfold list_requests, requires_role. rewrite Hu, bool_decide_true by done. cbn [mbind result_bind]. rewrite Hst, Hlim. done. }
  rewrite (walk_ext _ _ _ None Hget). apply walk_all; [lia| | |].
  - apply NoDup_filter_key. apply (NoDup_finer action_id); [by intros x y [= _ ->]|].
    apply (integrity_NoDup TAgentAction action_id); [|done]. intros a b E. cbn. by rewrite E, Z.eqb_refl.
  - apply Forall_forall. intros a [_ Ha]%list_elem_of_filter. rewrite Forall_forall in Hrows. destruct (Hrows a Ha).
    by apply (names_instant_uuid p other_datetime request_key request_cursor_key a (action_created_at a) (action_id a)).
  - unfold requests_with_status. pose proof (length_filter (λ a, action_status a = status) (agent_action_requests d)). lia.
Qed.

(** *** A customer's own listings *)

Definition order_row_ok (o : Order) : Prop := is_datetime (order_created_at o) = true ∧ is_uuid (order_id o).
Definition statement_ok (s : PublishedSnapshot) : Prop :=
  is_date (snapshot_period_start s) ∧ is_datetime (snapshot_publish_watermark s) = true ∧ is_uuid (snapshot_id s).
Definition entry_ok (e : JournalEntry) : Prop := is_date (entry_effective_date e) ∧ is_datetime (entry_recorded_at e) = true.

(** What the columns' types guarantee. *)
Definition printable (d : db) : Prop :=
  Forall order_row_ok (orders d) ∧ Forall statement_ok (published_snapshots d) ∧
  Forall entry_ok (journal_entries d) ∧ Forall (λ x, is_uuid (posting_id x)) (postings d).

Lemma same_id_one {A} (id : A → uuid) k l : NoDup (id <$> l) → (∀ x, x ∈ l → id x = k) → (length l <= 1)%nat.
Proof.
  intros Hnd Hk. destruct l as [|a [|b l]]; cbn; [lia|lia|exfalso]. rewrite !fmap_cons, NoDup_cons, elem_of_cons in Hnd.
  apply (proj1 Hnd). left. rewrite !Hk by set_solver. done.
Qed.

(** Each posting stands in at most one row of the join. *)
Lemma history_rows_postings d c cutoff : integrity d → (history_rows d c cutoff).*2 `sublist_of` postings d.
Proof.
  intros Hd. unfold history_rows.
  transitivity (filter (λ x, posting_customer_id x = Some c) (postings d)); [|apply sublist_filter].
  induction (filter (λ x, posting_customer_id x = Some c) (postings d)) as [|x l IH]; [constructor|].
  cbn [mbind list_bind]. rewrite fmap_app.
  set (es := filter _ (journal_entries d)).
  assert (Hone : (length es <= 1)%nat).
  { apply (same_id_one entry_id (posting_journal_entry_id x)); [|by intros e [[? _] _]%list_elem_of_filter].
    apply NoDup_filter_key, (integrity_NoDup TJournalEntry entry_id); [|done]. intros a b E. cbn. by rewrite E, Z.eqb_refl. }
  destruct es as [|e [|e' es]]; [|by apply sublist_skip|cbn in Hone; lia]. by apply sublist_cons.
Qed.

Definition all_history (d : db) (customer : uuid) (cutoff : instant) : list HistoryEntry :=
  (λ ex, history_entry ex.1 ex.2) <$> history_rows d customer cutoff.

Lemma history_keys d c cutoff : integrity d → NoDup (history_key <$> all_history d c cutoff).
Proof.
  intros Hd. apply (NoDup_finer history_posting_id); [by intros x y [= _ _ ->]|]. unfold all_history.
  rewrite <- list_fmap_compose. eapply sublist_NoDup.
  - apply (integrity_NoDup TPosting posting_id d); [|done]. intros a b E. cbn. by rewrite E, Z.eqb_refl.
  - assert (E : (history_posting_id ∘ (λ ex, history_entry ex.1 ex.2)) <$> history_rows d c cutoff = posting_id <$> (history_rows d c cutoff).*2)
      by (by rewrite <- list_fmap_compose).
    rewrite E. by apply fmap_sublist, history_rows_postings.
Qed.

(** A customer's listings are complete and theirs alone: whoever asks for a
    customer's orders, published statements or ledger history and follows
    [next_cursor] receives, after finitely many pages no longer than the limit,
    exactly that customer's rows, each once, the newest first.  For the history
    the rows are the customer's postings recorded up to the watermark, joined
    with their entries. *)
Theorem customer_listings_walk (p : CursorPackages) `{!CursorPackagesLaw p} (other_date : string → result date)
    (other_datetime : string → result instant) (r : HttpRequest) (raw_customer_id raw_limit : option string)
    (customer : uuid) (limit : Z) (cutoff : instant) (d : db) :
  integrity d → printable d → customer_of r raw_customer_id = Ok customer → parse_limit raw_limit = Ok limit →
  (∃ pages,
    walk (S (length (orders d))) (λ cursor, list_orders p other_datetime r raw_customer_id raw_limit cursor d) None = Ok pages ∧
    concat pages = sort_by (row_le order_sort_key) (orders_of_customer d customer) ∧
    Forall (λ page, Z.of_nat (length page) <= limit) pages) ∧
  (∃ pages,
    walk (S (length (published_snapshots d)))
      (λ cursor, list_statements p other_date other_datetime r raw_customer_id raw_limit cursor d) None = Ok pages ∧
    concat pages = sort_by (row_le statement_key) (statements_of_customer d customer) ∧
    Forall (λ page, Z.of_nat (length page) <= limit) pages) ∧
  (∃ pages,
    walk (S (length (postings d)))
      (λ cursor, history p other_date other_datetime cutoff r raw_customer_id raw_limit cursor d) None = Ok pages ∧
    concat pages = sort_by (row_le history_key) (all_history d customer cutoff) ∧
    Forall (λ page, Z.of_nat (length page) <= limit) pages).
Proof.
  intros Hd (Ho & Hs & He & Hp) Hc Hlim.
  assert (Hl : 1 <= limit <= MAX_PAGE_SIZE).
  { unfold parse_limit in Hlim. apply bind_Ok in Hlim as (n & _ & Hlim). by apply normalize_limit_Ok in Hlim. }
  split_and!.
  - rewrite (walk_ext _ _ (list_page p order_sort_key order_cursor_key (decode_order_cursor p other_datetime) (orders_of_customer d customer) limit))
      by (intros cur; unfold list_orders; rewrite Hc, Hlim; done).
    apply walk_all; [lia| | |].
    + apply NoDup_filter_key. apply (NoDup_finer order_id); [by intros x y [= _ ->]|].
      apply (integrity_NoDup TOrder order_id); [|done]. intros a b E. cbn. by rewrite E, Z.eqb_refl.
    + apply Forall_forall. intros o [_ Hin]%list_elem_of_filter. rewrite Forall_forall in Ho. destruct (Ho o Hin) as [Ht Hu].
      destruct (names_instant_uuid p other_datetime (λ o, (order_created_at o, order_id o)) order_cursor_key o (order_created_at o) (order_id o))
        as (cur & Henc & Hne & Hdec); [done..|].
      exists cur. split_and!; [done..|]. unfold decode_order_cursor. by rewrite Hdec.
    + pose proof (length_filter (λ o, order_customer_id o = customer) (orders d)). unfold orders_of_customer. lia.
  - rewrite (walk_ext _ _ (list_page p statement_key statement_cursor_key (decode_history_cursor p other_date other_datetime)
                             (statements_of_customer d customer) limit)) by (intros cur; unfold list_statements; rewrite Hc, Hlim; done).
    apply walk_all; [lia| | |].
    + apply NoDup_filter_key. apply (NoDup_finer snapshot_id); [by intros x y [= _ _ ->]|].
      apply (integrity_NoDup TPublishedSnapshot snapshot_id); [|done]. intros a b E. cbn. by rewrite E, Z.eqb_refl.
    + apply Forall_forall. intros s [_ Hin]%list_elem_of_filter. rewrite Forall_forall in Hs. destruct (Hs s Hin) as (Hn & Ht & Hu).
      destruct (names_date_instant_uuid p other_date other_datetime statement_cursor_key s (snapshot_period_start s) (snapshot_publish_watermark s) (snapshot_id s))
        as (cur & Henc & Hne & Hdec); [done..|].
      exists cur. split_and!; [done..|]. unfold decode_history_cursor. by rewrite Hdec.
    + pose proof (length_filter (λ s, snapshot_customer_id s = customer) (published_snapshots d)). unfold statements_of_customer. lia.
  - rewrite (walk_ext _ _ (list_page p history_key history_cursor_key (decode_history_cursor p other_date other_datetime)
                             (all_history d customer cutoff) limit)) by (intros cur; unfold history; rewrite Hc, Hlim; done).
    apply walk_all; [lia| | |].
    + by apply history_keys.
    + apply Forall_forall. intros h ([e x] & -> & Hin)%list_elem_of_fmap. cbn [fst snd].
      unfold history_rows in Hin. apply list_elem_of_bind in Hin as (y & Hin & Hy%list_elem_of_filter).
      apply list_elem_of_bind in Hin as (z & Hz & [_ Hej]%list_elem_of_filter). apply list_elem_of_singleton in Hz as [= -> ->].
      rewrite Forall_forall in He. destruct (He z Hej) as [Hn Ht]. pose proof (proj1 (Forall_forall _ _) Hp y (proj2 Hy)) as Hu. cbn in Hu.
      destruct (names_date_instant_uuid p other_date other_datetime history_cursor_key (history_entry z y)
                  (entry_effective_date z) (entry_recorded_at z) (posting_id y)) as (cur & Henc & Hne & Hdec); [done..|].
      exists cur. split_and!; [done..|]. unfold decode_history_cursor. by rewrite Hdec.
    + unfold all_history. rewrite length_fmap, <- (length_fmap snd).
      pose proof (sublist_length _ _ (history_rows_postings d customer cutoff Hd)). lia.
Qed.

(** ** Witnesses: two pages of a listing *)

Definition sample_action (id : uuid) (at_ : instant) : AgentActionRequest :=
  {| action_id := id; action_action := KYC_OVERRIDE; action_arguments := []; action_requesting_agent := "agent";
     action_justification := "drift"; action_status := ACTION_PENDING; action_reviewed_by := None; action_reviewed_at := None;
     action_review_note := None; action_execution_error := None; action_executed_at := None; action_created_at := at_ |}.

Definition sample_queue : db :=
  set_table (H := trueup) TAgentAction [sample_action 3 1700000000000000; sample_action 2 1700000000000000; sample_action 1 1700000001500000] (empty_db 0).

Definition staff_request : HttpRequest :=
  {| req_caller := Some {| caller_id := 8; caller_role := "adviser"; caller_user_id := None |};
     req_json := JNull; req_digest := ""; req_form_customer_id := None |}.

Definition sample_listing (cursor : option string) : result (Page AgentActionRequest) :=
  list_requests zero_packages (λ _, Raise ValueError) staff_request None (Some "2"%string) cursor sample_queue.

Lemma sample_listing_pages :
  match walk 4 sample_listing None with Ok pages => map (map action_id) pages | Raise _ => [] end = [[2; 3]; [1]].
Proof. vm_compute. reflexivity. Qed.

Lemma sample_queue_sound : integrity (H := trueup) sample_queue.
Proof. apply integrity_check. intros t. destruct t; vm_compute; reflexivity. Qed.

Lemma request_queue_walk_witness :
  ∃ pages, walk 4 sample_listing None = Ok pages ∧
    concat pages = sort_by (row_le request_key) (requests_with_status sample_queue ACTION_PENDING) ∧
    Forall (λ page, Z.of_nat (length page) <= 2) pages.
Proof.
  apply (request_queue_walk zero_packages (λ _, Raise ValueError) staff_request
           {| caller_id := 8; caller_role := "adviser"; caller_user_id := None |} None (Some "2"%string) ACTION_PENDING 2 sample_queue).
  - apply sample_queue_sound.
  - repeat (constructor; [split; [vm_compute; reflexivity|unfold is_uuid; cbn; lia]|]). constructor.
  - reflexivity.
  - unfold STAFF_ROLES. set_solver.
  - vm_compute. reflexivity.
  - vm_compute. reflexivity.
Defined.

Definition sample_statement (id : uuid) (period : date) (at_ : instant) : PublishedSnapshot :=
  {| snapshot_id := id; snapshot_customer_id := 7; snapshot_period_start := period; snapshot_period_end := period + 30;
     snapshot_publish_watermark := at_; snapshot_twr := 0; snapshot_balance := QD 0; snapshot_holdings_json := [];
     snapshot_published_at := at_ |}.

Definition sample_statements : db :=
  set_table (H := trueup) TPublishedSnapshot
    [sample_statement 1 738000 1700000000000000; sample_statement 2 738031 1700000000000000; sample_statement 3 738031 1700000009000000] (empty_db 0).

Lemma customer_listings_walk_witness :
  ∃ pages,
    walk 4 (λ cursor, list_statements zero_packages (λ _, Raise ValueError) (λ _, Raise ValueError) staff_request
                        (Some (uuid_str 7)) (Some "2"%string) cursor sample_statements) None = Ok pages ∧
    concat pages = [sample_statement 3 738031 1700000009000000; sample_statement 2 738031 1700000000000000; sample_statement 1 738000 1700000000000000].
Proof.
  assert (Hd : integrity (H := trueup) sample_statements) by (apply integrity_check; intros t; destruct t; vm_compute; reflexivity).
  assert (Hp : printable sample_statements).
  { split_and!; try constructor.
    - split_and!; [unfold is_date; vm_compute; intuition discriminate|vm_compute; reflexivity|unfold is_uuid; cbn; lia].
    - repeat (constructor; [split_and!; [unfold is_date; vm_compute; intuition discriminate|vm_compute; reflexivity|unfold is_uuid; cbn; lia]|]). constructor. }
  destruct (customer_listings_walk zero_packages (λ _, Raise ValueError) (λ _, Raise ValueError) staff_request (Some (uuid_str 7))
              (Some "2"%string) 7 2 0 sample_statements Hd Hp eq_refl eq_refl) as (_ & (pages & Hw & Hc & _) & _).
  exists pages. split; [exact Hw|]. rewrite Hc. vm_compute. reflexivity.
Defined.
