(* ===== verification/Reports.v ===== *)
(** * Published statements and the reports built on the services
    ([controllers/api/statements.py], [valuation.py], [portfolios.py], [admin/customers.py], [admin/rebalance.py])

    The statement a customer asks for by period and watermark, the tax export of
    its realized lots as the CSV text the standard library writes, the balance,
    the returns, the performance chart with the month arithmetic of its range,
    and the pages of a customer the staff see. *)

From S2P Require Import Prelude PyDecimal MoneyTypes Dates Calendar Store Schema Uuids Cursors Iso Ledger CashPolicy Funding Valuation Restatement Lots Operations Fees FeeCharges Reconciliation Rebalance Access FundingRoutes OrderRoutes Pagination Listings.
From Stdlib Require Import String Ascii.
From stdpp Require Import strings.
Open Scope Z_scope.

(** ** [csv.writer] in its default dialect *)

Definition CSV_QUOTE : ascii := "034"%char.
Definition CR : ascii := "013"%char.
Definition LF : ascii := "010"%char.
Definition COMMA : ascii := ",".

(** The characters that make the writer quote a field. *)
Definition csv_special (c : ascii) : bool :=
  Ascii.eqb c COMMA || Ascii.eqb c CSV_QUOTE || Ascii.eqb c CR || Ascii.eqb c LF.

Definition csv_escape (c : ascii) : list ascii := if Ascii.eqb c CSV_QUOTE then [CSV_QUOTE; CSV_QUOTE] else [c].

Definition csv_field (s : string) : list ascii :=
  if existsb csv_special (chars s) then [CSV_QUOTE] ++ (chars s ≫= csv_escape) ++ [CSV_QUOTE] else chars s.

Fixpoint csv_fields (fields : list string) : list ascii :=
  match fields with
  | [] => []
  | [s] => csv_field s
  | s :: fields => csv_field s ++ COMMA :: csv_fields fields
  end.

(** [writerow]: a lone empty field is quoted, or the line would read as no
    field at all. *)
Definition csv_row (fields : list string) : list ascii :=
  (if bool_decide (fields = [""%string]) then [CSV_QUOTE; CSV_QUOTE] else csv_fields fields) ++ [CR; LF].

Definition csv_rows (rows : list (list string)) : list ascii := rows ≫= csv_row.

(** ** Reading a statement *)

(** [PublishedSnapshotRepository.at_watermark_for_period] *)
Definition at_watermark_for_period (d : db) (customer : uuid) (period_start : date) (watermark : instant)
    : option PublishedSnapshot :=
  head (filter (λ s, snapshot_customer_id s = customer ∧ snapshot_period_start s = period_start ∧
                     snapshot_publish_watermark s = watermark) (published_snapshots d)).

Definition statement_snapshot (d : db) (customer : uuid) (period_start : date) (watermark : option instant)
    : option PublishedSnapshot :=
  match watermark with
  | Some w => at_watermark_for_period d customer period_start w
  | None => latest_for_period d customer period_start
  end.

(** What the two statement routes read of a request: whose statement, the
    period of the path, the watermark of the query. *)
Record StatementRequest := {
  asked_customer_id : option string;
  asked_period_start : string;
  asked_watermark : option string;
}.

Section Statements.
Context (other_date : string → result date) (other_datetime : string → result instant).

Definition statement_request (q : StatementRequest) (r : HttpRequest) : result (uuid * date * option instant) :=
  customer ← customer_of r (asked_customer_id q);
  period_start ← or_invalid (date_fromisoformat other_date (asked_period_start q));
  watermark ← match asked_watermark q with
              | None => Ok None
              | Some raw => if String.eqb raw "" then Ok None
                            else w ← or_invalid (datetime_fromisoformat other_datetime raw); Ok (Some w)
              end;
  Ok (customer, period_start, watermark).

(** [get_statement] *)
Definition get_statement (q : StatementRequest) (r : HttpRequest) (d : db) : result PublishedSnapshot :=
  '(customer, period_start, watermark) ← statement_request q r;
  match statement_snapshot d customer period_start watermark with
  | None => Raise NotFoundError
  | Some snapshot => Ok snapshot
  end.

(** ** The tax export *)

(** [LotConsumptionRepository.list_realized_in_period]: the join with the lots,
    oldest sale first. *)
Definition realized_in_period (d : db) (customer : uuid) (period_start period_end : date) : list LotConsumption :=
  sort_by (λ a b, consumption_sale_date a <=? consumption_sale_date b)
    (filter (λ c, period_start <= consumption_sale_date c ∧ consumption_sale_date c <= period_end ∧
                  lot_customer_id <$> head (filter (λ l, lot_id l = consumption_tax_lot_id c) (tax_lots d)) = Some customer)
       (lot_consumptions d)).

(** [{lot.id: lot for lot in list_by_ids(ids)}] *)
Definition lots_by_ids (d : db) (ids : list uuid) : list TaxLot := filter (λ l, lot_id l ∈ ids) (tax_lots d).
Definition lots_by_id (lots : list TaxLot) : gmap Z TaxLot := foldl (λ m l, <[lot_id l := l]> m) ∅ lots.

Definition EXPORT_CSV_HEADER : list string :=
  ["symbol"; "quantity_consumed"; "original_cost_basis"; "adjusted_basis"; "realized_gain_loss"; "is_provisional"].

(** [str(b).lower()] *)
Definition lower_bool (b : bool) : string := if b then "true" else "false".

Definition export_row (symbol : string) (lot : TaxLot) (c : LotConsumption) : list string :=
  [symbol; q_str (consumption_quantity_consumed c); q_str (lot_original_cost_basis lot);
   q_str (lot_adjusted_basis lot); q_str (consumption_realized_gain_loss c); lower_bool (consumption_is_provisional c)].

(** The loop: the symbols already looked up, and the rows written so far. *)
Definition export_step (d : db) (lots : gmap Z TaxLot) (acc : gmap Z string * list (list string)) (c : LotConsumption)
    : result (gmap Z string * list (list string)) :=
  let (symbols, rows) := acc in
  match lots !! consumption_tax_lot_id c with
  | None => Raise KeyError
  | Some lot =>
      let symbols := match symbols !! lot_security_id lot with
                     | Some _ => symbols
                     | None => <[lot_security_id lot := symbol_for d (lot_security_id lot)]> symbols
                     end in
      match symbols !! lot_security_id lot with
      | None => Raise KeyError
      | Some symbol => Ok (symbols, rows ++ [export_row symbol lot c])
      end
  end.

Definition export_rows (d : db) (consumptions : list LotConsumption) : result (list (list string)) :=
  '(_, rows) ← foldr_result (export_step d (lots_by_id (lots_by_ids d (consumption_tax_lot_id <$> consumptions))))
                 consumptions (∅, [EXPORT_CSV_HEADER]);
  Ok rows.

(** [export_statement]: the file's name and its text. *)
Definition export_statement (q : StatementRequest) (r : HttpRequest) (d : db) : result (string * list ascii) :=
  '(customer, period_start, watermark) ← statement_request q r;
  match statement_snapshot d customer period_start watermark with
  | None => Raise (CodedError 404 "statement_not_published")
  | Some snapshot =>
      rows ← export_rows d (realized_in_period d customer (snapshot_period_start snapshot) (snapshot_period_end snapshot));
      Ok (("statement-" +:+ date_str period_start +:+ ".csv")%string, csv_rows rows)
  end.
End Statements.

(** ** Balance, returns and the performance chart *)

Section Live.
Context `{TradingCalendar} (utc_offset : instant → Z).

(** [GET /valuation/balance] *)
Definition get_balance (raw_customer_id : option string) (now : instant) (r : HttpRequest) (d : db) : result BookValuation :=
  customer ← customer_of r raw_customer_id;
  on ← market_date utc_offset (Aware now);
  value_book customer on d.

(** [GET /valuation/returns]: the query's two days, as the schema reads them. *)
Definition returns (period : option (date * date)) (raw_customer_id : option string) (r : HttpRequest) (d : db)
    : result TwrResult * db :=
  match (customer ← customer_of r raw_customer_id;
         days ← match period with Some p => Ok p | None => Raise ValidationError end;
         Ok (customer, days)) with
  | Raise e => (Raise e, d)
  | Ok (customer, (period_start, period_end)) => transact no_deferred (compute_twr customer period_start period_end) d
  end.

(** [_subtract_months] *)
Definition subtract_months (on : date) (months : Z) : result date :=
  let '(y, m, day) := ymd_of_date on in
  let month_index := m - 1 - months in
  let year := y + month_index / 12 in
  let month := month_index mod 12 + 1 in
  date_of_ymd year month (Z.min day (days_in_month (is_leap year) month)).

(** [_RANGE_MONTHS], [_range_start] *)
Definition range_months (range : string) : option Z :=
  if String.eqb range "1m" then Some 1
  else if String.eqb range "3m" then Some 3
  else if String.eqb range "6m" then Some 6
  else if String.eqb range "1y" then Some 12
  else None.

Definition range_start (range : string) (today : date) : result (option date) :=
  if String.eqb range "all" then Ok None
  else match range_months range with
       | None => Raise KeyError
       | Some months => start ← subtract_months today months; Ok (Some start)
       end.

(** [_PerformanceQuery]: an allowed label, one month when there is none. *)
Definition performance_range (raw : option string) : result string :=
  let range := default "1m"%string raw in
  if String.eqb range "all" || bool_decide (is_Some (range_months range)) then Ok range
  else Raise (CodedError 422 "invalid_range").

(** [GET /portfolios/performance] *)
Definition get_performance (raw_customer_id raw_range : option string) (now cutoff : instant) (r : HttpRequest) (d : db)
    : result (string * PortfolioPerformance) :=
  customer ← portfolio_customer raw_customer_id r;
  range ← performance_range raw_range;
  today ← market_date utc_offset (Aware now);
  start ← range_start range today;
  series ← performance customer start cutoff today d;
  Ok (range, series).

(** ** What the staff see of a customer ([admin/customers.py]) *)

Record CustomerPage := {
  page_customer : Customer;
  page_balance : BookValuation;
  page_open_breaks : list ReconciliationBreak;
}.

(** [get_customer] *)
Definition get_customer (id : uuid) (now : instant) (r : HttpRequest) (d : db) : result CustomerPage :=
  requires_role STAFF_ROLES r ;;
  match customer_by_id d id with
  | None => Raise NotFoundError
  | Some customer =>
      on ← market_date utc_offset (Aware now);
      book ← value_book id on d;
      Ok {| page_customer := customer; page_balance := book; page_open_breaks := list_open_for_customer id d |}
  end.

(** [get_rebalance_status] ([admin/rebalance.py]): each entry with its symbol,
    which cash has none of *)
Definition get_rebalance_status (drift_band_pct : dec) (id : uuid) (now : instant) (r : HttpRequest) (d : db)
    : result (DriftEvaluation * list (option string)) :=
  requires_role STAFF_ROLES r ;;
  on ← market_date utc_offset (Aware now);
  match evaluate drift_band_pct id on d with
  | Raise NoAssignedModelError => Raise NotFoundError
  | Raise e => Raise e
  | Ok evaluation => Ok (evaluation, (λ e, symbol_for d <$> drift_security_id e) <$> evaluation_entries evaluation)
  end.

(** [get_customer_fees] *)
Definition get_customer_fees (id : uuid) (today : date) (r : HttpRequest) (d : db) : result FeeSummary :=
  requires_role STAFF_ROLES r ;;
  match customer_by_id d id with
  | None => Raise NotFoundError
  | Some _ => FeeCharges.summarize today id d
  end.
End Live.

(** ** What the writer writes, a reader reads

    The reader is the specification of the format: a field is quoted or plain, a
    doubled quote inside quotes is a quote, a line ends with CR LF. *)

Inductive csv_state := FieldStart | InPlain | InQuoted | QuoteSeen | LineEnd.

Fixpoint csv_read (st : csv_state) (field : list ascii) (record : list string) (l : list ascii) : list (list string) :=
  let done_field := record ++ [string_of_list_ascii field] in
  match l with
  | [] => match st with LineEnd => [] | _ => [done_field] end
  | c :: l =>
      match st with
      | LineEnd => if Ascii.eqb c LF then csv_read LineEnd [] [] l
                   else if Ascii.eqb c CR then [] :: csv_read LineEnd [] [] l
                   else if Ascii.eqb c CSV_QUOTE then csv_read InQuoted [] [] l
                   else if Ascii.eqb c COMMA then csv_read FieldStart [] [""%string] l
                   else csv_read InPlain [c] [] l
      | FieldStart | InPlain =>
          if Ascii.eqb c COMMA then csv_read FieldStart [] done_field l
          else if Ascii.eqb c CR then done_field :: csv_read LineEnd [] [] l
          else if Ascii.eqb c CSV_QUOTE && match st with FieldStart => true | _ => false end then csv_read InQuoted [] record l
          else csv_read InPlain (field ++ [c]) record l
      | InQuoted => if Ascii.eqb c CSV_QUOTE then csv_read QuoteSeen field record l
                    else csv_read InQuoted (field ++ [c]) record l
      | QuoteSeen =>
          if Ascii.eqb c CSV_QUOTE then csv_read InQuoted (field ++ [c]) record l
          else if Ascii.eqb c COMMA then csv_read FieldStart [] done_field l
          else if Ascii.eqb c CR then done_field :: csv_read LineEnd [] [] l
          else csv_read InPlain (field ++ [c]) record l
      end
  end.

Lemma csv_special_false c : csv_special c = false →
  Ascii.eqb c COMMA = false ∧ Ascii.eqb c CSV_QUOTE = false ∧ Ascii.eqb c CR = false ∧ Ascii.eqb c LF = false.
Proof. unfold csv_special. rewrite !orb_false_iff. tauto. Qed.

Lemma read_plain cs field record rest : existsb csv_special cs = false →
  csv_read InPlain field record (cs ++ rest) = csv_read InPlain (field ++ cs) record rest.
Proof.
  revert field. induction cs as [|c cs IH]; intros field Hc; [by rewrite app_nil_r|].
  cbn [existsb] in Hc. apply orb_false_iff in Hc as [(E1 & E2 & E3 & E4)%csv_special_false Hcs].
  cbn [app csv_read]. rewrite E1, E2, E3. cbn [andb]. by rewrite IH, <- app_assoc.
Qed.

Lemma read_quoted cs field record rest :
  csv_read InQuoted field record ((cs ≫= csv_escape) ++ CSV_QUOTE :: rest) = csv_read QuoteSeen (field ++ cs) record rest.
Proof.
  revert field. induction cs as [|c cs IH]; intros field; [by rewrite app_nil_r|].
  change ((c :: cs) ≫= csv_escape) with (csv_escape c ++ (cs ≫= csv_escape)). unfold csv_escape at 1.
  destruct (Ascii.eqb_spec c CSV_QUOTE) as [->|Hc].
  - cbn [app csv_read]. change (Ascii.eqb CSV_QUOTE CSV_QUOTE) with true. cbv iota. by rewrite IH, <- app_assoc.
  - cbn [app csv_read]. apply Ascii.eqb_neq in Hc. rewrite Hc. by rewrite IH, <- app_assoc.
Qed.

(** What follows a field: the next one, or the end of the line. *)
Definition csv_close (c : ascii) (record : list string) (rest : list ascii) : list (list string) :=
  if Ascii.eqb c COMMA then csv_read FieldStart [] record rest else record :: csv_read LineEnd [] [] rest.

Lemma chars_back s : string_of_list_ascii (chars s) = s.
Proof. apply string_of_list_ascii_of_string. Qed.

Lemma read_field st record s c rest :
  st = FieldStart ∨ st = LineEnd ∧ record = [] ∧ (s = ""%string → c = COMMA) → c = COMMA ∨ c = CR →
  csv_read st [] record (csv_field s ++ c :: rest) = csv_close c (record ++ [s]) rest.
Proof.
  intros Hst Hc. unfold csv_field. destruct (existsb csv_special (chars s)) eqn:Es.
  - transitivity (csv_read InQuoted [] record ((chars s ≫= csv_escape) ++ CSV_QUOTE :: c :: rest)).
    { rewrite <- !app_assoc. cbn [app]. by destruct Hst as [->|(-> & -> & _)]. }
    rewrite read_quoted. cbn [app csv_read]. rewrite chars_back. by destruct Hc as [->| ->].
  - pose proof (chars_back s) as Hs. destruct (chars s) as [|x l].
    + cbn [app]. cbn in Hs. subst s. destruct Hst as [->|(-> & -> & Hne)].
      * by destruct Hc as [->| ->].
      * by rewrite (Hne eq_refl).
    + cbn [existsb] in Es. apply orb_false_iff in Es as [(E1 & E2 & E3 & E4)%csv_special_false El].
      transitivity (csv_read InPlain [x] record (l ++ c :: rest)).
      { cbn [app csv_read]. destruct Hst as [->|(-> & -> & _)]; by rewrite E1, E2, E3, ?E4. }
      rewrite read_plain by done. cbn [app csv_read]. rewrite Hs. by destruct Hc as [->| ->].
Qed.

Lemma read_fields s fields record rest :
  csv_read FieldStart [] record (csv_fields (s :: fields) ++ CR :: rest) = (record ++ s :: fields) :: csv_read LineEnd [] [] rest.
Proof.
  revert s record. induction fields as [|s' fields IH]; intros s record.
  - cbn [csv_fields]. rewrite read_field; [done|by left|by right].
  - change (csv_fields (s :: s' :: fields)) with (csv_field s ++ COMMA :: csv_fields (s' :: fields)).
    rewrite <- app_assoc. cbn [app]. rewrite read_field; [|by left|by left].
    change (csv_close COMMA (record ++ [s])) with (csv_read FieldStart [] (record ++ [s])). by rewrite IH, <- app_assoc.
Qed.

Lemma read_row fields rest : csv_read LineEnd [] [] (csv_row fields ++ rest) = fields :: csv_read LineEnd [] [] rest.
Proof.
  unfold csv_row. rewrite <- app_assoc. cbn [app]. case_bool_decide as Hf; [by rewrite Hf|].
  transitivity (fields :: csv_read LineEnd [] [] (LF :: rest)); [|done]. destruct fields as [|s [|s' fields]].
  - done.
  - cbn [csv_fields]. rewrite read_field; [done| |by right]. right. split_and!; [done|done|]. intros ->. done.
  - change (csv_fields (s :: s' :: fields)) with (csv_field s ++ COMMA :: csv_fields (s' :: fields)).
    rewrite <- app_assoc. cbn [app]. rewrite read_field; [|right; by split_and!|by left].
    change (csv_close COMMA ([] ++ [s])) with (csv_read FieldStart [] [s]). by rewrite read_fields.
Qed.

(** The text reads back as the rows, whatever the fields hold. *)
Lemma csv_roundtrip rows : csv_read LineEnd [] [] (csv_rows rows) = rows.
Proof.
  induction rows as [|row rows IH]; [done|]. change (csv_rows (row :: rows)) with (csv_row row ++ csv_rows rows).
  by rewrite read_row, IH.
Qed.

(** ** The export is the period's realized lots *)

Lemma lots_by_id_Some lots k l : lots_by_id lots !! k = Some l → l ∈ lots ∧ lot_id l = k.
Proof.
  unfold lots_by_id. induction lots as [|x lots IH] using rev_ind; [done|]. rewrite foldl_snoc.
  intros [[<- <-]|[_ [Hl Hk]%IH]]%lookup_insert_Some; (split; [|done]); set_solver.
Qed.

Lemma lots_by_id_is_Some lots l : l ∈ lots → is_Some (lots_by_id lots !! lot_id l).
Proof.
  unfold lots_by_id. induction lots as [|x lots IH] using rev_ind; [by intros ?%elem_of_nil|].
  rewrite foldl_snoc. intros [Hl| ->%list_elem_of_singleton]%elem_of_app; [|by rewrite lookup_insert_eq].
  destruct (decide (lot_id x = lot_id l)) as [->|Hn]; [by rewrite lookup_insert_eq|].
  rewrite lookup_insert_ne by done. by apply IH.
Qed.

(** The row a consumption should have. *)
Definition realized_row (d : db) (customer : uuid) (c : LotConsumption) (row : list string) : Prop :=
  ∃ lot, lot ∈ tax_lots d ∧ lot_id lot = consumption_tax_lot_id c ∧ lot_customer_id lot = customer ∧
         row = export_row (symbol_for d (lot_security_id lot)) lot c.

Lemma export_loop d customer lots l symbols rows :
  (∀ s x, symbols !! s = Some x → x = symbol_for d s) →
  (∀ c, c ∈ l → ∃ lot, lots !! consumption_tax_lot_id c = Some lot ∧ lot ∈ tax_lots d ∧
                        lot_id lot = consumption_tax_lot_id c ∧ lot_customer_id lot = customer) →
  ∃ symbols' new, foldr_result (export_step d lots) l (symbols, rows) = Ok (symbols', rows ++ new) ∧
    Forall2 (realized_row d customer) l new.
Proof.
  revert symbols rows. induction l as [|c l IH]; intros symbols rows Hs Hl.
  { exists symbols, []. rewrite app_nil_r. by split. }
  destruct (Hl c ltac:(by left)) as (lot & Hlot & Hin & Hid & Hc).
  set (symbol := symbol_for d (lot_security_id lot)).
  assert (∃ symbols', export_step d lots (symbols, rows) c = Ok (symbols', rows ++ [export_row symbol lot c]) ∧
            ∀ s x, symbols' !! s = Some x → x = symbol_for d s) as (symbols' & Hstep & Hs').
  { unfold export_step. rewrite Hlot. destruct (symbols !! lot_security_id lot) as [x|] eqn:E.
    - rewrite E. exists symbols. by rewrite (Hs _ _ E).
    - rewrite lookup_insert_eq. eexists. split; [done|].
      intros s x [[<- <-]|[_ Hx]]%lookup_insert_Some; [done|by apply Hs]. }
  cbn [foldr_result]. rewrite Hstep. cbn [mbind result_bind].
  destruct (IH symbols' (rows ++ [export_row symbol lot c]) Hs') as (symbols'' & new & -> & Hnew).
  { intros c' Hc'. apply Hl. by right. }
  exists symbols'', (export_row symbol lot c :: new). rewrite <- app_assoc. split; [done|].
  constructor; [by exists lot|done].
Qed.

Lemma tax_lot_found d lot : integrity d → lot ∈ tax_lots d → filter (λ l, lot_id l = lot_id lot) (tax_lots d) = [lot].
Proof.
  intros Hd Hl. refine (filter_unique (H := trueup) TTaxLot lot_id d lot _ Hd Hl).
  intros x y Hxy. cbn. by rewrite Hxy, Z.eqb_refl.
Qed.

Lemma elem_of_realized d customer s e c : integrity d →
  c ∈ realized_in_period d customer s e ↔
  c ∈ lot_consumptions d ∧ s <= consumption_sale_date c <= e ∧
  ∃ lot, lot ∈ tax_lots d ∧ lot_id lot = consumption_tax_lot_id c ∧ lot_customer_id lot = customer.
Proof.
  intros Hd. unfold realized_in_period. rewrite sort_by_perm, list_elem_of_filter. split.
  - intros [(H1 & H2 & H3) Hc]. split_and!; [done..|].
    destruct (head _) as [lot|] eqn:E; [|done]. injection H3 as H3. exists lot.
    assert (lot ∈ filter (λ l, lot_id l = consumption_tax_lot_id c) (tax_lots d)) as [Hid Hin]%list_elem_of_filter
      by (destruct (filter _ _); [done|injection E as ->; by left]). done.
  - intros (Hc & [H1 H2] & lot & Hin & Hid & Hcu). split_and!; [done..| |done].
    rewrite <- Hid, (tax_lot_found d lot Hd Hin). cbn. by rewrite Hcu.
Qed.

Lemma realized_found d customer s e c :
  integrity d → c ∈ realized_in_period d customer s e →
  let lots := lots_by_id (lots_by_ids d (consumption_tax_lot_id <$> realized_in_period d customer s e)) in
  ∃ lot, lots !! consumption_tax_lot_id c = Some lot ∧ lot ∈ tax_lots d ∧ lot_id lot = consumption_tax_lot_id c ∧
         lot_customer_id lot = customer.
Proof.
  intros Hd Hc lots. pose proof Hc as (_ & _ & lot & Hin & Hid & Hcu)%elem_of_realized; [|done].
  assert (Hl : lot ∈ lots_by_ids d (consumption_tax_lot_id <$> realized_in_period d customer s e)).
  { apply list_elem_of_filter. split; [|done]. rewrite Hid. by apply list_elem_of_fmap_2. }
  destruct (lots_by_id_is_Some _ _ Hl) as [lot' Hlot']. rewrite Hid in Hlot'. exists lot'.
  apply lots_by_id_Some in Hlot' as Hf. destruct Hf as [[_ Hin']%list_elem_of_filter Hid'].
  assert (lot' = lot) as ->; [|by split_and!].
  pose proof (tax_lot_found d lot Hd Hin) as Hone.
  assert (Hm : lot' ∈ filter (λ l, lot_id l = lot_id lot) (tax_lots d)) by (apply list_elem_of_filter; split; [congruence|done]).
  rewrite Hone in Hm. by apply list_elem_of_singleton in Hm.
Qed.

Lemma export_rows_Ok d customer s e : integrity d →
  ∃ rows, export_rows d (realized_in_period d customer s e) = Ok (EXPORT_CSV_HEADER :: rows) ∧
    Forall2 (realized_row d customer) (realized_in_period d customer s e) rows.
Proof.
  intros Hd. unfold export_rows.
  destruct (export_loop d customer (lots_by_id (lots_by_ids d (consumption_tax_lot_id <$> realized_in_period d customer s e)))
              (realized_in_period d customer s e) ∅ [EXPORT_CSV_HEADER]) as (symbols & new & -> & Hnew).
  - by intros s' x ?%lookup_empty_Some.
  - intros c Hc. by apply realized_found.
  - by exists new.
Qed.

Lemma statement_snapshot_Some d customer period_start watermark s :
  statement_snapshot d customer period_start watermark = Some s →
  s ∈ published_snapshots d ∧ snapshot_customer_id s = customer ∧ snapshot_period_start s = period_start ∧
  ∀ w, watermark = Some w → snapshot_publish_watermark s = w.
Proof.
  unfold statement_snapshot, at_watermark_for_period, latest_for_period. destruct watermark as [w|].
  - intros Hh. assert (s ∈ filter (λ s, snapshot_customer_id s = customer ∧ snapshot_period_start s = period_start ∧
      snapshot_publish_watermark s = w) (published_snapshots d)) as [(H1 & H2 & H3) H4]%list_elem_of_filter
      by (destruct (filter _ _); [done|injection Hh as ->; by left]). split_and!; [done..|]. by intros ? [= <-].
  - intros [[[H1 H2] H3]%list_elem_of_filter _]%max_by_Some. by split_and!.
Qed.

Lemma StronglySorted_mono {A} (R R' : A → A → Prop) l : (∀ a b, R a b → R' a b) → StronglySorted R l → StronglySorted R' l.
Proof. intros HR. induction 1 as [|x l Hl IH Hx]; constructor; [done|]. exact (Forall_impl _ _ _ Hx (HR x)). Qed.

(** C23. The tax export.  A period that was never published, or not under the
    watermark named, is refused with a 404 of its own.  Otherwise the file is
    CSV that any reader of the format turns back into the header and one row per
    lot consumption the customer realized in the period - all of them, each
    once, oldest sale first - with the lot's symbol and costs whatever
    characters the symbol holds; the dictionaries of lots and symbols never miss
    a key. *)
Theorem export_is_realized_lots other_date other_datetime q r d customer period_start watermark :
  integrity d → statement_request other_date other_datetime q r = Ok (customer, period_start, watermark) →
  match statement_snapshot d customer period_start watermark with
  | None => export_statement other_date other_datetime q r d = Raise (CodedError 404 "statement_not_published")
  | Some s => ∃ text consumptions rows,
      export_statement other_date other_datetime q r d = Ok (("statement-" +:+ date_str period_start +:+ ".csv")%string, text) ∧
      csv_read LineEnd [] [] text = EXPORT_CSV_HEADER :: rows ∧ Forall2 (realized_row d customer) consumptions rows ∧
      NoDup consumptions ∧ StronglySorted (λ a b, consumption_sale_date a <= consumption_sale_date b) consumptions ∧
      ∀ c, c ∈ consumptions ↔ c ∈ lot_consumptions d ∧
        snapshot_period_start s <= consumption_sale_date c <= snapshot_period_end s ∧
        ∃ lot, lot ∈ tax_lots d ∧ lot_id lot = consumption_tax_lot_id c ∧ lot_customer_id lot = customer
  end.
Proof.
  intros Hd Hq. unfold export_statement. rewrite Hq. cbn [mbind result_bind].
  destruct (statement_snapshot d customer period_start watermark) as [s|]; [|done].
  destruct (export_rows_Ok d customer (snapshot_period_start s) (snapshot_period_end s) Hd) as (rows & -> & Hrows).
  cbn [mbind result_bind]. eexists _, _, rows. split; [done|]. rewrite csv_roundtrip.
  split; [done|]. split; [exact Hrows|]. split_and!.
  - unfold realized_in_period. rewrite sort_by_perm. apply NoDup_filter, (NoDup_fmap_1 consumption_id).
    apply (integrity_NoDup TLotConsumption consumption_id d); [|done]. intros x y Hxy. cbn. by rewrite Hxy, Z.eqb_refl.
  - apply (StronglySorted_mono (le_of (λ a b, consumption_sale_date a <=? consumption_sale_date b)));
      [by intros a b ?%Z.leb_le|]. apply sort_by_sorted.
    + intros a b. rewrite !Z.leb_le. lia.
    + intros a b c. rewrite !Z.leb_le. lia.
  - intros c. by apply elem_of_realized.
Qed.

(** The figures do not depend on the watermark: two publications of a period
    export the same file, that of the lots as they are now. *)
Lemma export_ignores_watermark other_date other_datetime q q' r d customer period_start w w' s s' :
  statement_request other_date other_datetime q r = Ok (customer, period_start, Some w) →
  statement_request other_date other_datetime q' r = Ok (customer, period_start, Some w') →
  statement_snapshot d customer period_start (Some w) = Some s → statement_snapshot d customer period_start (Some w') = Some s' →
  snapshot_period_end s = snapshot_period_end s' →
  export_statement other_date other_datetime q r d = export_statement other_date other_datetime q' r d.
Proof.
  intros Hq Hq' Hs Hs' He. unfold export_statement. rewrite Hq, Hq'. cbn [mbind result_bind]. rewrite Hs, Hs', He.
  apply statement_snapshot_Some in Hs as (_ & _ & -> & _), Hs' as (_ & _ & -> & _). done.
Qed.

(** ** The range of the chart *)

Lemma days_before_year_next y : days_before_year (y + 1) = days_before_year y + 365 + Z.b2z (is_leap y).
Proof.
  unfold days_before_year, is_leap. replace (y + 1 - 1) with y by lia.
  destruct (Z.eqb_spec (y mod 4) 0), (Z.eqb_spec (y mod 100) 0), (Z.eqb_spec (y mod 400) 0); cbn [andb orb negb Z.b2z];
    Z.div_mod_to_equations; lia.
Qed.

Definition months_ok (leap : bool) : bool :=
  forallb (λ m, (1 <=? days_in_month leap m) &&
                (days_before_month leap m + days_in_month leap m <=? 365 + Z.b2z leap) &&
                forallb (λ m', (m' <? m) || (days_before_month leap m + days_in_month leap m <=? days_before_month leap m'))
                  (seqZ (m + 1) (12 - m))) (seqZ 1 12).

Lemma months_spec leap m : 1 <= m <= 12 →
  1 <= days_in_month leap m ∧ days_before_month leap m + days_in_month leap m <= 365 + Z.b2z leap ∧
  ∀ m', m < m' <= 12 → days_before_month leap m + days_in_month leap m <= days_before_month leap m'.
Proof.
  intros Hm. assert (Hok : months_ok leap = true) by (destruct leap; vm_compute; reflexivity).
  unfold months_ok in Hok. rewrite forallb_forall in Hok. specialize (Hok m ltac:(apply list_elem_of_In, elem_of_seqZ; lia)).
  rewrite !andb_true_iff, !Z.leb_le in Hok. destruct Hok as [[H1 H2] H3]. split_and!; [done..|]. intros m' Hm'.
  rewrite forallb_forall in H3. specialize (H3 m' ltac:(apply list_elem_of_In, elem_of_seqZ; lia)).
  apply orb_true_iff in H3 as [H3%Z.ltb_lt|H3%Z.leb_le]; lia.
Qed.

Lemma date_of_ymd_Ok y m d n : date_of_ymd y m d = Ok n →
  n = days_before_year y + days_before_month (is_leap y) m + d ∧ 1 <= m <= 12 ∧ 1 <= d <= days_in_month (is_leap y) m.
Proof. unfold date_of_ymd. destruct (_ && _) eqn:E; [|done]. intros [= <-]. zbool. lia. Qed.

(** The month arithmetic never leaves the calendar: from the second year on,
    a chart's range of at most twelve months starts on a day of its month,
    before the day asked about. *)
Lemma subtract_months_earlier on months :
  MIN_ORDINAL + 365 <= on <= MAX_ORDINAL → 1 <= months <= 12 → ∃ start, subtract_months on months = Ok start ∧ start < on.
Proof.
  intros Hon Hk. destruct (ymd_spec on) as (y & m & d & Hy & Hd & Hyb & Hm & _); [lia|].
  apply date_of_ymd_Ok in Hd as (Hn & _ & Hdm). unfold subtract_months. rewrite Hy. cbn zeta.
  assert (Hy2 : 2 <= y). { destruct (decide (y = 1)) as [->|]; [|lia]. pose proof (months_spec (is_leap 1) m Hm).
    change (is_leap 1) with false in *. change (days_before_year 1) with 0 in Hn. unfold MIN_ORDINAL in Hon. cbn [Z.b2z] in *. lia. }
  assert (∃ y' m', y + (m - 1 - months) / 12 = y' ∧ (m - 1 - months) mod 12 + 1 = m' ∧ 1 <= m' <= 12 ∧
            (y' = y ∧ m' < m ∨ y' = y - 1)) as (y' & m' & -> & -> & Hm' & Hc).
  { eexists _, _. split; [done|]. split; [done|]. Z.div_mod_to_equations. lia. }
  destruct (months_spec (is_leap y') m' Hm') as (H1 & H2 & H3).
  exists (days_before_year y' + days_before_month (is_leap y') m' + Z.min d (days_in_month (is_leap y') m')). split.
  - unfold date_of_ymd.
    repeat match goal with |- context [?a <=? ?b] => replace (a <=? b) with true by (symmetry; apply Z.leb_le; lia) end. done.
  - destruct Hc as [[-> Hlt]| ->].
    + specialize (H3 m ltac:(lia)). lia.
    + pose proof (days_before_year_next (y - 1)) as Hnext. replace (y - 1 + 1) with y in Hnext by lia.
      assert (0 <= days_before_month (is_leap y) m); [|lia].
      unfold days_before_month. assert (Hall : forallb (λ m, 0 <=? nth (Z.to_nat m) [0; 0; 31; 59; 90; 120; 151; 181; 212; 243; 273; 304; 334] 0) (seqZ 1 12) = true) by (vm_compute; reflexivity).
      rewrite forallb_forall in Hall. specialize (Hall m ltac:(apply list_elem_of_In, elem_of_seqZ; lia)).
      apply Z.leb_le in Hall. destruct (_ && _); cbn [Z.b2z]; lia.
Qed.

(** ** A statement with one sale *)

Definition sample_lot : TaxLot :=
  {| lot_id := 40; lot_customer_id := 7; lot_security_id := 9; lot_opening_fill_execution_id := "e1";
     lot_quantity_opened := QD 2000000; lot_quantity_remaining := QD 1000000; lot_original_cost_basis := QD 210000;
     lot_adjusted_basis := QD 210000; lot_acquired_at := 737900; lot_designation := UNSPECIFIED; lot_designation_window_closes_at := 0 |}.

Definition sample_sale : LotConsumption :=
  {| consumption_id := 50; consumption_closing_fill_execution_id := "e2"; consumption_tax_lot_id := 40;
     consumption_quantity_consumed := QD 1000000; consumption_realized_gain_loss := QD 15000;
     consumption_is_provisional := true; consumption_sale_date := 738010 |}.

(** The symbol holds a comma. *)
Definition sample_symbol : Security :=
  {| security_id := 9; security_symbol := "BRK,B"; security_name := "Berkshire"; security_asset_class := EQUITY;
     security_status := SECURITY_ACTIVE; security_created_at := 0 |}.

Definition sample_export : db :=
  set_table (H := trueup) TSecurity [sample_symbol]
    (set_table (H := trueup) TTaxLot [sample_lot] (set_table (H := trueup) TLotConsumption [sample_sale] sample_statements)).

Definition sample_ask : StatementRequest :=
  {| asked_customer_id := Some (uuid_str 7); asked_period_start := date_str 738000; asked_watermark := None |}.

Definition no_date (_ : string) : result Z := Raise ValueError.

Definition sample_row : list string := ["BRK,B"; "1.000000"; "21.0000"; "21.0000"; "1.5000"; "true"].

Lemma only_one {A} (x : A) l : NoDup l → x ∈ l → (∀ y, y ∈ l → y = x) → l = [x].
Proof.
  intros Hnd Hx Hall. destruct l as [|a [|b l]]; [by apply elem_of_nil in Hx|by rewrite (Hall a) by (by left)|].
  apply NoDup_cons in Hnd as [Hni _]. destruct Hni. rewrite (Hall a), (Hall b) by set_solver. by left.
Qed.

Lemma export_is_realized_lots_witness :
  ∃ text, export_statement no_date no_date sample_ask staff_request sample_export = Ok ("statement-2021-07-29.csv"%string, text) ∧
          csv_read LineEnd [] [] text = [EXPORT_CSV_HEADER; sample_row].
Proof.
  assert (Hd : integrity (H := trueup) sample_export) by (apply integrity_check; intros t; destruct t; vm_compute; reflexivity).
  pose proof (export_is_realized_lots no_date no_date sample_ask staff_request sample_export 7 738000 None Hd eq_refl) as Hx.
  assert (Hs : statement_snapshot sample_export 7 738000 None = Some (sample_statement 1 738000 1700000000000000)) by (vm_compute; reflexivity).
  rewrite Hs in Hx. destruct Hx as (text & cs & rows & He & Hr & Hrow & Hnd & _ & Hin). exists text.
  split; [rewrite He; vm_compute; reflexivity|]. rewrite Hr. f_equal.
  assert (Hcs : cs = [sample_sale]).
  { assert (Hall : ∀ c, c ∈ cs → c = sample_sale).
    { intros c Hc. apply Hin in Hc as (Hc & _). change (lot_consumptions sample_export) with [sample_sale] in Hc.
      apply list_elem_of_singleton in Hc. exact Hc. }
    assert (Hsale : sample_sale ∈ cs).
    { apply Hin. change (lot_consumptions sample_export) with [sample_sale]. change (tax_lots sample_export) with [sample_lot].
      refine (conj _ (conj _ _)); [by left|cbn; lia|]. exists sample_lot. refine (conj _ (conj eq_refl eq_refl)). by left. }
    exact (only_one _ _ Hnd Hsale Hall). }
  subst cs. apply Forall2_cons_inv_l in Hrow as (row & rest & (lot & Hl & _ & _ & ->) & ->%Forall2_nil_inv_l & ->).
  change (tax_lots sample_export) with [sample_lot] in Hl. apply list_elem_of_singleton in Hl as ->. vm_compute. reflexivity.
Defined.
