(* ===== verification/Webhooks.v ===== *)
(** * Provider webhooks ([controllers/webhooks])

    Each receiver checks and records the event through intake, in a transaction
    of its own, and only then applies its effect in another.  The schema of the
    body ([json.loads] and the validation), the signature check and the clock
    are parameters. *)

From S2P Require Import Prelude PyDecimal MoneyTypes Calendar Store Schema Uuids Ledger CashPolicy Funding Valuation Restatement Operations Intake Fees FeeCharges.
From Stdlib Require Import String.
From stdpp Require Import strings.
Open Scope Z_scope.

(** ** The receiver *)

(** [IncomingEvent]'s [Field(min_length=1, max_length=255)] *)
Definition check_envelope (event : IncomingEvent) : result IncomingEvent :=
  let n := Z.of_nat (String.length (incoming_source_event_id event)) in
  ensure ((1 <=? n) && (n <=? 255)) ValueError ;; Ok event.

Section Receiver.
Context {P : Type} (parse : string → option P) (verify : string → option string → bool)
        (event_of : P → IncomingEvent) (effect : P → db → result () * db).

Definition receive (raw_body : string) (signature : option string) (d : db) : result () * db :=
  match parse raw_body with
  | None => (Raise ValidationError, d)
  | Some parsed =>
      match check_envelope (event_of parsed) with
      | Raise e => (Raise e, d)
      | Ok event =>
          match intake verify event raw_body signature d with
          | (Raise e, d1) => (Raise e, d1)
          | (Ok INVALID_SIGNATURE, d1) => (Raise UnauthenticatedError, d1)
          | (Ok ACCEPTED_EVENT, d1) => effect parsed d1
          | (Ok DUPLICATE_EVENT, d1) => (Ok tt, d1)
          end
      end
  end.
End Receiver.

(** ** [POST /webhooks/plaid] *)

Record PlaidWebhookPayload := {
  plaid_webhook_type : string;
  plaid_webhook_code : string;
  plaid_item_id : option string;
  plaid_settlement_obligation_id : option uuid;
}.

Definition is_text (s : option string) : option string :=
  match s with Some s => if String.eqb s "" then None else Some s | None => None end.

(** [f"{parsed.webhook_code}:{parsed.item_id or parsed.settlement_obligation_id}"] *)
Definition plaid_dedupe_id (p : PlaidWebhookPayload) : string :=
  plaid_webhook_code p +:+ ":" +:+
  match is_text (plaid_item_id p) with
  | Some item => item
  | None => from_option uuid_str "None" (plaid_settlement_obligation_id p)
  end.

Definition plaid_event (p : PlaidWebhookPayload) : IncomingEvent :=
  {| incoming_source := PLAID; incoming_source_event_id := plaid_dedupe_id p;
     incoming_payload :=
       [("webhook_type", JStr (plaid_webhook_type p)); ("webhook_code", JStr (plaid_webhook_code p));
        ("item_id", from_option JStr JNull (plaid_item_id p));
        ("settlement_obligation_id", from_option (λ id, JStr (uuid_str id)) JNull (plaid_settlement_obligation_id p))] |}.

Definition is_link_not_found (e : exn) : bool := match e with BankLinkNotFoundError => true | _ => false end.
Definition is_obligation_not_found (e : exn) : bool :=
  match e with SettlementObligationNotFoundError => true | _ => false end.

(** [_apply_item_login_required]: [suppress], then the commit *)
Definition plaid_item_login_required (plaid_item_id : string) : prog () :=
  catching is_link_not_found (apply_item_login_required plaid_item_id) ;; mret tt.

(** [_apply_ach_return] *)
Definition plaid_ach_return (now : instant) (settlement_obligation_id : uuid) : prog () :=
  catching is_obligation_not_found (apply_ach_return now settlement_obligation_id) ;; mret tt.

(** [_apply_effect] *)
Definition plaid_effect (now : instant) (p : PlaidWebhookPayload) (d : db) : result () * db :=
  match is_text (plaid_item_id p) with
  | Some item =>
      if String.eqb (plaid_webhook_type p) "ITEM" && String.eqb (plaid_webhook_code p) "ERROR"
      then transact ledger_balance (plaid_item_login_required item) d
      else match plaid_settlement_obligation_id p with
           | Some id => if String.eqb (plaid_webhook_type p) "TRANSFER"
                        then transact ledger_balance (plaid_ach_return now id) d else (Ok tt, d)
           | None => (Ok tt, d)
           end
  | None =>
      match plaid_settlement_obligation_id p with
      | Some id => if String.eqb (plaid_webhook_type p) "TRANSFER"
                   then transact ledger_balance (plaid_ach_return now id) d else (Ok tt, d)
      | None => (Ok tt, d)
      end
  end.

(** [plaid_webhook] *)
Definition plaid_webhook (parse : string → option PlaidWebhookPayload) (verify : string → option string → bool)
    (now : instant) : string → option string → db → result () * db :=
  receive parse verify plaid_event (plaid_effect now).

(** ** [POST /webhooks/stripe_billing] and [POST /webhooks/stripe_identity] *)

(** The two payloads: the event, and the id and status of its object. *)
Record StripeWebhookPayload := {
  stripe_event_id : string;
  stripe_event_type : string;
  stripe_object_id : string;
  stripe_object_status : string;
}.

Definition stripe_event (p : StripeWebhookPayload) : IncomingEvent :=
  {| incoming_source := STRIPE; incoming_source_event_id := stripe_event_id p;
     incoming_payload :=
       [("id", JStr (stripe_event_id p)); ("type", JStr (stripe_event_type p));
        ("data", JObj [("object", JObj [("id", JStr (stripe_object_id p)); ("status", JStr (stripe_object_status p))])])] |}.

Definition PAYMENT_INTENT_EVENT_TYPES : list string :=
  ["payment_intent.succeeded"; "payment_intent.payment_failed"; "payment_intent.canceled"; "payment_intent.processing"].

Definition VERIFICATION_SESSION_EVENT_TYPES : list string :=
  ["identity.verification_session.verified"; "identity.verification_session.requires_input";
   "identity.verification_session.processing"; "identity.verification_session.canceled"].

(** [stripe_billing_webhook] *)
Definition billing_effect (now : instant) (p : StripeWebhookPayload) (d : db) : result () * db :=
  if bool_decide (stripe_event_type p ∈ PAYMENT_INTENT_EVENT_TYPES)
  then transact ledger_balance (apply_verdict now (stripe_object_id p) (stripe_object_status p)) d
  else (Ok tt, d).

Definition stripe_billing_webhook (parse : string → option StripeWebhookPayload)
    (verify : string → option string → bool) (now : instant) : string → option string → db → result () * db :=
  receive parse verify stripe_event (billing_effect now).

(** The identity receiver's [_apply_verdict]; the pushes that follow the commit
    leave the store alone. *)
Definition is_customer_not_found (e : exn) : bool := match e with CustomerNotFoundError => true | _ => false end.

Definition apply_identity_verdict (max_attempts : Z) (now : instant) (provider_session_id stripe_status : string)
    : prog () :=
  verdict ← catching is_customer_not_found
    (apply_verification_verdict max_attempts now provider_session_id stripe_status);
  match verdict with
  | Ok (Some customer) => approve_if_eligible customer ;; mret tt
  | _ => mret tt
  end.

Definition identity_effect (max_attempts : Z) (now : instant) (p : StripeWebhookPayload) (d : db) : result () * db :=
  if bool_decide (stripe_event_type p ∈ VERIFICATION_SESSION_EVENT_TYPES)
  then transact ledger_balance (apply_identity_verdict max_attempts now (stripe_object_id p) (stripe_object_status p)) d
  else (Ok tt, d).

(** [stripe_identity_webhook] *)
Definition stripe_identity_webhook (parse : string → option StripeWebhookPayload)
    (verify : string → option string → bool) (max_attempts : Z) (now : instant)
    : string → option string → db → result () * db :=
  receive parse verify stripe_event (identity_effect max_attempts now).

(** ** An effect runs at most once *)

Lemma writes_take_in event : writes (H := trueup) [TInboundEvent; TJobOutbox] (take_in event).
Proof. unfold take_in, record_event, enqueue. writes_auto. Qed.

(** A second delivery of a key leaves every table as it was. *)
Lemma take_in_again event d :
  intake_fresh d → incoming_key event ∈ event_key <$> inbound_events d →
  ∃ d', run (take_in event) d = Ok (DUPLICATE_EVENT, d') ∧ ∀ t, tables (H := trueup) d' t = tables d t.
Proof.
  intros Hd Hin. destruct (take_in_run event d Hd) as (d' & Hr & _ & Hrows).
  rewrite bool_decide_eq_true_2 in Hr, Hrows by done. exists d'. split; [done|]. intros t.
  destruct Hrows as [Hev Hjo].
  destruct (decide (t = TInboundEvent)) as [->|Hne]; [exact Hev|].
  destruct (decide (t = TJobOutbox)) as [->|Hne']; [exact Hjo|].
  apply (writes_take_in event d _ _ Hr). set_solver.
Qed.

Lemma take_in_first event d d' :
  intake_fresh d → run (take_in event) d = Ok (ACCEPTED_EVENT, d') →
  incoming_key event ∈ event_key <$> inbound_events d'.
Proof.
  intros Hd Hr. destruct (take_in_run event d Hd) as (d1 & Hr1 & _ & Hrows). rewrite Hr1 in Hr.
  case_bool_decide; [done|]. injection Hr as <-. destruct Hrows as (e & r & Hev & _ & Hk & _).
  rewrite Hev, fmap_app, elem_of_app. right. rewrite <- Hk. by left.
Qed.

Section Once.
Context {P : Type} (parse : string → option P) (verify : string → option string → bool)
        (event_of : P → IncomingEvent).

(** The delivery was taken in: parsed, genuine and new. *)
Definition taken (raw : string) (signature : option string) (d : db) (p : P) (d1 : db) : Prop :=
  parse raw = Some p ∧ is_ok (check_envelope (event_of p)) = true ∧ verify raw signature = true ∧
  run (take_in (event_of p)) d = Ok (ACCEPTED_EVENT, d1).

Lemma receive_taken effect raw signature d p d1 :
  taken raw signature d p d1 → receive parse verify event_of effect raw signature d = effect p d1.
Proof.
  intros (Hp & He & Hv & Hr). unfold receive. rewrite Hp. destruct (check_envelope (event_of p)) as [ev|] eqn:Ec; [|done].
  assert (ev = event_of p) as -> by (unfold check_envelope in Ec; destruct (_ && _); [by injection Ec|done]).
  unfold intake, transact. by rewrite Hv, Hr.
Qed.

(** C38. A webhook's effect runs at most once, and it is not retried: if it
    fails after the event was taken in, the provider is told so, but however
    often it delivers the event again (the same raw body or another with the
    same key), the answer is 200 and no table changes. *)
Theorem failed_effect_is_lost effect raw signature d p d1 e d2 :
  intake_fresh d → taken raw signature d p d1 → effect p d1 = (Raise e, d2) →
  receive parse verify event_of effect raw signature d = (Raise e, d2) ∧
  ∀ effect' raw' signature' p' d3,
    intake_fresh d3 → inbound_events d1 ⊆ inbound_events d3 → parse raw' = Some p' →
    is_ok (check_envelope (event_of p')) = true → verify raw' signature' = true →
    incoming_key (event_of p') = incoming_key (event_of p) →
    ∃ d4, receive parse verify event_of effect' raw' signature' d3 = (Ok tt, d4) ∧
          ∀ t, tables (H := trueup) d4 t = tables d3 t.
Proof.
  intros Hd Ht He. split; [by rewrite (receive_taken effect _ _ _ _ _ Ht)|].
  intros effect' raw' signature' p' d3 Hd3 Hsub Hp' Hc' Hv' Hk.
  destruct Ht as (_ & _ & _ & Hr). pose proof (take_in_first _ _ _ Hd Hr) as Hin.
  assert (incoming_key (event_of p') ∈ event_key <$> inbound_events d3) as Hin3.
  { rewrite Hk. apply list_elem_of_fmap in Hin as (x & Hx & Hin). apply list_elem_of_fmap. exists x. split; [done|by apply Hsub]. }
  destruct (take_in_again _ d3 Hd3 Hin3) as (d4 & Hr4 & Ht4). exists d4. split; [|done].
  unfold receive. rewrite Hp'. destruct (check_envelope (event_of p')) as [ev|] eqn:Ec; [|done].
  assert (ev = event_of p') as -> by (unfold check_envelope in Ec; destruct (_ && _); [by injection Ec|done]).
  unfold intake, transact. by rewrite Hv', Hr4.
Qed.
End Once.

(** The identity webhook of a genuine event whose effect fails. *)
Definition sample_stripe_body : StripeWebhookPayload :=
  {| stripe_event_id := "evt_7"; stripe_event_type := "identity.verification_session.verified";
     stripe_object_id := "vs_1"; stripe_object_status := "verified" |}.

Definition sample_genuine (raw : string) (signature : option string) : bool := bool_decide (signature = Some "sig"%string).

Definition sample_broken_effect (p : StripeWebhookPayload) (d : db) : result () * db := (Raise RuntimeError, d).

Definition sample_taken_in : IntakeResult * db :=
  run_or (take_in (stripe_event sample_stripe_body)) (empty_db 0) DUPLICATE_EVENT.

(** The body arrives again, and a working effect is not run either. *)
Lemma failed_effect_is_lost_witness :
  receive (λ _, Some sample_stripe_body) sample_genuine stripe_event sample_broken_effect "{}" (Some "sig"%string)
    (empty_db 0) = (Raise RuntimeError, sample_taken_in.2) ∧
  ∃ d4, receive (λ _, Some sample_stripe_body) sample_genuine stripe_event (identity_effect 3 0) "{}"
          (Some "sig"%string) sample_taken_in.2 = (Ok tt, d4) ∧
        ∀ t, tables (H := trueup) d4 t = tables sample_taken_in.2 t.
Proof.
  assert (Hr : run (take_in (stripe_event sample_stripe_body)) (empty_db 0) = Ok sample_taken_in)
    by (apply run_or_Ok; vm_compute; reflexivity).
  assert (Ha : sample_taken_in.1 = ACCEPTED_EVENT) by (vm_compute; reflexivity).
  assert (Hf : intake_fresh (empty_db 0)) by (split; intros x Hx; by apply elem_of_nil in Hx).
  assert (Hf1 : intake_fresh sample_taken_in.2).
  { revert Hr. generalize sample_taken_in. intros [a d] Hr.
    destruct (take_in_run (stripe_event sample_stripe_body) _ Hf) as (d1 & Hr1 & Hf1 & _).
    rewrite Hr in Hr1. assert (d1 = d) as -> by congruence. exact Hf1. }
  revert Hr Ha Hf1. generalize sample_taken_in. intros [a d1]. cbn [fst snd]. intros Hr -> Hf1.
  assert (Hc : is_ok (check_envelope (stripe_event sample_stripe_body)) = true) by (vm_compute; reflexivity).
  assert (Hv : sample_genuine "{}" (Some "sig"%string) = true) by (vm_compute; reflexivity).
  destruct (failed_effect_is_lost (λ _, Some sample_stripe_body) sample_genuine stripe_event
              sample_broken_effect "{}" (Some "sig"%string) (empty_db 0) sample_stripe_body d1
              RuntimeError d1 Hf (conj eq_refl (conj Hc (conj Hv Hr))) eq_refl) as [H1 H2].
  split; [exact H1|].
  by apply (H2 (identity_effect 3 0) "{}"%string (Some "sig"%string) sample_stripe_body d1 Hf1 (λ x Hx, Hx)).
Defined.
