(* ===== verification/TradeStream.v ===== *)
(** * The broker's trade-update stream
    ([integrations/alpaca/trade_updates_consumer.py], [integrations/fake/fake_broker.py])

    The consumer that turns a raw trade update into an event for intake, with
    the deduplication key it derives - the execution, or the order, the kind and
    the instant as Python prints the float - and the in-memory broker with the
    messages it emits.  The websocket loop around it is not modelled. *)

From S2P Require Import Prelude PyDecimal MoneyTypes Dates Calendar Store Schema Uuids Cursors Iso Ledger CashPolicy Funding Valuation Restatement Lots LotBooks Operations Intake OrderEvents Orders OrderBooks OrderCash Fees FeeCharges Webhooks.
From Stdlib Require Import String Ascii.
From stdpp Require Import strings.
Open Scope Z_scope.

(** ** [repr] of a float *)

(** A double as a quotient. *)
Definition quotient (x : Z * Z) : Z * Z := if x.2 <? 0 then (x.1, 2 ^ (- x.2)) else (x.1 * 2 ^ x.2, 1).

(** The double rounded to [p] significant digits, as [q / 10 ^ s]. *)
Definition round_digits (x : Z * Z) (p : Z) : Z * Z :=
  let (n, d) := quotient x in
  let s := p - ndigits (n / d) in
  ((if s <? 0 then rhe n (d * 10 ^ (- s)) else rhe (n * 10 ^ s) d), s).

(** [float(text)] of such a decimal. *)
Definition read_decimal (c : Z * Z) : Z * Z := nearest_double (c.1 * 10 ^ (17 - c.2)) (10 ^ 17).

Definition same_double (x y : Z * Z) : bool :=
  let k := Z.min x.2 y.2 in x.1 * 2 ^ (x.2 - k) =? y.1 * 2 ^ (y.2 - k).

(** The fewest digits that read back as the same double; seventeen always do. *)
Fixpoint shortest_from (fuel : nat) (p : Z) (x : Z * Z) : Z * Z :=
  match fuel with
  | O => round_digits x p
  | S fuel =>
      let c := round_digits x p in
      if same_double (read_decimal c) x then c else shortest_from fuel (p + 1) x
  end.

(** [repr] from one to [10 ^ 16], where the notation is positional. *)
Definition float_repr (x : Z * Z) : string :=
  let (q, s) := shortest_from 16 1 x in
  dec_str (if 0 <? s then Dec q (- s) else Dec (q * 10 ^ (1 - s)) (-1)).

(** [f"{ts.timestamp()}"]; the notation of the instants within a second of the
    epoch is the argument [other]. *)
Definition timestamp_str (other : instant → string) (ts : instant) : string :=
  if ts =? 0 then "0.0"
  else if Z.abs ts <? 10 ^ 6 then other ts
  else ((if (ts <? 0)%Z then "-" else "") +:+ float_repr (timestamp (Z.abs ts)))%string.

Example timestamp_str_samples :
  timestamp_str (λ _, ""%string) 1793620800000001 = "1793620800.000001"%string ∧
  timestamp_str (λ _, ""%string) 1793620800000000 = "1793620800.0"%string ∧
  timestamp_str (λ _, ""%string) 1793620800120000 = "1793620800.12"%string.
Proof. vm_compute. done. Qed.

(** *** Within the range of today's instants it prints the microseconds *)

Lemma rhe_scale n d c : 0 < d → 0 < c → rhe (n * c) (d * c) = rhe n d.
Proof.
  intros Hd Hc. pose proof (rhe_near n d Hd) as Hn. pose proof (rhe_tie_even n d Hd) as He.
  assert (E : d * c * rhe n d - n * c = c * (d * rhe n d - n)) by lia.
  apply rhe_characterised; [nia|rewrite E, Z.abs_mul; nia|]. intros Ht. apply He. rewrite E, Z.abs_mul in Ht. nia.
Qed.

(** An instant of the range, its double and the mantissa of it. *)
Definition current (ts : instant) : Prop := 2 ^ 50 < ts < 2 ^ 31 * 10 ^ 6.

Lemma timestamp_double ts : current ts → timestamp ts = (rhe (ts * 2 ^ 22) (10 ^ 6), -22).
Proof.
  intros [Hlo Hhi]. unfold timestamp. assert (Z.log2 ts = 50) as Hl by (apply Z.log2_unique; lia).
  rewrite (nearest_double_at ts (10 ^ 6) 22 (-21)); [done|by rewrite Hl|lia|right; split; [done|lia]].
Qed.

(** What is read of [k] microseconds, whatever the binary exponent. *)
Lemma read_near k : 10 ^ 15 <= k < 2 ^ 51 →
  ∃ m e, nearest_double (k * 10 ^ 11) (10 ^ 17) = (m, e) ∧ (e = -23 ∨ e = -22 ∨ e = -21) ∧
    Z.abs (m * 2 ^ (e + 23) * 10 ^ 6 - k * 2 ^ 23) <= 2 * 10 ^ 6.
Proof.
  intros Hk. change (10 ^ 15) with 1000000000000000 in Hk. change (2 ^ 51) with 2251799813685248 in Hk.
  assert (∃ j, nearest_double (k * 10 ^ 11) (10 ^ 17) = (rhe (k * 10 ^ 11 * 2 ^ j) (10 ^ 17), - j) ∧ (j = 21 ∨ j = 22 ∨ j = 23))
    as (j & Hj & Hjs).
  { destruct (Z.lt_ge_cases (k * 10 ^ 11) (2 ^ 87)) as [Hs|Hs].
    - assert (Z.log2 (k * 10 ^ 11) = 86) as Hl by (apply Z.log2_unique; lia).
      destruct (Z.lt_ge_cases (k * 10 ^ 11 * 2 ^ 22) (2 ^ 52 * 10 ^ 17)).
      + exists 23. rewrite (nearest_double_at _ _ 23 (-22)); [|by rewrite Hl|lia|right; by split]. tauto.
      + exists 22. rewrite (nearest_double_at _ _ 22 (-22)); [|by rewrite Hl|lia|left; by split]. tauto.
    - assert (Z.log2 (k * 10 ^ 11) = 87) as Hl by (apply Z.log2_unique; lia).
      destruct (Z.lt_ge_cases (k * 10 ^ 11 * 2 ^ 21) (2 ^ 52 * 10 ^ 17)).
      + exists 22. rewrite (nearest_double_at _ _ 22 (-21)); [|by rewrite Hl|lia|right; by split]. tauto.
      + exists 21. rewrite (nearest_double_at _ _ 21 (-21)); [|by rewrite Hl|lia|left; by split]. tauto. }
  exists (rhe (k * 10 ^ 11 * 2 ^ j) (10 ^ 17)), (- j). split; [done|]. split; [lia|].
  pose proof (rhe_near (k * 10 ^ 11 * 2 ^ j) (10 ^ 17) eq_refl) as Hn.
  destruct Hjs as [->|[->| ->]]; cbn [Z.opp Z.add Z.pos_sub] in *; lia.
Qed.

(** The number of microseconds a decimal of at most six places stands for. *)
Lemma round_digits_micro ts p : current ts → 1 <= p <= 16 →
  ∃ q k, round_digits (timestamp ts) p = (q, p - 10) ∧ q * 10 ^ (16 - p) = k ∧ 10 ^ 15 <= k < 2 ^ 51 ∧
    (p = 16 → k = ts) ∧ read_decimal (q, p - 10) = nearest_double (k * 10 ^ 11) (10 ^ 17).
Proof.
  intros Hts Hp. rewrite timestamp_double by done. destruct Hts as [Hlo Hhi].
  pose proof (rhe_near (ts * 2 ^ 22) (10 ^ 6) eq_refl) as Hm. set (m := rhe _ _) in *. clearbody m.
  unfold round_digits, quotient. cbn [fst snd]. change (-22 <? 0) with true. cbv iota. change (- (-22)) with 22.
  assert (ndigits (m / 2 ^ 22) = 10) as ->.
  { assert (Hd : 10 ^ 9 <= m / 2 ^ 22 < 10 ^ 10) by (split; [apply Z.div_le_lower_bound; lia|apply Z.div_lt_upper_bound; lia]).
    assert (9 < ndigits (m / 2 ^ 22)) by (apply ndigits_gt; lia).
    assert (¬ 10 < ndigits (m / 2 ^ 22)) by (rewrite ndigits_gt by lia; lia). lia. }
  set (q := if _ <? 0 then _ else _). exists q, (q * 10 ^ (16 - p)). split; [done|]. split; [done|].
  assert (Hq : 2 * Z.abs (2 ^ 22 * (q * 10 ^ (16 - p)) - m * 10 ^ 6) <= 2 ^ 22 * 10 ^ (16 - p)).
  { unfold q. destruct (Z.ltb_spec (p - 10) 0) as [Hs|Hs].
    - pose proof (rhe_near m (2 ^ 22 * 10 ^ (- (p - 10))) ltac:(pose proof (Z.pow_pos_nonneg 10 (- (p - 10))); lia)) as Hr.
      replace (16 - p) with (- (p - 10) + 6) by lia. rewrite Z.pow_add_r by lia. nia.
    - pose proof (rhe_near (m * 10 ^ (p - 10)) (2 ^ 22) eq_refl) as Hr. pose proof (Z.pow_pos_nonneg 10 (16 - p) ltac:(lia) ltac:(lia)) as Hpos.
      assert (E : 10 ^ (p - 10) * 10 ^ (16 - p) = 10 ^ 6) by (rewrite <- Z.pow_add_r by lia; f_equal; lia).
      assert (E2 : 2 ^ 22 * (rhe (m * 10 ^ (p - 10)) (2 ^ 22) * 10 ^ (16 - p)) - m * 10 ^ 6 =
                   10 ^ (16 - p) * (2 ^ 22 * rhe (m * 10 ^ (p - 10)) (2 ^ 22) - m * 10 ^ (p - 10))) by (rewrite <- E; ring).
      rewrite E2, Z.abs_mul. nia. }
  split; [|split].
  - destruct (decide (p = 1)) as [->|Hp1].
    + change (10 ^ (16 - 1)) with 1000000000000000 in *. lia.
    + assert (10 ^ (16 - p) <= 10 ^ 14) by (apply Z.pow_le_mono_r; lia). lia.
  - intros ->. change (10 ^ (16 - 16)) with 1 in *. lia.
  - unfold read_decimal. cbn [fst snd]. rewrite <- Z.mul_assoc, <- Z.pow_add_r by lia. do 2 f_equal. f_equal. lia.
Qed.

Lemma same_double_micro ts k : current ts → 10 ^ 15 <= k < 2 ^ 51 →
  same_double (nearest_double (k * 10 ^ 11) (10 ^ 17)) (timestamp ts) = true → k = ts.
Proof.
  intros Hts Hk. destruct (read_near k Hk) as (m' & e & -> & He & Hn). rewrite timestamp_double by done.
  destruct Hts as [Hlo Hhi]. pose proof (rhe_near (ts * 2 ^ 22) (10 ^ 6) eq_refl) as Hm. set (m := rhe _ _) in *. clearbody m.
  unfold same_double. cbn [fst snd]. rewrite Z.eqb_eq.
  destruct He as [->|[->| ->]].
  - change (m' * 1 = m * 2 → k = ts). change (2 ^ (-23 + 23)) with 1 in Hn. lia.
  - change (m' * 1 = m * 1 → k = ts). change (2 ^ (-22 + 23)) with 2 in Hn. lia.
  - change (m' * 2 = m * 1 → k = ts). change (2 ^ (-21 + 23)) with 4 in Hn. lia.
Qed.

Lemma same_double_refl x : same_double x x = true.
Proof. unfold same_double. apply Z.eqb_refl. Qed.

Lemma read_own ts : current ts → nearest_double (ts * 10 ^ 11) (10 ^ 17) = timestamp ts.
Proof.
  intros Hts. rewrite timestamp_double by done. destruct Hts as [Hlo Hhi].
  assert (E : rhe (ts * 10 ^ 11 * 2 ^ 22) (10 ^ 17) = rhe (ts * 2 ^ 22) (10 ^ 6)).
  { rewrite <- (rhe_scale (ts * 2 ^ 22) (10 ^ 6) (10 ^ 11)) by done. f_equal; lia. }
  destruct (Z.lt_ge_cases (ts * 10 ^ 11) (2 ^ 87)) as [Hs|Hs].
  - assert (Z.log2 (ts * 10 ^ 11) = 86) as Hl by (apply Z.log2_unique; lia).
    rewrite (nearest_double_at _ _ 22 (-22)); [by rewrite E|by rewrite Hl|lia|left; split; [done|lia]].
  - assert (Z.log2 (ts * 10 ^ 11) = 87) as Hl by (apply Z.log2_unique; lia).
    rewrite (nearest_double_at _ _ 22 (-21)); [by rewrite E|by rewrite Hl|lia|right; split; [done|lia]].
Qed.

(** The search ends, by sixteen digits, on the microseconds themselves. *)
Lemma shortest_micro ts fuel p : current ts → (0 < fuel)%nat → 1 <= p → p = 17 - Z.of_nat fuel →
  ∃ q p', shortest_from fuel p (timestamp ts) = (q, p' - 10) ∧ 1 <= p' <= 16 ∧ q * 10 ^ (16 - p') = ts.
Proof.
  intros Hts. revert p. induction fuel as [|fuel IH]; intros p Hf Hp Ep; [lia|]. cbn [shortest_from].
  destruct (round_digits_micro ts p Hts ltac:(lia)) as (q & k & Hq & Hk & Hb & H16 & Hread). rewrite Hq, Hread.
  destruct (same_double _ _) eqn:Es.
  - exists q, p. split; [done|]. split; [lia|]. rewrite Hk. by apply same_double_micro.
  - destruct (decide (p = 16)) as [E|E].
    + rewrite (H16 E), read_own, same_double_refl in Es by done. done.
    + apply IH; lia.
Qed.

Lemma float_repr_micro ts : current ts →
  ∃ c e, float_repr (timestamp ts) = dec_str (Dec c e) ∧ -6 <= e <= 0 ∧ c * 10 ^ (6 + e) = ts ∧ -6 < e + ndigits c ∧ 0 < c.
Proof.
  intros Hts. destruct (shortest_micro ts 16 1 Hts ltac:(lia) ltac:(lia) eq_refl) as (q & p & Hs & Hp & Hv).
  unfold float_repr. rewrite Hs. destruct Hts as [Hlo Hhi].
  assert (Hx : ∃ c e, (if 0 <? p - 10 then Dec q (- (p - 10)) else Dec (q * 10 ^ (1 - (p - 10))) (-1)) = Dec c e ∧
            -6 <= e <= -1 ∧ c * 10 ^ (6 + e) = ts).
  { destruct (Z.ltb_spec 0 (p - 10)).
    - exists q, (- (p - 10)). split; [done|]. split; [lia|]. rewrite <- Hv. do 2 f_equal. lia.
    - exists (q * 10 ^ (1 - (p - 10))), (-1). split; [done|]. split; [lia|].
      rewrite <- Z.mul_assoc, <- Z.pow_add_r, <- Hv by lia. do 2 f_equal. lia. }
  destruct Hx as (c & e & -> & He & Hc). exists c, e. split; [done|]. split; [lia|]. split; [done|].
  assert (10 ^ (6 + e) <= 10 ^ 5) by (apply Z.pow_le_mono_r; lia).
  assert (Hpos : 0 < 10 ^ (6 + e)) by (apply Z.pow_pos_nonneg; lia).
  assert (0 < c) by nia. split; [|done]. assert (1 < ndigits c) by (apply ndigits_gt; nia). lia.
Qed.

Lemma timestamp_str_inj other ts ts' : current ts → current ts' →
  timestamp_str other ts = timestamp_str other ts' → ts = ts'.
Proof.
  assert (Hstr : ∀ t, current t → timestamp_str other t = float_repr (timestamp t)).
  { intros t [H1 H2]. unfold timestamp_str. destruct (Z.eqb_spec t 0); [lia|]. rewrite Z.abs_eq by lia.
    destruct (Z.ltb_spec t (10 ^ 6)); [lia|]. by destruct (Z.ltb_spec t 0); [lia|]. }
  intros Ht Ht'. rewrite !Hstr by done.
  destruct (float_repr_micro ts Ht) as (c & e & -> & He & Hc & Hl & _).
  destruct (float_repr_micro ts' Ht') as (c' & e' & -> & He' & Hc' & Hl' & _). intros Hd%(f_equal parse_decimal).
  rewrite !parse_dec_str in Hd by (cbn; lia). injection Hd as -> ->. congruence.
Qed.

(** ** The message ([AlpacaTradeUpdateMessage]) *)

Record TradeMessage := {
  message_event : string;
  message_execution_id : option string;
  message_order_id : string;
  message_client_order_id : string;
  message_symbol : string;
  message_timestamp : instant;
  message_price : option string;
  message_qty : option string;
}.

(** A field declared [str], and one declared [str | None = None]. *)
Definition text_field (name : string) (fields : list (string * json)) : option string :=
  match json_get name fields with Some (JStr s) => Some s | _ => None end.

Definition optional_text_field (name : string) (fields : list (string * json)) : option (option string) :=
  match json_get name fields with
  | None | Some JNull => Some None
  | Some (JStr s) => Some (Some s)
  | Some _ => None
  end.

Section Consumer.
(** The schema library's reading of a datetime, and [timestamp_str]'s argument. *)
Context (parse_datetime : json → option instant) (other : instant → string).

Definition timestamp_field (fields : list (string * json)) : option instant :=
  json_get "timestamp" fields ≫= parse_datetime.

(** [AlpacaTradeUpdateMessage.model_validate]; every fault is a [ValueError]. *)
Definition validate_message (raw : list (string * json)) : result TradeMessage :=
  match json_get "order" raw with
  | Some (JObj order) =>
      match text_field "event" raw, optional_text_field "execution_id" raw,
            text_field "id" order, text_field "client_order_id" order, text_field "symbol" order,
            timestamp_field raw, optional_text_field "price" raw, optional_text_field "qty" raw with
      | Some event, Some execution, Some id, Some client, Some symbol, Some at_, Some price, Some qty =>
          Ok {| message_event := event; message_execution_id := execution; message_order_id := id;
                message_client_order_id := client; message_symbol := symbol; message_timestamp := at_;
                message_price := price; message_qty := qty |}
      | _, _, _, _, _, _, _, _ => Raise ValueError
      end
  | _ => Raise ValueError
  end.

(** [_AlpacaTradeUpdatePayload.model_validate], the handler's own copy of the
    schema without the symbol. *)
Definition validate_payload (raw : list (string * json)) : result TradeUpdate :=
  match json_get "order" raw with
  | Some (JObj order) =>
      match text_field "event" raw, optional_text_field "execution_id" raw,
            text_field "id" order, text_field "client_order_id" order,
            timestamp_field raw, optional_text_field "price" raw, optional_text_field "qty" raw with
      | Some event, Some execution, Some id, Some client, Some at_, Some price, Some qty =>
          Ok {| update_event := event; update_execution_id := execution; update_client_order_id := client;
                update_timestamp := at_; update_price := price; update_qty := qty |}
      | _, _, _, _, _, _, _ => Raise ValueError
      end
  | _ => Raise ValueError
  end.

Definition HANDLED_EVENTS : list string := ["new"; "fill"; "partial_fill"; "canceled"; "expired"; "rejected"].

(** [source_event_id_for] *)
Definition source_event_id_for (m : TradeMessage) : string :=
  match message_execution_id m with
  | Some execution => execution
  | None => (message_order_id m +:+ ":" +:+ message_event m +:+ ":" +:+ timestamp_str other (message_timestamp m))%string
  end.

(** [TrustedTransportVerifier.verify] *)
Definition trusted (_ : string) (_ : option string) : bool := true.

(** [handle_message]; the verifier does not look at the payload's bytes. *)
Definition handle_message (raw : list (string * json)) (d : db) : result (option IntakeResult) * db :=
  match validate_message raw with
  | Raise e => (Raise e, d)
  | Ok message =>
      if negb (bool_decide (message_event message ∈ HANDLED_EVENTS)) then (Ok None, d)
      else
        match check_envelope {| incoming_source := ALPACA; incoming_source_event_id := source_event_id_for message;
                                incoming_payload := raw |} with
        | Raise e => (Raise e, d)
        | Ok event =>
            match intake trusted event "" None d with
            | (Ok r, d') => (Ok (Some r), d')
            | (Raise e, d') => (Raise e, d')
            end
        end
  end.
End Consumer.

(** ** The in-memory broker ([FakeBrokerAdapter]) *)

Record FakeOrder := {
  fake_client_order_id : string;
  fake_broker_order_id : string;
  fake_symbol : string;
  fake_side : OrderSide;
  fake_quantity : string;
}.

Record FakeBroker := {
  submitted_orders : list FakeOrder;
  cancel_requests : list string;
  reject_client_order_ids : list string;
}.

Definition new_fake_broker : FakeBroker :=
  {| submitted_orders := []; cancel_requests := []; reject_client_order_ids := [] |}.

(** [reject_on_submit] *)
Definition reject_on_submit (client : string) (b : FakeBroker) : FakeBroker :=
  {| submitted_orders := submitted_orders b; cancel_requests := cancel_requests b;
     reject_client_order_ids := client :: reject_client_order_ids b |}.

(** [submit_order]: the handle's broker identifier, of a fresh [uuid4]. *)
Definition fake_submit_order (fresh : uuid) (client symbol : string) (side : OrderSide) (quantity : string)
    (b : FakeBroker) : result string * FakeBroker :=
  if bool_decide (client ∈ reject_client_order_ids b) then (Raise BrokerSubmissionRejectedError, b)
  else
    let id := ("fake-broker-order-" +:+ uuid_str fresh)%string in
    (Ok id, {| submitted_orders := submitted_orders b ++
                 [{| fake_client_order_id := client; fake_broker_order_id := id; fake_symbol := symbol;
                     fake_side := side; fake_quantity := quantity |}];
               cancel_requests := cancel_requests b; reject_client_order_ids := reject_client_order_ids b |}).

(** [cancel_order] *)
Definition fake_cancel_order (broker_order_id : string) (b : FakeBroker) : result () * FakeBroker :=
  (Ok tt, {| submitted_orders := submitted_orders b; cancel_requests := cancel_requests b ++ [broker_order_id];
             reject_client_order_ids := reject_client_order_ids b |}).

(** [_base_message] *)
Definition base_message (event broker_order_id client_order_id symbol : string) (now : instant) : list (string * json) :=
  [("event", JStr event); ("execution_id", JNull);
   ("order", JObj [("id", JStr broker_order_id); ("client_order_id", JStr client_order_id); ("symbol", JStr symbol)]);
   ("timestamp", JStr (datetime_iso now)); ("price", JNull); ("qty", JNull)]%string.

(** [message[key] = value], of a key the message has *)
Definition set_item (key : string) (v : json) (fields : list (string * json)) : list (string * json) :=
  (λ f, if String.eqb f.1 key then (f.1, v) else f) <$> fields.

Definition accepted_message : string → string → string → instant → list (string * json) := base_message "new".
Definition rejected_message : string → string → string → instant → list (string * json) := base_message "rejected".
Definition canceled_message : string → string → string → instant → list (string * json) := base_message "canceled".
Definition expired_message : string → string → string → instant → list (string * json) := base_message "expired".

Definition fill_message (broker_order_id client_order_id symbol execution_id quantity price : string) (now : instant)
    : list (string * json) :=
  set_item "price" (JStr price) (set_item "qty" (JStr quantity) (set_item "execution_id" (JStr execution_id)
    (base_message "fill" broker_order_id client_order_id symbol now))).

(** ** A trade update is taken in once *)

Lemma first_colon (c : ascii) t u x y : c ∉ t → c ∉ u → t ++ c :: x = u ++ c :: y → t = u ∧ x = y.
Proof.
  revert u. induction t as [|a t IH]; intros [|b u] Ht Hu; cbn [app].
  - by intros [= ->].
  - intros [= -> _]. set_solver.
  - intros [= -> _]. set_solver.
  - intros [= -> E]. destruct (IH u) as [-> ->]; [set_solver..|done|done].
Qed.

Lemma last_colon (c : ascii) t u x y : c ∉ t → c ∉ u → x ++ c :: t = y ++ c :: u → x = y ∧ t = u.
Proof.
  intros Ht Hu E%(f_equal reverse). rewrite !reverse_app, !reverse_cons, <- !app_assoc in E. cbn [app] in E.
  apply first_colon in E as [E1 E2]; [|by rewrite elem_of_reverse..]. split; by apply (inj reverse).
Qed.

Definition COLON : ascii := ":".
Definition colonless (s : string) : Prop := COLON ∉ chars s.

Lemma digits_colonless ds : Forall (λ d, 0 <= d <= 9) ds → colonless (string_of_digits ds).
Proof.
  intros Hds. unfold colonless. rewrite chars_digits. intros (d & Hd & Hin)%list_elem_of_fmap.
  rewrite Forall_forall in Hds. specialize (Hds d Hin). apply (f_equal code) in Hd. rewrite digit_char_code in Hd by done.
  change (code COLON) with 58 in Hd. lia.
Qed.

Lemma timestamp_colonless other ts : current ts → colonless (timestamp_str other ts).
Proof.
  intros Ht. pose proof Ht as [Hlo Hhi]. unfold timestamp_str. destruct (Z.eqb_spec ts 0); [lia|]. rewrite Z.abs_eq by lia.
  destruct (Z.ltb_spec ts (10 ^ 6)); [lia|]. destruct (Z.ltb_spec ts 0); [lia|].
  destruct (float_repr_micro ts Ht) as (c & e & -> & He & _ & Hl & Hc).
  destruct (dec_str_plain (Dec c e)) as (ip & fp & -> & Hip & Hfp & _); [cbn; lia|cbn; lia|].
  cbn [coef]. destruct (Z.ltb_spec c 0); [lia|]. unfold colonless. rewrite !chars_app. cbn [chars list_ascii_of_string app].
  apply not_elem_of_app. split; [by apply digits_colonless|]. destruct fp as [|d fp]; [apply not_elem_of_nil|].
  rewrite chars_app. cbn [chars list_ascii_of_string app]. intros [E|Hin]%elem_of_cons; [done|]. by apply (digits_colonless (d :: fp)) in Hin.
Qed.

Lemma handled_colonless event : event ∈ HANDLED_EVENTS → colonless event.
Proof.
  intros Hin. assert (Hall : forallb (λ e, negb (existsb (Ascii.eqb COLON) (chars e))) HANDLED_EVENTS = true) by reflexivity.
  rewrite forallb_forall in Hall. specialize (Hall event (proj1 (list_elem_of_In _ _) Hin)). intros Hc.
  apply negb_true_iff in Hall. assert (existsb (Ascii.eqb COLON) (chars event) = true); [|congruence].
  apply existsb_exists. exists COLON. split; [by apply list_elem_of_In|reflexivity].
Qed.

Section Dedupe.
Context (parse_datetime : json → option instant) (other : instant → string).

(** What the broker sends twice: the same execution, or for an update without
    one the same kind of update of the same order at the same microsecond. *)
Definition same_update (m m' : TradeMessage) : Prop :=
  match message_execution_id m, message_execution_id m' with
  | Some a, Some b => a = b
  | None, None => message_order_id m = message_order_id m' ∧ message_event m = message_event m' ∧
                  message_timestamp m = message_timestamp m'
  | _, _ => False
  end.
#[export] Instance same_update_dec m m' : Decision (same_update m m').
Proof. unfold same_update. destruct (message_execution_id m), (message_execution_id m'); apply _. Defined.

(** A message the system tracks, of these years, whose key fits its column;
    the broker's execution identifiers hold no colon. *)
Record keyed (m : TradeMessage) : Prop := {
  keyed_tracked : message_event m ∈ HANDLED_EVENTS;
  keyed_current : current (message_timestamp m);
  keyed_colonless : ∀ execution, message_execution_id m = Some execution → colonless execution;
  keyed_length : 1 <= Z.of_nat (String.length (source_event_id_for other m)) <= 255;
}.

Lemma chars_inj a b : chars a = chars b → a = b.
Proof. intros E%(f_equal string_of_list_ascii). unfold chars in E. by rewrite !string_of_list_ascii_of_string in E. Qed.

Lemma source_event_id_same m m' : keyed m → keyed m' →
  source_event_id_for other m = source_event_id_for other m' ↔ same_update m m'.
Proof.
  intros [H1 H2 H3 _] [H1' H2' H3' _]. unfold source_event_id_for, same_update.
  destruct (message_execution_id m) as [a|], (message_execution_id m') as [b|].
  - done.
  - split; [|done]. intros E. destruct (H3 a eq_refl). rewrite E, !chars_app. apply elem_of_app. right. by left.
  - split; [|done]. intros E. destruct (H3' b eq_refl). rewrite <- E, !chars_app. apply elem_of_app. right. by left.
  - split; [|by intros (-> & -> & ->)]. intros E%(f_equal chars). rewrite !chars_app in E.
    cbn [chars list_ascii_of_string app] in E. rewrite !app_comm_cons, !app_assoc in E.
    apply last_colon in E as [E Ets]; [|by apply timestamp_colonless..]. apply chars_inj in Ets.
    apply timestamp_str_inj in Ets; [|done..].
    apply last_colon in E as [E Eev]; [|by apply handled_colonless..]. by apply chars_inj in E, Eev.
Qed.

Definition stream_event (raw : list (string * json)) (m : TradeMessage) : IncomingEvent :=
  {| incoming_source := ALPACA; incoming_source_event_id := source_event_id_for other m; incoming_payload := raw |}.

Lemma handle_message_run raw m d :
  intake_fresh d → validate_message parse_datetime raw = Ok m → keyed m →
  ∃ d', handle_message parse_datetime other raw d =
      (Ok (Some (if bool_decide ((ALPACA, source_event_id_for other m) ∈ event_key <$> inbound_events d)
                 then DUPLICATE_EVENT else ACCEPTED_EVENT)), d') ∧ intake_fresh d' ∧
    if bool_decide ((ALPACA, source_event_id_for other m) ∈ event_key <$> inbound_events d)
    then inbound_events d' = inbound_events d ∧ outbox d' = outbox d
    else ∃ e r, inbound_events d' = inbound_events d ++ [e] ∧ outbox d' = outbox d ++ [r] ∧
         event_key e = (ALPACA, source_event_id_for other m) ∧ event_payload e = raw ∧ hands_over e r.
Proof.
  intros Hd Hm [Ht _ _ Hl]. unfold handle_message. rewrite Hm, bool_decide_eq_true_2 by done. cbn [negb].
  unfold check_envelope. cbn [incoming_source_event_id].
  replace (_ && _) with true by (symmetry; apply andb_true_iff; rewrite !Z.leb_le; lia). cbn [ensure mbind result_bind].
  destruct (take_in_run (stream_event raw m) d Hd) as (d' & Hr & Hd' & Hrows). exists d'.
  unfold intake. cbn [trusted negb]. unfold transact. fold (stream_event raw m). rewrite Hr. cbn [no_deferred].
  split; [done|]. split; [done|]. exact Hrows.
Qed.

(** C12. Of two trade updates, however they reach the consumer, the second is
    taken for a redelivery exactly when it is the same update: the same
    execution, or for one without an execution the same order, kind and instant
    to the microsecond, although the key is printed from a binary float.
    Otherwise both are taken in, each leaving its payload and one job. *)
Theorem updates_taken_in_once raw raw' m m' d :
  intake_fresh d → validate_message parse_datetime raw = Ok m → validate_message parse_datetime raw' = Ok m' →
  keyed m → keyed m' →
  (ALPACA, source_event_id_for other m) ∉ event_key <$> inbound_events d →
  (ALPACA, source_event_id_for other m') ∉ event_key <$> inbound_events d →
  let (r, d1) := handle_message parse_datetime other raw d in
  let (r', d2) := handle_message parse_datetime other raw' d1 in
  r = Ok (Some ACCEPTED_EVENT) ∧
  r' = Ok (Some (if bool_decide (same_update m m') then DUPLICATE_EVENT else ACCEPTED_EVENT)) ∧
  ∃ events jobs, inbound_events d2 = inbound_events d ++ events ∧ outbox d2 = outbox d ++ jobs ∧
    Forall2 hands_over events jobs ∧
    event_payload <$> events = raw :: (if bool_decide (same_update m m') then [] else [raw']).
Proof.
  intros Hd Hv Hv' Hk Hk' Hn Hn'.
  destruct (handle_message_run raw m d Hd Hv Hk) as (d1 & -> & Hd1 & Hrows). rewrite bool_decide_eq_false_2 in * by done.
  destruct Hrows as (e & j & He & Hj & Hkey & Hp & Hh).
  destruct (handle_message_run raw' m' d1 Hd1 Hv' Hk') as (d2 & -> & _ & Hrows).
  assert (Hiff : (ALPACA, source_event_id_for other m') ∈ event_key <$> inbound_events d1 ↔ same_update m m').
  { rewrite He, fmap_app, elem_of_app, <- (source_event_id_same m m' Hk Hk'). cbn [fmap list_fmap]. rewrite Hkey, list_elem_of_singleton.
    split; [intros [?|[= ->]]; [done|done]|intros ->; by right]. }
  rewrite (bool_decide_ext _ _ Hiff) in *. split_and!; [done..|]. destruct (bool_decide (same_update m m')).
  - destruct Hrows as [E1 E2]. exists [e], [j]. rewrite E1, E2, He, Hj.
    refine (conj eq_refl (conj eq_refl (conj _ _))); [exact (List.Forall2_cons _ _ Hh (List.Forall2_nil _))|cbn; by rewrite Hp].
  - destruct Hrows as (e' & j' & E1 & E2 & _ & Hp' & Hh'). exists [e; e'], [j; j']. rewrite E1, E2, He, Hj, <- !app_assoc.
    refine (conj eq_refl (conj eq_refl (conj _ _)));
      [exact (List.Forall2_cons _ _ Hh (List.Forall2_cons _ _ Hh' (List.Forall2_nil _)))|cbn; by rewrite Hp, Hp'].
Qed.
End Dedupe.

(** ** The in-memory broker's messages go through *)

Definition iso_datetime (v : json) : option instant :=
  match v with
  | JStr s => match read_datetime (chars s) with Some (t, []) => Some t | _ => None end
  | _ => None
  end.

(** The consumer's schema and the handler's agree on whatever they accept. *)
Lemma schemas_agree parse_datetime raw m : validate_message parse_datetime raw = Ok m →
  validate_payload parse_datetime raw =
    Ok {| update_event := message_event m; update_execution_id := message_execution_id m;
          update_client_order_id := message_client_order_id m; update_timestamp := message_timestamp m;
          update_price := message_price m; update_qty := message_qty m |}.
Proof.
  unfold validate_message, validate_payload. destruct (json_get "order" raw) as [[]|]; try done.
  repeat case_match; try done. by intros [= <-].
Qed.

Lemma fill_message_read broker client symbol execution quantity price now : is_datetime now = true →
  validate_message iso_datetime (fill_message broker client symbol execution quantity price now) =
    Ok {| message_event := "fill"; message_execution_id := Some execution; message_order_id := broker;
          message_client_order_id := client; message_symbol := symbol; message_timestamp := now;
          message_price := Some price; message_qty := Some quantity |}.
Proof.
  intros Hn. pose proof (read_datetime_iso now [] Hn) as Hr. rewrite app_nil_r in Hr.
  unfold validate_message. change (json_get "order" _) with (Some (JObj [("id", JStr broker); ("client_order_id", JStr client); ("symbol", JStr symbol)]%string)).
  cbv iota. unfold timestamp_field. change (json_get "timestamp" _) with (Some (JStr (datetime_iso now))).
  cbn [mbind option_bind iso_datetime]. rewrite Hr. reflexivity.
Qed.

Lemma base_message_read event broker client symbol now : is_datetime now = true →
  validate_message iso_datetime (base_message event broker client symbol now) =
    Ok {| message_event := event; message_execution_id := None; message_order_id := broker;
          message_client_order_id := client; message_symbol := symbol; message_timestamp := now;
          message_price := None; message_qty := None |}.
Proof.
  intros Hn. pose proof (read_datetime_iso now [] Hn) as Hr. rewrite app_nil_r in Hr.
  unfold validate_message. change (json_get "order" _) with (Some (JObj [("id", JStr broker); ("client_order_id", JStr client); ("symbol", JStr symbol)]%string)).
  cbv iota. unfold timestamp_field. change (json_get "timestamp" _) with (Some (JStr (datetime_iso now))).
  cbn [mbind option_bind iso_datetime]. rewrite Hr. reflexivity.
Qed.

Definition sample_accepted (now : instant) : TradeMessage :=
  {| message_event := "new"; message_execution_id := None; message_order_id := "b1"; message_client_order_id := "c1";
     message_symbol := "ACME"; message_timestamp := now; message_price := None; message_qty := None |}.

Definition no_text (_ : instant) : string := "".

Lemma sample_keyed_update now : current now → String.length (source_event_id_for no_text (sample_accepted now)) = 24%nat →
  keyed no_text (sample_accepted now).
Proof. intros Hn Hl. split; [by left|done|by intros ? [=]|rewrite Hl; lia]. Qed.

(** Two acceptances one microsecond apart are two events. *)
Lemma updates_taken_in_once_witness :
  (handle_message iso_datetime no_text (accepted_message "b1" "c1" "ACME" 1793620800000002)
     (handle_message iso_datetime no_text (accepted_message "b1" "c1" "ACME" 1793620800000001) (empty_db 0)).2).1
  = Ok (Some ACCEPTED_EVENT).
Proof.
  pose proof (updates_taken_in_once iso_datetime no_text (accepted_message "b1" "c1" "ACME" 1793620800000001)
    (accepted_message "b1" "c1" "ACME" 1793620800000002) (sample_accepted 1793620800000001) (sample_accepted 1793620800000002)
    (empty_db 0)) as Hw.
  destruct (handle_message iso_datetime no_text _ (empty_db 0)) as [r d1]. cbn [snd].
  destruct (handle_message iso_datetime no_text _ d1) as [r' d2]. cbn [fst].
  destruct Hw as (_ & -> & _).
  - split; by intros x ?%elem_of_nil.
  - by apply base_message_read.
  - by apply base_message_read.
  - apply sample_keyed_update; [split; reflexivity|vm_compute; reflexivity].
  - apply sample_keyed_update; [split; reflexivity|vm_compute; reflexivity].
  - apply not_elem_of_nil.
  - apply not_elem_of_nil.
  - rewrite bool_decide_eq_false_2; [done|]. by intros (_ & _ & [=]).
Defined.
