(* ===== verification/SqlTool.v ===== *)
(** * The assistant's SQL tool ([services/chat/sql_tool_validator.py],
    [services/chat/read_only_sql_executor.py])

    The static check a query passes before a connection is opened, and the
    executor behind the two tools.  [sqlglot] and the database are parameters:
    a parsed statement is what the check reads of its tree, and the database
    says what its catalogue lists and how a statement under the chat role ends. *)

From S2P Require Import Prelude PyDecimal MoneyTypes Store Schema Access.
From Stdlib Require Import String Ascii.
From stdpp Require Import strings pretty.
Open Scope Z_scope.

(** ** What the check reads of a parsed statement *)

(** A node of type [exp.Func]: the boolean connectors are [Func]s too. *)
Record SqlFunction := { function_is_connector : bool; function_name : string }.

Record SqlStatement := {
  (** [isinstance(statement, _ALLOWED_STATEMENT_TYPES)] *)
  statement_is_select : bool;
  (** [find_all] of [exp.CTE], [exp.Table] and [exp.Func], anywhere in the tree *)
  statement_ctes : list string;
  statement_tables : list string;
  statement_functions : list SqlFunction;
  (** [statement.sql(dialect="postgres", comments=False)] *)
  statement_sql : string;
}.

(** [sqlglot.parse]: [None] for a [SqlglotError]; an empty statement parses to [None]. *)
Class Sqlglot := sqlglot_parse : string → option (list (option SqlStatement)).

(** ** [validate_query] *)

Definition CURATED_VIEW_NAMES : list string :=
  ["v_customer_balance"; "v_holdings"; "v_transaction_history"; "v_realized_gains"; "v_tax_lots"; "v_dividends";
   "v_period_return"; "v_published_snapshot"].

Definition ALLOWED_FUNCTIONS : list string :=
  ["sum"; "count"; "avg"; "min"; "max"; "coalesce"; "nullif"; "cast"; "abs"; "round"; "extract"; "date_trunc";
   "timestamp_trunc"; "current_timestamp"; "current_date"].

(** Texts in the order of their code points. *)
Definition str_leb (a b : string) : bool := bool_decide (String.leb a b = true).
Definition str_sorted (l : list string) : list string := sort_by str_leb l.

(** [sep.join(l)] *)
Fixpoint str_join (sep : string) (l : list string) : string :=
  match l with
  | [] => ""
  | [x] => x
  | x :: l => x +:+ sep +:+ str_join sep l
  end.

(** [ValidationResult]: the normalised statement, or the reason. *)
Definition ValidationResult : Type := string + string.
Definition query_ok (sql : string) : ValidationResult := inl sql.
Definition rejected (reason : string) : ValidationResult := inr reason.

Definition unavailable_relation (name : string) : string :=
  "relation '" +:+ name +:+ "' is not available to this assistant. Available views: " +:+
  str_join ", " (str_sorted CURATED_VIEW_NAMES) +:+ ".".

Definition unavailable_function (name : string) : string :=
  "function '" +:+ name +:+ "' is not available to this assistant. Available functions: " +:+
  str_join ", " (str_sorted ALLOWED_FUNCTIONS) +:+ ".".

(** The tables the first loop stops at, the functions the second one does. *)
Definition relation_refused (ctes : list string) (table : string) : bool :=
  bool_decide (str_lower table ∉ ctes) && bool_decide (str_lower table ∉ CURATED_VIEW_NAMES).

Definition function_refused (f : SqlFunction) : bool :=
  negb (function_is_connector f) && bool_decide (str_lower (function_name f) ∉ ALLOWED_FUNCTIONS).

Definition cte_names (s : SqlStatement) : list string := str_lower <$> statement_ctes s.

Definition check_statement (s : SqlStatement) : ValidationResult :=
  if negb (statement_is_select s) then rejected "only a SELECT statement is allowed"
  else
    match find (relation_refused (cte_names s)) (statement_tables s) with
    | Some table => rejected (unavailable_relation table)
    | None =>
        match find function_refused (statement_functions s) with
        | Some f => rejected (unavailable_function (str_lower (function_name f)))
        | None => query_ok (statement_sql s)
        end
    end.

(** The statements of the text that are not [None]. *)
Definition parsed_statements `{Sqlglot} (sql : string) : option (list SqlStatement) :=
  match sqlglot_parse sql with Some parsed => Some (omap id parsed) | None => None end.

Definition validate_query `{Sqlglot} (sql : string) : ValidationResult :=
  match parsed_statements sql with
  | None => rejected "the query could not be parsed as SQL"
  | Some [] => rejected "no SQL statement was found"
  | Some [s] => check_statement s
  | Some _ => rejected "only a single SQL statement is allowed"
  end.

(** ** [ReadOnlySqlExecutor] *)

Definition SqlRow : Type := list (string * string).

(** [SqlToolOutcome] *)
Record SqlToolOutcome := {
  outcome_status : string;
  outcome_rows : list SqlRow;
  outcome_row_count : Z;
  outcome_message : string;
}.

Definition failure (status message : string) : SqlToolOutcome :=
  {| outcome_status := status; outcome_rows := []; outcome_row_count := 0; outcome_message := message |}.

(** How a statement under the chat role ends: its rows (a NULL is [None]), a
    cancellation, or any other error of the database. *)
Inductive sql_answer := SqlRows (rows : list (list (string * option string))) | SqlCanceled | SqlFailed.

(** The database under [DbRole.CHAT], for one customer. *)
Class ChatDatabase := {
  (** [information_schema.columns] restricted to some tables, ordered by table
      and position *)
  catalogue : uuid → list string → list (string * string);
  (** a statement under a timeout in milliseconds *)
  run_statement : uuid → Z → string → sql_answer;
}.

Definition HIDDEN_SCHEMA_COLUMNS : list string := ["customer_id"].

Definition SCHEMA_SCOPE_NOTE : string :=
  "-- Every view below already returns only the signed-in customer's own rows. There is no customer id for you to supply; never put customer_id in a WHERE clause.".

Record ReadOnlySqlExecutor := { statement_timeout_ms : Z; row_cap : Z }.

(** [ReadOnlySqlExecutor.__init__] *)
Definition sql_executor (statement_timeout_ms row_cap : Z) : result ReadOnlySqlExecutor :=
  ensure (negb ((statement_timeout_ms <=? 0) || (row_cap <=? 0))) ValueError ;;
  Ok {| statement_timeout_ms := statement_timeout_ms; row_cap := row_cap |}.

(** [columns_by_view.setdefault(view, []).append(column)] *)
Fixpoint append_column (view column : string) (m : list (string * list string)) : list (string * list string) :=
  match m with
  | [] => [(view, [column])]
  | (v, cs) :: m => if decide (v = view) then (v, cs ++ [column]) :: m else (v, cs) :: append_column view column m
  end.

Definition columns_by_view (rows : list (string * string)) : list (string * list string) :=
  foldl (λ m r, if bool_decide (r.2 ∈ HIDDEN_SCHEMA_COLUMNS) then m else append_column r.1 r.2 m) [] rows.

Definition NEWLINE : string := String (ascii_of_N 10) "".

Section Executor.
Context `{ChatDatabase}.

(** [describe_schema]; the keys of the dict are distinct, so the sort is by them. *)
Definition describe_schema (customer : uuid) : string :=
  let views := sort_by (λ a b, str_leb a.1 b.1) (columns_by_view (catalogue customer (str_sorted CURATED_VIEW_NAMES))) in
  SCHEMA_SCOPE_NOTE +:+ NEWLINE +:+
  str_join NEWLINE ((λ v, v.1 +:+ "(" +:+ str_join ", " v.2 +:+ ")") <$> views).

(** [_stringify] *)
Definition stringify (v : option string) : string := default "" v.

Definition stringify_row (row : list (string * option string)) : SqlRow := (λ kv, (kv.1, stringify kv.2)) <$> row.

Definition wrapped_sql (x : ReadOnlySqlExecutor) (normalized : string) : string :=
  "SELECT * FROM (" +:+ normalized +:+ ") AS sub LIMIT " +:+ pretty (row_cap x).

Definition execute `{Sqlglot} (x : ReadOnlySqlExecutor) (sql : string) (customer : uuid) : SqlToolOutcome :=
  match validate_query sql with
  | inr reason => failure "validator_rejected" (if String.eqb reason "" then "query rejected" else reason)
  | inl normalized =>
      match run_statement customer (statement_timeout_ms x) (wrapped_sql x normalized) with
      | SqlCanceled => failure "timeout" "the query took too long and was cancelled"
      | SqlFailed => failure "error" "the query could not be executed"
      | SqlRows mappings =>
          let rows : list SqlRow := stringify_row <$> mappings in
          {| outcome_status := "success"; outcome_rows := rows; outcome_row_count := Z.of_nat (length rows);
             outcome_message := "" |}
      end
  end.
End Executor.

(** ** What a query that passes may read *)

Lemma find_None_iff {A} (f : A → bool) l : find f l = None ↔ Forall (λ x, f x = false) l.
Proof.
  induction l as [|x l IH]; cbn; [by split|]. rewrite Forall_cons. destruct (f x); [|tauto].
  by split; [|intros [? _]].
Qed.

Lemma check_statement_ok s sql :
  check_statement s = inl sql →
  statement_is_select s = true ∧ sql = statement_sql s ∧
  Forall (λ t, str_lower t ∈ CURATED_VIEW_NAMES ∨ str_lower t ∈ cte_names s) (statement_tables s) ∧
  Forall (λ f, function_is_connector f = true ∨ str_lower (function_name f) ∈ ALLOWED_FUNCTIONS) (statement_functions s).
Proof.
  unfold check_statement. destruct (statement_is_select s); [|done]. cbn [negb].
  destruct (find _ (statement_tables s)) eqn:Et; [done|]. destruct (find _ (statement_functions s)) eqn:Ef; [done|].
  intros [= <-]. apply find_None_iff in Et, Ef. split_and!; [done|done| |].
  - apply (Forall_impl _ _ _ Et). intros t. unfold relation_refused. rewrite andb_false_iff, !bool_decide_eq_false. intros [Ht|Ht].
    + right. destruct (decide (str_lower t ∈ cte_names s)); [done|tauto].
    + left. destruct (decide (str_lower t ∈ CURATED_VIEW_NAMES)); [done|tauto].
  - apply (Forall_impl _ _ _ Ef). intros f. unfold function_refused. rewrite andb_false_iff, negb_false_iff, bool_decide_eq_false.
    intros [Hf|Hf]; [by left|right]. destruct (decide (str_lower (function_name f) ∈ ALLOWED_FUNCTIONS)); [done|tauto].
Qed.

(** A query reaches the database only when its text parses to one
    SELECT-like statement whose relations are curated views or names of its own
    CTEs and whose functions are allowed, and what is sent is that statement's
    own text under the row limit; the outcome is never an exception. *)
Theorem executed_query_is_checked `{Sqlglot, ChatDatabase} x sql customer :
  (∃ s, parsed_statements sql = Some [s] ∧ statement_is_select s = true ∧
     Forall (λ t, str_lower t ∈ CURATED_VIEW_NAMES ∨ str_lower t ∈ cte_names s) (statement_tables s) ∧
     Forall (λ f, function_is_connector f = true ∨ str_lower (function_name f) ∈ ALLOWED_FUNCTIONS) (statement_functions s) ∧
     outcome_status (execute x sql customer) =
       match run_statement customer (statement_timeout_ms x) (wrapped_sql x (statement_sql s)) with
       | SqlRows _ => "success" | SqlCanceled => "timeout" | SqlFailed => "error"
       end%string) ∨
  ∃ reason, validate_query sql = inr reason ∧ outcome_status (execute x sql customer) = "validator_rejected"%string ∧
    ∀ D, execute (H := D) x sql customer = execute x sql customer.
Proof.
  unfold execute. destruct (validate_query sql) as [normalized|reason] eqn:E.
  - left. unfold validate_query in E. destruct (parsed_statements sql) as [[|s [|? ?]]|]; try done.
    apply check_statement_ok in E as (Hs & -> & Ht & Hf). exists s. split_and!; [done..|].
    by destruct (run_statement _ _ _).
  - right. by exists reason.
Qed.

(** A CTE's name exempts every relation of that name in the statement, in its
    scope or not: the outer [customer] of this query is the base table. *)
Definition shadowing_query : SqlStatement :=
  {| statement_is_select := true; statement_ctes := ["customer"]; statement_tables := ["customer"; "customer"];
     statement_functions := [];
     statement_sql := "SELECT * FROM (WITH customer AS (SELECT 1 AS x) SELECT * FROM customer) AS a, customer" |}.

Lemma cte_name_exempts_base_table : check_statement shadowing_query = inl (statement_sql shadowing_query).
Proof. vm_compute. reflexivity. Qed.
