(* ===== verification/Chat.v ===== *)
(** * The account assistant ([models/chat], [services/chat], [controllers/api/chat.py])

    A turn is several transactions: one starts it, taking the session's
    concurrency lock and writing the two messages; then the reply is streamed
    while the agent calls its tools, each call audited in a transaction of its
    own; the text is written once; and the lock is given back when the stream's
    generator ends or is closed.  The agent is a tree of what it does next: an
    event for the reader, or a call of one of the three functions it is given. *)

From S2P Require Import Prelude PyDecimal MoneyTypes Calendar Store Schema Uuids Ledger Operations Access SqlTool.
From stdpp Require Import relations.
From Stdlib Require Import String Ascii.
From stdpp Require Import strings.
Open Scope Z_scope.

(** ** Repositories *)

Definition session_by_id (d : db) (id : uuid) : option ChatSession :=
  head (filter (λ s, chat_id s = id) (chat_sessions d)).

(** [order_by(created_at.desc())] and [order_by(created_at.asc())]: rows of one
    instant in the order they were inserted, which the database does not
    promise. *)
Definition list_for_customer (d : db) (customer : uuid) : list ChatSession :=
  sort_by (λ a b, chat_created_at b <=? chat_created_at a)
    (filter (λ s, chat_customer_id s = customer) (chat_sessions d)).

Definition messages_of (d : db) (session : uuid) : list ChatMessage :=
  filter (λ m, message_session_id m = session) (chat_messages d).

Definition list_for_session (d : db) (session : uuid) : list ChatMessage :=
  sort_by (λ a b, message_created_at a <=? message_created_at b) (messages_of d session).

Definition set_chat_status (st : ChatSessionStatus) (s : ChatSession) : ChatSession :=
  {| chat_id := chat_id s; chat_customer_id := chat_customer_id s; chat_status := st;
     chat_created_at := chat_created_at s |}.

(** [try_begin_turn]: the row count of the conditional UPDATE. *)
Definition idle_session (id : uuid) (s : ChatSession) : bool :=
  (chat_id s =? id) && bool_decide (chat_status s = IDLE).

Definition try_begin_turn (id : uuid) : prog bool :=
  rowcount ← gets (λ d, length (filter (λ s, idle_session id s = true) (chat_sessions d)));
  update TChatSession (idle_session id) (set_chat_status STREAMING) ;;
  mret (Nat.eqb rowcount 1).

Definition end_turn (id : uuid) : prog () :=
  update TChatSession (λ s : ChatSession, chat_id s =? id) (set_chat_status IDLE).

Definition counted (customer : uuid) (since : instant) (m : ChatMessage) : Prop :=
  message_customer_id m = Some customer ∧ message_role m = USER ∧ since <= message_created_at m.

Definition count_for_customer_since (d : db) (customer : uuid) (since : instant) : Z :=
  Z.of_nat (length (filter (counted customer since) (chat_messages d))).

Definition set_content (content : string) (m : ChatMessage) : ChatMessage :=
  {| message_id := message_id m; message_session_id := message_session_id m; message_customer_id := message_customer_id m;
     message_role := message_role m; message_content := content; message_created_at := message_created_at m |}.

(** [finalize_content]: an unchanged attribute emits no UPDATE. *)
Definition finalize_content (id : uuid) (content : string) : prog () :=
  found ← gets (λ d, filter (λ m, message_id m = id) (chat_messages d));
  match found with
  | [] => throw NoResultFound
  | [m] =>
      if String.eqb content (message_content m) then mret tt
      else update TChatMessage (λ x : ChatMessage, message_id x =? id) (set_content content)
  | _ => throw MultipleResultsFound
  end.

(** A message with the customer its trigger copies from the session. *)
Definition chat_message (id session : uuid) (d : db) (role : ChatMessageRole) (content : string) : ChatMessage :=
  {| message_id := id; message_session_id := session;
     message_customer_id := chat_customer_id <$> session_by_id d session; message_role := role;
     message_content := content; message_created_at := db_now d |}.

Definition add_message (session : uuid) (role : ChatMessageRole) (content : string) : prog uuid :=
  id ← uuid4;
  m ← gets (λ d, chat_message id session d role content);
  add TChatMessage m ;;
  mret id.

(** ** [ChatUsageLimiter] *)

Definition check_usage (daily_query_cap : Z) (now : instant) (customer : uuid) : prog () :=
  count ← gets (λ d, count_for_customer_since d customer (now - US_PER_DAY));
  require (negb (daily_query_cap <=? count)) DailyQueryCapExceededError.

(** ** [ChatAuditService] *)

Definition chat_tool_name (s : string) : result ChatToolName :=
  if String.eqb s "get_database_schema" then Ok GET_DATABASE_SCHEMA
  else if String.eqb s "execute_read_only_sql" then Ok EXECUTE_READ_ONLY_SQL
  else Raise ValueError.

Definition chat_tool_call_status (s : string) : result ChatToolCallStatus :=
  if String.eqb s "success" then Ok CALL_SUCCESS
  else if String.eqb s "validator_rejected" then Ok CALL_VALIDATOR_REJECTED
  else if String.eqb s "timeout" then Ok CALL_TIMEOUT
  else if String.eqb s "error" then Ok CALL_ERROR
  else Raise ValueError.

Definition message_customer (d : db) (id : uuid) : option uuid :=
  m ← head (filter (λ m, message_id m = id) (chat_messages d));
  message_customer_id m.

Definition record_tool_call (message : uuid) (tool_name : string) (sql_text : option string)
    (outcome : SqlToolOutcome) (latency_ms : Z) : prog () :=
  tool ← lift (chat_tool_name tool_name);
  status ← lift (chat_tool_call_status (outcome_status outcome));
  id ← uuid4;
  call ← gets (λ d,
    {| call_id := id; call_message_id := message; call_customer_id := message_customer d message; call_tool_name := tool;
       call_sql_text := sql_text;
       call_row_count := if String.eqb (outcome_status outcome) "success" then Some (outcome_row_count outcome) else None;
       call_latency_ms := latency_ms; call_status := status; call_created_at := db_now d |});
  add TChatToolCall call.

(** ** Starting a turn ([ChatOrchestrationService.begin_turn]) *)

Definition chat_role_value (r : ChatMessageRole) : string := match r with USER => "user" | ASSISTANT => "assistant" end.

Record ConversationTurn := { turn_role : string; turn_content : string }.

Record BegunTurn := {
  begun_session_id : uuid;
  begun_customer_id : uuid;
  begun_message_id : uuid;
  begun_history : list ConversationTurn;
}.

Definition conversation (l : list ChatMessage) : list ConversationTurn :=
  (λ m, {| turn_role := chat_role_value (message_role m); turn_content := message_content m |}) <$>
  filter (λ m, message_content m ≠ "") l.

(** The transaction runs under the customer's advisory lock. *)
Definition begin_turn (daily_query_cap : Z) (now : instant) (session customer : uuid) (message_text : string)
    : prog BegunTurn :=
  check_usage daily_query_cap now customer ;;
  history ← gets (λ d, conversation (list_for_session d session));
  won ← try_begin_turn session;
  require won TurnAlreadyInProgressError ;;
  add_message session USER message_text ;;
  assistant ← add_message session ASSISTANT "";
  mret {| begun_session_id := session; begun_customer_id := customer; begun_message_id := assistant;
          begun_history := history |}.

(** ** The agent ([LlmAgentPort]) *)

Inductive ChatStreamEvent :=
  | ChatTokenEvent (text : string)
  | ChatCompletedEvent (final_text : string) (tool_calls : list (string * string))
  | ChatErrorEvent (message : string).

(** What [run_turn] does next: it ends, raises, yields, or calls one of the
    functions of its [ChatToolContext] and goes on with the answer. *)
Inductive agent :=
  | AgentEnds
  | AgentRaises (e : exn)
  | AgentYields (ev : ChatStreamEvent) (k : agent)
  | AgentGetsSchema (k : string → agent)
  | AgentExecutes (sql : string) (k : SqlToolOutcome → agent)
  | AgentReports (tool_name : string) (sql_text : option string) (outcome : SqlToolOutcome) (latency_ms : Z)
      (k : result () → agent).

(** *** [FakeAgentAdapter] *)

Record FakeToolCall := { fake_tool_name : string; fake_sql : option string }.

Definition fake_summary (c : FakeToolCall) (outcome : SqlToolOutcome) : string * string :=
  (fake_tool_name c, outcome_status outcome +:+ ", " +:+ pretty.pretty (outcome_row_count outcome) +:+ " row(s)").

(** [text.split(" ")] *)
Definition split_words (s : string) : list string :=
  let '(word, words) :=
    foldr (λ c '(word, words), if Ascii.eqb c " " then ("", word :: words) else (String c word, words))
          ("", []) (chars s) in
  word :: words.

Definition fake_words (final_text : string) (summaries : list (string * string)) : agent :=
  foldr (λ word, AgentYields (ChatTokenEvent (word +:+ " ")))
        (AgentYields (ChatCompletedEvent final_text summaries) AgentEnds) (split_words final_text).

(** The tool calls in order; [latency] stands for the measured milliseconds, and
    an exception of the audit ends the turn. *)
Fixpoint fake_tools (latency : Z) (calls : list FakeToolCall) (final_text : string) (summaries : list (string * string))
    : agent :=
  match calls with
  | [] => fake_words final_text summaries
  | c :: calls =>
      if String.eqb (fake_tool_name c) "get_database_schema" then
        AgentGetsSchema (λ schema,
          AgentReports (fake_tool_name c) None (failure "success" schema) latency (λ done,
            match done with
            | Ok _ => fake_tools latency calls final_text (summaries ++ [(fake_tool_name c, "fetched the curated schema")])
            | Raise e => AgentRaises e
            end))
      else
        AgentExecutes (default "" (fake_sql c)) (λ outcome,
          AgentReports (fake_tool_name c) (fake_sql c) outcome latency (λ done,
            match done with
            | Ok _ => fake_tools latency calls final_text (summaries ++ [fake_summary c outcome])
            | Raise e => AgentRaises e
            end))
  end.

Definition fake_agent (max_tool_iterations latency : Z) (tool_calls : list FakeToolCall) (final_text : string) : agent :=
  if max_tool_iterations <? Z.of_nat (length tool_calls)
  then AgentYields (ChatErrorEvent "the assistant needed more steps than this turn allows; please rephrase") AgentEnds
  else fake_tools latency tool_calls final_text [].

(** ** Streaming a turn ([stream_turn]) *)

Section Stream.
Context `{Sqlglot, ChatDatabase} (x : ReadOnlySqlExecutor).

(** What a [next] of the agent's generator gives. *)
Inductive pulled := Pulled (ev : ChatStreamEvent) (rest : agent) | Ended | Raised (e : exn).

(** The loop's body up to its [yield]: a terminal event is written first. *)
Definition on_event (begun : BegunTurn) (ev : ChatStreamEvent) : prog () :=
  match ev with
  | ChatTokenEvent _ => mret tt
  | ChatCompletedEvent final_text _ => finalize_content (begun_message_id begun) final_text
  | ChatErrorEvent message => finalize_content (begun_message_id begun) message
  end.

Fixpoint next_event (begun : BegunTurn) (a : agent) (d : db) : pulled * db :=
  match a with
  | AgentEnds => (Ended, d)
  | AgentRaises e => (Raised e, d)
  | AgentYields ev k =>
      match transact no_deferred (on_event begun ev) d with
      | (Ok _, d') => (Pulled ev k, d')
      | (Raise e, d') => (Raised e, d')
      end
  | AgentGetsSchema k => next_event begun (k (describe_schema (begun_customer_id begun))) d
  | AgentExecutes sql k => next_event begun (k (execute x sql (begun_customer_id begun))) d
  | AgentReports tool sql_text outcome latency k =>
      let (done, d') := transact no_deferred (record_tool_call (begun_message_id begun) tool sql_text outcome latency) d in
      next_event begun (k done) d'
  end.

(** [_release_lock], in the [finally] *)
Definition release_lock (begun : BegunTurn) (d : db) : db :=
  (transact no_deferred (end_turn (begun_session_id begun)) d).2.

(** The server takes [pulls] events, then closes the generator: what it got,
    what was raised, the store. *)
Fixpoint consume (begun : BegunTurn) (a : agent) (pulls : nat) (d : db) : list ChatStreamEvent * option exn * db :=
  match pulls with
  | O => ([], None, release_lock begun d)
  | S pulls =>
      match next_event begun a d with
      | (Pulled ev k, d') => let '(evs, e, d'') := consume begun k pulls d' in (ev :: evs, e, d'')
      | (Ended, d') => ([], None, release_lock begun d')
      | (Raised e, d') => ([], Some e, release_lock begun d')
      end
  end.

(** A generator that was never started runs nothing when it is closed, its
    [finally] included. *)
Definition stream_turn (begun : BegunTurn) (a : agent) (pulls : nat) (d : db) : list ChatStreamEvent * option exn * db :=
  match pulls with O => ([], None, d) | _ => consume begun a pulls d end.
End Stream.

(** ** Routes ([controllers/api/chat.py]) *)

(** [create_session] *)
Definition create_session (r : HttpRequest) : prog uuid :=
  customer ← lift (current_customer_id r);
  id ← uuid4;
  now ← gets db_now;
  add TChatSession {| chat_id := id; chat_customer_id := customer; chat_status := IDLE; chat_created_at := now |} ;;
  mret id.

(** [list_sessions] *)
Definition list_sessions (r : HttpRequest) (d : db) : result (list ChatSession) :=
  customer ← current_customer_id r;
  Ok (list_for_customer d customer).

(** [_get_owned_session]: row-level security leaves a customer's own rows. *)
Definition get_owned_session (d : db) (customer id : uuid) : result ChatSession :=
  match head (filter (λ s, chat_id s = id ∧ chat_customer_id s = customer) (chat_sessions d)) with
  | Some s => Ok s
  | None => Raise NotFoundError
  end.

(** [list_messages] *)
Definition list_messages (r : HttpRequest) (session : uuid) (d : db) : result (list ChatMessage) :=
  customer ← current_customer_id r;
  get_owned_session d customer session ;;
  Ok (filter (λ m, message_content m ≠ "" ∨ message_role m = USER) (list_for_session d session)).

(** [send_message] up to its response: [content] is the body's field, absent
    when the body has none or one that is not a text. *)
Definition MAX_MESSAGE_LENGTH : Z := 4000.

Definition chat_error (e : exn) : exn :=
  match e with
  | DailyQueryCapExceededError => CodedError 429 "daily_chat_query_cap_exceeded"
  | TurnAlreadyInProgressError => CodedError 409 "chat_turn_in_progress"
  | e => e
  end.

Definition message_body (content : option string) : result string :=
  match content with
  | None => Raise ValidationError
  | Some text =>
      let n := Z.of_nat (String.length text) in
      ensure ((1 <=? n) && (n <=? MAX_MESSAGE_LENGTH)) ValidationError ;; Ok text
  end.

Definition send_message (daily_query_cap : Z) (now : instant) (r : HttpRequest) (session : uuid)
    (content : option string) (d : db) : result BegunTurn * db :=
  match (customer ← current_customer_id r;
         get_owned_session d customer session ;;
         text ← message_body content;
         Ok (customer, text)) with
  | Raise e => (Raise e, d)
  | Ok (customer, text) =>
      match transact no_deferred (begin_turn daily_query_cap now session customer text) d with
      | (Ok begun, d') => (Ok begun, d')
      | (Raise e, d') => (Raise (chat_error e), d')
      end
  end.

(** ** Lemmas: the session's status *)

Lemma sessions_conflict_free (l : list ChatSession) :
  conflict_free (H := trueup) TChatSession l = true ↔ NoDup (chat_id <$> l).
Proof. by refine (conflict_free_key (H := trueup) TChatSession chat_id l _). Qed.

Definition set_where (p : ChatSession → bool) (st : ChatSessionStatus) (s : ChatSession) : ChatSession :=
  if p s then set_chat_status st s else s.

Lemma set_where_id p st s : chat_id (set_where p st s) = chat_id s.
Proof. unfold set_where. by destruct (p s). Qed.

Lemma run_set_status p st (d d' : db) u :
  integrity d →
  run (update TChatSession p (set_chat_status st)) d = Ok (u, d') ↔
  d' = set_table (H := trueup) TChatSession (set_where p st <$> chat_sessions d) d.
Proof.
  intros Hd. rewrite run_update_Ok. split; [by intros (_ & _ & _ & _ & ->)|]. intros ->.
  assert (update_table (H := trueup) TChatSession p (set_chat_status st) d = set_where p st <$> chat_sessions d) as Hu by reflexivity.
  rewrite Hu. split_and!; [done| | | |done].
  - apply forallb_forall. intros s _. by destruct (p s).
  - by apply forallb_forall.
  - apply sessions_conflict_free. rewrite <- list_fmap_compose.
    rewrite (list_fmap_ext _ chat_id) by (intros i s _; apply set_where_id).
    destruct (Hd TChatSession) as [_ Hc]. by apply sessions_conflict_free.
Qed.

Lemma chat_sessions_set l (d : db) : chat_sessions (set_table (H := trueup) TChatSession l d) = l.
Proof. exact (tables_set_same (H := trueup) TChatSession l d). Qed.

(** The session is streaming: another turn holds its lock. *)
Definition streaming (d : db) (id : uuid) : Prop :=
  ∃ s, s ∈ chat_sessions d ∧ chat_id s = id ∧ chat_status s = STREAMING.

Lemma session_unique (d : db) s s' :
  integrity d → s ∈ chat_sessions d → s' ∈ chat_sessions d → chat_id s = chat_id s' → s = s'.
Proof.
  intros Hd Hs Hs' He.
  assert (filter (λ y, chat_id y = chat_id s) (chat_sessions d) = [s]) as Hf.
  { refine (filter_unique (H := trueup) TChatSession chat_id d s _ Hd Hs). intros a b Hab. by apply Z.eqb_eq. }
  assert (s' ∈ filter (λ y, chat_id y = chat_id s) (chat_sessions d)) as Hin by by apply list_elem_of_filter.
  rewrite Hf in Hin. by apply list_elem_of_singleton in Hin.
Qed.

(** What the release leaves: the session idle, the other sessions as they were. *)
Lemma release_lock_sessions begun d :
  integrity d →
  chat_sessions (release_lock begun d) =
    set_where (λ s, chat_id s =? begun_session_id begun) IDLE <$> chat_sessions d ∧
  (∀ t, t ≠ TChatSession → tables (H := trueup) (release_lock begun d) t = tables d t) ∧
  integrity (release_lock begun d).
Proof.
  intros Hd. unfold release_lock, transact, end_turn.
  set (p := λ s : ChatSession, chat_id s =? begun_session_id begun).
  pose proof (proj2 (run_set_status p IDLE d _ tt Hd) eq_refl) as Hr. rewrite Hr. cbn [no_deferred snd].
  split_and!; [apply chat_sessions_set| |by eapply run_integrity].
  intros t Ht. exact (tables_set_ne (H := trueup) TChatSession t _ d (not_eq_sym Ht)).
Qed.

Lemma released_idle begun d : integrity d → ¬ streaming (release_lock begun d) (begun_session_id begun).
Proof.
  intros Hd (s & Hs & He & Hst). destruct (release_lock_sessions begun d Hd) as (Hr & _ & _). rewrite Hr in Hs.
  apply list_elem_of_fmap in Hs as (s0 & -> & _). rewrite set_where_id in He.
  unfold set_where in Hst. by rewrite (proj2 (Z.eqb_eq _ _) He) in Hst.
Qed.

Lemma released_others begun d id :
  integrity d → id ≠ begun_session_id begun → streaming (release_lock begun d) id ↔ streaming d id.
Proof.
  intros Hd Hne. destruct (release_lock_sessions begun d Hd) as (Hr & _ & _). unfold streaming. rewrite Hr. split.
  - intros (s & (s0 & -> & Hin)%list_elem_of_fmap & He & Hst). rewrite set_where_id in He. exists s0. split_and!; [done|done|].
    unfold set_where in Hst. by rewrite (proj2 (Z.eqb_neq _ _)) in Hst by congruence.
  - intros (s & Hin & He & Hst). exists s. split_and!; [|done|done]. apply list_elem_of_fmap. exists s. split; [|done].
    unfold set_where. by rewrite (proj2 (Z.eqb_neq _ _)) by congruence.
Qed.

(** ** Lemmas: starting a turn *)

Lemma run_try_begin id (d d' : db) b :
  integrity d →
  run (try_begin_turn id) d = Ok (b, d') →
  d' = set_table (H := trueup) TChatSession (set_where (idle_session id) STREAMING <$> chat_sessions d) d ∧
  b = Nat.eqb (length (filter (λ s, idle_session id s = true) (chat_sessions d))) 1.
Proof.
  intros Hd Hr. unfold try_begin_turn in Hr. apply run_bind_Ok in Hr as (n & d0 & [<- <-]%run_gets_Ok & Hr).
  apply run_bind_Ok in Hr as ([] & d1 & Hu & [<- <-]%run_ret_Ok).
  split; [|done]. by apply (run_set_status _ _ _ _ tt).
Qed.

Lemma begin_won id (d : db) :
  integrity d →
  length (filter (λ s, idle_session id s = true) (chat_sessions d)) = 1%nat →
  ∃ s, s ∈ chat_sessions d ∧ chat_id s = id ∧ chat_status s = IDLE.
Proof.
  intros _ Hl. destruct (filter _ (chat_sessions d)) as [|s l] eqn:E; [done|]. exists s.
  assert (s ∈ filter (λ s, idle_session id s = true) (chat_sessions d)) as Hin by (rewrite E; by left).
  apply list_elem_of_filter in Hin as [Hi Hs]. unfold idle_session in Hi.
  apply andb_true_iff in Hi as [He Hi]. split_and!; [done|by apply Z.eqb_eq|by apply bool_decide_eq_true in Hi].
Qed.

Lemma begin_lost id (d : db) :
  streaming d id → integrity d → length (filter (λ s, idle_session id s = true) (chat_sessions d)) = 0%nat.
Proof.
  intros (s & Hs & He & Hst) Hd. apply length_zero_iff_nil, filter_none. intros s' Hs' Hi. unfold idle_session in Hi.
  apply andb_true_iff in Hi as [He' Hi]. apply Z.eqb_eq in He'. apply bool_decide_eq_true in Hi.
  assert (s' = s) as -> by (apply (session_unique d); [done..|congruence]). by rewrite Hst in Hi.
Qed.

Lemma writes_add_message session role content : writes (H := trueup) [TChatMessage] (add_message session role content).
Proof. unfold add_message. writes_auto. Qed.

Lemma run_add_message session role content (d d' : db) id :
  run (add_message session role content) d = Ok (id, d') →
  id = next_uuid d ∧ next_uuid d' = next_uuid d + 1 ∧
  chat_messages d' = chat_messages d ++ [chat_message id session d role content].
Proof.
  unfold add_message. intros Hr. apply run_bind_Ok in Hr as (i & d1 & [-> ->]%run_uuid4_Ok & Hr).
  apply run_bind_Ok in Hr as (m & d2 & [<- <-]%run_gets_Ok & Hr).
  apply run_bind_Ok in Hr as ([] & d2 & [_ ->]%run_add_Ok & [<- <-]%run_ret_Ok).
  split_and!; [done|done|].
  exact (tables_set_same (H := trueup) TChatMessage _ (Db (tables d) (next_uuid d + 1) (db_now d))).
Qed.

Lemma writes_begin_turn cap now session customer text :
  writes (H := trueup) [TChatSession; TChatMessage] (begin_turn cap now session customer text).
Proof.
  unfold begin_turn, check_usage, try_begin_turn. writes_auto.
  all: eapply writes_weaken; [apply writes_add_message|set_solver].
Qed.

(** Everything a turn that starts has found and done. *)
Record turn_began (cap : Z) (now : instant) (session customer : uuid) (text : string) (begun : BegunTurn) (d d' : db) : Prop := {
  began_session : begun_session_id begun = session;
  began_customer : begun_customer_id begun = customer;
  began_history : begun_history begun = conversation (list_for_session d session);
  began_under_cap : count_for_customer_since d customer (now - US_PER_DAY) < cap;
  began_idle : ∃ s, s ∈ chat_sessions d ∧ chat_id s = session ∧ chat_status s = IDLE;
  began_sessions : chat_sessions d' = set_where (idle_session session) STREAMING <$> chat_sessions d;
  began_messages : ∃ u a, chat_messages d' = chat_messages d ++ [u; a] ∧
    message_session_id u = session ∧ message_role u = USER ∧ message_content u = text ∧
    message_session_id a = session ∧ message_role a = ASSISTANT ∧ message_content a = "" ∧
    message_id a = begun_message_id begun ∧ message_created_at u = message_created_at a;
}.

Lemma begin_turn_Ok cap now session customer text (d d' : db) begun :
  integrity d → run (begin_turn cap now session customer text) d = Ok (begun, d') →
  turn_began cap now session customer text begun d d'.
Proof.
  intros Hd Hr. unfold begin_turn, check_usage in Hr.
  apply run_bind_Ok in Hr as ([] & d0 & Hc & Hr).
  apply run_bind_Ok in Hc as (n & d1 & [<- <-]%run_gets_Ok & [Hcap <-]%run_require_Ok).
  apply run_bind_Ok in Hr as (h & d1 & [<- <-]%run_gets_Ok & Hr).
  apply run_bind_Ok in Hr as (won & d1 & Ht & Hr).
  pose proof (run_integrity _ _ _ _ Hd Ht) as Hd1. apply (run_try_begin _ _ _ _ Hd) in Ht as [Hs Hw].
  apply run_bind_Ok in Hr as ([] & d2 & [-> <-]%run_require_Ok & Hr).
  apply run_bind_Ok in Hr as (u & d2 & Hu & Hr). apply run_bind_Ok in Hr as (a & d3 & Ha & [<- <-]%run_ret_Ok).
  pose proof (writes_add_message _ _ _ _ _ _ Hu) as Hfu. pose proof (writes_add_message _ _ _ _ _ _ Ha) as Hfa.
  pose proof (run_extends _ _ _ _ Hu) as (_ & Hnow & _).
  apply run_add_message in Hu as (-> & _ & Hu). apply run_add_message in Ha as (-> & _ & Ha).
  assert (chat_messages d1 = chat_messages d) as Hm
    by (rewrite Hs; exact (tables_set_ne (H := trueup) TChatSession TChatMessage _ d ltac:(done))).
  constructor; try done.
  - apply negb_true_iff, Z.leb_gt in Hcap. exact Hcap.
  - apply begin_won; [done|]. by apply Nat.eqb_eq.
  - transitivity (chat_sessions d1); [|by rewrite Hs, chat_sessions_set].
    transitivity (chat_sessions d2); [apply (Hfa TChatSession); set_solver|apply (Hfu TChatSession); set_solver].
  - rewrite Ha, Hu, Hm, <- app_assoc. eexists _, _. split; [reflexivity|]. cbn. by rewrite Hnow.
Qed.

Lemma begin_turn_refused cap now session customer text (d : db) :
  integrity d → streaming d session →
  run (begin_turn cap now session customer text) d = Raise DailyQueryCapExceededError ∨
  run (begin_turn cap now session customer text) d = Raise TurnAlreadyInProgressError.
Proof.
  intros Hd Hs. destruct (run (begin_turn cap now session customer text) d) as [[begun d']|e] eqn:E.
  - exfalso. apply begin_turn_Ok in E as []; [|done]. destruct began_idle0 as (s & Hin & He & Hi).
    destruct Hs as (s' & Hin' & He' & Hst). assert (s' = s) as -> by (apply (session_unique d); [done..|congruence]). congruence.
  - unfold begin_turn in E. rewrite run_bind in E.
    assert (run (check_usage cap now customer) d = Ok (tt, d) ∨
            run (check_usage cap now customer) d = Raise DailyQueryCapExceededError) as [Hc|Hc]
      by (unfold check_usage; cbn; destruct (negb _); [by left|by right]).
    2: { rewrite Hc in E. left. exact (eq_sym E). }
    rewrite Hc in E. right.
    rewrite run_bind in E. cbn [run gets] in E. rewrite run_bind in E.
    destruct (run (try_begin_turn session) d) as [[won d1]|e'] eqn:Et.
    + apply run_try_begin in Et as [_ ->]; [|done]. rewrite begin_lost in E by done. exact (eq_sym E).
    + exfalso. unfold try_begin_turn in Et. rewrite run_bind in Et. cbn [gets run] in Et. rewrite run_bind in Et.
      by rewrite (proj2 (run_set_status _ _ d _ tt Hd) eq_refl) in Et.
Qed.

Lemma began_streaming cap now session customer text begun d d' :
  turn_began cap now session customer text begun d d' → streaming d' session.
Proof.
  intros []. destruct began_idle0 as (s & Hin & He & Hi). exists (set_chat_status STREAMING s). split_and!; [|done|done].
  rewrite began_sessions0. apply list_elem_of_fmap. exists s. split; [|done]. unfold set_where, idle_session.
  by rewrite He, Hi, Z.eqb_refl.
Qed.

Lemma began_others cap now session customer text begun d d' id :
  turn_began cap now session customer text begun d d' → streaming d id → streaming d' id.
Proof.
  intros [] (s & Hin & He & Hst). exists s. split_and!; [|done|done]. rewrite began_sessions0.
  apply list_elem_of_fmap. exists s. split; [|done]. unfold set_where, idle_session. rewrite Hst.
  by rewrite bool_decide_eq_false_2, andb_false_r.
Qed.

(** ** Lemmas: the stream *)

(** The messages of a stream: the assistant's may be written once. *)
Definition written_once (id : uuid) (m m' : ChatMessage) : Prop :=
  m' = m ∨ message_id m = id ∧ message_content m = "" ∧ ∃ c, m' = set_content c m.

Definition finalized (id : uuid) : list ChatMessage → list ChatMessage → Prop := Forall2 (written_once id).

#[export] Instance written_once_preorder id : PreOrder (written_once id).
Proof.
  split; [by left|]. intros m1 m2 m3 Ha [->|(Hi & He & c & ->)]; [done|].
  destruct Ha as [->|(Hi1 & He1 & c1 & ->)]; right; [by split_and!; [..|exists c]|].
  split_and!; [done|done|]. by exists c.
Qed.

#[export] Instance finalized_preorder id : PreOrder (finalized id).
Proof. unfold finalized. split; apply _. Qed.

Lemma writes_finalize id content : writes (H := trueup) [TChatMessage] (finalize_content id content).
Proof. unfold finalize_content. writes_auto. Qed.

Lemma run_finalize id content (d d' : db) u :
  run (finalize_content id content) d = Ok (u, d') → finalized id (chat_messages d) (chat_messages d').
Proof.
  unfold finalize_content. intros Hr. apply run_bind_Ok in Hr as (l & d1 & [<- <-]%run_gets_Ok & Hr).
  destruct (filter _ (chat_messages d)) as [|m [|? ?]] eqn:E; [done| |done].
  destruct (String.eqb content (message_content m)); [by apply run_ret_Ok in Hr as [_ <-]|].
  apply run_update_Ok in Hr as (_ & Hm & _ & _ & ->).
  assert (chat_messages (set_table (H := trueup) TChatMessage
    (update_table (H := trueup) TChatMessage (λ x : ChatMessage, message_id x =? id) (set_content content) d) d) =
    (λ x : ChatMessage, if message_id x =? id then set_content content x else x) <$> chat_messages d) as ->
    by exact (tables_set_same (H := trueup) TChatMessage _ d).
  apply Forall2_fmap_r, Forall_Forall2_diag, Forall_forall. intros x Hx.
  unfold may_update in Hm. rewrite forallb_forall in Hm. specialize (Hm x (proj1 (list_elem_of_In _ _) Hx)).
  unfold compose. cbv beta in Hm |- *. destruct (Z.eqb_spec (message_id x) id) as [He|]; [|by left]. right. split_and!; [done| |by exists content].
  cbn in Hm. rewrite <- andb_assoc in Hm. apply andb_true_iff in Hm as [Hm _]. by apply String.eqb_eq in Hm.
Qed.

Lemma writes_tool_call message tool sql outcome latency :
  writes (H := trueup) [TChatToolCall] (record_tool_call message tool sql outcome latency).
Proof. unfold record_tool_call. writes_auto. Qed.

(** What a [next] may change. *)
Record stream_frame (id : uuid) (d d' : db) : Prop := {
  frame_integrity : integrity d';
  frame_tables : ∀ t, t ∉ [TChatMessage; TChatToolCall] → tables (H := trueup) d' t = tables d t;
  frame_messages : finalized id (chat_messages d) (chat_messages d');
}.

Lemma stream_frame_refl id d : integrity d → stream_frame id d d.
Proof. by constructor. Qed.

Lemma stream_frame_trans id d1 d2 d3 : stream_frame id d1 d2 → stream_frame id d2 d3 → stream_frame id d1 d3.
Proof.
  intros [_ H1 H2] [H3 H4 H5]. constructor; [done| |by etrans].
  intros t Ht. etrans; [by apply H4|by apply H1].
Qed.

Section StreamLemmas.
Context `{Sqlglot, ChatDatabase} (x : ReadOnlySqlExecutor).

Lemma on_event_frame begun ev d :
  integrity d → stream_frame (begun_message_id begun) d (transact no_deferred (on_event begun ev) d).2.
Proof.
  intros Hd. constructor.
  - by apply transact_integrity.
  - intros t Ht. apply (transact_frame (H := trueup) _ [TChatMessage]); [|set_solver].
    destruct ev; cbn; [apply writes_ret|apply writes_finalize|apply writes_finalize].
  - unfold transact. destruct (run _ d) as [[[] d']|e] eqn:E; [|done]. cbn [no_deferred snd].
    destruct ev; cbn [on_event] in E; [by apply run_ret_Ok in E as [_ <-]|exact (run_finalize _ _ _ _ _ E)..].
Qed.

Lemma tool_call_frame id message tool sql outcome latency d :
  integrity d → stream_frame id d (transact no_deferred (record_tool_call message tool sql outcome latency) d).2.
Proof.
  intros Hd. assert (∀ t, t ∉ [TChatToolCall] →
    tables (H := trueup) (transact no_deferred (record_tool_call message tool sql outcome latency) d).2 t = tables d t) as Hf
    by (intros t Ht; by apply (transact_frame (H := trueup) _ [TChatToolCall]); [apply writes_tool_call|]).
  constructor; [by apply transact_integrity|intros t Ht; apply Hf; set_solver|].
  unfold chat_messages. by rewrite (Hf TChatMessage) by set_solver.
Qed.

Lemma next_event_frame begun a d :
  integrity d → stream_frame (begun_message_id begun) d (next_event x begun a d).2.
Proof.
  revert d. induction a as [|e|ev k IH|k IH|sql k IH|tool sql outcome latency k IH]; intros d Hd; cbn [next_event].
  - by apply stream_frame_refl.
  - by apply stream_frame_refl.
  - pose proof (on_event_frame begun ev d Hd) as Hf.
    by destruct (transact no_deferred (on_event begun ev) d) as [[[]|e] d'].
  - by apply IH.
  - by apply IH.
  - pose proof (tool_call_frame (begun_message_id begun) (begun_message_id begun) tool sql outcome latency d Hd) as Hf.
    destruct (transact no_deferred (record_tool_call _ _ _ _ _) d) as [done d']. cbn [snd] in Hf.
    eapply stream_frame_trans; [exact Hf|]. apply IH. by destruct Hf.
Qed.

Lemma consume_frame begun a pulls d :
  integrity d → ∃ d1, stream_frame (begun_message_id begun) d d1 ∧ (consume x begun a pulls d).2 = release_lock begun d1.
Proof.
  revert a d. induction pulls as [|pulls IH]; intros a d Hd; cbn [consume].
  - exists d. split; [by apply stream_frame_refl|done].
  - pose proof (next_event_frame begun a d Hd) as Hf.
    destruct (next_event x begun a d) as [[ev k| |e] d'] eqn:E; cbn [snd] in Hf; [|by exists d'|by exists d'].
    destruct (IH k d') as (d1 & Hf1 & Hr); [by destruct Hf|]. destruct (consume x begun k pulls d') as [[evs e] d'']. cbn [snd] in Hr |- *.
    exists d1. split; [by eapply stream_frame_trans|done].
Qed.

(** However the agent behaves and wherever the reader stops, once a stream
    has started it ends with the session idle again, every other session and
    every earlier message as they were, and the assistant's message written at
    most once. *)
Theorem stream_releases_session begun a pulls d :
  integrity d → (0 < pulls)%nat →
  let d' := (stream_turn x begun a pulls d).2 in
  ¬ streaming d' (begun_session_id begun) ∧
  (∀ id, id ≠ begun_session_id begun → streaming d' id ↔ streaming d id) ∧
  finalized (begun_message_id begun) (chat_messages d) (chat_messages d') ∧
  (∀ t, t ∉ [TChatSession; TChatMessage; TChatToolCall] → tables (H := trueup) d' t = tables d t).
Proof.
  intros Hd Hp. destruct pulls as [|pulls]; [lia|]. unfold stream_turn. cbv zeta.
  destruct (consume_frame begun a (S pulls) d Hd) as (d1 & [Hi1 Ht1 Hm1] & ->).
  destruct (release_lock_sessions begun d1 Hi1) as (_ & Ht & _). split_and!.
  - by apply released_idle.
  - intros id Hne. rewrite released_others by done. unfold streaming, chat_sessions. by rewrite (Ht1 TChatSession) by set_solver.
  - unfold chat_messages. by rewrite (Ht TChatMessage) by done.
  - intros t Hn. rewrite Ht by set_solver. apply Ht1. set_solver.
Qed.
End StreamLemmas.

(** ** One turn per session *)

Section Desk.
Context `{Sqlglot, ChatDatabase} (x : ReadOnlySqlExecutor).

(** A turn in flight: its generator, and whether it has been started. *)
Record turn := Turn { turn_begun : BegunTurn; turn_agent : agent; turn_started : bool }.

Definition turn_session (t : turn) : uuid := begun_session_id (turn_begun t).

(** The store, and the turns the servers are streaming. *)
Record desk := Desk { desk_store : db; desk_turns : list turn }.

Inductive desk_step : desk → desk → Prop :=
  | step_begin_turn cap now session customer text a begun d d' ts :
      transact no_deferred (begin_turn cap now session customer text) d = (Ok begun, d') →
      desk_step (Desk d ts) (Desk d' (Turn begun a false :: ts))
  | step_next begun a st ev k d d' l r :
      next_event x begun a d = (Pulled ev k, d') →
      desk_step (Desk d (l ++ Turn begun a st :: r)) (Desk d' (l ++ Turn begun k true :: r))
  | step_end begun a st p d d' l r :
      next_event x begun a d = (p, d') → p = Ended ∨ (∃ e, p = Raised e) →
      desk_step (Desk d (l ++ Turn begun a st :: r)) (Desk (release_lock begun d') (l ++ r))
  | step_close begun a d l r :
      desk_step (Desk d (l ++ Turn begun a true :: r)) (Desk (release_lock begun d) (l ++ r))
  | step_drop begun a d l r :
      desk_step (Desk d (l ++ Turn begun a false :: r)) (Desk d (l ++ r))
  | step_create r d ts :
      desk_step (Desk d ts) (Desk (transact no_deferred (create_session r) d).2 ts)
  | step_elsewhere {A} c tabs (m : prog A) d ts :
      writes (H := trueup) tabs m → TChatSession ∉ tabs → desk_step (Desk d ts) (Desk (transact c m d).2 ts).

(** Every turn in flight holds its session, and no two hold the same. *)
Record desk_ok (k : desk) : Prop := {
  desk_integrity : integrity (desk_store k);
  desk_distinct : NoDup (turn_session <$> desk_turns k);
  desk_holds : ∀ t, t ∈ desk_turns k → streaming (desk_store k) (turn_session t);
}.

Lemma streaming_frame (d d' : db) id :
  tables (H := trueup) d' TChatSession = tables d TChatSession → streaming d' id ↔ streaming d id.
Proof. unfold streaming, chat_sessions. by intros ->. Qed.

Lemma create_session_keeps r (d : db) id : streaming d id → streaming (transact no_deferred (create_session r) d).2 id.
Proof.
  unfold transact. destruct (run (create_session r) d) as [[a d']|e] eqn:E; [|done]. cbn [no_deferred snd].
  unfold create_session in E. apply run_bind_Ok in E as (customer & d0 & [_ <-]%run_lift_Ok & E).
  apply run_bind_Ok in E as (i & d1 & [-> ->]%run_uuid4_Ok & E).
  apply run_bind_Ok in E as (now & d1 & [<- <-]%run_gets_Ok & E).
  apply run_bind_Ok in E as ([] & d1 & [_ ->]%run_add_Ok & [_ <-]%run_ret_Ok).
  intros (s & Hs & Hst). exists s. split; [|done]. 
  match goal with |- s ∈ chat_sessions (insert_row _ ?r ?d) =>
    assert (chat_sessions (insert_row (H := trueup) TChatSession r d) = chat_sessions d ++ [r]) as ->
      by exact (tables_set_same (H := trueup) TChatSession _ d) end.
  apply elem_of_app. by left.
Qed.

(** Dropping a turn, its session released or not. *)
Lemma desk_ok_without begun a st l r d d' :
  desk_ok (Desk d (l ++ Turn begun a st :: r)) → integrity d' →
  (∀ id, id ≠ begun_session_id begun → streaming d id → streaming d' id) → desk_ok (Desk d' (l ++ r)).
Proof.
  intros [_ Hnd Hs] Hd' Hst. cbn [desk_store desk_turns] in *. rewrite fmap_app, fmap_cons, NoDup_app, NoDup_cons in Hnd.
  destruct Hnd as (Hl & Hlr & Hr & Hndr). constructor; cbn [desk_store desk_turns]; [done| |].
  - rewrite fmap_app, NoDup_app. split_and!; [done| |done]. intros y Hy Hy'. apply (Hlr y Hy). by right.
  - intros t Ht. apply Hst; [|apply Hs; set_solver]. intros He. apply elem_of_app in Ht as [Ht|Ht].
    + apply (Hlr (turn_session t)); [by apply list_elem_of_fmap; exists t|]. apply elem_of_cons. left. exact He.
    + apply Hr. apply list_elem_of_fmap. exists t. split; [exact (eq_sym He)|done].
Qed.

Lemma desk_step_ok k k' : desk_ok k → desk_step k k' → desk_ok k'.
Proof.
  intros Hok Hstep. pose proof (desk_integrity _ Hok) as Hd.
  destruct Hstep as [cap now session customer text a begun d d' ts E|begun a st ev k d d' l r E|begun a st p d d' l r E Hp
                    |begun a d l r|begun a d l r|r d ts|A c tabs m d ts Hm Ht]; cbn [desk_store desk_turns] in Hd.
  - assert (run (begin_turn cap now session customer text) d = Ok (begun, d')) as Hr.
    { unfold transact in E. destruct (run _ d) as [[b d1]|e]; [|done]. by injection E as -> ->. }
    pose proof (run_integrity _ _ _ _ Hd Hr) as Hd'. apply begin_turn_Ok in Hr; [|done].
    destruct Hok as [_ Hnd Hs]. cbn [desk_store desk_turns] in *.
    assert (turn_session (Turn begun a false) = session) as He by apply (began_session _ _ _ _ _ _ _ _ Hr).
    constructor; cbn [desk_store desk_turns]; [done| |].
    + rewrite fmap_cons, NoDup_cons. split; [|done]. rewrite He. intros (t & Hts & Ht)%list_elem_of_fmap.
      apply Hs in Ht as (s & Hin & Hid & Hst). destruct (began_idle _ _ _ _ _ _ _ _ Hr) as (s' & Hin' & Hid' & Hst').
      assert (s' = s) as -> by (apply (session_unique d); [done..|congruence]). congruence.
    + intros t [->|Ht]%elem_of_cons; [rewrite He; by eapply began_streaming|].
      eapply began_others; [exact Hr|by apply Hs].
  - pose proof (next_event_frame x begun a d Hd) as Hf. rewrite E in Hf. cbn [snd] in Hf. destruct Hf as [Hd' Ht _].
    destruct Hok as [_ Hnd Hs]. constructor; cbn [desk_store desk_turns] in *; [done| |].
    + rewrite fmap_app, fmap_cons in Hnd |- *. exact Hnd.
    + intros t Hin. apply (streaming_frame d); [apply Ht; set_solver|].
      apply elem_of_app in Hin as [Hin|[->|Hin]%elem_of_cons]; [apply Hs; set_solver| |apply Hs; set_solver].
      apply (Hs (Turn begun a st)). set_solver.
  - pose proof (next_event_frame x begun a d Hd) as Hf. rewrite E in Hf. cbn [snd] in Hf. destruct Hf as [Hd' Ht _].
    eapply desk_ok_without; [exact Hok|by apply (release_lock_sessions begun d')|].
    intros id Hne Hst. apply released_others; [done..|]. apply (streaming_frame d); [apply Ht; set_solver|done].
  - eapply desk_ok_without; [exact Hok|by apply (release_lock_sessions begun d)|].
    intros id Hne Hst. by apply released_others.
  - by eapply desk_ok_without.
  - destruct Hok as [_ Hnd Hs]. constructor; cbn [desk_store desk_turns] in *; [by apply transact_integrity|done|].
    intros t Ht. apply create_session_keeps. by apply Hs.
  - destruct Hok as [_ Hnd Hs]. constructor; cbn [desk_store desk_turns] in *; [by apply transact_integrity|done|].
    intros t Hin. apply (streaming_frame d); [|by apply Hs]. by apply (transact_frame (H := trueup) c tabs).
Qed.

(** A session that streams without a turn stays so. *)
Lemma blocked_step k k' id :
  desk_ok k → desk_step k k' → streaming (desk_store k) id → id ∉ (turn_session <$> desk_turns k) →
  streaming (desk_store k') id ∧ id ∉ (turn_session <$> desk_turns k').
Proof.
  intros Hok Hstep. pose proof (desk_integrity _ Hok) as Hd.
  destruct Hstep as [cap now session customer text a begun d d' ts E|begun a st ev k d d' l r E|begun a st p d d' l r E Hp
                    |begun a d l r|begun a d l r|r d ts|A c tabs m d ts Hm Ht]; cbn [desk_store desk_turns] in *;
    rewrite ?fmap_app, ?fmap_cons, ?not_elem_of_app, ?not_elem_of_cons; intros Hst Hni.
  - assert (run (begin_turn cap now session customer text) d = Ok (begun, d')) as Hr.
    { unfold transact in E. destruct (run _ d) as [[b d1]|e]; [|done]. by injection E as -> ->. }
    apply begin_turn_Ok in Hr; [|done]. split; [by eapply began_others|]. split; [|done].
    intros ->. destruct (began_idle _ _ _ _ _ _ _ _ Hr) as (s' & Hin' & Hid' & Hst'). destruct Hst as (s & Hin & Hid & Hst).
    unfold turn_session in Hid. cbn [turn_begun] in Hid. rewrite (began_session _ _ _ _ _ _ _ _ Hr) in Hid.
    assert (s' = s) as -> by (apply (session_unique d); [done..|congruence]). congruence.
  - pose proof (next_event_frame x begun a d Hd) as Hf. rewrite E in Hf. destruct Hf as [Hd' Ht _]. cbn [snd] in Ht.
    split; [|exact Hni]. apply (streaming_frame d); [apply Ht; set_solver|done].
  - pose proof (next_event_frame x begun a d Hd) as Hf. rewrite E in Hf. destruct Hf as [Hd' Ht _]. cbn [snd] in Ht, Hd'.
    split; [|tauto]. apply released_others; [done|apply Hni|]. apply (streaming_frame d); [apply Ht; set_solver|done].
  - split; [|tauto]. apply released_others; [done|apply Hni|done].
  - tauto.
  - split; [|done]. by apply create_session_keeps.
  - split; [|done]. apply (streaming_frame d); [|done]. by apply (transact_frame (H := trueup) c tabs).
Qed.

(** C39. Whatever the interleaving of turns beginning, streaming, ending, being
    closed or dropped with everything else, no two turns of one session are in
    flight; and while one is, beginning another is refused and changes nothing. *)
Theorem one_turn_per_session k k' :
  desk_ok k → rtc desk_step k k' →
  NoDup (turn_session <$> desk_turns k') ∧
  ∀ t cap now customer text, t ∈ desk_turns k' →
    (transact no_deferred (begin_turn cap now (turn_session t) customer text) (desk_store k')).2 = desk_store k' ∧
    ((transact no_deferred (begin_turn cap now (turn_session t) customer text) (desk_store k')).1 = Raise TurnAlreadyInProgressError ∨
     (transact no_deferred (begin_turn cap now (turn_session t) customer text) (desk_store k')).1 = Raise DailyQueryCapExceededError).
Proof.
  intros Hok Hs. assert (desk_ok k') as [Hd Hnd Hh].
  { induction Hs as [k|k k1 k2 H1 _ IH]; [done|]. apply IH. by eapply desk_step_ok. }
  split; [done|]. intros t cap now customer text Ht. unfold transact.
  destruct (begin_turn_refused cap now _ customer text _ Hd (Hh t Ht)) as [-> | ->]; (split; [done|]); [by right|by left].
Qed.

(** Nothing gives back the lock of a turn whose generator was never started
    (the client gone before the first event, or the server stopped): whatever
    happens afterwards, the session refuses every turn. *)
Theorem dropped_turn_blocks_session begun a l r d k' :
  desk_ok (Desk d (l ++ Turn begun a false :: r)) → rtc desk_step (Desk d (l ++ r)) k' →
  ∀ cap now customer text, ∃ e,
    transact no_deferred (begin_turn cap now (begun_session_id begun) customer text) (desk_store k') = (Raise e, desk_store k').
Proof.
  intros Hok Hs cap now customer text.
  assert (desk_ok (Desk d (l ++ r)) ∧ streaming d (begun_session_id begun) ∧
          begun_session_id begun ∉ (turn_session <$> (l ++ r))) as (Hok' & Hst & Hni).
  { split; [eapply desk_step_ok; [exact Hok|apply step_drop]|]. destruct Hok as [_ Hnd Hh]. cbn [desk_turns desk_store] in *. split.
    - apply (Hh (Turn begun a false)). set_solver.
    - rewrite fmap_app, fmap_cons, NoDup_app, NoDup_cons in Hnd. destruct Hnd as (_ & Hlr & Hr & _).
      rewrite fmap_app. intros [Hl|Hl]%elem_of_app; [|by apply Hr]. by apply (Hlr _ Hl); left. }
  assert (desk_ok k' ∧ streaming (desk_store k') (begun_session_id begun) ∧
          begun_session_id begun ∉ (turn_session <$> desk_turns k')) as (Hok2 & Hst2 & _).
  { clear Hok. change (streaming (desk_store (Desk d (l ++ r))) (begun_session_id begun)) in Hst.
    change (begun_session_id begun ∉ (turn_session <$> desk_turns (Desk d (l ++ r)))) in Hni.
    revert Hok' Hst Hni. generalize (begun_session_id begun) as id. intros id.
    induction Hs as [k|k k1 k2 H1 _ IH]; [done|]. intros Hok Hst Hni.
    pose proof (desk_step_ok _ _ Hok H1) as Hok1. enough (streaming (desk_store k1) id ∧ id ∉ (turn_session <$> desk_turns k1)) as [? ?] by by apply IH.
    clear IH. by apply (blocked_step k). }
  unfold transact. destruct (begin_turn_refused cap now _ customer text _ (desk_integrity _ Hok2) Hst2) as [-> | ->]; by eexists.
Qed.
End Desk.

(** ** A turn from question to answer *)

Section Answer.
Context `{Sqlglot, ChatDatabase} (x : ReadOnlySqlExecutor).

Lemma run_finalize_fresh id content l a d :
  integrity d → chat_messages d = l ++ [a] → message_id a = id → message_content a = "" → content ≠ ""%string →
  run (finalize_content id content) d =
    Ok (tt, set_table (H := trueup) TChatMessage (l ++ [set_content content a]) d).
Proof.
  intros Hd Hl Hid He Hc.
  assert (filter (λ m, message_id m = id) (chat_messages d) = [a]) as Hf.
  { rewrite <- Hid. refine (filter_unique (H := trueup) TChatMessage message_id d a _ Hd _).
    - intros m1 m2 Hm. by apply Z.eqb_eq.
    - change (a ∈ chat_messages d). rewrite Hl. apply elem_of_app. right. by left. }
  unfold finalize_content. rewrite run_bind. cbn [gets run]. rewrite Hf, He.
  rewrite (proj2 (String.eqb_neq _ _) Hc).
  assert (update_table (H := trueup) TChatMessage (λ m : ChatMessage, message_id m =? id) (set_content content) d =
          l ++ [set_content content a]) as Hu.
  { rewrite <- Hid. refine (proj1 (update_one_split (H := trueup) TChatMessage message_id (set_content content) d l a [] _ Hd Hl)).
    intros m1 m2 Hm. by apply Z.eqb_eq. }
  apply run_update_Ok. rewrite Hu. split_and!; [done| | | |done].
  - apply forallb_forall. intros m Hm%list_elem_of_In. destruct (Z.eqb_spec (message_id m) id) as [Hmi|]; [|done].
    assert (m ∈ filter (λ m, message_id m = id) (chat_messages d)) as Hin by by apply list_elem_of_filter.
    rewrite Hf in Hin. apply list_elem_of_singleton in Hin as ->. cbn. rewrite He, Z.eqb_refl. by rewrite bool_decide_eq_true_2.
  - by apply forallb_forall.
  - apply (conflict_free_key (H := trueup) TChatMessage message_id); [done|].
    assert (NoDup (message_id <$> chat_messages d)) as Hn
      by (destruct (Hd TChatMessage) as [_ Hcf]; by apply (conflict_free_key (H := trueup) TChatMessage message_id) in Hcf).
    rewrite Hl, fmap_app in Hn. rewrite fmap_app. exact Hn.
Qed.

Lemma consume_words begun final summaries ws n d d' :
  transact no_deferred (finalize_content (begun_message_id begun) final) d = (Ok (), d') →
  consume x begun (foldr (λ word, AgentYields (ChatTokenEvent (word +:+ " ")))
                         (AgentYields (ChatCompletedEvent final summaries) AgentEnds) ws) (length ws + S (S n)) d =
    (((λ w, ChatTokenEvent (w +:+ " ")) <$> ws) ++ [ChatCompletedEvent final summaries], None, release_lock begun d').
Proof.
  intros Hf. induction ws as [|w ws IH]; cbn [foldr length Nat.add consume next_event on_event fmap list_fmap app].
  - by rewrite Hf.
  - change (transact no_deferred (mret ()) d) with (@Ok () tt, d). cbv iota beta. by rewrite IH.
Qed.

(** C40. A turn the scripted agent answers in words: the reader gets the words
    and the completed text, the two messages of the turn stand at the end of the
    transcript with the question and the whole answer, and the session is idle
    again. *)
Theorem turn_is_answered cap now session customer text max latency final n d begun d1 :
  integrity d → transact no_deferred (begin_turn cap now session customer text) d = (Ok begun, d1) →
  0 <= max → final ≠ ""%string →
  ∃ u a d2,
    stream_turn x begun (fake_agent max latency [] final) (length (split_words final) + S (S n)) d1 =
      (((λ w, ChatTokenEvent (w +:+ " ")) <$> split_words final) ++ [ChatCompletedEvent final []], None, d2) ∧
    ¬ streaming d2 session ∧
    chat_messages d2 = chat_messages d ++ [u; a] ∧
    message_role u = USER ∧ message_content u = text ∧ message_session_id u = session ∧
    message_role a = ASSISTANT ∧ message_content a = final ∧ message_session_id a = session.
Proof.
  intros Hd Hb Hmax Hfinal. assert (run (begin_turn cap now session customer text) d = Ok (begun, d1)) as Hr.
  { unfold transact in Hb. destruct (run _ d) as [[b d0]|e]; [|done]. by injection Hb as -> ->. }
  pose proof (run_integrity _ _ _ _ Hd Hr) as Hd1. apply begin_turn_Ok in Hr; [|done].
  destruct Hr as [Hsess _ _ _ _ _ (u & a & Hm & Hus & Hur & Huc & Has & Har & Hac & Haid & _)].
  change [u; a] with ([u] ++ [a]) in Hm. rewrite app_assoc in Hm.
  pose proof (run_finalize_fresh _ final _ _ _ Hd1 Hm Haid Hac Hfinal) as Hf.
  set (d' := set_table (H := trueup) TChatMessage _ d1) in Hf.
  pose proof (run_integrity _ _ _ _ Hd1 Hf) as Hd'.
  exists u, (set_content final a), (release_lock begun d'). split_and!; [|rewrite <- Hsess; by apply released_idle| |done..].
  - unfold fake_agent. cbn [length]. rewrite (proj2 (Z.ltb_ge _ _)) by exact Hmax. cbn [fake_tools]. unfold fake_words, stream_turn.
    destruct (length (split_words final) + S (S n))%nat eqn:E; [lia|]. rewrite <- E.
    apply consume_words. unfold transact. by rewrite Hf.
  - unfold chat_messages. destruct (release_lock_sessions begun d' Hd') as (_ & Ht & _). rewrite (Ht TChatMessage) by done.
    transitivity ((chat_messages d ++ [u]) ++ [set_content final a]); [exact (tables_set_same (H := trueup) TChatMessage _ d1)|].
    by rewrite <- app_assoc.
Qed.
End Answer.

(** ** A customer's first question *)

Definition sample_parse : Sqlglot := λ _, None.
Definition sample_chat_database : ChatDatabase :=
  {| catalogue := λ _ _, []; run_statement := λ _ _ _, SqlRows [] |}.
Definition sample_executor : ReadOnlySqlExecutor := {| statement_timeout_ms := 5000; row_cap := 200 |}.

Definition sample_chat : db :=
  set_table (H := trueup) TChatSession
    [{| chat_id := 2; chat_customer_id := 1; chat_status := IDLE; chat_created_at := 0 |}]
    (set_table (H := trueup) TCustomer [new_customer 1 "ada@example.com" "" 0] (empty_db 0)).

Definition sample_begun : BegunTurn :=
  {| begun_session_id := 2; begun_customer_id := 1; begun_message_id := 2; begun_history := [] |}.

Definition sample_question : BegunTurn * db :=
  run_or (begin_turn 20 0 2 1 "What is my balance?") sample_chat sample_begun.

Lemma sample_chat_integrity : integrity sample_chat.
Proof. apply integrity_check; intros []; vm_compute; reflexivity. Qed.

Lemma sample_question_begun :
  sample_question.1 = sample_begun ∧
  transact no_deferred (begin_turn 20 0 2 1 "What is my balance?") sample_chat = (Ok sample_begun, sample_question.2).
Proof.
  assert (Hr : run (begin_turn 20 0 2 1 "What is my balance?") sample_chat = Ok sample_question)
    by (apply run_or_Ok; vm_compute; reflexivity).
  assert (Hb : sample_question.1 = sample_begun) by (vm_compute; reflexivity).
  revert Hr Hb. generalize sample_question. intros [b d]. cbn [fst snd]. intros Hr ->.
  split; [done|]. unfold transact. by rewrite Hr.
Qed.

Lemma one_turn_per_session_witness :
  (transact no_deferred (begin_turn 20 0 2 1 "And my holdings?") sample_question.2).2 = sample_question.2 ∧
  is_ok (transact no_deferred (begin_turn 20 0 2 1 "And my holdings?") sample_question.2).1 = false.
Proof.
  destruct sample_question_begun as [_ Hq]. revert Hq. generalize sample_question.2. intros d Hq.
  pose (t := Turn sample_begun (fake_agent 3 0 [] "Ten dollars.") false).
  destruct (@one_turn_per_session sample_parse sample_chat_database sample_executor
              (Desk sample_chat []) (Desk d [t])) as [H1 H2].
  - split; [exact sample_chat_integrity|apply NoDup_nil_2|]. intros ? []%elem_of_nil.
  - apply rtc_once. eapply step_begin_turn. exact Hq.
  - destruct (H2 t 20 0 1 "And my holdings?"%string (list_elem_of_here _ _)) as [H3 [H4|H4]];
      (split; [exact H3|]); change (turn_session t) with 2 in H4; cbn [desk_store] in H4; rewrite H4; reflexivity.
Defined.

Lemma turn_is_answered_witness :
  ∃ u a d2,
    stream_turn (H := sample_parse) (H0 := sample_chat_database) sample_executor sample_begun
      (fake_agent 3 0 [] "Ten dollars.") 4 sample_question.2 =
      ([ChatTokenEvent "Ten "; ChatTokenEvent "dollars. "; ChatCompletedEvent "Ten dollars." []], None, d2) ∧
    ¬ streaming d2 2 ∧ chat_messages d2 = [u; a] ∧
    message_role u = USER ∧ message_content u = "What is my balance?"%string ∧ message_session_id u = 2 ∧
    message_role a = ASSISTANT ∧ message_content a = "Ten dollars."%string ∧ message_session_id a = 2.
Proof.
  destruct sample_question_begun as [_ Hq]. revert Hq. generalize sample_question.2. intros d Hq.
  apply (@turn_is_answered sample_parse sample_chat_database sample_executor 20 0 2 1 "What is my balance?" 3 0
           "Ten dollars." 0 sample_chat sample_begun d sample_chat_integrity Hq); [lia|discriminate].
Defined.
